(** * MXFLib index tables, index manager and KLV filler arithmetic

    A shallow embedding of the parts of [mxflib/index.cpp], [mxflib/essence.h]
    and [esp_mpeg2ves.cpp] that decide the properties stated about them:

    - [SystemSource::CalcFillerSize]                       (essence.h)
    - [IndexTable::GetSegment], [AddSegment], [Lookup], [Update] (index.cpp)
    - [IndexSegment::AddIndexEntry], [IndexSegment::Update]       (index.cpp)
    - [IndexManager] and its per-edit-unit observations           (index.cpp)
    - [MPEG2_VES_EssenceSubParser::GetCurrentPosition]     (esp_mpeg2ves.cpp)

    Fixed-width C++ integers are integers of [Z] with the wrap-around of
    each conversion written out; byte buffers are lists of 8-bit values;
    [std::map] keyed by edit unit is a finite map ([gmap]) where only
    [find], [insert] and [erase] are used, and a key-ordered association
    list where the code walks iterators ([lower_bound], [begin], [it--]). *)

From Stdlib Require Import Sorting.Sorted.
From stdpp Require Import base numbers option list gmap.

Local Open Scope Z_scope.

(** ** Fixed-width integers *)

(** Conversion to an unsigned integer of [w] bits. *)
Definition wrap_unsigned (w : Z) (z : Z) : Z := z mod 2 ^ w.

(** Conversion to a signed (two's complement) integer of [w] bits. *)
Definition wrap_signed (w : Z) (z : Z) : Z :=
  (z + 2 ^ (w - 1)) mod 2 ^ w - 2 ^ (w - 1).

Definition UInt8 (z : Z) : Z := wrap_unsigned 8 z.
Definition UInt32 (z : Z) : Z := wrap_unsigned 32 z.
Definition UInt64 (z : Z) : Z := wrap_unsigned 64 z.
Definition Int8 (z : Z) : Z := wrap_signed 8 z.
Definition Int32 (z : Z) : Z := wrap_signed 32 z.
Definition Int64 (z : Z) : Z := wrap_signed 64 z.

(** [Position] and [Length] are [Int64] in mxflib. *)
Abbreviation Position := Z (only parsing).

Definition is_UInt8 (z : Z) : Prop := 0 <= z < 2 ^ 8.
Definition is_UInt32 (z : Z) : Prop := 0 <= z < 2 ^ 32.
Definition is_UInt64 (z : Z) : Prop := 0 <= z < 2 ^ 64.
Definition is_Int8 (z : Z) : Prop := - 2 ^ 7 <= z < 2 ^ 7.
Definition is_Int32 (z : Z) : Prop := - 2 ^ 31 <= z < 2 ^ 31.
Definition is_Int64 (z : Z) : Prop := - 2 ^ 63 <= z < 2 ^ 63.

(** ** Diagnostics

    [error(...)] writes a message and returns; the calls that matter are
    recorded as values so that "reports an error" can be stated. *)
Inductive Diagnostic : Type :=
  | FillerTooLarge (FillPos KAGSize Fill : Z)
  | CBRSliceInDeltaArray (Slice : Z)
  | EmptyIndexSegment
  | NSLMismatch (TableNSL SliceCount : Z)
  | NPEMismatch (TableNPE PosCount : Z)
  | AddSubStreamAfterFormatFixed
  | UnknownEditUnit
  | FlushNotImplemented.

(** ** SystemSource::CalcFillerSize (essence.h) *)

(** [while(Fill < Min) Fill += KAGSize;] on a [UInt32] accumulator.  The
    loop is run on [fuel]; [None] means the fuel ran out first. *)
Fixpoint fill_while (fuel : nat) (Min KAGSize Fill : Z) : option Z :=
  if Fill <? Min then
    match fuel with
    | O => None
    | S fuel' => fill_while fuel' Min KAGSize (UInt32 (Fill + KAGSize))
    end
  else Some Fill.

Definition CalcFillerSize (fuel : nat) (FillPos : Position) (KAGSize : Z)
    (ForceBER4 : bool) : option (Z * list Diagnostic) :=
  let KAGSize := if KAGSize =? 0 then 1 else KAGSize in
  (* Work out how far into a KAG we are *)
  let Offset := UInt32 (Z.rem FillPos KAGSize) in
  (* Don't insert anything if we are already aligned *)
  if Offset =? 0 then Some (0, [])
  else
    (* Work out the required filler size *)
    let Fill := UInt32 (KAGSize - Offset) in
    (* Adjust so that the filler can fit *)
    match fill_while fuel (if ForceBER4 then 20 else 17) KAGSize Fill with
    | None => None
    | Some Fill =>
        if 16777215 <? Fill
        then Some (16777215, [FillerTooLarge FillPos KAGSize Fill])
        else Some (Fill, [])
    end.

(** The smallest KLV that can act as a filler: a 16-byte key and a
    one-byte BER length, or a four-byte one when forced. *)
Definition MinFiller (ForceBER4 : bool) : Z := if ForceBER4 then 20 else 17.

(** A filler of [S] bytes from [P] is admissible: the position after it
    lies on the KAG and the filler KLV fits. *)
Definition FillsToKAG (P K : Z) (ForceBER4 : bool) (S : Z) : Prop :=
  MinFiller ForceBER4 <= S /\ (P + S) mod K = 0.

(** ** Byte buffers and the endian helpers

    A [DataChunk] is a sized byte buffer; its [Data] is a list of 8-bit
    values.  A [UInt8*] into it is an offset.  C++ gives no meaning to an
    access outside the buffer; here a read outside yields 0 and a write
    outside is dropped, and the statements below that depend on an
    access assume it in range. *)
Definition byte_at (d : list Z) (p : Z) : Z :=
  if p <? 0 then 0 else default 0 (d !! Z.to_nat p).

Definition poke (d : list Z) (p : Z) (b : Z) : list Z :=
  if p <? 0 then d else <[Z.to_nat p := b]> d.

Fixpoint write_bytes (d : list Z) (p : Z) (bs : list Z) : list Z :=
  match bs with
  | [] => d
  | b :: bs' => write_bytes (poke d p b) (p + 1) bs'
  end.

Definition read_bytes (d : list Z) (p : Z) (n : nat) : list Z :=
  map (fun i => byte_at d (p + Z.of_nat i)) (seq 0 n).

(** Big-endian value of a byte string, and the [n] low-order bytes of a
    value, most significant first. *)
Definition be_decode (bs : list Z) : Z :=
  fold_left (fun acc b => acc * 256 + b) bs 0.

Fixpoint be_encode (n : nat) (v : Z) : list Z :=
  match n with
  | O => []
  | S n' => be_encode n' (v / 256) ++ [v mod 256]
  end.

(** Modelled from the spec: endian.h is not part of the sources; the
    index segment layout stores every multi-byte field big-endian
    ("StreamOffset (u64 BE)", "NSL u32 slice offsets", "(i32, i32)"). *)
Definition GetU8 (d : list Z) (p : Z) : Z := byte_at d p.
Definition GetI8 (d : list Z) (p : Z) : Z := Int8 (byte_at d p).
Definition GetU32 (d : list Z) (p : Z) : Z := be_decode (read_bytes d p 4).
Definition GetI32 (d : list Z) (p : Z) : Z := Int32 (GetU32 d p).
Definition GetU64 (d : list Z) (p : Z) : Z := be_decode (read_bytes d p 8).
Definition GetI64 (d : list Z) (p : Z) : Z := Int64 (GetU64 d p).
Definition PutU32 (x : Z) (d : list Z) (p : Z) : list Z :=
  write_bytes d p (be_encode 4 x).
Definition PutI32 (x : Z) (d : list Z) (p : Z) : list Z :=
  write_bytes d p (be_encode 4 x).
Definition PutU64 (x : Z) (d : list Z) (p : Z) : list Z :=
  write_bytes d p (be_encode 8 x).

(** Modelled from the spec: [DataChunk::Set(MemSize, Buffer, Start)] is
    in datachunk.h, which is not part of the sources.  It copies
    [MemSize] bytes to offset [Start], growing the chunk when it is too
    small, so that a [Set] at [Start = Size] appends ("the byte length of
    IndexEntryArray equals EntryCount * (11 + 4*NSL + 8*NPE)"). *)
Definition DataChunk_Set (MemSize : nat) (Buffer : list Z) (Start : nat)
    (d : list Z) : list Z :=
  take Start (d ++ replicate (Start - length d) 0)
  ++ take MemSize Buffer
  ++ drop (Start + MemSize) d.

(** ** std::map keyed by edit unit, with its iterators

    The map is the list of its (key, value) pairs in ascending key
    order; an iterator is an index into that list, [begin()] is 0 and
    [end()] is the length. *)
Section OrderedMap.

Context {V : Type}.

Definition smap_end (m : list (Z * V)) : nat := length m.

(** [find(k)]: the position holding key [k], or [end()]. *)
Fixpoint smap_find (k : Z) (m : list (Z * V)) : nat :=
  match m with
  | [] => O
  | (k', _) :: m' => if k' =? k then O else S (smap_find k m')
  end.

(** [lower_bound(k)]: the first position whose key is not less than
    [k], or [end()]. *)
Fixpoint smap_lower_bound (k : Z) (m : list (Z * V)) : nat :=
  match m with
  | [] => O
  | (k', _) :: m' => if k' <? k then S (smap_lower_bound k m') else O
  end.

(** [insert(value_type(k, v))]: a key already present keeps its value. *)
Fixpoint smap_insert (k : Z) (v : V) (m : list (Z * V)) : list (Z * V) :=
  match m with
  | [] => [(k, v)]
  | (k', v') :: m' =>
      if k <? k' then (k, v) :: m
      else if k =? k' then m
      else (k', v') :: smap_insert k v m'
  end.

(** The value an iterator refers to; [None] at [end()]. *)
Definition smap_deref (m : list (Z * V)) (it : nat) : option (Z * V) := m !! it.

(** The value stored under a key. *)
Definition smap_lookup (k : Z) (m : list (Z * V)) : option V :=
  snd <$> smap_deref m (smap_find k m).

(** Keys strictly ascending. *)
Definition smap_sorted (m : list (Z * V)) : Prop :=
  StronglySorted Z.lt (m.*1).

End OrderedMap.

(** ** Index table data (index.h is not part of the sources; the fields
    are those index.cpp reads and writes) *)

Record Rational : Type := mkRational { Numerator : Z; Denominator : Z }.

(** One entry of a delta array: [Int8 PosTableIndex], [UInt8 Slice] and
    the four bytes of a big-endian [UInt32 ElementDelta]. *)
Record DeltaEntry : Type := mkDeltaEntry {
  PosTableIndex : Z;
  Slice : Z;
  ElementDelta : list Z
}.

Record IndexSegment : Type := mkIndexSegment {
  StartPosition : Position;
  DeltaCount : Z;
  DeltaArray : list DeltaEntry;
  EntryCount : Z;
  IndexEntryArray : list Z
}.

Record IndexTable : Type := mkIndexTable {
  IndexSID : Z;
  BodySID : Z;
  EditRate : Rational;
  EditUnitByteCount : Z;
  IndexDuration : Z;
  PreCharge : Z;
  BaseDeltaCount : Z;
  BaseDeltaArray : list DeltaEntry;
  SegmentMap : list (Z * IndexSegment);
  NSL : Z;
  NPE : Z;
  IndexEntrySize : Z
}.

(** The result of a look-up.  [PosOffset] is written only when [Offset]
    is set; [None] is the field as [new IndexPos] left it. *)
Record IndexPos : Type := mkIndexPos {
  ThisPos : Position;
  Location : Position;
  PosOffset : option Rational;
  Exact : bool;
  OtherPos : bool;
  Offset : bool;
  KeyFrameOffset : Z;
  TemporalOffset : Z;
  KeyLocation : Position;
  Flags : Z
}.

(** [Array[i]] for an [int] index; an index outside the array has no
    meaning in C++ and yields an all-zero entry here. *)
Definition delta_at (a : list DeltaEntry) (i : Z) : DeltaEntry :=
  if i <? 0 then mkDeltaEntry 0 0 [0; 0; 0; 0]
  else default (mkDeltaEntry 0 0 [0; 0; 0; 0]) (a !! Z.to_nat i).

Definition with_SegmentMap (T : IndexTable) (m : list (Z * IndexSegment)) : IndexTable :=
  mkIndexTable (IndexSID T) (BodySID T) (EditRate T) (EditUnitByteCount T)
    (IndexDuration T) (PreCharge T) (BaseDeltaCount T) (BaseDeltaArray T)
    m (NSL T) (NPE T) (IndexEntrySize T).

Definition with_IndexEntryArray (s : IndexSegment) (d : list Z) (n : Z) : IndexSegment :=
  mkIndexSegment (StartPosition s) (DeltaCount s) (DeltaArray s) n d.

(** ** IndexSegment::AddIndexSegmentToIndexTable

    Modelled from the spec: the [IndexSegment] constructor is in index.h,
    which is not part of the sources; "creating a new empty one" gives a
    segment with no entries, and the pseudo-constructor then copies the
    table's base delta array. *)
Definition AddIndexSegmentToIndexTable (ParentTable : IndexTable)
    (IndexStartPosition : Z) : IndexSegment :=
  mkIndexSegment IndexStartPosition (BaseDeltaCount ParentTable)
    (if BaseDeltaCount ParentTable =? 0 then []
     else take (Z.to_nat (BaseDeltaCount ParentTable)) (BaseDeltaArray ParentTable))
    0 [].

(** ** IndexTable::AddSegment(Int64 StartPosition)

    A segment pointer handed out by the table is the key under which the
    map holds the segment. *)
Definition IndexTable_AddSegment (T : IndexTable) (StartPosition : Z)
    : IndexTable * Z :=
  let it := smap_find StartPosition (SegmentMap T) in
  match smap_deref (SegmentMap T) it with
  | Some (first, _) => (T, first)
  | None =>
      let Segment := AddIndexSegmentToIndexTable T StartPosition in
      (with_SegmentMap T (smap_insert StartPosition Segment (SegmentMap T)),
       StartPosition)
  end.

(** ** IndexTable::GetSegment *)
Definition IndexTable_GetSegment (T : IndexTable) (EditUnit : Position)
    : IndexTable * Z :=
  let m := SegmentMap T in
  (* Find the correct segment - one starting with this edit unit, or the
     nearest before it *)
  let it := smap_find EditUnit m in
  let it :=
    if Nat.eqb it (smap_end m) then
      let it := smap_lower_bound EditUnit m in
      if negb (Nat.eqb it O) then Nat.pred it
      else smap_end m (* Flag that it is before the start *)
    else it in
  match smap_deref m it with
  | None => IndexTable_AddSegment T EditUnit
  | Some (first, second) =>
      (* before the start of the index table: add a new segment *)
      if first >? EditUnit then IndexTable_AddSegment T EditUnit
      (* beyond the current free slot at the end of the segment *)
      else if EditUnit >? Int64 (StartPosition second + EntryCount second)
      then IndexTable_AddSegment T EditUnit
      (* This is the correct segment *)
      else (T, first)
  end.

(** The iterator walk that opens [Lookup], [Correct] and [Update]: the
    segment starting with this edit unit, or the nearest before it, or
    [end()] when the edit unit is before the start. *)
Definition IndexTable_locate (T : IndexTable) (EditUnit : Position) : nat :=
  let m := SegmentMap T in
  let it := smap_find EditUnit m in
  if Nat.eqb it (smap_end m) then
    if negb (Nat.eqb (length m) O) then
      let it := smap_lower_bound EditUnit m in
      if negb (Nat.eqb it O) then Nat.pred it
      else smap_end m
    else it
  else it.

(** ** IndexTable::Lookup *)

(** The result for an edit unit that no index entry can serve. *)
Definition IndexPos_start : IndexPos :=
  mkIndexPos 0 0 None false false false 0 0 0 0.

Definition set_TemporalOffset (Ret : IndexPos) (t : Z) : IndexPos :=
  mkIndexPos (ThisPos Ret) (Location Ret) (PosOffset Ret) (Exact Ret)
    (OtherPos Ret) (Offset Ret) (KeyFrameOffset Ret) t (KeyLocation Ret)
    (Flags Ret).

(** Whether temporal re-ordering applies to a sub-item of a segment:
    [DeltaCount == 0 || (SubItem < DeltaCount) && (PosTableIndex < 0)]. *)
Definition reorders (Segment : IndexSegment) (SubItem : Z) : bool :=
  (DeltaCount Segment =? 0)
  || ((SubItem <? DeltaCount Segment)
      && (PosTableIndex (delta_at (DeltaArray Segment) SubItem) <? 0)).

(** The body of [Lookup]; [self] stands for the recursive call. *)
Definition Lookup_body
    (self : Position -> Z -> bool -> IndexPos * list Diagnostic)
    (T : IndexTable) (EditUnit : Position) (SubItem : Z) (Reorder : bool)
    : IndexPos * list Diagnostic :=
  (* Deal with CBR first *)
  if negb (EditUnitByteCount T =? 0) then
    (* Start of edit unit *)
    let Loc := Int64 (EditUnit * EditUnitByteCount T) in
    let '(Exact, Loc, errs) :=
      if SubItem =? 0 then (true, Loc, [])
      else if SubItem >=? BaseDeltaCount T then (false, Loc, [])
      else
        let Delta := delta_at (BaseDeltaArray T) SubItem in
        if negb (Slice Delta =? 0)
        then (false, Loc, [CBRSliceInDeltaArray (Slice Delta)])
        else (true, Int64 (Loc + GetU32 (ElementDelta Delta) 0), []) in
    (mkIndexPos EditUnit Loc None Exact false false 0 0 Loc 0, errs)
  else
    let it := IndexTable_locate T EditUnit in
    match smap_deref (SegmentMap T) it with
    | None => (IndexPos_start, [])
    | Some (first, Segment) =>
        let Data := IndexEntryArray Segment in
        (* before the start of the index table: the start of the essence *)
        if first >? EditUnit then (IndexPos_start, [])
        (* a useless index entry *)
        else if EntryCount Segment =? 0 then (IndexPos_start, [EmptyIndexSegment])
        (* the nearest index point is before this edit unit *)
        else if Int64 (Int64 (StartPosition Segment + EntryCount Segment) - 1) <? EditUnit
        then
          let Ptr := Int32 (Int32 (EntryCount Segment - 1) * IndexEntrySize T) in
          let Loc := Int64 (GetU64 Data (Ptr + 3)) in
          (mkIndexPos (Int64 (Int64 (StartPosition Segment + EntryCount Segment) - 1))
             Loc None false true false 0 0 Loc 0, [])
        else
          (* Index the start of the correct index entry *)
          let Ptr := Int64 (Int64 (EditUnit - StartPosition Segment) * IndexEntrySize T) in
          (* Read the temporal offset *)
          let TemporalOffset := GetI8 Data Ptr in
          (* Apply temporal re-ordering if we should *)
          if Reorder && negb (TemporalOffset =? 0) && reorders Segment SubItem then
            let '(Ret, errs) := self (Int64 (EditUnit + TemporalOffset)) SubItem false in
            (set_TemporalOffset Ret TemporalOffset, errs)
          else
            let RetTemporalOffset :=
              if reorders Segment SubItem then TemporalOffset else 0 in
            let RetKeyFrameOffset := GetI8 Data (Ptr + 1) in
            let RetFlags := GetU8 Data (Ptr + 2) in
            let RetKeyLocation :=
              if negb (Z.land RetFlags 4 =? 0)
                 || (- RetKeyFrameOffset >? Int64 (EditUnit - StartPosition Segment))
              then -1
              else
                let PKF :=
                  Int64 (Int64 (Int64 (EditUnit - StartPosition Segment)
                                - - RetKeyFrameOffset) * IndexEntrySize T) in
                GetI64 Data (PKF + 3) in
            let Location0 := Int64 (GetU64 Data (Ptr + 3)) in
            (* Ptr now indexes the start of the SliceOffset array *)
            let Ptr := Ptr + 11 in
            if SubItem >=? DeltaCount Segment then
              (mkIndexPos EditUnit Location0 None false false false
                 RetKeyFrameOffset RetTemporalOffset RetKeyLocation RetFlags, [])
            else
              let Delta := delta_at (DeltaArray Segment) SubItem in
              let Location1 :=
                if SubItem >? 0 then
                  let Loc :=
                    if negb (Slice Delta =? 0)
                    then Int64 (Location0 + GetU32 Data (Ptr + (Slice Delta - 1) * 4))
                    else Location0 in
                  Int64 (Loc + GetU32 (ElementDelta Delta) 0)
                else Location0 in
              let PosTableIndex :=
                if DeltaCount Segment >? 0 then PosTableIndex Delta else 0 in
              if PosTableIndex >? 0 then
                let PosPtr := Ptr + NSL T * 4 + (PosTableIndex - 1) * 8 in
                (mkIndexPos EditUnit Location1
                   (Some (mkRational (GetI32 Data PosPtr) (GetI32 Data (PosPtr + 4))))
                   true false true
                   RetKeyFrameOffset RetTemporalOffset RetKeyLocation RetFlags, [])
              else
                (mkIndexPos EditUnit Location1 None true false false
                   RetKeyFrameOffset RetTemporalOffset RetKeyLocation RetFlags, [])
    end.

(** [Lookup] calls itself only with [Reorder = false], and such a call
    never calls again: two levels of the body are the whole recursion. *)
Definition IndexTable_Lookup (T : IndexTable) (EditUnit : Position)
    (SubItem : Z) (Reorder : bool) : IndexPos * list Diagnostic :=
  Lookup_body
    (fun EditUnit' SubItem' Reorder' =>
       Lookup_body (fun _ _ _ => (IndexPos_start, []))
         T EditUnit' SubItem' Reorder')
    T EditUnit SubItem Reorder.

(** ** IndexSegment::AddIndexEntry *)

Fixpoint put_slice_offsets (n : nat) (SlicePtr : list Z) (Buffer : list Z)
    (Ptr : Z) : list Z * Z :=
  match n with
  | O => (Buffer, Ptr)
  | S n' =>
      put_slice_offsets n' (tail SlicePtr)
        (PutU32 (default 0 (head SlicePtr)) Buffer Ptr) (Ptr + 4)
  end.

(** Both halves of a PosTable entry are written at the same [Ptr]. *)
Fixpoint put_pos_table (n : nat) (PosPtr : list Rational) (Buffer : list Z)
    (Ptr : Z) : list Z * Z :=
  match n with
  | O => (Buffer, Ptr)
  | S n' =>
      let r := default (mkRational 0 0) (head PosPtr) in
      put_pos_table n' (tail PosPtr)
        (PutI32 (Denominator r) (PutI32 (Numerator r) Buffer Ptr) Ptr) (Ptr + 8)
  end.

(** [fresh] is what [new UInt8[IndexEntrySize]] holds before it is
    written: bytes of no defined value. *)
Definition IndexSegment_AddIndexEntry (Parent : IndexTable) (fresh : list Z)
    (Seg : IndexSegment) (TemporalOffset KeyFrameOffset Flags StreamOffset : Z)
    (SliceCount : Z) (SliceOffsets : list Z)
    (PosCount : Z) (PosTable : list Rational)
    : bool * IndexSegment * list Diagnostic :=
  if negb (SliceCount =? NSL Parent)
  then (false, Seg, [NSLMismatch (NSL Parent) SliceCount])
  else if negb (PosCount =? NPE Parent)
  then (false, Seg, [NPEMismatch (NPE Parent) PosCount])
  else
    (* the new size, to see if it is too big for a 2-byte local set length *)
    let NewSize :=
      Int32 (Int32 (Int32 (EntryCount Seg + 1) * IndexEntrySize Parent) + 8) in
    if NewSize >? 65535 then (false, Seg, [])
    else
      let Size := Z.to_nat (IndexEntrySize Parent) in
      let Buffer := resize Size 0 fresh in
      (* Write the new entry *)
      let Buffer := poke Buffer 0 (UInt8 TemporalOffset) in
      let Buffer := poke Buffer 1 (UInt8 KeyFrameOffset) in
      let Buffer := poke Buffer 2 (UInt8 Flags) in
      let Buffer := PutU64 StreamOffset Buffer 3 in
      let '(Buffer, Ptr) :=
        put_slice_offsets (Z.to_nat SliceCount) SliceOffsets Buffer 11 in
      let '(Buffer, _) :=
        put_pos_table (Z.to_nat PosCount) PosTable Buffer Ptr in
      (* Add this entry to the end of the Index Entry Array *)
      let Data :=
        DataChunk_Set Size Buffer (length (IndexEntryArray Seg))
          (IndexEntryArray Seg) in
      (true, with_IndexEntryArray Seg Data (Int32 (EntryCount Seg + 1)), []).

(** ** IndexSegment::Update and IndexTable::Update *)

Definition IndexSegment_Update (Parent : IndexTable) (Seg : IndexSegment)
    (EditUnit : Position) (StreamOffset : Z) : IndexSegment :=
  (* Ensure that this edit unit is within this segment *)
  if EditUnit <? StartPosition Seg then Seg
  else if EditUnit >? Int64 (Int64 (StartPosition Seg + EntryCount Seg) - 1) then Seg
  else
    (* Index the start of the correct index entry *)
    let Ptr := Int64 (Int64 (EditUnit - StartPosition Seg) * IndexEntrySize Parent) in
    (* Skip over the temporal offset, the key frame offset and the flags *)
    let Ptr := Ptr + 3 in
    (* Write the stream offset for this frame *)
    with_IndexEntryArray Seg (PutU64 StreamOffset (IndexEntryArray Seg) Ptr)
      (EntryCount Seg).

Definition IndexTable_Update (T : IndexTable) (EditUnit : Position)
    (StreamOffset : Z) : IndexTable :=
  let it := IndexTable_locate T EditUnit in
  match smap_deref (SegmentMap T) it with
  | None => T
  | Some (first, second) =>
      (* before the start of the index table: do nothing *)
      if first >? EditUnit then T
      else
        with_SegmentMap T
          (<[it := (first, IndexSegment_Update T second EditUnit StreamOffset)]>
             (SegmentMap T))
  end.

(** ** Well-formed index tables

    What index.cpp keeps true of a table it builds: a segment is stored
    under its own start position, positions are valid [Position]s, the
    entry array holds [EntryCount] entries of [IndexEntrySize] bytes, an
    entry is at least the 11 fixed bytes, and the entries of different
    segments do not overlap. *)
Definition wf_segment (EntrySize : Z) (k : Z) (s : IndexSegment) : Prop :=
  StartPosition s = k /\
  - 2 ^ 63 < k /\
  0 <= EntryCount s < 2 ^ 31 /\
  k + EntryCount s < 2 ^ 63 /\
  Z.of_nat (length (IndexEntryArray s)) = EntryCount s * EntrySize.

Definition wf_IndexTable (T : IndexTable) : Prop :=
  11 <= IndexEntrySize T < 2 ^ 31 /\
  smap_sorted (SegmentMap T) /\
  (forall k s, (k, s) ∈ SegmentMap T -> wf_segment (IndexEntrySize T) k s) /\
  (forall k1 s1 k2 s2,
     (k1, s1) ∈ SegmentMap T -> (k2, s2) ∈ SegmentMap T -> k1 < k2 ->
     k1 + EntryCount s1 <= k2).

(** Edit unit [E] has an index entry in segment [s]. *)
Definition contains (s : IndexSegment) (E : Z) : Prop :=
  StartPosition s <= E < StartPosition s + EntryCount s.

(** [E] has an entry in [s] or is the first edit unit beyond its last
    entry (the free slot at the end of the segment). *)
Definition covers (s : IndexSegment) (E : Z) : Prop :=
  StartPosition s <= E <= StartPosition s + EntryCount s.

(** ** Tables used to exercise the statements *)

(** The bytes of an index entry without slices or PosTable. *)
Definition example_entry (TemporalOffset KeyFrameOffset Flags StreamOffset : Z)
    : list Z :=
  [UInt8 TemporalOffset; UInt8 KeyFrameOffset; UInt8 Flags]
  ++ be_encode 8 StreamOffset.

(** Edit units 0..2: an I frame, then two frames stored in swapped order. *)
Definition example_segment0 : IndexSegment :=
  mkIndexSegment 0 0 [] 3
    (example_entry 0 0 128 0 ++ example_entry 1 (-1) 0 100
     ++ example_entry (-1) (-2) 0 250).

Definition example_segment10 : IndexSegment :=
  mkIndexSegment 10 0 [] 1 (example_entry 0 0 128 1000).

(** A VBR table with segments at edit units 0 and 10. *)
Definition example_table : IndexTable :=
  mkIndexTable 2 1 (mkRational 25 1) 0 0 0 0 []
    [(0, example_segment0); (10, example_segment10)] 0 0 11.

(** A CBR table: 1000 bytes per edit unit, second element 256 bytes in. *)
Definition example_cbr_table : IndexTable :=
  mkIndexTable 2 1 (mkRational 25 1) 1000 0 0 2
    [mkDeltaEntry 0 0 [0; 0; 0; 0]; mkDeltaEntry 0 0 [0; 0; 1; 0]]
    [] 0 0 11.

(** A table with one slice offset per entry (15-byte entries) and a
    segment of it holding 4368 entries, 65520 bytes. *)
Definition example_sliced_table : IndexTable :=
  mkIndexTable 2 1 (mkRational 25 1) 0 0 0 0 [] [] 1 0 15.

Definition example_full_segment : IndexSegment :=
  mkIndexSegment 0 0 [] 4368 (replicate (Z.to_nat 65520) 0).

(** ** Assignments to the fields of a table that [MakeIndex] sets *)

Definition IndexTable_set_header (T : IndexTable) (sid bid : Z) (rate : Rational)
    (precharge : Z) : IndexTable :=
  mkIndexTable sid bid rate (EditUnitByteCount T) (IndexDuration T) precharge
    (BaseDeltaCount T) (BaseDeltaArray T) (SegmentMap T) (NSL T) (NPE T)
    (IndexEntrySize T).

Definition IndexTable_set_BaseDeltaArray (T : IndexTable) (a : list DeltaEntry)
    : IndexTable :=
  mkIndexTable (IndexSID T) (BodySID T) (EditRate T) (EditUnitByteCount T)
    (IndexDuration T) (PreCharge T) (BaseDeltaCount T) a (SegmentMap T)
    (NSL T) (NPE T) (IndexEntrySize T).

Definition IndexTable_set_CBR (T : IndexTable) (ByteCount duration : Z)
    : IndexTable :=
  mkIndexTable (IndexSID T) (BodySID T) (EditRate T) ByteCount duration
    (PreCharge T) (BaseDeltaCount T) (BaseDeltaArray T) (SegmentMap T)
    (NSL T) (NPE T) (IndexEntrySize T).

Definition DeltaEntry_set_PosTableIndex (d : DeltaEntry) (x : Z) : DeltaEntry :=
  mkDeltaEntry x (Slice d) (ElementDelta d).

(** ** IndexManager (index.cpp)

    The class declaration (index.h) is not part of the sources; the
    state below holds the members index.cpp reads and writes.  The maps
    [ManagedData], [UnsatisfiedTemporalOffsets] and
    [UnsatisfiedTemporalDiffs] are [std::map]s used through [find],
    [insert] and [erase] only.  A managed entry is owned by the map slot
    that points to it (or by [ProvisionalEntry]), so the map holds the
    entries themselves. *)
Module IndexManager.

(** [struct IndexData]; [StreamOffset] has one slot per stream. *)
Record IndexData : Type := mkIndexData {
  Status : Z;
  Flags : Z;
  KeyOffset : Z;
  TemporalOffset : Z;
  TemporalDiff : Z;
  StreamOffset : list Z
}.

(** The members behind [LogNext], [Log] and [AcceptNext]. *)
Record LogState : Type := mkLogState {
  NextLogID : Z;
  LogWrapped : bool;
  LogNextEntry : Z;
  EntryLog : gmap Z Z;
  AcceptNextEntry : bool
}.

(** The values handed on to the index table. *)
Record IndexValues : Type := mkIndexValues {
  BodySID : Z;
  IndexSID : Z;
  EditRate : Rational;
  PreCharge : Z;
  IndexDuration : Z
}.

Record State : Type := mkState {
  FormatFixed : bool;
  UsesReordering : bool;
  DataIsCBR : bool;
  StreamListSize : Z;
  PosTableList : list Z;
  ElementSizeList : list Z;
  StreamCount : Z;
  ManagedDataEntrySize : Z;
  MasterStream : Z;
  Values : IndexValues;
  LastNewEditUnit : Position;
  ProvisionalEntry : option IndexData;
  ProvisionalEditUnit : Position;
  LogSt : LogState;
  ValueRelativeIndexing : bool;
  SubRangeOffset : Position;
  ManagedData : gmap Z IndexData;
  UnsatisfiedTemporalOffsets : gmap Z Z;
  UnsatisfiedTemporalDiffs : gmap Z Z
}.

Definition set_FormatFixed (m : State) (x : bool) : State :=
  mkState
    x (UsesReordering m) (DataIsCBR m) (StreamListSize m) (PosTableList m)
    (ElementSizeList m) (StreamCount m) (ManagedDataEntrySize m)
    (MasterStream m) (Values m) (LastNewEditUnit m) (ProvisionalEntry m)
    (ProvisionalEditUnit m) (LogSt m) (ValueRelativeIndexing m)
    (SubRangeOffset m) (ManagedData m) (UnsatisfiedTemporalOffsets m)
    (UnsatisfiedTemporalDiffs m).

Definition set_LastNewEditUnit (m : State) (x : Position) : State :=
  mkState
    (FormatFixed m) (UsesReordering m) (DataIsCBR m) (StreamListSize m)
    (PosTableList m) (ElementSizeList m) (StreamCount m)
    (ManagedDataEntrySize m) (MasterStream m) (Values m) x (ProvisionalEntry
    m) (ProvisionalEditUnit m) (LogSt m) (ValueRelativeIndexing m)
    (SubRangeOffset m) (ManagedData m) (UnsatisfiedTemporalOffsets m)
    (UnsatisfiedTemporalDiffs m).

Definition set_ProvisionalEntry (m : State) (x : option IndexData) : State :=
  mkState
    (FormatFixed m) (UsesReordering m) (DataIsCBR m) (StreamListSize m)
    (PosTableList m) (ElementSizeList m) (StreamCount m)
    (ManagedDataEntrySize m) (MasterStream m) (Values m) (LastNewEditUnit m)
    x (ProvisionalEditUnit m) (LogSt m) (ValueRelativeIndexing m)
    (SubRangeOffset m) (ManagedData m) (UnsatisfiedTemporalOffsets m)
    (UnsatisfiedTemporalDiffs m).

Definition set_LogSt (m : State) (x : LogState) : State :=
  mkState
    (FormatFixed m) (UsesReordering m) (DataIsCBR m) (StreamListSize m)
    (PosTableList m) (ElementSizeList m) (StreamCount m)
    (ManagedDataEntrySize m) (MasterStream m) (Values m) (LastNewEditUnit m)
    (ProvisionalEntry m) (ProvisionalEditUnit m) x (ValueRelativeIndexing m)
    (SubRangeOffset m) (ManagedData m) (UnsatisfiedTemporalOffsets m)
    (UnsatisfiedTemporalDiffs m).

Definition set_SubRangeOffset (m : State) (x : Position) : State :=
  mkState
    (FormatFixed m) (UsesReordering m) (DataIsCBR m) (StreamListSize m)
    (PosTableList m) (ElementSizeList m) (StreamCount m)
    (ManagedDataEntrySize m) (MasterStream m) (Values m) (LastNewEditUnit m)
    (ProvisionalEntry m) (ProvisionalEditUnit m) (LogSt m)
    (ValueRelativeIndexing m) x (ManagedData m) (UnsatisfiedTemporalOffsets
    m) (UnsatisfiedTemporalDiffs m).

Definition set_ManagedData (m : State) (x : gmap Z IndexData) : State :=
  mkState
    (FormatFixed m) (UsesReordering m) (DataIsCBR m) (StreamListSize m)
    (PosTableList m) (ElementSizeList m) (StreamCount m)
    (ManagedDataEntrySize m) (MasterStream m) (Values m) (LastNewEditUnit m)
    (ProvisionalEntry m) (ProvisionalEditUnit m) (LogSt m)
    (ValueRelativeIndexing m) (SubRangeOffset m) x
    (UnsatisfiedTemporalOffsets m) (UnsatisfiedTemporalDiffs m).

Definition set_UnsatisfiedTemporalOffsets (m : State) (x : gmap Z Z) : State :=
  mkState
    (FormatFixed m) (UsesReordering m) (DataIsCBR m) (StreamListSize m)
    (PosTableList m) (ElementSizeList m) (StreamCount m)
    (ManagedDataEntrySize m) (MasterStream m) (Values m) (LastNewEditUnit m)
    (ProvisionalEntry m) (ProvisionalEditUnit m) (LogSt m)
    (ValueRelativeIndexing m) (SubRangeOffset m) (ManagedData m) x
    (UnsatisfiedTemporalDiffs m).

Definition set_UnsatisfiedTemporalDiffs (m : State) (x : gmap Z Z) : State :=
  mkState
    (FormatFixed m) (UsesReordering m) (DataIsCBR m) (StreamListSize m)
    (PosTableList m) (ElementSizeList m) (StreamCount m)
    (ManagedDataEntrySize m) (MasterStream m) (Values m) (LastNewEditUnit m)
    (ProvisionalEntry m) (ProvisionalEditUnit m) (LogSt m)
    (ValueRelativeIndexing m) (SubRangeOffset m) (ManagedData m)
    (UnsatisfiedTemporalOffsets m) x.

(** [sizeof(IndexData)]: five [int]s, padding, one [UInt64]. *)
Definition sizeof_IndexData : Z := 32.

(** [IndexTable::IndexLowest] *)
Definition IndexLowest : Position := Int64 (0 - 9223372036854775807).

(** [std::map::insert]: a key already present keeps its value. *)
Definition map_insert_new {A : Type} (k : Z) (v : A) (m : gmap Z A) : gmap Z A :=
  match m !! k with
  | Some _ => m
  | None => <[k := v]> m
  end.

(** [IndexManager::IndexManager(PosTableIndex, ElementSize)].  The two
    stream arrays have 16 slots; a slot not yet written reads as 0, and
    so does [ProvisionalEditUnit], which the constructor leaves unset. *)
Definition new (PosTableIndex ElementSize : Z) : State :=
  mkState false (PosTableIndex <? 0) (ElementSize >? 0)
    16 (<[0%nat := PosTableIndex]> (replicate 16 0))
    (<[0%nat := ElementSize]> (replicate 16 0))
    1 sizeof_IndexData 0 (mkIndexValues 0 0 (mkRational 1 1) 0 0)
    IndexLowest None 0 (mkLogState 0 false (-1) ∅ false) false 0 ∅ ∅ ∅.

(** ** IndexManager::AddSubStream *)
Definition AddSubStream (m : State) (PosTableIndex ElementSize : Z)
    : State * Z * list Diagnostic :=
  (* If we have finalised the format we can't add a new stream *)
  if FormatFixed m then (m, 0, [AddSubStreamAfterFormatFixed])
  else
    (* Set reordering flag if this stream required it *)
    let UsesReordering' := if PosTableIndex <? 0 then true else UsesReordering m in
    (* Clear CBR flag if this stream is VBR *)
    let DataIsCBR' := if ElementSize =? 0 then false else DataIsCBR m in
    (* Increase the size of the stream arrays if required *)
    let '(StreamListSize', PosTableList', ElementSizeList') :=
      if StreamCount m =? StreamListSize m then
        (Int32 (StreamListSize m + 16),
         take (Z.to_nat (StreamListSize m)) (PosTableList m) ++ replicate 16 0,
         take (Z.to_nat (StreamListSize m)) (ElementSizeList m) ++ replicate 16 0)
      else (StreamListSize m, PosTableList m, ElementSizeList m) in
    (* Initialise this stream *)
    let PosTableList' := <[Z.to_nat (StreamCount m) := PosTableIndex]> PosTableList' in
    let ElementSizeList' := <[Z.to_nat (StreamCount m) := ElementSize]> ElementSizeList' in
    (* Resize to accomodate new stream *)
    let ManagedDataEntrySize' := sizeof_IndexData + StreamCount m * 8 in
    (* Return this stream ID, then increment the count *)
    (mkState (FormatFixed m) UsesReordering' DataIsCBR' StreamListSize'
       PosTableList' ElementSizeList' (Int32 (StreamCount m + 1))
       ManagedDataEntrySize' (MasterStream m) (Values m) (LastNewEditUnit m)
       (ProvisionalEntry m) (ProvisionalEditUnit m) (LogSt m)
       (ValueRelativeIndexing m) (SubRangeOffset m) (ManagedData m)
       (UnsatisfiedTemporalOffsets m) (UnsatisfiedTemporalDiffs m),
     StreamCount m, []).

(** ** Locating or creating the entry of an edit unit

    [AddEditUnit] and [SetOffset] share this text word for word: fix the
    format, take over or dump the provisional entry, then find the entry
    or create one, handing it the parked temporal offset and temporal
    difference of that edit unit.  The result is the entry [ThisEntry]
    points to, and whether the map slot of [EditUnit] points to it too
    (it does not when the provisional entry is taken over for an edit
    unit the map already has: [insert] then changes nothing). *)
Definition new_entry (m : State) : IndexData :=
  mkIndexData 0 0 0 0 0
    (replicate (Z.to_nat ((ManagedDataEntrySize m - sizeof_IndexData) / 8 + 1)) 0).

Definition set_entry_TemporalOffset (e : IndexData) (x : Z) : IndexData :=
  mkIndexData (Status e) (Flags e) (KeyOffset e) x (TemporalDiff e) (StreamOffset e).

Definition set_entry_TemporalDiff (e : IndexData) (x : Z) : IndexData :=
  mkIndexData (Status e) (Flags e) (KeyOffset e) (TemporalOffset e) x (StreamOffset e).

Definition set_entry_KeyOffset (e : IndexData) (x : Z) : IndexData :=
  mkIndexData (Status e) (Flags e) x (TemporalOffset e) (TemporalDiff e) (StreamOffset e).

Definition set_entry_Flags (e : IndexData) (x : Z) : IndexData :=
  mkIndexData (Status e) x (KeyOffset e) (TemporalOffset e) (TemporalDiff e) (StreamOffset e).

Definition or_entry_Status (e : IndexData) (bits : Z) : IndexData :=
  mkIndexData (Z.lor (Status e) bits) (Flags e) (KeyOffset e) (TemporalOffset e)
    (TemporalDiff e) (StreamOffset e).

Definition set_entry_StreamOffset (e : IndexData) (SubStream x : Z) : IndexData :=
  mkIndexData (Status e) (Flags e) (KeyOffset e) (TemporalOffset e) (TemporalDiff e)
    (if SubStream <? 0 then StreamOffset e
     else <[Z.to_nat SubStream := x]> (StreamOffset e)).

Definition acquire (m : State) (EditUnit : Position) : State * IndexData * bool :=
  (* Can't change the format once we are using the table *)
  let m := set_FormatFixed m true in
  (* Dump any outstanding provisional entry *)
  let '(m, ThisEntry) :=
    match ProvisionalEntry m with
    | Some Provisional =>
        if ProvisionalEditUnit m =? EditUnit then
          (* re-use it to keep any useful data already set *)
          let stored :=
            match ManagedData m !! EditUnit with None => true | Some _ => false end in
          let m := set_ManagedData m
                     (map_insert_new EditUnit Provisional (ManagedData m)) in
          let m := set_LastNewEditUnit m EditUnit in
          (set_ProvisionalEntry m None, Some (Provisional, stored))
        else (set_ProvisionalEntry m None, None)
    | None => (m, None)
    end in
  match ThisEntry with
  | Some (e, stored) => (m, e, stored)
  | None =>
      (* Locate the requested edit unit *)
      match ManagedData m !! EditUnit with
      | Some e => (m, e, true)
      | None =>
          (* Not found - create a new one *)
          let e := new_entry m in
          (* Can we satisfy an outstanding temporal offset? *)
          let '(e, m) :=
            match UnsatisfiedTemporalOffsets m !! EditUnit with
            | Some x =>
                (set_entry_TemporalOffset e x,
                 set_UnsatisfiedTemporalOffsets m
                   (delete EditUnit (UnsatisfiedTemporalOffsets m)))
            | None => (e, m)
            end in
          (* Can we satisfy an outstanding temporal difference? *)
          let '(e, m) :=
            match UnsatisfiedTemporalDiffs m !! EditUnit with
            | Some x =>
                (set_entry_TemporalDiff e x,
                 set_UnsatisfiedTemporalDiffs m
                   (delete EditUnit (UnsatisfiedTemporalDiffs m)))
            | None => (e, m)
            end in
          (* Add the entry *)
          let m := set_ManagedData m (map_insert_new EditUnit e (ManagedData m)) in
          (set_LastNewEditUnit m EditUnit, e, true)
      end
  end.

(** Writes through [ThisEntry] reach the map when its slot points to
    the entry. *)
Definition store (m : State) (EditUnit : Position) (e : IndexData)
    (stored : bool) : State :=
  if stored then set_ManagedData m (<[EditUnit := e]> (ManagedData m)) else m.

(** Only the master stream sets the per-entry values. *)
Definition master_values (m : State) (SubStream : Z) (e : IndexData)
    (KeyOffset Flags : Z) : IndexData :=
  if SubStream =? MasterStream m then
    let e := if negb (KeyOffset =? 0) then set_entry_KeyOffset e KeyOffset else e in
    if negb (Flags =? -1) then set_entry_Flags e Flags else e
  else e.

Section WithLog.

(** [Log(EditUnit)] is an inline member of index.h, which is not part of
    the sources; it is taken as a function on the log members. *)
Variable Log : Position -> LogState -> LogState.

(** ** IndexManager::AddEditUnit *)
Definition AddEditUnit (m : State) (SubStream : Z) (EditUnit : Position)
    (KeyOffset Flags : Z) : State :=
  (* No need for a CBR index table *)
  if DataIsCBR m then m
  else
    (* Correct for sub-range offset *)
    let EditUnit := Int64 (EditUnit - SubRangeOffset m) in
    let '(m, ThisEntry, stored) := acquire m EditUnit in
    let ThisEntry := master_values m SubStream ThisEntry KeyOffset Flags in
    let m := store m EditUnit ThisEntry stored in
    set_LogSt m (Log EditUnit (LogSt m)).

(** ** IndexManager::SetOffset

    The edit unit given here is relative to the sub-range already. *)
Definition SetOffset (m : State) (SubStream : Z) (EditUnit : Position)
    (Offset KeyOffset Flags : Z) : State :=
  (* No need for a CBR index table *)
  if DataIsCBR m then m
  else
    let '(m, ThisEntry, stored) := acquire m EditUnit in
    (* Set the offset *)
    let ThisEntry := or_entry_Status ThisEntry 1 in
    let ThisEntry := set_entry_StreamOffset ThisEntry SubStream Offset in
    let ThisEntry := master_values m SubStream ThisEntry KeyOffset Flags in
    let m := store m EditUnit ThisEntry stored in
    set_LogSt m (Log EditUnit (LogSt m)).

Definition OfferEditUnit (m : State) (SubStream : Z) (EditUnit : Position)
    (KeyOffset Flags : Z) : State * bool :=
  (AddEditUnit m SubStream EditUnit KeyOffset Flags, true).

Definition OfferOffset (m : State) (SubStream : Z) (EditUnit : Position)
    (Offset KeyOffset Flags : Z) : State * bool :=
  (SetOffset m SubStream EditUnit Offset KeyOffset Flags, true).

End WithLog.

(** [(ProvisionalEntry) && (EditUnit == ProvisionalEditUnit)] *)
Definition provisional_for (m : State) (EditUnit : Position) : option IndexData :=
  match ProvisionalEntry m with
  | Some Provisional =>
      if EditUnit =? ProvisionalEditUnit m then Some Provisional else None
  | None => None
  end.

(** ** IndexManager::SetTemporalOffset *)
Definition SetTemporalOffset (m : State) (EditUnit : Position) (Offset : Z)
    : State :=
  (* No need for a CBR index table *)
  if DataIsCBR m then m
  else
    (* Correct for sub-range offset *)
    let EditUnit := Int64 (EditUnit - SubRangeOffset m) in
    let m :=
      (* Check the provisional entry first *)
      match provisional_for m EditUnit with
      | Some Provisional =>
          set_ProvisionalEntry m
            (Some (set_entry_TemporalOffset (or_entry_Status Provisional 2) Offset))
      | None =>
          (* Locate the requested edit unit in the managed data map *)
          match ManagedData m !! EditUnit with
          | Some e =>
              set_ManagedData m
                (<[EditUnit := set_entry_TemporalOffset (or_entry_Status e 2) Offset]>
                   (ManagedData m))
          | None =>
              (* Else record it as being unsatisfied *)
              set_UnsatisfiedTemporalOffsets m
                (map_insert_new EditUnit Offset (UnsatisfiedTemporalOffsets m))
          end
      end in
    (* Now set the reverse offset (TemporalDiff) *)
    match provisional_for m (Int64 (EditUnit + Offset)) with
    | Some Provisional =>
        set_ProvisionalEntry m
          (Some (set_entry_TemporalDiff (or_entry_Status Provisional 4)
                   (Int32 (- Offset))))
    | None =>
        match ManagedData m !! Int64 (EditUnit + Offset) with
        | Some e =>
            set_ManagedData m
              (<[Int64 (EditUnit + Offset) :=
                   set_entry_TemporalDiff (or_entry_Status e 4) (Int32 (- Offset))]>
                 (ManagedData m))
        | None =>
            (* Else record it as being unsatisfied *)
            set_UnsatisfiedTemporalDiffs m
              (map_insert_new EditUnit (Int32 (- Offset))
                 (UnsatisfiedTemporalDiffs m))
        end
    end.

Definition OfferTemporalOffset (m : State) (EditUnit : Position) (Offset : Z)
    : State * bool :=
  (SetTemporalOffset m EditUnit Offset, true).

(** ** IndexManager::SetKeyOffset and IndexManager::SetFlags *)
Definition set_per_entry (set : IndexData -> Z -> IndexData) (m : State)
    (EditUnit : Position) (x : Z) : State * list Diagnostic :=
  (* No need for a CBR index table *)
  if DataIsCBR m then (m, [])
  else
    (* Correct for sub-range offset *)
    let EditUnit := Int64 (EditUnit - SubRangeOffset m) in
    match provisional_for m EditUnit with
    | Some Provisional => (set_ProvisionalEntry m (Some (set Provisional x)), [])
    | None =>
        match ManagedData m !! EditUnit with
        | Some e => (set_ManagedData m (<[EditUnit := set e x]> (ManagedData m)), [])
        | None => (m, [UnknownEditUnit])
        end
    end.

Definition SetKeyOffset (m : State) (EditUnit : Position) (Offset : Z)
    : State * list Diagnostic :=
  set_per_entry set_entry_KeyOffset m EditUnit Offset.

Definition SetFlags (m : State) (EditUnit : Position) (Flags : Z)
    : State * list Diagnostic :=
  set_per_entry set_entry_Flags m EditUnit Flags.

Definition OfferKeyOffset (m : State) (EditUnit : Position) (Offset : Z)
    : State * bool :=
  ((SetKeyOffset m EditUnit Offset).1, true).

Definition OfferFlags (m : State) (EditUnit : Position) (Flags : Z)
    : State * bool :=
  ((SetFlags m EditUnit Flags).1, true).

(** ** IndexManager::Flush *)
Definition Flush (m : State) (FirstEditUnit LastEditUnit : Position)
    : State * list Diagnostic :=
  if DataIsCBR m then (m, []) else (m, [FlushNotImplemented]).

Section WithTable.

(** [new IndexTable] and [IndexTable::DefineDeltaArray] are in index.h,
    which is not part of the sources. *)
Variable IndexTable_new : IndexTable.
Variable DefineDeltaArray : Z -> list Z -> IndexTable -> IndexTable.

(** [for(i=0; i<StreamCount; i++) BaseDeltaArray[i].PosTableIndex = PosTableList[i];] *)
Fixpoint set_PosTableIndexes (a : list DeltaEntry) (PosTableList : list Z)
    (n : nat) : list DeltaEntry :=
  match n, a with
  | S n', d :: a' =>
      DeltaEntry_set_PosTableIndex d (Int8 (default 0 (head PosTableList)))
      :: set_PosTableIndexes a' (tail PosTableList) n'
  | _, _ => a
  end.

(** [for(i=0; i<StreamCount; i++) ByteCount += ElementSizeList[i];] *)
Fixpoint sum_ElementSizes (ElementSizeList : list Z) (n : nat) (ByteCount : Z) : Z :=
  match n with
  | O => ByteCount
  | S n' =>
      sum_ElementSizes (tail ElementSizeList) n'
        (UInt32 (ByteCount + default 0 (head ElementSizeList)))
  end.

(** ** IndexManager::MakeIndex *)
Definition MakeIndex (m : State) : State * IndexTable :=
  (* Once we have made an index table the format is very definitely fixed *)
  let m := set_FormatFixed m true in
  (* Build an empty index table and set its parameters *)
  let Ret :=
    IndexTable_set_header IndexTable_new (IndexSID (Values m)) (BodySID (Values m))
      (EditRate (Values m)) (PreCharge (Values m)) in
  (* Build the delta array *)
  let Ret := DefineDeltaArray (StreamCount m) (ElementSizeList m) Ret in
  (* Update the pos table index entries *)
  let Ret :=
    IndexTable_set_BaseDeltaArray Ret
      (set_PosTableIndexes (BaseDeltaArray Ret) (PosTableList m)
         (Z.to_nat (StreamCount m))) in
  (* Calculate length if CBR *)
  let Ret :=
    if DataIsCBR m then
      IndexTable_set_CBR Ret
        (sum_ElementSizes (ElementSizeList m) (Z.to_nat (StreamCount m)) 0)
        (IndexDuration (Values m))
    else Ret in
  (m, Ret).

End WithTable.

(** ** Calls on a manager, and runs of calls

    [LogCall f] stands for a call that touches the log members only
    ([LogNext], and the inline accessors of index.h). *)
Inductive Call : Type :=
  | CallAddSubStream (PosTableIndex ElementSize : Z)
  | CallAddEditUnit (SubStream : Z) (EditUnit : Position) (KeyOffset Flags : Z)
  | CallSetOffset (SubStream : Z) (EditUnit : Position) (Offset KeyOffset Flags : Z)
  | CallOfferEditUnit (SubStream : Z) (EditUnit : Position) (KeyOffset Flags : Z)
  | CallOfferOffset (SubStream : Z) (EditUnit : Position) (Offset KeyOffset Flags : Z)
  | CallSetTemporalOffset (EditUnit : Position) (Offset : Z)
  | CallOfferTemporalOffset (EditUnit : Position) (Offset : Z)
  | CallSetKeyOffset (EditUnit : Position) (Offset : Z)
  | CallOfferKeyOffset (EditUnit : Position) (Offset : Z)
  | CallSetFlags (EditUnit : Position) (Flags : Z)
  | CallOfferFlags (EditUnit : Position) (Flags : Z)
  | CallFlush (FirstEditUnit LastEditUnit : Position)
  | CallMakeIndex
  | LogCall (f : LogState -> LogState).

Section Runs.

Variable Log : Position -> LogState -> LogState.
Variable IndexTable_new : IndexTable.
Variable DefineDeltaArray : Z -> list Z -> IndexTable -> IndexTable.

(** The manager after a call. *)
Definition call (m : State) (c : Call) : State :=
  match c with
  | CallAddSubStream p s => (AddSubStream m p s).1.1
  | CallAddEditUnit s e k f => AddEditUnit Log m s e k f
  | CallSetOffset s e o k f => SetOffset Log m s e o k f
  | CallOfferEditUnit s e k f => (OfferEditUnit Log m s e k f).1
  | CallOfferOffset s e o k f => (OfferOffset Log m s e o k f).1
  | CallSetTemporalOffset e o => SetTemporalOffset m e o
  | CallOfferTemporalOffset e o => (OfferTemporalOffset m e o).1
  | CallSetKeyOffset e o => (SetKeyOffset m e o).1
  | CallOfferKeyOffset e o => (OfferKeyOffset m e o).1
  | CallSetFlags e f => (SetFlags m e f).1
  | CallOfferFlags e f => (OfferFlags m e f).1
  | CallFlush a b => (Flush m a b).1
  | CallMakeIndex => (MakeIndex IndexTable_new DefineDeltaArray m).1
  | LogCall f => set_LogSt m (f (LogSt m))
  end.

Definition run (m : State) (cs : list Call) : State := fold_left call cs m.

End Runs.

End IndexManager.

(** ** MPEG2_VES_EssenceSubParser::GetCurrentPosition (esp_mpeg2ves.cpp) *)

(** The members the function reads. *)
Record MPEG2_VES_EssenceSubParser : Type := mkMPEG2_VES_EssenceSubParser {
  SelectedEditRate : Rational;
  NativeEditRate : Rational;
  PictureNumber : Position
}.

(** What the function returns: a position it has at hand, or the
    rounding [(Position)floor(Pos + 0.5)] of the quotient of two
    integers taken in [double]; the floating-point steps are kept as
    they stand. *)
Inductive CurrentPosition : Type :=
  | Returned (p : Position)
  | Rescaled (dividend divisor : Z).

(** [(NativeEditRate.Denominator || 0)]: C++ logical or of the two
    operands taken as truth values. *)
Definition native_denominator_guard (Denominator : Z) : bool :=
  negb (Denominator =? 0) || negb (0 =? 0).

Definition GetCurrentPosition (this : MPEG2_VES_EssenceSubParser)
    : CurrentPosition :=
  let Selected := SelectedEditRate this in
  let Native := NativeEditRate this in
  if (Numerator Selected =? Numerator Native)
     && (Denominator Selected =? Denominator Native)
  then Returned (PictureNumber this)
  else if (Denominator Selected =? 0)
          || native_denominator_guard (Denominator Native)
  then Returned 0
  else
    Rescaled
      (Int64 (Int64 (PictureNumber this * Numerator Selected) * Denominator Native))
      (Int32 (Denominator Selected * Numerator Native)).

(** ** MPEG2_VES_EssenceSubParser::BuildMPEG2VideoDescriptor: the native
    edit rate

    The one place that assigns [NativeEditRate]: from [FrameRate], the
    frame rate read in the sequence header (scaled by the sequence
    extension), with the denominator 1001 for the drop-frame rates. *)
Definition BuildMPEG2VideoDescriptor_NativeEditRate (DropFrame : bool)
    (FrameRate : Z) : Rational :=
  if DropFrame then mkRational (Int32 (FrameRate * 1000)) 1001
  else mkRational FrameRate 1.

(** Picture 50 of a 30/1 stream, wrapped at 25/1. *)
Definition example_parser : MPEG2_VES_EssenceSubParser :=
  mkMPEG2_VES_EssenceSubParser (mkRational 25 1)
    (BuildMPEG2VideoDescriptor_NativeEditRate false 30) 50.

(** A manager of one VBR stream that needs re-ordering, and a log that
    records nothing. *)
Definition example_manager : IndexManager.State := IndexManager.new (-1) 0.

Definition example_Log (EditUnit : Position) (l : IndexManager.LogState)
    : IndexManager.LogState := l.

(** The temporal offset of edit unit 0 arrives before either edit unit 0
    or its partner, edit unit 2, is known; then edit unit 2 is created,
    then edit unit 0. *)
Definition example_manager_parked : IndexManager.State :=
  IndexManager.SetTemporalOffset example_manager 0 2.

Definition example_manager_partner : IndexManager.State :=
  IndexManager.SetOffset example_Log example_manager_parked 0 2 500 0 (-1).

Definition example_manager_both : IndexManager.State :=
  IndexManager.SetOffset example_Log example_manager_partner 0 0 0 0 (-1).

(** ** More of the index table (index.cpp) *)

(** Messages of the functions below, besides those of the functions
    they call. *)
Inductive IndexMessage : Type :=
  | FromCall (d : Diagnostic)
  | ReplaceNotImplemented
  | EntrySizeMismatch (TableSize Size : Z).

(** A write through a segment pointer: the segment stored under the key
    is replaced. *)
Fixpoint smap_set {V : Type} (k : Z) (v : V) (m : list (Z * V)) : list (Z * V) :=
  match m with
  | [] => []
  | (k', v') :: m' =>
      if k' =? k then (k', v) :: m' else (k', v') :: smap_set k v m'
  end.

(** ** IndexTable::Correct *)
Definition IndexTable_Correct (T : IndexTable) (EditUnit : Position)
    (TemporalOffset KeyFrameOffset Flags : Z) : IndexTable :=
  let it := IndexTable_locate T EditUnit in
  match smap_deref (SegmentMap T) it with
  | None => T
  | Some (first, Segment) =>
      (* before the start of the index table: do nothing *)
      if first >? EditUnit then T
      (* a useless index entry *)
      else if EntryCount Segment =? 0 then T
      (* the nearest index point is before this edit unit *)
      else if Int64 (Int64 (StartPosition Segment + EntryCount Segment) - 1) <? EditUnit
      then T
      else
        let Ptr := Int64 (Int64 (EditUnit - StartPosition Segment) * IndexEntrySize T) in
        (* the new temporal offset, key-frame offset and flags *)
        let Data := poke (IndexEntryArray Segment) Ptr (UInt8 TemporalOffset) in
        let Data := poke Data (Ptr + 1) (UInt8 KeyFrameOffset) in
        let Data := poke Data (Ptr + 2) (UInt8 Flags) in
        with_SegmentMap T
          (<[it := (first, with_IndexEntryArray Segment Data (EntryCount Segment))]>
             (SegmentMap T))
  end.

(** ** IndexSegment::AddIndexEntries

    [Entries] holds [Count * Size] bytes of pre-formed entries. *)
Definition IndexSegment_AddIndexEntries (Parent : IndexTable) (Seg : IndexSegment)
    (Count Size : Z) (Entries : list Z) (AllowOverSize : bool)
    : bool * IndexSegment * list IndexMessage :=
  if negb (Size =? Int32 (IndexEntrySize Parent))
  then (false, Seg, [EntrySizeMismatch (IndexEntrySize Parent) Size])
  else if negb AllowOverSize
          && (Int32 (Int32 (EntryCount Seg * IndexEntrySize Parent)
                     + Int32 (Count * Size)) >? 65535)
  then (false, Seg, [])
  else
    let Data :=
      DataChunk_Set (Z.to_nat (Int32 (Size * Count))) Entries
        (length (IndexEntryArray Seg)) (IndexEntryArray Seg) in
    (true, with_IndexEntryArray Seg Data (Int32 (EntryCount Seg + Count)), []).

(** ** IndexTable::AddIndexEntry

    [fresh] and [fresh'] are the contents of the two entry buffers the
    segment calls allocate.  [GetSegment] and [AddSegment] return keys of
    the map, so the look-ups of the segments they return find them. *)
Definition IndexTable_AddIndexEntry (T : IndexTable) (fresh fresh' : list Z)
    (EditUnit : Position) (TemporalOffset KeyFrameOffset Flags StreamOffset : Z)
    (SliceCount : Z) (SliceOffsets : list Z) (PosCount : Z)
    (PosTable : list Rational) : bool * IndexTable * list IndexMessage :=
  (* Get the correct segment to use *)
  let '(T, p) := IndexTable_GetSegment T EditUnit in
  match smap_lookup p (SegmentMap T) with
  | None => (false, T, [])
  | Some Segment =>
      (* If this position already exists in the segment we must replace it *)
      let errs :=
        if EditUnit <? Int64 (StartPosition Segment + EntryCount Segment)
        then [ReplaceNotImplemented] else [] in
      (* Add this entry to the end of the current segment *)
      let '(ok, Segment', errs1) :=
        IndexSegment_AddIndexEntry T fresh Segment TemporalOffset KeyFrameOffset
          Flags StreamOffset SliceCount SliceOffsets PosCount PosTable in
      if ok then
        (true, with_SegmentMap T (smap_set p Segment' (SegmentMap T)),
         errs ++ map FromCall errs1)
      else
        (* Adding the entry didn't work - possibly because the segment is
           full.  Try adding a new segment and adding the entry to it *)
        let '(T, p) := IndexTable_AddSegment T EditUnit in
        match smap_lookup p (SegmentMap T) with
        | None => (false, T, errs ++ map FromCall errs1)
        | Some Segment =>
            let '(ok, Segment', errs2) :=
              IndexSegment_AddIndexEntry T fresh' Segment TemporalOffset
                KeyFrameOffset Flags StreamOffset SliceCount SliceOffsets
                PosCount PosTable in
            (ok,
             if ok then with_SegmentMap T (smap_set p Segment' (SegmentMap T))
             else T,
             errs ++ map FromCall errs1 ++ map FromCall errs2)
        end
  end.

(** ** IndexTable::GetDuration *)
Definition IndexTable_GetDuration (T : IndexTable) : IndexTable * Z :=
  (* Only actually calculate for VBR - else use value of IndexDuration *)
  if EditUnitByteCount T =? 0 then
    let Duration :=
      match last (SegmentMap T) with
      | Some (first, second) => Int64 (first + EntryCount second)
      | None => 0
      end in
    (IndexTable_set_CBR T (EditUnitByteCount T) Duration, Duration)
  else (T, IndexDuration T).

(** ** IndexTable::Purge

    [FirstPosition] and [LastPosition] are [UInt64]; the key looked for
    is [FirstPosition] taken as a [Position]. *)
Fixpoint purge_while (LastPosition : Z) (l : list (Z * IndexSegment))
    : list (Z * IndexSegment) :=
  match l with
  | [] => []
  | (first, second) :: l' =>
      (* Erase all complete segments up to the last position *)
      if UInt64 (Int64 (Int64 (first + EntryCount second) - 1)) <=? LastPosition
      then purge_while LastPosition l'
      else l
  end.

Definition IndexTable_Purge (T : IndexTable) (FirstPosition LastPosition : Z)
    : IndexTable :=
  let m := SegmentMap T in
  (* Find the correct entry, or the nearest after it *)
  let it := smap_find (Int64 FirstPosition) m in
  let it :=
    if Nat.eqb it (smap_end m) then smap_lower_bound (Int64 FirstPosition) m
    else it in
  (* If the first position is after the end then do nothing *)
  if Nat.eqb it (smap_end m) then T
  else with_SegmentMap T (take it m ++ purge_while LastPosition (drop it m)).

(** ** Managers used to exercise the statements about sub-streams *)

(** The streams [L], main stream first, each with its PosTableIndex and
    ElementSize, are registered with manager [m]: counted, held in the
    two stream arrays, and reflected in the two format flags and in the
    size of a managed entry. *)
Definition streams_registered (m : IndexManager.State) (L : list (Z * Z))
    : Prop :=
  IndexManager.StreamCount m = Z.of_nat (length L) /\
  (1 <= length L)%nat /\
  IndexManager.StreamListSize m
    = Z.of_nat (length (IndexManager.PosTableList m)) /\
  length (IndexManager.ElementSizeList m)
    = length (IndexManager.PosTableList m) /\
  (length L <= length (IndexManager.PosTableList m) < length L + 16)%nat /\
  (forall i p s, L !! i = Some (p, s) ->
     IndexManager.PosTableList m !! i = Some p /\
     IndexManager.ElementSizeList m !! i = Some s) /\
  IndexManager.UsesReordering m = existsb (fun x => x.1 <? 0) L /\
  IndexManager.DataIsCBR m = forallb (fun x => 0 <? x.2) L /\
  IndexManager.ManagedDataEntrySize m
    = IndexManager.sizeof_IndexData + 8 * (Z.of_nat (length L) - 1).

(** ** SystemSource::GetBERSize and SystemSource::GetBytesPerEditUnit
    (essence.h) *)
Definition SystemSource_GetBERSize : Z := 4.

Definition SystemSource_GetBytesPerEditUnit (fuel : nat) (KAGSize : Z)
    : option (Z * list Diagnostic) :=
  (* Key, Len, standard value of 57 bytes *)
  let Ret := UInt32 (16 + SystemSource_GetBERSize + 57) in
  match CalcFillerSize fuel Ret KAGSize false with
  | None => None
  | Some (Fill, errs) => Some (UInt32 (Ret + Fill), errs)
  end.

(** ** GCElementKind and GCLayout (essence.h)

    A [std::vector] is the list of its elements: [front()] is the head,
    [back()] the last element, [push_back] appends. *)
Module GCLayout.

(** [struct GCElementKind] *)
Record GCElementKind : Type := mkGCElementKind {
  IsValid : bool;
  Item : Z;
  Count : Z;
  ElementType : Z;
  Number : Z
}.

(** [GCElementKind::operator==] and [operator!=] *)
Definition eqb (L R : GCElementKind) : bool :=
  if negb (IsValid L) && negb (IsValid R) then true
  else (Item L =? Item R) && (Count L =? Count R)
       && (ElementType L =? ElementType R) && (Number L =? Number R).

Definition neqb (L R : GCElementKind) : bool := negb (eqb L R).

(** The members of [class GCLayout]. *)
Record State : Type := mkState {
  _current : list GCElementKind;
  _fresh : list GCElementKind;
  _valid : bool;
  _inconsistent : bool;
  _autorefresh : bool;
  _pos : Position
}.

(** [GCLayout(refresh)] *)
Definition new (refresh : bool) : State :=
  mkState [] [] false false refresh 0.

(** [Reset(refresh)] *)
Definition Reset (g : State) (refresh : bool) : State :=
  mkState [] [] false false refresh 0.

Definition IsValid' (g : State) : bool := _valid g.
Definition IsConsistent (g : State) : bool := negb (_inconsistent g).
Definition Pos (g : State) : Position := _pos g.
Definition Size (g : State) : nat :=
  if _valid g then length (_current g) else length (_fresh g).

(** [if( _autorefresh ) { _current = _fresh; _valid = true;
    _inconsistent = false; } _fresh.clear(); _fresh.push_back( me );
    _pos++; return 3;] *)
Definition start_new (g : State) (me : GCElementKind) : State * Z :=
  let g :=
    if _autorefresh g
    then mkState (_fresh g) (_fresh g) true false (_autorefresh g) (_pos g)
    else g in
  (mkState (_current g) [me] (_valid g) (_inconsistent g) (_autorefresh g)
     (Int64 (_pos g + 1)), 3).

Definition set_inconsistent (g : State) : State :=
  mkState (_current g) (_fresh g) (_valid g) true (_autorefresh g) (_pos g).

Definition push_fresh (g : State) (me : GCElementKind) : State :=
  mkState (_current g) (_fresh g ++ [me]) (_valid g) (_inconsistent g)
    (_autorefresh g) (_pos g).

(** [Offer(me)].  [back()] is taken of a vector that is not empty where
    it is reached: [_fresh] after the test for the first element,
    [_current] after the test that [_fresh] is not the longer one. *)
Definition Offer (g : State) (me : GCElementKind) : State * Z :=
  if negb (_valid g) then
    match _fresh g with
    | [] => (push_fresh g me, 3)                               (* first element *)
    | front :: _ =>
        let back := default me (last (_fresh g)) in
        if (Nat.eqb (length (_fresh g)) 1 && eqb me back)      (* double element *)
           || ((1 <? length (_fresh g))%nat && eqb me front)   (* repeat cycle *)
        then start_new g me
        else if ((Z.land (Item me) 15 >? 4) && (Z.land (Item back) 15 =? 7))
                || (Z.land (Item me) 15 >=? Z.land (Item back) 15)
        then (push_fresh g me, 0)
        else start_new g me
    end
  else
    let restart :=
      match _current g with
      | front :: _ => eqb me front
      | [] => false
      end in
    if restart then
      (mkState (_current g) [me] (_valid g) (_inconsistent g) (_autorefresh g)
         (Int64 (_pos g + 1)), 3)
    else
      let g := push_fresh g me in
      let back := default me (last (_current g)) in
      (* just became inconsistently bigger *)
      if (length (_current g) <? length (_fresh g))%nat
      then (set_inconsistent g, -1)
      else if Nat.eqb (length (_fresh g)) (length (_current g)) then
        if neqb me back then (set_inconsistent g, -1) else (g, 2)
      else if Nat.eqb (length (_fresh g)) (length (_current g) - 1) then
        if neqb me back then (set_inconsistent g, -1) else (g, 1)
      else if neqb me back then (set_inconsistent g, -1) else (g, 0).

(** [Where()] *)
Definition Where (g : State) : Z :=
  if negb (_valid g) || Nat.eqb (length (_current g)) 0 then -1
  else if Nat.eqb (length (_fresh g)) (length (_current g)) then 2
  else if Nat.eqb (length (_fresh g)) (length (_current g) - 1) then 1
  else if Nat.eqb (length (_fresh g)) 1 then 3
  else 0.

(** [ForceEnd()] *)
Definition ForceEnd (g : State) : State * Z :=
  let g := mkState (_fresh g) [] (_valid g) false (_autorefresh g) (_pos g) in
  if negb (Where g =? 2) then (g, -1)
  else (mkState (_current g) (_fresh g) true (_inconsistent g)
          (_autorefresh g) (_pos g), 2).

(** The elements of a list offered one after the other, and what each
    [Offer] returned. *)
Fixpoint offers (g : State) (l : list GCElementKind) : State * list Z :=
  match l with
  | [] => (g, [])
  | me :: l' =>
      let '(g, r) := Offer g me in
      let '(g, rs) := offers g l' in
      (g, r :: rs)
  end.

End GCLayout.

(** ** IndexManager::AddEntriesToIndex (index.cpp)

    [ManagedData] is a [std::map]: an iterator walks its entries in
    ascending order of the edit units. *)
Definition ManagedData_entries (M : gmap Z IndexManager.IndexData)
    : list (Z * IndexManager.IndexData) :=
  foldr (fun kv acc => smap_insert kv.1 kv.2 acc) [] (map_to_list M).

(** What [AddEntriesToIndex] reports.  [SliceOffsetsOverrun] is not a
    message of the program: it marks a store outside the [NSL] slots of
    [SliceOffsets] (through a null pointer when [NSL] is 0), where the
    behaviour of the source is undefined; the run is followed no
    further. *)
Inductive ManagerMessage : Type :=
  | PosTableNotSupported
  | FromTable (d : IndexMessage)
  | SliceOffsetsOverrun.

(** [for(i=0; i<Index->BaseDeltaCount; i++)
      if(Index->BaseDeltaArray[i].PosTableIndex < 0)
        Index->BaseDeltaArray[i].PosTableIndex = 0;] *)
Fixpoint undo_reordering (a : list DeltaEntry) (n : nat) : list DeltaEntry :=
  match n, a with
  | S n', d :: a' =>
      (if PosTableIndex d <? 0 then DeltaEntry_set_PosTableIndex d 0 else d)
      :: undo_reordering a' n'
  | _, _ => a
  end.

(** The slice table of one entry: [n] streams remain, [Sizes] and
    [Offsets] are [&ElementSizeList[i]] and [&ThisEntry->StreamOffset[i+1]].
    [SliceOffsets] has the [NSL] slots of [new UInt32[NSL]]; a store to
    [SliceOffsets[Slice]] outside them is undefined: [None]. *)
Fixpoint build_slice_table (n : nat) (Sizes Offsets : list Z) (StreamPos : Z)
    (SliceOffsets : list Z) (Slice : nat) : option (list Z) :=
  match n with
  | O => Some SliceOffsets
  | S n' =>
      if default 0 (head Sizes) =? 0 then
        (* VBR - next Stream will be start of next Slice *)
        let NextPos := Int64 (default 0 (head Offsets)) in
        let v := if NextPos >=? StreamPos then UInt32 (NextPos - StreamPos)
                 else 0 in
        if (Slice <? length SliceOffsets)%nat then
          build_slice_table n' (tail Sizes) (tail Offsets) StreamPos
            (<[Slice := v]> SliceOffsets) (S Slice)
        else None
      else
        build_slice_table n' (tail Sizes) (tail Offsets) StreamPos
          SliceOffsets Slice
  end.

(** The number of stores the loop above makes: the VBR streams among
    the first [n]. *)
Fixpoint slice_stores (n : nat) (Sizes : list Z) : nat :=
  match n with
  | O => O
  | S n' =>
      if default 0 (head Sizes) =? 0 then S (slice_stores n' (tail Sizes))
      else slice_stores n' (tail Sizes)
  end.

Section AddEntriesToIndex.

(** [fresh n] is what the [n]-th entry buffer allocated by the index
    table holds before it is written. *)
Variable fresh : nat -> list Z.
Variable m : IndexManager.State.
Variable UndoReorder : bool.
Variable LastEditUnit : Position.
Variable NSL' : Z.
Variable StatusTest : Z.

(** The loop over the entries from [it] on; [calls] counts the calls of
    [AddIndexEntry] so far. *)
Fixpoint AddEntries_loop (l : list (Z * IndexManager.IndexData))
    (Index : IndexTable) (SliceOffsets : list Z) (calls : nat) (Ret : Z)
    (msgs : list ManagerMessage) : IndexTable * Z * list ManagerMessage :=
  match l with
  | [] => (Index, Ret, msgs)
  | (first, ThisEntry) :: l' =>
      if first <=? LastEditUnit then
        let StreamPos :=
          Int64 (default 0 (IndexManager.StreamOffset ThisEntry !! 0%nat)) in
        (* Don't build an entry if it is not (yet) complete *)
        if negb (Z.land (IndexManager.Status ThisEntry) StatusTest
                 =? StatusTest)
        then AddEntries_loop l' Index SliceOffsets calls Ret msgs
        else
          (* Build the slice table *)
          match
            build_slice_table (Z.to_nat (IndexManager.StreamCount m - 1))
              (IndexManager.ElementSizeList m)
              (tail (IndexManager.StreamOffset ThisEntry)) StreamPos
              SliceOffsets 0
          with
          | None => (Index, Ret, msgs ++ [SliceOffsetsOverrun])
          | Some SliceOffsets =>
              (* Determine the edit unit to add *)
              let ThisEditUnit :=
                if UndoReorder
                then Int64 (first + IndexManager.TemporalDiff ThisEntry)
                else first in
              (* Add this new entry *)
              let '(_, Index, errs) :=
                IndexTable_AddIndexEntry Index (fresh (2 * calls))
                  (fresh (2 * calls + 1)) ThisEditUnit
                  (Int8 (IndexManager.TemporalOffset ThisEntry))
                  (Int8 (IndexManager.KeyOffset ThisEntry))
                  (UInt8 (IndexManager.Flags ThisEntry))
                  (UInt64 (default 0
                             (IndexManager.StreamOffset ThisEntry !! 0%nat)))
                  NSL' SliceOffsets 0 [] in
              (* Maintain count of entries, move to the next entry *)
              AddEntries_loop l' Index SliceOffsets (S calls) (Int32 (Ret + 1))
                (msgs ++ map FromTable errs)
          end
      else (Index, Ret, msgs)
  end.

End AddEntriesToIndex.

(** [fresh_slices] is what [new UInt32[NSL]] holds. *)
Definition IndexManager_AddEntriesToIndex (fresh : nat -> list Z)
    (fresh_slices : list Z) (m : IndexManager.State) (UndoReorder : bool)
    (Index : IndexTable) (FirstEditUnit LastEditUnit : Position)
    : IndexTable * Z * list ManagerMessage :=
  (* No need for a CBR index table *)
  if IndexManager.DataIsCBR m then (Index, 0, [])
  else
    (* Find the first entry, or the nearest after it *)
    let entries := ManagedData_entries (IndexManager.ManagedData m) in
    let it := smap_find FirstEditUnit entries in
    let it :=
      if Nat.eqb it (smap_end entries)
      then smap_lower_bound FirstEditUnit entries else it in
    (* No data to add *)
    match smap_deref entries it with
    | None => (Index, 0, [])
    | Some (first, _) =>
        if first >? LastEditUnit then (Index, 0, [])
        else
          (* Set up SliceOffsets and PosTable arrays *)
          let NSL' := Int32 (NSL Index) in
          let SliceOffsets := resize (Z.to_nat NSL') 0 fresh_slices in
          let NPE' := Int32 (NPE Index) in
          (* Undo any reordering set in the index table if requested *)
          let Index :=
            if IndexManager.UsesReordering m && UndoReorder
            then IndexTable_set_BaseDeltaArray Index
                   (undo_reordering (BaseDeltaArray Index)
                      (Z.to_nat (BaseDeltaCount Index)))
            else Index in
          (* DRAGONS: Not supporting PosTable yet! *)
          let msgs := if negb (NPE' =? 0) then [PosTableNotSupported] else [] in
          (* Which bits in the status word show we can use the entry? *)
          let StatusTest := if IndexManager.UsesReordering m then 3 else 1 in
          let StatusTest := if UndoReorder then Z.lor StatusTest 4 else StatusTest in
          AddEntries_loop fresh m UndoReorder LastEditUnit NSL' StatusTest
            (drop it entries) Index SliceOffsets 0 0 msgs
    end.

(** What a look-up without re-ordering finds for sub-item 0 of an edit
    unit: location, key-frame offset and flags. *)
Definition entry_of (T : IndexTable) (E : Position) : Z * Z * Z :=
  let p := (IndexTable_Lookup T E 0 false).1 in
  (Location p, KeyFrameOffset p, Flags p).

(** A well-formed VBR table without PosTable whose segments are within
    the 64K of a 2-byte local set length, header included. *)
Definition wf_VBR_IndexTable (T : IndexTable) : Prop :=
  wf_IndexTable T /\ EditUnitByteCount T = 0 /\ NPE T = 0 /\
  0 <= NSL T < 2 ^ 31 /\ IndexEntrySize T + 8 <= 65535 /\
  forall k s, (k, s) ∈ SegmentMap T ->
    EntryCount s * IndexEntrySize T + 8 <= 65535.

(** The test [AddEntriesToIndex] applies to an entry of the managed
    data: in range, and complete. *)
Definition entry_complete (StatusTest LastEditUnit : Z)
    (kv : Z * IndexManager.IndexData) : bool :=
  (kv.1 <=? LastEditUnit)
  && (Z.land (IndexManager.Status kv.2) StatusTest =? StatusTest).

(** An empty VBR table without slices. *)
Definition example_empty_table : IndexTable :=
  mkIndexTable 2 1 (mkRational 25 1) 0 0 0 0 [] [] 0 0 11.

(** ** MPEG2_VES_EssenceSubParser: handing out the essence of an edit
    unit (esp_mpeg2ves.cpp)

    [size_t] is taken as 64 bits wide; [static_cast<size_t>(-1)] marks
    a cached size that is not valid. *)
Definition size_t (z : Z) : Z := wrap_unsigned 64 z.
Definition no_cached_size : Z := size_t (-1).

(** The members of the parser that cache the size found by
    [ReadInternal], and those of its [ESP_EssenceSource]. *)
Record ESP_Cache : Type := mkESP_Cache {
  CachedDataSize : Z;
  CachedCount : Z
}.

Record ESP_EssenceSource : Type := mkESP_EssenceSource {
  BytesRemaining : Z;
  AtEndOfData : bool;
  RequestedCount : Z
}.

Section MPEG2_essence.

(** [ReadInternal] scans the stream for the end of the edit units asked
    for; what matters here is the cache it leaves. *)
Variable ReadInternal : ESP_Cache -> Z -> ESP_Cache.

(** Either use the cached value, or scan the stream and find out how
    many bytes to read. *)
Definition cached_or_scan (c : ESP_Cache) (Count : Z) : ESP_Cache :=
  if (CachedDataSize c =? no_cached_size) || negb (CachedCount c =? Count)
  then ReadInternal c Count else c.

(** [ESP_EssenceSource::GetEssenceData(Size, MaxSize)]; the result is
    the number of bytes asked of [FileReadChunk], [None] for a NULL
    pointer. *)
Definition GetEssenceData (c : ESP_Cache) (s : ESP_EssenceSource)
    (Size MaxSize : Z) : ESP_Cache * ESP_EssenceSource * option Z :=
  let '(c, s, done) :=
    if BytesRemaining s =? 0 then
      let c := cached_or_scan c (RequestedCount s) in
      (* Record, then clear, the data size *)
      let s := mkESP_EssenceSource (CachedDataSize c) (AtEndOfData s)
                 (RequestedCount s) in
      let c := mkESP_Cache no_cached_size (CachedCount c) in
      (* Flag all done when no more to read *)
      if BytesRemaining s =? 0
      then (c, mkESP_EssenceSource (BytesRemaining s) true (RequestedCount s),
            true)
      else (c, s, false)
    else (c, s, false) in
  if done then (c, s, None)
  else
    (* Decide how many bytes to read this time *)
    let Bytes := BytesRemaining s in
    (* Hard limit to MaxSize *)
    let Bytes :=
      if negb (MaxSize =? 0) && (Bytes >? MaxSize) then MaxSize else Bytes in
    (* Also limit to Size *)
    let Bytes :=
      if negb (Size =? 0) && (Bytes >? Size) then Size else Bytes in
    (* Remove this number of bytes from the remaining count *)
    (c, mkESP_EssenceSource (size_t (BytesRemaining s - Bytes)) (AtEndOfData s)
          (RequestedCount s),
     Some Bytes).

(** The calls that hand out one edit unit: until nothing remains of
    it.  The calls are run on [fuel]. *)
Fixpoint GetEssenceData_item (fuel : nat) (c : ESP_Cache)
    (s : ESP_EssenceSource) (Size MaxSize : Z)
    : option (ESP_Cache * ESP_EssenceSource * list Z) :=
  match fuel with
  | O => None
  | S fuel' =>
      let '(c, s, r) := GetEssenceData c s Size MaxSize in
      match r with
      | None => Some (c, s, [])
      | Some Bytes =>
          if BytesRemaining s =? 0 then Some (c, s, [Bytes])
          else
            match GetEssenceData_item fuel' c s Size MaxSize with
            | None => None
            | Some (c, s, rest) => Some (c, s, Bytes :: rest)
            end
      end
  end.

(** The loop of [Write]: the sizes of the chunks transferred. *)
Fixpoint Write_chunks (fuel : nat) (Bytes : Z) : option (list Z) :=
  if Bytes =? 0 then Some []
  else
    match fuel with
    | O => None
    | S fuel' =>
        (* Number of bytes to transfer in this chunk *)
        let ChunkSize := if Bytes <? 32768 then Bytes else 32768 in
        match Write_chunks fuel' (size_t (Bytes - ChunkSize)) with
        | None => None
        | Some rest => Some (ChunkSize :: rest)
        end
    end.

(** [MPEG2_VES_EssenceSubParser::Write]: the cache afterwards, the
    count returned and the chunks transferred. *)
Definition MPEG2_Write (fuel : nat) (c : ESP_Cache) (Count : Z)
    : option (ESP_Cache * Z * list Z) :=
  let c := cached_or_scan c Count in
  let Bytes := CachedDataSize c in
  let Ret := Int64 Bytes in
  (* Clear the cached size *)
  let c := mkESP_Cache no_cached_size (CachedCount c) in
  match Write_chunks fuel Bytes with
  | None => None
  | Some chunks => Some (c, Ret, chunks)
  end.

End MPEG2_essence.

(** The bytes of a list of chunks. *)
Definition total_bytes (chunks : list Z) : Z := foldr Z.add 0 chunks.

(** ** MPEG2_VES_EssenceSubParser::ReadInternal: the index details of a
    picture (esp_mpeg2ves.cpp)

    The part of the stream scan that is run, when an index manager is
    attached, on the two bytes that follow a picture start code. *)
Inductive GOP_place_t : Type :=
  | GOP_unknown | GOP_start | GOP_first_I | GOP_consec_B | GOP_second_I
  | GOP_post_B.

Definition GOP_place_eqb (a b : GOP_place_t) : bool :=
  match a, b with
  | GOP_unknown, GOP_unknown | GOP_start, GOP_start
  | GOP_first_I, GOP_first_I | GOP_consec_B, GOP_consec_B
  | GOP_second_I, GOP_second_I | GOP_post_B, GOP_post_B => true
  | _, _ => false
  end.

(** The members of the parser the scan keeps in step. *)
Record PictureScan : Type := mkPictureScan {
  GOP_place : GOP_place_t;
  ClosedGOP : bool;
  AnchorFrame : Position;
  ScanPictureNumber : Position;
  GOPOffset : Z
}.

(** What is offered to the index manager for the picture:
    [OfferEditUnit(ManagedStreamID, PictureNumber, AnchorOffset, Flags)]
    and [OfferTemporalOffset(TemporalEditUnit, TemporalOffset)]. *)
Record PictureOffer : Type := mkPictureOffer {
  OfferedEditUnit : Position;
  OfferedAnchorOffset : Z;
  OfferedFlags : Z;
  OfferedTemporalEditUnit : Position;
  OfferedTemporalOffset : Z;
  OfferedEditPoint : bool
}.

(** [PictureData] is the two bytes after the start code; [SeqHead] tells
    whether a sequence header came before the picture. *)
Definition picture_index_details (p : PictureScan) (SeqHead : bool)
    (PictureData : Z) : PictureScan * PictureOffer :=
  let TemporalReference := Z.shiftr PictureData 6 in
  let PictureType := Z.land (Z.shiftr PictureData 3) 7 in
  let place :=
    if GOP_place_eqb (GOP_place p) GOP_start && (PictureType =? 1)
    then GOP_first_I
    else if GOP_place_eqb (GOP_place p) GOP_first_I && (PictureType =? 3)
    then GOP_consec_B
    else if GOP_place_eqb (GOP_place p) GOP_first_I && (PictureType =? 1)
    then GOP_second_I
    else if GOP_place_eqb (GOP_place p) GOP_consec_B
            && negb (PictureType =? 3)
    then GOP_post_B
    else GOP_place p in
  let '(Anchor, Flags) :=
    if PictureType =? 2 then (AnchorFrame p, 34)
    else if PictureType =? 3
    then (AnchorFrame p,
          if ClosedGOP p && GOP_place_eqb place GOP_consec_B then 19 else 51)
    else (ScanPictureNumber p, 0) in
  (* Do we have a sequence header? *)
  let '(Flags, EditPoint) :=
    if SeqHead then
      if ClosedGOP p then (Z.lor (Z.lor Flags 64) 128, true)
      else (Z.lor Flags 64, false)
    else (Flags, false) in
  (* Now we have determined if this is an anchor frame we can work out
     the anchor offset *)
  let AnchorOffset := Int32 (Int64 (Anchor - ScanPictureNumber p)) in
  let '(AnchorOffset, Flags) :=
    if AnchorOffset <? -128 then (127, Z.lor Flags 4)
    else (AnchorOffset, Flags) in
  let TemporalOffset := Int32 (GOPOffset p - TemporalReference) in
  (mkPictureScan place (ClosedGOP p) Anchor (ScanPictureNumber p)
     (Int32 (GOPOffset p + 1)),
   mkPictureOffer (ScanPictureNumber p) AnchorOffset Flags
     (Int64 (ScanPictureNumber p - TemporalOffset)) TemporalOffset EditPoint).

(** ** ReorderIndex (index.cpp)

    An array of index entries kept in a [DataChunk] while they are
    built out of order: entry [i] is for edit unit [FirstPosition + i]
    and has the layout of an index table entry.  The class is declared
    in index.h, which is not part of the sources; index.cpp uses the
    two counts as [int] and the entry size as an unsigned 32-bit
    value. *)

(** Modelled from the spec: [PutI64] is in endian.h like the helpers
    above ("StreamOffset (u64 BE)"): the eight bytes of the value in
    two's complement, most significant first. *)
Definition PutI64 (x : Z) (d : list Z) (p : Z) : list Z :=
  write_bytes d p (be_encode 8 x).

(** [memmove(&d[dst], &d[src], n)] *)
Definition memmove (d : list Z) (dst src n : Z) : list Z :=
  write_bytes d dst (read_bytes d src (Z.to_nat n)).

Module ReorderIndex.

Record State : Type := mkState {
  IndexEntries : list Z;
  CompleteEntryCount : Z;
  EntryCount : Z;
  FirstPosition : Z;
  IndexEntrySize : Z
}.

Inductive Message : Type :=
  | BeforeFirst (Pos First : Z)
  | AfterLast (Pos Last : Z).

Section DataChunk.

(** [DataChunk::Resize] is in datachunk.h, which is not part of the
    sources: [Resize NewSize d] is the data of the chunk after the
    call. *)
Variable Resize : Z -> list Z -> list Z.

(** The text [SetEntry] and [SetTemporalOffset] both open with, up to
    "Update the count"; the second component is [Entry]. *)
Definition make_room (R : State) (Pos : Position) : State * Z :=
  let R :=
    (* If this is the first entry we have added to the table set
       FirstPosition *)
    if Z.of_nat (length (IndexEntries R)) =? 0 then
      mkState (IndexEntries R) (CompleteEntryCount R) (EntryCount R) Pos
        (IndexEntrySize R)
    (* Otherwise see if we are trying to add an entry before the start *)
    else if Pos <? FirstPosition R then
      (* How far do we need to shift the data *)
      let Shift := Int64 (Int64 (FirstPosition R - Pos) * IndexEntrySize R) in
      (* Make enough room *)
      let d :=
        Resize (UInt32 (Z.of_nat (length (IndexEntries R)) + Shift))
          (IndexEntries R) in
      (* Shift the entries forwards *)
      let d := memmove d Shift 0 (UInt32 (EntryCount R * IndexEntrySize R)) in
      (* Adjust the counts, and the start position *)
      let moved := Int32 (Int64 (FirstPosition R - Pos)) in
      mkState d
        (if CompleteEntryCount R =? 0 then CompleteEntryCount R
         else Int32 (CompleteEntryCount R + moved))
        (Int32 (EntryCount R + moved)) Pos (IndexEntrySize R)
    else R in
  (* Index this entry *)
  let Entry := Int32 (Int64 (Pos - FirstPosition R)) in
  (* Update the count *)
  let R :=
    if Entry >=? EntryCount R then
      mkState
        (Resize (UInt32 (Int32 (Entry + 1) * IndexEntrySize R)) (IndexEntries R))
        (CompleteEntryCount R) (Int32 (Entry + 1)) (FirstPosition R)
        (IndexEntrySize R)
    else R in
  (R, Entry).

(** [Tables] is [None] for a null pointer. *)
Definition SetEntry (R : State) (Pos : Position) (Flags AnchorOffset : Z)
    (Tables : option (list Z)) : State * bool :=
  let '(R, Entry) := make_room R Pos in
  (* And the complete count *)
  let Complete :=
    if Entry >=? CompleteEntryCount R then Int32 (Entry + 1)
    else CompleteEntryCount R in
  (* Index the start of the entry *)
  let EntryPtr := UInt32 (Entry * IndexEntrySize R) in
  (* Clear the temporal offset if it hasn't yet been set *)
  let d := IndexEntries R in
  let d := if Entry >=? EntryCount R then poke d EntryPtr 0 else d in
  (* Update the data *)
  let d := poke d (EntryPtr + 1) (UInt8 AnchorOffset) in
  let d := poke d (EntryPtr + 2) (UInt8 Flags) in
  (* Clear 8 bytes for the stream offset *)
  let d := write_bytes d (EntryPtr + 3) (replicate 8 0) in
  (* Update the tables *)
  let d :=
    match Tables with
    | Some t =>
        if IndexEntrySize R >? 11
        then write_bytes d (EntryPtr + 11)
               (take (Z.to_nat (UInt32 (IndexEntrySize R - 11))) t)
        else d
    | None => d
    end in
  (mkState d Complete (EntryCount R) (FirstPosition R) (IndexEntrySize R), true).

Definition SetStreamOffset (R : State) (Pos StreamOffset : Position)
    : State * bool * list Message :=
  if Pos <? FirstPosition R
  then (R, false, [BeforeFirst Pos (FirstPosition R)])
  else
    (* Index this entry *)
    let Entry := Int32 (Int64 (Pos - FirstPosition R)) in
    if Entry >=? EntryCount R
    then
      (R, false,
       [AfterLast Pos (Int64 (Int64 (FirstPosition R + EntryCount R) - 1))])
    else
      (* Index the start of the entry *)
      let EntryPtr := UInt32 (Entry * IndexEntrySize R) in
      (mkState (PutI64 StreamOffset (IndexEntries R) (EntryPtr + 3))
         (CompleteEntryCount R) (EntryCount R) (FirstPosition R)
         (IndexEntrySize R),
       true, []).

Definition SetTemporalOffset (R : State) (Pos : Position) (TemporalOffset : Z)
    : State * bool :=
  let '(R, Entry) := make_room R Pos in
  (* Index the start of the entry *)
  let EntryPtr := UInt32 (Entry * IndexEntrySize R) in
  (* Set the temporal offset *)
  (mkState (poke (IndexEntries R) EntryPtr (UInt8 TemporalOffset))
     (CompleteEntryCount R) (EntryCount R) (FirstPosition R)
     (IndexEntrySize R),
   true).

End DataChunk.

(** The array holds an entry for edit unit [Q]. *)
Definition has_entry (R : State) (Q : Position) : Prop :=
  FirstPosition R <= Q < FirstPosition R + EntryCount R.

(** Byte [i] of the entry for edit unit [Q]. *)
Definition entry_byte (R : State) (Q : Position) (i : Z) : Z :=
  byte_at (IndexEntries R) ((Q - FirstPosition R) * IndexEntrySize R + i).

(** The fields of the entry for edit unit [Q]. *)
Definition TemporalOffset_of (R : State) (Q : Position) : Z :=
  GetI8 (IndexEntries R) ((Q - FirstPosition R) * IndexEntrySize R).
Definition AnchorOffset_of (R : State) (Q : Position) : Z :=
  GetI8 (IndexEntries R) ((Q - FirstPosition R) * IndexEntrySize R + 1).
Definition Flags_of (R : State) (Q : Position) : Z :=
  GetU8 (IndexEntries R) ((Q - FirstPosition R) * IndexEntrySize R + 2).
Definition StreamOffset_of (R : State) (Q : Position) : Z :=
  GetI64 (IndexEntries R) ((Q - FirstPosition R) * IndexEntrySize R + 3).
Definition Tables_of (R : State) (Q : Position) : list Z :=
  read_bytes (IndexEntries R) ((Q - FirstPosition R) * IndexEntrySize R + 11)
    (Z.to_nat (IndexEntrySize R - 11)).

(** The counts and the chunk agree, and no offset into the chunk leaves
    the range of an [int]. *)
Definition wf (R : State) : Prop :=
  11 <= IndexEntrySize R < 2 ^ 31 /\
  0 <= CompleteEntryCount R <= EntryCount R /\
  EntryCount R * IndexEntrySize R <= Z.of_nat (length (IndexEntries R)) /\
  Z.of_nat (length (IndexEntries R)) < 2 ^ 31 /\
  - 2 ^ 62 < FirstPosition R < 2 ^ 62.

(** Edit unit [Pos] can be given an entry with every offset staying in
    the range of an [int]. *)
Definition in_reach (R : State) (Pos : Position) : Prop :=
  - 2 ^ 62 < Pos < 2 ^ 62 /\
  (IndexEntries R = [] \/
   (Z.abs (Pos - FirstPosition R) + 1) * IndexEntrySize R
     + Z.of_nat (length (IndexEntries R)) < 2 ^ 31).

(** What making room for edit unit [Pos] in [R] gives, [R1]: the array
    reaches from the lower of the two starts to the higher of the two
    ends. *)
Definition extended (R : State) (Pos : Position) (R1 : State) : Prop :=
  wf R1 /\
  IndexEntrySize R1 = IndexEntrySize R /\
  has_entry R1 Pos /\
  FirstPosition R1 =
    (if decide (IndexEntries R = []) then Pos
     else Z.min (FirstPosition R) Pos) /\
  EntryCount R1 =
    (if decide (IndexEntries R = []) then 1
     else Z.max (FirstPosition R + EntryCount R) (Pos + 1)
          - Z.min (FirstPosition R) Pos) /\
  Z.of_nat (length (IndexEntries R1)) <=
    (if decide (IndexEntries R = []) then IndexEntrySize R
     else Z.of_nat (length (IndexEntries R))
          + (Z.abs (Pos - FirstPosition R) + 1) * IndexEntrySize R).

(** The count of complete entries after room was made for [Pos]: a
    count that is not zero grows by the number of entries put in front
    of the array. *)
Definition moved_complete (R : State) (Pos : Position) : Z :=
  if decide (IndexEntries R <> [] /\ Pos < FirstPosition R /\
             CompleteEntryCount R <> 0)
  then CompleteEntryCount R + (FirstPosition R - Pos)
  else CompleteEntryCount R.

(** [Resize] as a chunk does it: the size becomes the one asked for and
    the bytes below both sizes are kept. *)
Definition Resize_ok (Resize : Z -> list Z -> list Z) : Prop :=
  (forall n d, 0 <= n -> Z.of_nat (length (Resize n d)) = n) /\
  (forall n d q, 0 <= q < n -> q < Z.of_nat (length d) ->
     byte_at (Resize n d) q = byte_at d q).

(** A [Resize] that fills new bytes with [fill]. *)
Definition example_Resize (fill : Z) (n : Z) (d : list Z) : list Z :=
  take (Z.to_nat n) d ++ replicate (Z.to_nat n - length d) fill.

End ReorderIndex.

(** ** ReorderIndex::CommitEntries

    The segment pointer [GetSegment] returns is the key of the segment
    in the map of the table; the entries are appended to that segment
    through it. *)
Inductive CommitMessage : Type :=
  | FromAddIndexEntries (m : IndexMessage)
  | CommitProblem.

Definition ReorderIndex_CommitEntries (Resize : Z -> list Z -> list Z)
    (R : ReorderIndex.State) (Index : IndexTable) (Count : Z)
    : ReorderIndex.State * IndexTable * Z * list CommitMessage :=
  let '(T, p) := IndexTable_GetSegment Index (ReorderIndex.FirstPosition R) in
  match smap_lookup p (SegmentMap T) with
  | None => (R, T, 0, [])
  | Some Segment =>
      (* Note that we only commit complete entries *)
      let Count :=
        if (Count <? 0) || (Count >? ReorderIndex.CompleteEntryCount R)
        then ReorderIndex.CompleteEntryCount R else Count in
      let '(ok, Segment', msgs) :=
        IndexSegment_AddIndexEntries T Segment Count
          (Int32 (ReorderIndex.IndexEntrySize R)) (ReorderIndex.IndexEntries R)
          false in
      if negb ok
      then (R, T, 0, map FromAddIndexEntries msgs ++ [CommitProblem])
      else
        let T := with_SegmentMap T (smap_set p Segment' (SegmentMap T)) in
        (* Shuffle data back in data chunk (or clear it) *)
        if ReorderIndex.EntryCount R <=? Count then
          (ReorderIndex.mkState (Resize 0 (ReorderIndex.IndexEntries R)) 0 0 0
             (ReorderIndex.IndexEntrySize R),
           T, Count, map FromAddIndexEntries msgs)
        else
          (* How far do we need to shift the data *)
          let Shift := Int64 (UInt32 (Count * ReorderIndex.IndexEntrySize R)) in
          let NewCount := Int32 (ReorderIndex.EntryCount R - Count) in
          (* Shift the entries backwards *)
          let d :=
            memmove (ReorderIndex.IndexEntries R) 0 Shift
              (UInt32 (NewCount * ReorderIndex.IndexEntrySize R)) in
          (* Adjust the counts *)
          let Complete :=
            if ReorderIndex.CompleteEntryCount R >? NewCount
            then Int32 (ReorderIndex.CompleteEntryCount R - NewCount) else 0 in
          let Entries :=
            if ReorderIndex.EntryCount R >? NewCount
            then Int32 (ReorderIndex.EntryCount R - NewCount) else 0 in
          (* And the start position *)
          let First :=
            if ReorderIndex.FirstPosition R >? NewCount
            then Int64 (ReorderIndex.FirstPosition R - NewCount) else 0 in
          (ReorderIndex.mkState
             (Resize (UInt32 (Int32 (Entries + 1) * ReorderIndex.IndexEntrySize R)) d)
             Complete Entries First (ReorderIndex.IndexEntrySize R),
           T, Count, map FromAddIndexEntries msgs)
  end.

(** The number of entries a call of [CommitEntries] with [Count]
    commits: the complete ones, when [Count] is negative or higher. *)
Definition commit_count (R : ReorderIndex.State) (Count : Z) : Z :=
  if (Count <? 0) || (Count >? ReorderIndex.CompleteEntryCount R)
  then ReorderIndex.CompleteEntryCount R else Count.

(** ** Arrays used to exercise the statements about [ReorderIndex] *)

(** An array without entries, for entries of 11 bytes. *)
Definition example_reorder_empty : ReorderIndex.State :=
  ReorderIndex.mkState [] 0 0 0 11.

(** Entries for edit units 11, 12 and 13, the first two complete. *)
Definition example_reorder : ReorderIndex.State :=
  ReorderIndex.mkState
    (example_entry 0 0 128 1100 ++ example_entry 1 (-1) 0 1200
     ++ example_entry (-1) (-2) 0 1350)
    2 3 11 11.

(** The table of 15-byte entries with the full segment, and an array
    of two complete entries for the edit units after it. *)
Definition example_full_table : IndexTable :=
  with_SegmentMap example_sliced_table [(0, example_full_segment)].

Definition example_reorder_sliced : ReorderIndex.State :=
  ReorderIndex.mkState (replicate 30 0) 2 2 4368 15.

(** ** IndexTable::AddSegment(UInt8 const *pSegment, Length Size, int LenSize)
    (index.cpp)

    The un-parsed index table segment is the byte list [seg]; the
    walking pointer [pData] and the two array pointers are offsets into
    it, a null pointer is [None].  The members of the table the items
    are stored in are unsigned 32-bit values ([GetUInt] and [SetUInt]
    are used for them elsewhere in index.cpp), so a value read by
    [GetI32] is converted on the assignment. *)
Definition UInt16 (z : Z) : Z := wrap_unsigned 16 z.

Inductive SegmentMessage : Type :=
  | InvalidLenSize (LenSize : Z)
  | NotEnoughBytes (ItemTag : Z)
  | AssertionFailed
  | DeltaEntryTooSmall (ItemSize : Z)
  | DeltaArrayTooShort (Size ItemCount ItemSize : Z)
  | DeltaArrayTooLong (Size ItemCount ItemSize : Z)
  | NoIndexEntryArray
  | WrongEntrySize (TableSize EntrySize : Z)
  | FromAddIndexEntriesCall (m : IndexMessage).

(** The local variables the items of the set are read into. *)
Record SegmentItems : Type := mkSegmentItems {
  pIndexEntryArray : option Z;
  IndexEntryArraySize : Z;
  pDeltaEntryArray : option Z;
  DeltaEntryArraySize : Z;
  ItemStartPosition : Position;
  ItemDuration : Z;
  ItemSliceCount : Z;
  ItemPosTableCount : Z
}.

(** The locals before the loop. *)
Definition SegmentItems_init : SegmentItems :=
  mkSegmentItems None 0 None 0 (-1) (-1) 0 0.

(** Modelled from the spec: [mxflib_assert] is in mxflib_assert.h,
    which is not part of the sources.  A failed assertion is recorded
    as a message and the function goes on. *)
Definition mxflib_assert (b : bool) : list SegmentMessage :=
  if b then [] else [AssertionFailed].

(** The [switch(ItemTag)] of the loop. *)
Definition store_item (seg : list Z) (T : IndexTable) (it : SegmentItems)
    (ItemTag ItemSize pData : Z)
    : IndexTable * SegmentItems * list SegmentMessage :=
  (* IndexEditRate *)
  if ItemTag =? 0x3f0b then
    if ItemSize >=? 8 then
      (mkIndexTable (IndexSID T) (BodySID T)
         (mkRational (GetI32 seg pData) (GetI32 seg (pData + 4)))
         (EditUnitByteCount T) (IndexDuration T) (PreCharge T)
         (BaseDeltaCount T) (BaseDeltaArray T) (SegmentMap T) (NSL T) (NPE T)
         (IndexEntrySize T), it, [])
    else (T, it, [])
  (* IndexStartPosition *)
  else if ItemTag =? 0x3f0c then
    if ItemSize >=? 8 then
      (T, mkSegmentItems (pIndexEntryArray it) (IndexEntryArraySize it)
            (pDeltaEntryArray it) (DeltaEntryArraySize it) (GetI64 seg pData)
            (ItemDuration it) (ItemSliceCount it) (ItemPosTableCount it), [])
    else (T, it, [])
  (* IndexDuration *)
  else if ItemTag =? 0x3f0d then
    if ItemSize >=? 8 then
      (T, mkSegmentItems (pIndexEntryArray it) (IndexEntryArraySize it)
            (pDeltaEntryArray it) (DeltaEntryArraySize it)
            (ItemStartPosition it) (GetI64 seg pData) (ItemSliceCount it)
            (ItemPosTableCount it), [])
    else (T, it, [])
  (* EditUnitByteCount *)
  else if ItemTag =? 0x3f05 then
    if ItemSize >=? 4 then
      (IndexTable_set_CBR T (UInt32 (GetI32 seg pData)) (IndexDuration T), it, [])
    else (T, it, [])
  (* IndexSID *)
  else if ItemTag =? 0x3f06 then
    if ItemSize >=? 4 then
      if IndexSID T =? 0 then
        (IndexTable_set_header T (UInt32 (GetI32 seg pData)) (BodySID T)
           (EditRate T) (PreCharge T), it, [])
      else (T, it, mxflib_assert (IndexSID T =? UInt32 (GetI32 seg pData)))
    else (T, it, [])
  (* BodySID *)
  else if ItemTag =? 0x3f07 then
    if ItemSize >=? 4 then
      if BodySID T =? 0 then
        (IndexTable_set_header T (IndexSID T) (UInt32 (GetI32 seg pData))
           (EditRate T) (PreCharge T), it, [])
      else (T, it, mxflib_assert (BodySID T =? UInt32 (GetI32 seg pData)))
    else (T, it, [])
  (* SliceCount *)
  else if ItemTag =? 0x3f08 then
    if ItemSize >=? 1 then
      (T, mkSegmentItems (pIndexEntryArray it) (IndexEntryArraySize it)
            (pDeltaEntryArray it) (DeltaEntryArraySize it)
            (ItemStartPosition it) (ItemDuration it) (byte_at seg pData)
            (ItemPosTableCount it), [])
    else (T, it, [])
  (* PosTableCount *)
  else if ItemTag =? 0x3f0e then
    if ItemSize >=? 1 then
      (T, mkSegmentItems (pIndexEntryArray it) (IndexEntryArraySize it)
            (pDeltaEntryArray it) (DeltaEntryArraySize it)
            (ItemStartPosition it) (ItemDuration it) (ItemSliceCount it)
            (byte_at seg pData), [])
    else (T, it, [])
  (* DeltaEntryArray: store for later processing *)
  else if ItemTag =? 0x3f09 then
    (T, mkSegmentItems (pIndexEntryArray it) (IndexEntryArraySize it)
          (Some pData) ItemSize (ItemStartPosition it) (ItemDuration it)
          (ItemSliceCount it) (ItemPosTableCount it), [])
  (* IndexEntryArray: store for later processing *)
  else if ItemTag =? 0x3f0a then
    (T, mkSegmentItems (Some pData) ItemSize (pDeltaEntryArray it)
          (DeltaEntryArraySize it) (ItemStartPosition it) (ItemDuration it)
          (ItemSliceCount it) (ItemPosTableCount it), [])
  (* Ignore unknown properties *)
  else (T, it, []).

(** One turn of the loop through the set members; [None] for a
    [break]. *)
Definition read_item (LenSize : Z) (seg : list Z) (T : IndexTable)
    (it : SegmentItems) (pData Size : Z)
    : option (IndexTable * SegmentItems * Z * Z) * list SegmentMessage :=
  let ItemTag :=
    UInt16 (Z.lor (Z.shiftl (byte_at seg pData) 8) (byte_at seg (pData + 1))) in
  let header :=
    if LenSize =? 2 then
      Some (UInt32 (Z.lor (Z.shiftl (byte_at seg (pData + 2)) 8)
                      (byte_at seg (pData + 3))),
            pData + 4, Int64 (Size - 4))
    else if LenSize =? 4 then
      Some (UInt32
              (Z.lor
                 (Z.lor
                    (Z.lor (UInt32 (Z.shiftl (byte_at seg (pData + 2)) 24))
                       (UInt32 (Z.shiftl (byte_at seg (pData + 3)) 16)))
                    (UInt32 (Z.shiftl (byte_at seg (pData + 4)) 8)))
                 (byte_at seg (pData + 5))),
            pData + 6, Int64 (Size - 6))
    else None in
  match header with
  | None => (None, [InvalidLenSize LenSize])
  | Some (ItemSize, pData, Size) =>
      if Size <? ItemSize then (None, [NotEnoughBytes ItemTag])
      else
        let '(T, it, msgs) := store_item seg T it ItemTag ItemSize pData in
        (Some (T, it, pData + ItemSize, Int64 (Size - ItemSize)), msgs)
  end.

(** [while(Size > (2 + LenSize))]; [None] when the fuel runs out. *)
Fixpoint read_items (fuel : nat) (LenSize : Z) (seg : list Z) (T : IndexTable)
    (it : SegmentItems) (pData Size : Z) (msgs : list SegmentMessage)
    : option (IndexTable * SegmentItems * list SegmentMessage) :=
  match fuel with
  | O => None
  | S fuel' =>
      if Size >? 2 + LenSize then
        match read_item LenSize seg T it pData Size with
        | (None, m) => Some (T, it, msgs ++ m)
        | (Some (T', it', pData', Size'), m) =>
            read_items fuel' LenSize seg T' it' pData' Size' (msgs ++ m)
        end
      else Some (T, it, msgs)
  end.

(** The loop that fills a delta array from the bytes of the item;
    [None] when the fuel runs out. *)
Fixpoint read_deltas (fuel : nat) (seg : list Z) (p Size ItemSize Delta : Z)
    (a : list DeltaEntry) : option (list DeltaEntry) :=
  match fuel with
  | O => None
  | S fuel' =>
      if Size >=? ItemSize then
        read_deltas fuel' seg (p + ItemSize) (Int64 (Size - ItemSize)) ItemSize
          (Int32 (Delta + 1))
          (if Delta <? 0 then a
           else <[Z.to_nat Delta :=
                    mkDeltaEntry (Int8 (byte_at seg p)) (byte_at seg (p + 1))
                      (read_bytes seg (p + 2) 4)]> a)
      else Some a
  end.

(** The checks on the header of a DeltaEntryArray that both branches
    make; [inl] is the message of a refusal, [inr None] an empty array
    that is skipped, [inr (Some (Size, msgs))] the size to read. *)
Definition check_deltas (Size ItemCount ItemSize : Z)
    : SegmentMessage + option (Z * list SegmentMessage) :=
  if (ItemSize <? 6) && negb (ItemCount =? 0)
  then inl (DeltaEntryTooSmall ItemSize)
  else if Size <? UInt32 (ItemCount * ItemSize)
  then inl (DeltaArrayTooShort Size ItemCount ItemSize)
  else if ItemCount =? 0 then inr None
  else if Size >? UInt32 (ItemCount * ItemSize)
  then inr (Some (UInt32 (ItemCount * ItemSize),
                  [DeltaArrayTooLong Size ItemCount ItemSize]))
  else inr (Some (Size, [])).

(** [fresh] is what a [new DeltaEntry[...]] holds.  The result is the
    table, the key of the segment returned ([None] for a null pointer)
    and the messages; [None] when the fuel runs out. *)
Definition IndexTable_AddSegment_bytes (fresh : DeltaEntry) (T : IndexTable)
    (seg : list Z) (Size LenSize : Z)
    : option (IndexTable * option Z * list SegmentMessage) :=
  (* Loop through all set members *)
  match read_items (S (Z.to_nat Size)) LenSize seg T SegmentItems_init 0 Size []
  with
  | None => None
  | Some (T, it, msgs) =>
      let pDelta := default 0 (pDeltaEntryArray it) in
      if negb (EditUnitByteCount T =? 0) then
        (* CBR *)
        let T :=
          if ItemDuration it >? 0
          then IndexTable_set_CBR T (EditUnitByteCount T) (ItemDuration it)
          else T in
        if DeltaEntryArraySize it >=? 8 then
          let ItemCount := GetU32 seg pDelta in
          let ItemSize := GetU32 seg (pDelta + 4) in
          let DSize := Int64 (DeltaEntryArraySize it - 8) in
          let pDelta := pDelta + 8 in
          match check_deltas DSize ItemCount ItemSize with
          | inl m => Some (T, None, msgs ++ [m])
          | inr None => Some (T, None, msgs)
          | inr (Some (DSize, m)) =>
              let Count := Int32 ItemCount in
              match read_deltas (S (Z.to_nat DSize)) seg pDelta DSize ItemSize 0
                      (replicate (Z.to_nat Count) fresh) with
              | None => None
              | Some a =>
                  Some (mkIndexTable (IndexSID T) (BodySID T) (EditRate T)
                          (EditUnitByteCount T) (IndexDuration T) (PreCharge T)
                          Count a (SegmentMap T) (NSL T) (NPE T)
                          (IndexEntrySize T),
                        None, msgs ++ m)
              end
          end
        else Some (T, None, msgs)
      else
        (* VBR *)
        let '(T, Ret) := IndexTable_AddSegment T (ItemStartPosition it) in
        match smap_lookup Ret (SegmentMap T) with
        | None => Some (T, Some Ret, msgs)
        | Some Segment =>
            let deltas :=
              if DeltaEntryArraySize it =? 0
              then Some (0, DeltaArray Segment, [])
              else
                let ItemCount := GetU32 seg pDelta in
                let ItemSize := GetU32 seg (pDelta + 4) in
                let DSize := Int64 (DeltaEntryArraySize it - 8) in
                let pDelta := pDelta + 8 in
                match check_deltas DSize ItemCount ItemSize with
                | inl m => Some (0, DeltaArray Segment, [m])
                | inr None => Some (0, DeltaArray Segment, [])
                | inr (Some (DSize, m)) =>
                    let Count := Int32 ItemCount in
                    (* AddSegment() may have built a default delta
                       array: re-use it, or start again *)
                    let a :=
                      if DeltaCount Segment >=? Count then DeltaArray Segment
                      else replicate (Z.to_nat Count) fresh in
                    match read_deltas (S (Z.to_nat DSize)) seg pDelta DSize
                            ItemSize 0 a with
                    | None => None
                    | Some a => Some (Count, a, m)
                    end
                end in
            match deltas with
            | None => None
            | Some (Count, a, m) =>
                let Segment :=
                  mkIndexSegment (StartPosition Segment) Count a
                    (EntryCount Segment) (IndexEntryArray Segment) in
                (* Copy index entry bits, and calculate the size of
                   each IndexEntry *)
                let NSL' := ItemSliceCount it in
                let NPE' := ItemPosTableCount it in
                let Size' := 11 + 4 * NSL' + 8 * NPE' in
                (* Copy the delta entries to the "base" if this is our
                   first segment *)
                let '(BaseCount, Base) :=
                  if (BaseDeltaCount T =? 0) && negb (DeltaCount Segment =? 0)
                  then (DeltaCount Segment,
                        take (Z.to_nat (DeltaCount Segment)) (DeltaArray Segment))
                  else (BaseDeltaCount T, BaseDeltaArray T) in
                let T :=
                  mkIndexTable (IndexSID T) (BodySID T) (EditRate T)
                    (EditUnitByteCount T) (IndexDuration T) (PreCharge T)
                    BaseCount Base (SegmentMap T) NSL' NPE' Size' in
                let '(Segment, m') :=
                  if IndexEntryArraySize it =? 0 then
                    (mkIndexSegment (StartPosition Segment) (DeltaCount Segment)
                       (DeltaArray Segment) 0 (IndexEntryArray Segment),
                     [NoIndexEntryArray])
                  else if IndexEntryArraySize it >=? 8 then
                    let pIndex := default 0 (pIndexEntryArray it) in
                    let Count := GetU32 seg pIndex in
                    let EntrySize := GetU32 seg (pIndex + 4) in
                    if negb (Int32 EntrySize =? IndexEntrySize T)
                    then (Segment, [WrongEntrySize (IndexEntrySize T) EntrySize])
                    else
                      (* we allow segments to be > 64K here *)
                      let '(_, Segment, m') :=
                        IndexSegment_AddIndexEntries T Segment (Int32 Count)
                          (IndexEntrySize T)
                          (drop (Z.to_nat (pIndex + 8)) seg) true in
                      (Segment, map FromAddIndexEntriesCall m')
                  else (Segment, []) in
                Some (with_SegmentMap T (smap_set Ret Segment (SegmentMap T)),
                      Some Ret, msgs ++ m ++ m')
            end
        end
  end.

(** The bytes of an item of a local set with 2-byte tags and 2-byte
    lengths, and of a set of items. *)
Definition item_bytes (item : Z * list Z) : list Z :=
  be_encode 2 item.1 ++ be_encode 2 (Z.of_nat (length item.2)) ++ item.2.

Definition local_set (items : list (Z * list Z)) : list Z :=
  concat (map item_bytes items).

(** An item that a VBR segment without slices, PosTable and delta
    array may have besides its start position and its entries. *)
Definition plain_item (item : Z * list Z) : bool :=
  if item.1 =? 0x3f0c then false
  else if item.1 =? 0x3f0a then false
  else if item.1 =? 0x3f09 then false
  else if item.1 =? 0x3f05
  then (Z.of_nat (length item.2) <? 4) || (GetI32 item.2 0 =? 0)
  else if (item.1 =? 0x3f08) || (item.1 =? 0x3f0e)
  then byte_at item.2 0 =? 0
  else true.

(** An item of a VBR segment that starts at [S] and has the entry array
    [arr]. *)
Definition segment_item (S : Z) (arr : list Z) (item : Z * list Z) : Prop :=
  plain_item item = true \/ item = (0x3f0c, be_encode 8 S)
  \/ item = (0x3f0a, arr).

(** The tag and the length of an item fit their two bytes, and the
    item has a value. *)
Definition item_fits (item : Z * list Z) : Prop :=
  0 <= item.1 < 2 ^ 16 /\ (0 < length item.2)%nat /\
  Z.of_nat (length item.2) < 2 ^ 16.

(** What reading plain items leaves as it is: the members of the table
    other than its edit rate and its two stream IDs. *)
Definition same_index (T T' : IndexTable) : Prop :=
  EditUnitByteCount T' = EditUnitByteCount T /\
  IndexDuration T' = IndexDuration T /\
  PreCharge T' = PreCharge T /\
  BaseDeltaCount T' = BaseDeltaCount T /\
  BaseDeltaArray T' = BaseDeltaArray T /\
  SegmentMap T' = SegmentMap T /\
  NSL T' = NSL T /\ NPE T' = NPE T /\
  IndexEntrySize T' = IndexEntrySize T.

(** What reading plain items leaves as it is: the locals other than
    the duration. *)
Definition same_items (it it' : SegmentItems) : Prop :=
  pIndexEntryArray it' = pIndexEntryArray it /\
  IndexEntryArraySize it' = IndexEntryArraySize it /\
  pDeltaEntryArray it' = pDeltaEntryArray it /\
  DeltaEntryArraySize it' = DeltaEntryArraySize it /\
  ItemStartPosition it' = ItemStartPosition it /\
  ItemSliceCount it' = ItemSliceCount it /\
  ItemPosTableCount it' = ItemPosTableCount it.

(** ** A segment used to exercise the statements about loading *)

(** Two entries of 11 bytes, for edit units 20 and 21. *)
Definition example_loaded_entries : list Z :=
  example_entry 0 0 128 5000 ++ example_entry 1 (-1) 0 5100.

(** The items of a VBR segment that starts at edit unit 20: the edit
    rate 25/1, the start position, a byte count of 0, IndexSID 2, the
    entry array, and an item with an unknown tag. *)
Definition example_segment_items : list (Z * list Z) :=
  [(0x3f0b, be_encode 4 25 ++ be_encode 4 1);
   (0x3f0c, be_encode 8 20);
   (0x3f05, be_encode 4 0);
   (0x3f06, be_encode 4 2);
   (0x3f0a, be_encode 4 2 ++ be_encode 4 11 ++ example_loaded_entries);
   (0x1234, [7])].

(** The delta entry held in the bytes [d] at offset [q]. *)
Definition delta_of_bytes (d : list Z) (q : Z) : DeltaEntry :=
  mkDeltaEntry (Int8 (byte_at d q)) (byte_at d (q + 1)) (read_bytes d (q + 2) 4).

(** An item that a CBR segment may have besides its byte count, its
    duration and its delta array. *)
Definition cbr_plain_item (item : Z * list Z) : bool :=
  negb ((item.1 =? 0x3f05) || (item.1 =? 0x3f0d) || (item.1 =? 0x3f09)).

(** An item of a CBR segment with the byte count [B], the duration [D]
    and the delta array [darr]. *)
Definition cbr_item (B D : Z) (darr : list Z) (item : Z * list Z) : Prop :=
  cbr_plain_item item = true \/ item = (0x3f05, be_encode 4 B)
  \/ item = (0x3f0d, be_encode 8 D) \/ item = (0x3f09, darr).

(** The members of a table that no item of a segment is stored in. *)
Definition same_segments (T T' : IndexTable) : Prop :=
  IndexDuration T' = IndexDuration T /\
  PreCharge T' = PreCharge T /\
  BaseDeltaCount T' = BaseDeltaCount T /\
  BaseDeltaArray T' = BaseDeltaArray T /\
  SegmentMap T' = SegmentMap T /\
  NSL T' = NSL T /\ NPE T' = NPE T /\
  IndexEntrySize T' = IndexEntrySize T.

(** ** A CBR segment used to exercise the statements about loading *)

(** Two delta entries: the first element at offset 0, the second 256
    bytes in. *)
Definition example_loaded_deltas : list Z :=
  [0; 0; 0; 0; 0; 0] ++ [0; 0; 0; 0; 1; 0].

(** The items of a CBR segment: 1000 bytes per edit unit, a duration
    of 50 edit units, the delta array, and a start position. *)
Definition example_cbr_items : list (Z * list Z) :=
  [(0x3f0c, be_encode 8 0);
   (0x3f05, be_encode 4 1000);
   (0x3f0d, be_encode 8 50);
   (0x3f09, be_encode 4 2 ++ be_encode 4 6 ++ example_loaded_deltas)].

(** ** From [SetOffset] to the index table

    What a caller hands to [IndexManager::SetOffset] for the master
    stream: the edit unit, its stream offset, key offset and flags. *)
Record OffsetCall : Type := mkOffsetCall {
  CallEditUnit : Position;
  CallOffset : Z;
  CallKeyOffset : Z;
  CallFlags : Z
}.

Definition SetOffset_call (c : OffsetCall) : IndexManager.Call :=
  IndexManager.CallSetOffset 0 (CallEditUnit c) (CallOffset c)
    (CallKeyOffset c) (CallFlags c).

(** The entry [SetOffset] leaves for a call on a new edit unit, as far
    as the index table reads it. *)
Definition holds_call (e : IndexManager.IndexData) (c : OffsetCall) : Prop :=
  IndexManager.Status e = 1 /\
  IndexManager.StreamOffset e !! 0%nat = Some (CallOffset c) /\
  IndexManager.KeyOffset e = CallKeyOffset c /\
  IndexManager.Flags e = (if CallFlags c =? -1 then 0 else CallFlags c).

(** A manager of one VBR stream without re-ordering, the master stream,
    with no provisional entry. *)
Definition plain_manager (m : IndexManager.State) : Prop :=
  IndexManager.DataIsCBR m = false /\
  IndexManager.UsesReordering m = false /\
  IndexManager.ProvisionalEntry m = None /\
  IndexManager.MasterStream m = 0 /\
  IndexManager.sizeof_IndexData <= IndexManager.ManagedDataEntrySize m /\
  IndexManager.StreamCount m = 1.

Definition example_offset_calls : list OffsetCall :=
  [mkOffsetCall 0 0 0 128; mkOffsetCall 1 1000 (-1) (-1);
   mkOffsetCall 2 1500 (-2) 0].

(** ** A parked temporal offset and the calls that follow

    Whether a call creates the entry of edit unit [X]: [AddEditUnit]
    and [OfferEditUnit] work on the edit unit less [SubRangeOffset],
    [SetOffset] and [OfferOffset] on the edit unit as given; no other
    call creates an entry. *)
Definition creates_edit_unit (SubRangeOffset X : Position)
    (c : IndexManager.Call) : bool :=
  match c with
  | IndexManager.CallAddEditUnit _ e _ _
  | IndexManager.CallOfferEditUnit _ e _ _ => Int64 (e - SubRangeOffset) =? X
  | IndexManager.CallSetOffset _ e _ _ _
  | IndexManager.CallOfferOffset _ e _ _ _ => e =? X
  | _ => false
  end.

(** Temporal offset [Off] is parked for edit unit [X], which has no
    entry yet, in a VBR manager with sub-range offset [Sub]. *)
Definition parked_for (X : Position) (Off : Z) (Sub : Position)
    (m : IndexManager.State) : Prop :=
  IndexManager.DataIsCBR m = false /\
  IndexManager.SubRangeOffset m = Sub /\
  IndexManager.provisional_for m X = None /\
  IndexManager.ManagedData m !! X = None /\
  IndexManager.UnsatisfiedTemporalOffsets m !! X = Some Off.

(** Calls that follow the parking of an offset for edit unit 0: the
    partner edit unit 2 is created, another offset is parked, a second
    offset is given for edit unit 0, and key offset and flags are set. *)
Definition example_calls_between : list IndexManager.Call :=
  [IndexManager.CallSetOffset 0 2 500 0 (-1);
   IndexManager.CallSetTemporalOffset 5 1;
   IndexManager.CallAddEditUnit 0 3 0 (-1);
   IndexManager.CallSetTemporalOffset 0 7;
   IndexManager.CallSetKeyOffset 2 (-2);
   IndexManager.CallSetFlags 0 128;
   IndexManager.CallAddSubStream 0 0;
   IndexManager.CallFlush 0 10;
   IndexManager.CallMakeIndex].

(** The arrays [AddEntriesToIndex] reads are as long as the stream
    count says: there is at least one stream, [ElementSizeList] has a
    slot for every stream but the last, and every managed entry has a
    [StreamOffset] slot for every stream. *)
Definition streams_in_range (m : IndexManager.State) : Prop :=
  1 <= IndexManager.StreamCount m /\
  IndexManager.StreamCount m - 1
    <= Z.of_nat (length (IndexManager.ElementSizeList m)) /\
  forall E e, IndexManager.ManagedData m !! E = Some e ->
    IndexManager.StreamCount m
      <= Z.of_nat (length (IndexManager.StreamOffset e)).

(** A manager of two VBR streams without re-ordering that has been
    given both stream offsets of edit units 0 and 1. *)
Definition example_manager_sliced : IndexManager.State :=
  IndexManager.run example_Log example_sliced_table (fun _ _ T => T)
    (IndexManager.new 0 0)
    [IndexManager.CallAddSubStream 0 0;
     IndexManager.CallSetOffset 0 0 100 0 128;
     IndexManager.CallSetOffset 1 0 350 0 (-1);
     IndexManager.CallSetOffset 0 1 1000 (-1) (-1);
     IndexManager.CallSetOffset 1 1 1200 0 (-1)].

(* -------------------------------------------------------------------- *)
(** * Properties *)

Section Machine_integers.

Lemma UInt32_small z : 0 <= z < 2 ^ 32 -> UInt32 z = z.
Proof. intros H. unfold UInt32, wrap_unsigned. apply Z.mod_small. exact H. Qed.

Lemma UInt32_range z : 0 <= UInt32 z < 2 ^ 32.
Proof. unfold UInt32, wrap_unsigned. apply Z.mod_pos_bound. lia. Qed.

Lemma Int64_small z : - 2 ^ 63 <= z < 2 ^ 63 -> Int64 z = z.
Proof.
  intros H. unfold Int64, wrap_signed.
  change (2 ^ (64 - 1)) with (2 ^ 63). change (2 ^ 64) with (2 * 2 ^ 63).
  rewrite Z.mod_small; lia.
Qed.

End Machine_integers.

Section Filler.

Variable K : Z.
Variable Min : Z.
Hypothesis HK : 0 < K < 2 ^ 32.
Hypothesis HMin : 0 < Min <= 20.

(** While no addition can overflow 32 bits the loop adds whole KAGs
    until the minimum is reached, and stops at the first such value. *)
Lemma fill_while_nowrap (fuel : nat) (Fill : Z) :
  K + 20 <= 2 ^ 32 -> 0 <= Fill < 2 ^ 32 ->
  (Z.to_nat (Min - Fill) <= fuel)%nat ->
  exists n, 0 <= n /\
    fill_while fuel Min K Fill = Some (Fill + n * K) /\
    Min <= Fill + n * K /\
    (0 < n -> Fill + (n - 1) * K < Min).
Proof.
  intros HKs. revert Fill.
  induction fuel as [|fuel IH]; intros Fill HF Hfuel; simpl.
  - destruct (Z.ltb_spec Fill Min) as [Hlt|Hge]; [lia|].
    exists 0. repeat split; try lia. f_equal. lia.
  - destruct (Z.ltb_spec Fill Min) as [Hlt|Hge].
    + rewrite UInt32_small by lia.
      destruct (IH (Fill + K)) as (n & Hn & Hrun & Hmin & Hleast); [lia|lia|].
      exists (n + 1). repeat split; try lia.
      rewrite Hrun. f_equal. lia.
    + exists 0. repeat split; try lia. f_equal. lia.
Qed.

(** With a KAG within 20 of [2^32] an addition may wrap; the loop then
    counts down until one addition fits, and ends at a value of at least
    one KAG. *)
Lemma fill_while_wrap (fuel : nat) (Fill : Z) :
  2 ^ 32 < K + 20 -> 0 <= Fill < Min ->
  (Z.to_nat Fill < fuel)%nat ->
  exists v, fill_while fuel Min K Fill = Some v /\ K <= v < 2 ^ 32.
Proof.
  intros HKb. revert Fill.
  induction fuel as [|fuel IH]; intros Fill HF Hfuel; [lia|].
  simpl. destruct (Z.ltb_spec Fill Min) as [_|Hge]; [|lia].
  destruct (Z_lt_le_dec (Fill + K) (2 ^ 32)) as [Hfit|Hover].
  - rewrite UInt32_small by lia.
    exists (Fill + K). split; [|lia].
    destruct fuel; simpl; destruct (Z.ltb_spec (Fill + K) Min); try lia; reflexivity.
  - assert (Hw : UInt32 (Fill + K) = Fill + K - 2 ^ 32).
    { unfold UInt32, wrap_unsigned.
      symmetry. apply (Z.mod_unique_pos _ _ 1). lia. lia. }
    rewrite Hw. apply IH; lia.
Qed.

End Filler.

Section Filler_alignment.

Variables P K : Z.
Hypothesis HP : 0 <= P.
Hypothesis HK : 0 < K.
Hypothesis Hr : P mod K <> 0.

(** Every positive filler that ends on the KAG is the distance to the
    next KAG boundary plus whole KAGs. *)
Lemma aligned_shape (S : Z) :
  0 < S -> (P + S) mod K = 0 ->
  exists m, 0 <= m /\ S = (K - P mod K) + m * K.
Proof.
  intros HS Hal.
  pose proof (Z.mod_pos_bound P K HK) as Hb.
  pose proof (Z.div_mod P K ltac:(lia)) as HPd.
  pose proof (Z.div_mod (P + S) K ltac:(lia)) as HSd.
  rewrite Hal in HSd.
  exists ((P + S) / K - P / K - 1). split; [nia|lia].
Qed.

Lemma shape_aligned (m : Z) : (P + ((K - P mod K) + m * K)) mod K = 0.
Proof.
  pose proof (Z.div_mod P K ltac:(lia)) as HPd.
  replace (P + (K - P mod K + m * K)) with ((P / K + 1 + m) * K) by lia.
  apply Z.mod_mul. lia.
Qed.

End Filler_alignment.

(** What the adjusting loop reaches from the distance to the next KAG
    boundary: the least admissible filler, or, when that one is beyond
    the supported maximum, some value beyond the maximum as well. *)
Lemma fill_while_result (P K : Z) (ForceBER4 : bool) (fuel : nat) :
  (21 <= fuel)%nat -> 0 <= P < 2 ^ 63 -> 0 < K < 2 ^ 32 -> P mod K <> 0 ->
  exists v,
    fill_while fuel (MinFiller ForceBER4) K (K - P mod K) = Some v /\
    ((FillsToKAG P K ForceBER4 v /\
      forall S, FillsToKAG P K ForceBER4 S -> v <= S) \/
     (16777215 < v /\
      forall S, FillsToKAG P K ForceBER4 S -> 16777215 < S)).
Proof.
  intros Hfuel HP HK Hr.
  pose proof (Z.mod_pos_bound P K ltac:(lia)) as Hb.
  assert (HMin : 0 < MinFiller ForceBER4 <= 20)
    by (unfold MinFiller; destruct ForceBER4; lia).
  assert (Hshape : forall S, FillsToKAG P K ForceBER4 S ->
            exists m, 0 <= m /\ S = (K - P mod K) + m * K).
  { intros S [HS1 HS2]. apply aligned_shape; lia. }
  destruct (Z_le_gt_dec (K + 20) (2 ^ 32)) as [Hsmall|Hbig].
  - destruct (fill_while_nowrap K (MinFiller ForceBER4) HK HMin fuel (K - P mod K))
      as (n & Hn & Hrun & Hmin & Hleast); [lia|lia|lia|].
    exists (K - P mod K + n * K). split; [exact Hrun|]. left. split.
    + split; [exact Hmin|]. apply shape_aligned; lia.
    + intros S HS. destruct (Hshape S HS) as (m & Hm & ->).
      destruct HS as [HS1 _].
      destruct (Z_le_gt_dec n m) as [Hnm|Hnm].
      * assert (n * K <= m * K) by (apply Z.mul_le_mono_nonneg_r; lia). lia.
      * specialize (Hleast ltac:(lia)).
        assert (m * K <= (n - 1) * K) by (apply Z.mul_le_mono_nonneg_r; lia). lia.
  - destruct (Z_lt_le_dec (K - P mod K) (MinFiller ForceBER4)) as [Hlt|Hge].
    + destruct (fill_while_wrap K (MinFiller ForceBER4) HK HMin fuel (K - P mod K))
        as (v & Hrun & Hv); [lia|lia|lia|].
      exists v. split; [exact Hrun|]. right. split; [lia|].
      intros S HS. destruct (Hshape S HS) as (m & Hm & ->).
      destruct HS as [HS1 _].
      assert (1 <= m).
      { destruct (Z_le_gt_dec 1 m); [assumption|].
        assert (m = 0) as -> by lia. lia. }
      assert (1 * K <= m * K) by (apply Z.mul_le_mono_nonneg_r; lia). lia.
    + exists (K - P mod K). split.
      * destruct fuel; simpl;
          destruct (Z.ltb_spec (K - P mod K) (MinFiller ForceBER4)); try lia; reflexivity.
      * left. split.
        -- split; [lia|]. replace (K - P mod K) with (K - P mod K + 0 * K) by lia.
           apply shape_aligned; lia.
        -- intros S HS. destruct (Hshape S HS) as (m & Hm & ->).
           assert (0 <= m * K) by (apply Z.mul_nonneg_nonneg; lia). lia.
Qed.

(** C3. For a position [P >= 0] and a KAG [K > 0]: an aligned position
    needs no filler; otherwise, when some admissible filler (at least 17
    bytes, 20 with a forced 4-byte BER length, ending on the KAG) of at
    most 0x00FFFFFF bytes exists, [CalcFillerSize] returns the least such
    filler and reports nothing; and when every admissible filler exceeds
    0x00FFFFFF bytes it reports an error and returns exactly 0x00FFFFFF. *)
Theorem CalcFillerSize_spec (fuel : nat) (P K : Z) (ForceBER4 : bool) :
  (21 <= fuel)%nat -> 0 <= P < 2 ^ 63 -> 0 < K < 2 ^ 32 ->
  (P mod K = 0 -> CalcFillerSize fuel P K ForceBER4 = Some (0, [])) /\
  (P mod K <> 0 ->
   (exists S0, FillsToKAG P K ForceBER4 S0 /\ S0 <= 16777215) ->
   exists S, CalcFillerSize fuel P K ForceBER4 = Some (S, []) /\
     (P + S) mod K = 0 /\ MinFiller ForceBER4 <= S /\
     forall S', FillsToKAG P K ForceBER4 S' -> S <= S') /\
  (P mod K <> 0 ->
   (forall S, FillsToKAG P K ForceBER4 S -> 16777215 < S) ->
   exists Fill, CalcFillerSize fuel P K ForceBER4
                = Some (16777215, [FillerTooLarge P K Fill])).
Proof.
  intros Hfuel HP HK.
  pose proof (Z.mod_pos_bound P K ltac:(lia)) as Hb.
  assert (Hrem : Z.rem P K = P mod K) by (apply Z.rem_mod_nonneg; lia).
  assert (HK0 : (K =? 0) = false) by (apply Z.eqb_neq; lia).
  unfold CalcFillerSize. rewrite HK0, Hrem, (UInt32_small (P mod K)) by lia.
  split; [|split].
  - intros ->. reflexivity.
  - intros Hr (S0 & HS0 & HS0max).
    assert (Hne : (P mod K =? 0) = false) by (apply Z.eqb_neq; exact Hr).
    rewrite Hne, (UInt32_small (K - P mod K)) by lia.
    destruct (fill_while_result P K ForceBER4 fuel Hfuel HP HK Hr)
      as (v & Hrun & [[Hv Hleast]|[Hv Hnone]]).
    + unfold MinFiller in Hrun. rewrite Hrun.
      assert (v <= 16777215) by (specialize (Hleast S0 HS0); lia).
      destruct (Z.ltb_spec 16777215 v); [lia|].
      exists v. destruct Hv as [Hv1 Hv2]. auto.
    + specialize (Hnone S0 HS0). lia.
  - intros Hr Hnone.
    assert (Hne : (P mod K =? 0) = false) by (apply Z.eqb_neq; exact Hr).
    rewrite Hne, (UInt32_small (K - P mod K)) by lia.
    destruct (fill_while_result P K ForceBER4 fuel Hfuel HP HK Hr)
      as (v & Hrun & [[Hv Hleast]|[Hv _]]).
    + unfold MinFiller in Hrun. rewrite Hrun.
      specialize (Hnone v Hv).
      destruct (Z.ltb_spec 16777215 v); [|lia]. eauto.
    + unfold MinFiller in Hrun. rewrite Hrun.
      destruct (Z.ltb_spec 16777215 v); [|lia]. eauto.
Qed.

(** With 21 steps of fuel the function returns for every position and
    KAG in range. *)
Lemma CalcFillerSize_returns (fuel : nat) (P K : Z) (ForceBER4 : bool) :
  (21 <= fuel)%nat -> 0 <= P < 2 ^ 63 -> 0 < K < 2 ^ 32 ->
  exists r, CalcFillerSize fuel P K ForceBER4 = Some r.
Proof.
  intros Hfuel HP HK.
  pose proof (Z.mod_pos_bound P K ltac:(lia)) as Hb.
  assert (Hrem : Z.rem P K = P mod K) by (apply Z.rem_mod_nonneg; lia).
  assert (HK0 : (K =? 0) = false) by (apply Z.eqb_neq; lia).
  unfold CalcFillerSize. rewrite HK0, Hrem, (UInt32_small (P mod K)) by lia.
  destruct (Z.eqb_spec (P mod K) 0) as [|Hr]; [eauto|].
  rewrite (UInt32_small (K - P mod K)) by lia.
  destruct (fill_while_result P K ForceBER4 fuel Hfuel HP HK Hr) as (v & Hrun & _).
  unfold MinFiller in Hrun. rewrite Hrun.
  destruct (16777215 <? v); eauto.
Qed.

(** KAG 512, forced 4-byte BER, position 1000: a filler of 24 bytes. *)
Lemma CalcFillerSize_spec_witness :
  CalcFillerSize 21 1000 512 true = Some (24, []) /\
  (1000 + 24) mod 512 = 0.
Proof.
  destruct (CalcFillerSize_spec 21 1000 512 true) as (_ & Hfill & _);
    [lia | lia | lia |].
  destruct Hfill as (S & Hrun & Hal & _).
  - discriminate.
  - exists 24. split; [split; [simpl; lia | reflexivity] | lia].
  - vm_compute in Hrun. injection Hrun as <-. split; reflexivity.
Defined.

Section OrderedMap_facts.

Context {V : Type}.
Implicit Types (m : list (Z * V)) (k : Z) (v : V).

Lemma smap_sorted_cons_inv k v m :
  smap_sorted ((k, v) :: m) ->
  smap_sorted m /\ forall j k' v', m !! j = Some (k', v') -> k < k'.
Proof.
  unfold smap_sorted. rewrite fmap_cons. intros H.
  apply StronglySorted_inv in H as [Hs Hall]. split; [exact Hs|].
  intros j k' v' Hj. rewrite Forall_fmap, Forall_lookup in Hall.
  exact (Hall j (k', v') Hj).
Qed.

Lemma smap_sorted_lookup_lt m i j k1 v1 k2 v2 :
  smap_sorted m -> (i < j)%nat ->
  m !! i = Some (k1, v1) -> m !! j = Some (k2, v2) -> k1 < k2.
Proof.
  revert i j. induction m as [|[k v] m IH]; intros i j Hs Hij Hi Hj; [done|].
  apply smap_sorted_cons_inv in Hs as [Hs Hhd].
  destruct i as [|i], j as [|j]; simpl in *; try lia.
  - injection Hi as <- <-. eauto.
  - apply (IH i j Hs ltac:(lia) Hi Hj).
Qed.

Lemma smap_find_le m k : (smap_find k m <= length m)%nat.
Proof.
  induction m as [|[k' v'] m IH]; simpl; [lia|].
  destruct (k' =? k); lia.
Qed.

Lemma smap_find_Some m k i v :
  smap_sorted m -> m !! i = Some (k, v) -> smap_find k m = i.
Proof.
  revert i. induction m as [|[k' v'] m IH]; intros i Hs Hi; [done|].
  apply smap_sorted_cons_inv in Hs as [Hs Hhd]. simpl.
  destruct i as [|i]; simpl in Hi.
  - injection Hi as -> ->. rewrite Z.eqb_refl. reflexivity.
  - specialize (Hhd _ _ _ Hi).
    destruct (Z.eqb_spec k' k); [lia|]. f_equal. eauto.
Qed.

Lemma smap_find_found m k :
  (smap_find k m < length m)%nat ->
  exists v, m !! smap_find k m = Some (k, v).
Proof.
  induction m as [|[k' v'] m IH]; simpl; [lia|].
  destruct (Z.eqb_spec k' k) as [->|Hne]; intros H.
  - eauto.
  - simpl. apply IH. lia.
Qed.

Lemma smap_find_absent m k j k' v :
  smap_find k m = length m -> m !! j = Some (k', v) -> k' <> k.
Proof.
  revert j. induction m as [|[k0 v0] m IH]; intros j; simpl; [done|].
  destruct (Z.eqb_spec k0 k) as [->|Hne]; [done|].
  intros Hf. injection Hf as Hf. destruct j as [|j]; simpl.
  - intros [= <- <-]. exact Hne.
  - eauto.
Qed.

Lemma smap_lower_bound_le m k : (smap_lower_bound k m <= length m)%nat.
Proof.
  induction m as [|[k' v'] m IH]; simpl; [lia|].
  destruct (k' <? k); lia.
Qed.

(** On an ordered map the positions before [lower_bound(k)] are exactly
    those whose key is less than [k]. *)
Lemma smap_lower_bound_spec m k j k' v :
  smap_sorted m -> m !! j = Some (k', v) ->
  (j < smap_lower_bound k m)%nat <-> k' < k.
Proof.
  revert j. induction m as [|[k0 v0] m IH]; intros j Hs Hj; [done|].
  apply smap_sorted_cons_inv in Hs as [Hs Hhd]. simpl.
  destruct j as [|j]; simpl in Hj.
  - injection Hj as -> ->. destruct (Z.ltb_spec k' k); split; lia.
  - specialize (Hhd _ _ _ Hj). specialize (IH j Hs Hj).
    destruct (Z.ltb_spec k0 k).
    + rewrite <- IH. lia.
    + split; lia.
Qed.

End OrderedMap_facts.

Section Locate.

Variable T : IndexTable.
Variable E : Z.
Hypothesis Hsorted : smap_sorted (SegmentMap T).

(** The walk ends on the segment with the greatest start position not
    after [E], or at [end()] when every segment starts after [E]. *)
Lemma IndexTable_locate_spec :
  match SegmentMap T !! IndexTable_locate T E with
  | Some (k, s) =>
      k <= E /\
      forall j k' s', SegmentMap T !! j = Some (k', s') ->
        k' <= E -> (j <= IndexTable_locate T E)%nat
  | None =>
      (length (SegmentMap T) <= IndexTable_locate T E)%nat /\
      forall j k' s', SegmentMap T !! j = Some (k', s') -> E < k'
  end.
Proof.
  unfold IndexTable_locate, smap_end.
  pose proof (smap_find_le (SegmentMap T) E) as Hfle.
  destruct (Nat.eqb_spec (smap_find E (SegmentMap T)) (length (SegmentMap T)))
    as [Hend|Hfound].
  - assert (Hne : forall j k' s', SegmentMap T !! j = Some (k', s') -> k' <> E)
      by (intros j k' s'; apply smap_find_absent; exact Hend).
    destruct (Nat.eqb_spec (length (SegmentMap T)) 0) as [Hlen|Hlen]; simpl.
    { rewrite Hend. rewrite lookup_ge_None_2 by lia. split; [lia|].
      intros j k' s' Hj. apply lookup_lt_Some in Hj. lia. }
    pose proof (smap_lower_bound_le (SegmentMap T) E) as Hlble.
    destruct (Nat.eqb_spec (smap_lower_bound E (SegmentMap T)) 0) as [Hlb|Hlb]; simpl.
    + rewrite lookup_ge_None_2 by lia. split; [lia|].
      intros j k' s' Hj.
      pose proof (smap_lower_bound_spec _ E _ _ _ Hsorted Hj) as Hspec.
      specialize (Hne _ _ _ Hj). rewrite Hlb in Hspec.
      destruct (Z_lt_le_dec k' E) as [Hlt|Hge]; [apply Hspec in Hlt; lia|lia].
    + destruct (lookup_lt_is_Some_2 (SegmentMap T)
                  (Nat.pred (smap_lower_bound E (SegmentMap T))) ltac:(lia))
        as [[k s] Hks].
      rewrite Hks.
      pose proof (smap_lower_bound_spec _ E _ _ _ Hsorted Hks) as Hspec.
      split; [apply Z.lt_le_incl, Hspec; lia|].
      intros j k' s' Hj Hle.
      pose proof (smap_lower_bound_spec _ E _ _ _ Hsorted Hj) as Hspec'.
      specialize (Hne _ _ _ Hj).
      assert (k' < E) as Hlt by lia. apply Hspec' in Hlt. lia.
  - destruct (smap_find_found (SegmentMap T) E ltac:(lia)) as [v Hv].
    rewrite Hv. split; [lia|].
    intros j k' s' Hj Hle.
    destruct (Nat.le_gt_cases j (smap_find E (SegmentMap T))) as [|Hgt]; [assumption|].
    pose proof (smap_sorted_lookup_lt _ _ _ _ _ _ _ Hsorted Hgt Hv Hj). lia.
Qed.

(** [GetSegment] spells the walk without the test for an empty map; it
    reaches the same iterator. *)
Lemma GetSegment_walk :
  (let m := SegmentMap T in
   let it := smap_find E m in
   if Nat.eqb it (smap_end m) then
     let it := smap_lower_bound E m in
     if negb (Nat.eqb it O) then Nat.pred it else smap_end m
   else it) = IndexTable_locate T E.
Proof.
  unfold IndexTable_locate, smap_end. cbv zeta.
  destruct (Nat.eqb_spec (smap_find E (SegmentMap T)) (length (SegmentMap T)))
    as [Hend|]; [|reflexivity].
  destruct (Nat.eqb_spec (length (SegmentMap T)) 0) as [Hlen|]; [|reflexivity].
  simpl. pose proof (smap_lower_bound_le (SegmentMap T) E).
  replace (smap_lower_bound E (SegmentMap T)) with O by lia. simpl. lia.
Qed.

End Locate.

Section OrderedMap_insert.

Context {V : Type}.
Implicit Types (m : list (Z * V)) (k : Z) (v : V).

Lemma elem_of_smap_insert_inv m k v k' v' :
  (k', v') ∈ smap_insert k v m -> (k', v') = (k, v) \/ (k', v') ∈ m.
Proof.
  induction m as [|[k0 v0] m IH]; simpl.
  - intros H%list_elem_of_singleton. auto.
  - destruct (k <? k0); [rewrite elem_of_cons; tauto|].
    destruct (k =? k0); [tauto|].
    rewrite !elem_of_cons. intros [->|H]; [auto|]. destruct (IH H); auto.
Qed.

Lemma elem_of_smap_insert_old m k v k' v' :
  (k', v') ∈ m -> (k', v') ∈ smap_insert k v m.
Proof.
  induction m as [|[k0 v0] m IH]; simpl; [by intros ?%elem_of_nil|].
  destruct (k <? k0); [rewrite (elem_of_cons (_ :: _)); tauto|].
  destruct (k =? k0); [tauto|].
  rewrite !elem_of_cons. intros [->|H]; auto.
Qed.

Lemma elem_of_smap_insert_new m k v :
  (forall v', (k, v') ∉ m) -> (k, v) ∈ smap_insert k v m.
Proof.
  induction m as [|[k0 v0] m IH]; simpl; intros Hnew.
  - apply list_elem_of_singleton. reflexivity.
  - destruct (k <? k0); [apply elem_of_cons; auto|].
    destruct (Z.eqb_spec k k0) as [->|Hne].
    + exfalso. apply (Hnew v0). apply elem_of_cons. auto.
    + apply elem_of_cons. right. apply IH.
      intros v' Hin. apply (Hnew v'). apply elem_of_cons. auto.
Qed.

Lemma smap_sorted_cons k v m :
  smap_sorted m -> (forall k' v', (k', v') ∈ m -> k < k') ->
  smap_sorted ((k, v) :: m).
Proof.
  intros Hs Hlt. unfold smap_sorted. rewrite fmap_cons.
  apply SSorted_cons; [exact Hs|].
  rewrite Forall_fmap, Forall_forall. intros [k' v'] Hin. simpl. eauto.
Qed.

Lemma smap_sorted_cons_elem k v m :
  smap_sorted ((k, v) :: m) ->
  smap_sorted m /\ forall k' v', (k', v') ∈ m -> k < k'.
Proof.
  intros H. apply smap_sorted_cons_inv in H as [Hs Hlt]. split; [exact Hs|].
  intros k' v' [j Hj]%list_elem_of_lookup. eauto.
Qed.

Lemma smap_insert_sorted m k v :
  smap_sorted m -> smap_sorted (smap_insert k v m).
Proof.
  induction m as [|[k0 v0] m IH]; simpl; intros Hs.
  - apply smap_sorted_cons; [exact Hs|]. by intros ?? ?%elem_of_nil.
  - pose proof Hs as Hs0.
    apply smap_sorted_cons_elem in Hs as [Hs Hlt].
    destruct (Z.ltb_spec k k0) as [Hk|Hk].
    + apply smap_sorted_cons; [exact Hs0|].
      intros k' v' [[= -> ->]|Hin]%elem_of_cons; [lia|].
      specialize (Hlt _ _ Hin). lia.
    + destruct (Z.eqb_spec k k0) as [->|Hne]; [exact Hs0|].
      apply smap_sorted_cons; [auto|].
      intros k' v' [[= -> ->]|Hin]%elem_of_smap_insert_inv; [lia|eauto].
Qed.

(** Keys of an ordered map are unique. *)
Lemma smap_sorted_functional m k v v' :
  smap_sorted m -> (k, v) ∈ m -> (k, v') ∈ m -> v = v'.
Proof.
  intros Hs [i Hi]%list_elem_of_lookup [j Hj]%list_elem_of_lookup.
  destruct (Nat.lt_trichotomy i j) as [Hij|[->|Hij]].
  - pose proof (smap_sorted_lookup_lt _ _ _ _ _ _ _ Hs Hij Hi Hj). lia.
  - congruence.
  - pose proof (smap_sorted_lookup_lt _ _ _ _ _ _ _ Hs Hij Hj Hi). lia.
Qed.

End OrderedMap_insert.

Section Segments.

Lemma IndexTable_AddSegment_absent (T : IndexTable) (E : Z) :
  (forall s, (E, s) ∉ SegmentMap T) ->
  IndexTable_AddSegment T E =
    (with_SegmentMap T
       (smap_insert E (AddIndexSegmentToIndexTable T E) (SegmentMap T)), E).
Proof.
  intros Habs. unfold IndexTable_AddSegment, smap_deref.
  pose proof (smap_find_le (SegmentMap T) E) as Hle.
  destruct (Nat.eq_dec (smap_find E (SegmentMap T)) (length (SegmentMap T)))
    as [Hend|Hfound].
  - rewrite lookup_ge_None_2 by lia. reflexivity.
  - destruct (smap_find_found (SegmentMap T) E ltac:(lia)) as [v Hv].
    exfalso. apply (Habs v). apply list_elem_of_lookup. eauto.
Qed.

Lemma wf_IndexTable_insert (T : IndexTable) (E : Z) :
  wf_IndexTable T -> - 2 ^ 63 < E < 2 ^ 63 ->
  (forall k s, (k, s) ∈ SegmentMap T -> ~ covers s E) ->
  wf_IndexTable
    (with_SegmentMap T
       (smap_insert E (AddIndexSegmentToIndexTable T E) (SegmentMap T))).
Proof.
  intros (Hsize & Hsorted & Hsegs & Hdisj) HE Hnone.
  unfold wf_IndexTable. simpl. split; [lia|]. split; [|split].
  - apply smap_insert_sorted, Hsorted.
  - intros k s [[= -> ->]|Hin]%elem_of_smap_insert_inv; [|auto].
    unfold wf_segment. simpl. lia.
  - intros k1 s1 k2 s2 H1 H2 Hlt.
    apply elem_of_smap_insert_inv in H1 as [[= -> ->]|H1];
      apply elem_of_smap_insert_inv in H2 as [[= -> ->]|H2]; simpl.
    + lia.
    + lia.
    + specialize (Hnone _ _ H1). destruct (Hsegs _ _ H1) as (Hst & _ & Hcnt & _).
      unfold covers in Hnone. lia.
    + eauto.
Qed.

End Segments.

(** C8. On a well-formed table, [GetSegment(E)] returns a segment of the
    table that contains [E] or has [E] as the first edit unit beyond its
    last entry whenever the table holds such a segment (the segment
    containing [E] when there is one), and leaves the table as it is;
    otherwise it creates an empty segment starting at [E], adds it to
    the table under [E], and returns it. *)
Theorem IndexTable_GetSegment_spec (T : IndexTable) (E : Z) :
  wf_IndexTable T -> - 2 ^ 63 < E < 2 ^ 63 ->
  exists T' p, IndexTable_GetSegment T E = (T', p) /\
    ((exists k s, (k, s) ∈ SegmentMap T /\ covers s E) ->
       T' = T /\
       exists s', (p, s') ∈ SegmentMap T /\ covers s' E /\
         forall k s, (k, s) ∈ SegmentMap T -> contains s E -> s = s') /\
    ((forall k s, (k, s) ∈ SegmentMap T -> ~ covers s E) ->
       let Segment := AddIndexSegmentToIndexTable T E in
       p = E /\ StartPosition Segment = E /\ EntryCount Segment = 0 /\
       IndexEntryArray Segment = [] /\
       (E, Segment) ∈ SegmentMap T' /\
       (forall k s, (k, s) ∈ SegmentMap T' <->
                    (k, s) = (E, Segment) \/ (k, s) ∈ SegmentMap T) /\
       wf_IndexTable T').
Proof.
  intros Hwf HE. pose proof Hwf as (Hsize & Hsorted & Hsegs & Hdisj).
  (* the outcome when a new segment is added *)
  assert (Hcreate : (forall k s, (k, s) ∈ SegmentMap T -> ~ covers s E) ->
    exists T' p, IndexTable_AddSegment T E = (T', p) /\
    ((exists k s, (k, s) ∈ SegmentMap T /\ covers s E) ->
       T' = T /\
       exists s', (p, s') ∈ SegmentMap T /\ covers s' E /\
         forall k s, (k, s) ∈ SegmentMap T -> contains s E -> s = s') /\
    ((forall k s, (k, s) ∈ SegmentMap T -> ~ covers s E) ->
       let Segment := AddIndexSegmentToIndexTable T E in
       p = E /\ StartPosition Segment = E /\ EntryCount Segment = 0 /\
       IndexEntryArray Segment = [] /\
       (E, Segment) ∈ SegmentMap T' /\
       (forall k s, (k, s) ∈ SegmentMap T' <->
                    (k, s) = (E, Segment) \/ (k, s) ∈ SegmentMap T) /\
       wf_IndexTable T')).
  { intros Hnone.
    assert (Habs : forall s, (E, s) ∉ SegmentMap T).
    { intros s Hin. apply (Hnone _ _ Hin).
      destruct (Hsegs _ _ Hin) as (Hst & _ & Hcnt & _). unfold covers. lia. }
    rewrite IndexTable_AddSegment_absent by exact Habs.
    eexists _, _. split; [reflexivity|]. split.
    - intros (k & s & Hin & Hcov). exfalso. exact (Hnone _ _ Hin Hcov).
    - intros _. simpl. do 4 (split; [reflexivity|]). split; [|split].
      + apply elem_of_smap_insert_new. exact Habs.
      + intros k s. split.
        * apply elem_of_smap_insert_inv.
        * intros [[= -> ->]|Hin].
          -- apply elem_of_smap_insert_new. exact Habs.
          -- apply elem_of_smap_insert_old. exact Hin.
      + apply wf_IndexTable_insert; assumption. }
  unfold IndexTable_GetSegment. cbv zeta.
  pose proof (GetSegment_walk T E) as Hwalk. cbv zeta in Hwalk. rewrite Hwalk.
  pose proof (IndexTable_locate_spec T E Hsorted) as Hloc.
  unfold smap_deref.
  destruct (SegmentMap T !! IndexTable_locate T E) as [[first second]|] eqn:Hit.
  - destruct Hloc as [Hfirst Hlast].
    assert (Hin : (first, second) ∈ SegmentMap T)
      by (apply list_elem_of_lookup; eauto).
    destruct (Hsegs _ _ Hin) as (Hst & Hlow & Hcnt & Hhigh & _).
    destruct (Z.gtb_spec first E) as [|_]; [lia|].
    rewrite Int64_small by lia.
    (* a segment that covers [E] and is not the one found ends where the
       one found starts, so [E] is the start of the one found *)
    assert (Hother : forall k s, (k, s) ∈ SegmentMap T -> covers s E ->
              s = second \/ (k + EntryCount s <= first /\ first = E)).
    { intros k s Hks Hcov. pose proof Hks as [j Hj]%list_elem_of_lookup.
      destruct (Hsegs _ _ Hks) as (Hst' & _ & Hcnt' & _).
      unfold covers in Hcov. rewrite Hst' in Hcov.
      specialize (Hlast _ _ _ Hj ltac:(lia)).
      destruct (Nat.eq_dec j (IndexTable_locate T E)) as [->|Hne].
      - left. congruence.
      - right.
        assert (k < first)
          by (eapply (smap_sorted_lookup_lt _ j (IndexTable_locate T E));
              eauto; lia).
        specialize (Hdisj _ _ _ _ Hks Hin ltac:(lia)). lia. }
    destruct (Z.gtb_spec E (StartPosition second + EntryCount second)) as [Hbeyond|Hfits].
    + apply Hcreate. intros k s Hks Hcov.
      destruct (Hother _ _ Hks Hcov) as [->|[_ Heq]]; unfold covers in *; lia.
    + eexists _, _. split; [reflexivity|]. split.
      * intros _. split; [reflexivity|]. exists second.
        split; [exact Hin|]. split; [unfold covers; lia|].
        intros k s Hks Hcon.
        destruct (Hother _ _ Hks) as [->|[Hend _]];
          [unfold covers, contains in *; lia|reflexivity|].
        destruct (Hsegs _ _ Hks) as (Hst' & _). unfold contains in Hcon. lia.
      * intros Hnone. exfalso. apply (Hnone _ _ Hin). unfold covers. lia.
  - destruct Hloc as [_ Hafter]. apply Hcreate.
    intros k s Hks Hcov. pose proof Hks as [j Hj]%list_elem_of_lookup.
    specialize (Hafter _ _ _ Hj).
    destruct (Hsegs _ _ Hks) as (Hst' & _). unfold covers in Hcov. lia.
Qed.

Lemma example_table_wf : wf_IndexTable example_table.
Proof.
  unfold wf_IndexTable, example_table. simpl. split; [lia|]. split; [|split].
  - unfold smap_sorted. simpl. repeat constructor.
  - intros k s Hin. unfold wf_segment.
    apply elem_of_cons in Hin as [[= -> ->]|Hin]; [simpl; lia|].
    apply list_elem_of_singleton in Hin as [= -> ->]. simpl. lia.
  - intros k1 s1 k2 s2 H1 H2 Hlt.
    apply elem_of_cons in H1 as [[= -> ->]|H1];
      [|apply list_elem_of_singleton in H1 as [= -> ->]];
      (apply elem_of_cons in H2 as [[= -> ->]|H2];
       [|apply list_elem_of_singleton in H2 as [= -> ->]]);
      simpl; lia.
Qed.

(** Edit unit 3 is the free slot after the segment at 0, which is
    returned; the table is left as it was. *)
Lemma IndexTable_GetSegment_spec_witness :
  wf_IndexTable example_table /\
  IndexTable_GetSegment example_table 3 = (example_table, 0).
Proof.
  split; [exact example_table_wf|].
  destruct (IndexTable_GetSegment_spec example_table 3 example_table_wf ltac:(lia))
    as (T' & p & Hrun & Hcov & _).
  rewrite Hrun. destruct Hcov as [-> _].
  - exists 0, example_segment0. split; [apply elem_of_cons; auto|].
    unfold covers. simpl. lia.
  - vm_compute in Hrun. injection Hrun as <-. reflexivity.
Defined.

Section Lookup_facts.

Lemma Int64_range z : - 2 ^ 63 <= Int64 z < 2 ^ 63.
Proof.
  unfold Int64, wrap_signed.
  change (2 ^ (64 - 1)) with (2 ^ 63). change (2 ^ 64) with (2 * 2 ^ 63).
  pose proof (Z.mod_pos_bound (z + 2 ^ 63) (2 * 2 ^ 63) ltac:(lia)). lia.
Qed.

(** A wrapped sum wraps to what the exact sum wraps to. *)
Lemma Int64_add_idemp a b : Int64 (Int64 a + b) = Int64 (a + b).
Proof.
  unfold Int64, wrap_signed. f_equal.
  replace ((a + 2 ^ (64 - 1)) mod 2 ^ 64 - 2 ^ (64 - 1) + b + 2 ^ (64 - 1))
    with ((a + 2 ^ (64 - 1)) mod 2 ^ 64 + b) by lia.
  rewrite Zplus_mod_idemp_l. f_equal. lia.
Qed.

(** A call with [Reorder = false] never reaches the recursive call. *)
Lemma Lookup_body_noreorder self1 self2 T E SubItem :
  Lookup_body self1 T E SubItem false = Lookup_body self2 T E SubItem false.
Proof. reflexivity. Qed.

(** The recursive call is always made with [Reorder = false]. *)
Lemma Lookup_body_ext self1 self2 T E SubItem Reorder :
  (forall E' S', self1 E' S' false = self2 E' S' false) ->
  Lookup_body self1 T E SubItem Reorder = Lookup_body self2 T E SubItem Reorder.
Proof.
  intros Hself. unfold Lookup_body.
  destruct (negb (EditUnitByteCount T =? 0)); [reflexivity|].
  destruct (smap_deref (SegmentMap T) (IndexTable_locate T E))
    as [[first Segment]|]; [|reflexivity].
  repeat (match goal with |- context [if ?c then _ else _] =>
            destruct c; try reflexivity end).
  rewrite Hself. reflexivity.
Qed.

(** [IndexTable_Lookup] satisfies the recursive equation of the source. *)
Lemma IndexTable_Lookup_unfold T E SubItem Reorder :
  IndexTable_Lookup T E SubItem Reorder
  = Lookup_body (IndexTable_Lookup T) T E SubItem Reorder.
Proof.
  unfold IndexTable_Lookup at 1. apply Lookup_body_ext.
  intros E' S'. reflexivity.
Qed.

End Lookup_facts.

(** C1. In a CBR table (EditUnitByteCount non-zero), for sub-item 0, and
    for a sub-item inside the delta array whose DeltaEntry has Slice 0,
    [Lookup] returns an exact result whose Location is
    [E * EditUnitByteCount] plus the sub-item's ElementDelta (nothing is
    added for sub-item 0): as a 64-bit value always, and as the integer
    itself whenever that is a valid [Position]. *)
Theorem IndexTable_Lookup_CBR (T : IndexTable) (E SubItem : Z) (Reorder : bool) :
  EditUnitByteCount T <> 0 ->
  SubItem = 0 \/
  (0 < SubItem < BaseDeltaCount T /\
   Slice (delta_at (BaseDeltaArray T) SubItem) = 0) ->
  let Delta :=
    if SubItem =? 0 then 0
    else GetU32 (ElementDelta (delta_at (BaseDeltaArray T) SubItem)) 0 in
  let Ret := fst (IndexTable_Lookup T E SubItem Reorder) in
  Location Ret = Int64 (E * EditUnitByteCount T + Delta) /\
  (is_Int64 (E * EditUnitByteCount T + Delta) ->
   Location Ret = E * EditUnitByteCount T + Delta) /\
  Exact Ret = true /\ ThisPos Ret = E /\
  snd (IndexTable_Lookup T E SubItem Reorder) = [].
Proof.
  intros Hcbr Hsub Delta Ret.
  assert (Hloc : Location Ret = Int64 (E * EditUnitByteCount T + Delta)
                 /\ Exact Ret = true /\ ThisPos Ret = E
                 /\ snd (IndexTable_Lookup T E SubItem Reorder) = []).
  { subst Ret Delta. unfold IndexTable_Lookup, Lookup_body.
    apply Z.eqb_neq in Hcbr. rewrite Hcbr. simpl negb. cbv iota.
    destruct Hsub as [->|[Hrange Hslice]].
    - simpl. rewrite Z.add_0_r. auto.
    - destruct (Z.eqb_spec SubItem 0) as [|_]; [lia|].
      destruct (Z.geb_spec SubItem (BaseDeltaCount T)) as [|_]; [lia|].
      rewrite Hslice. simpl. rewrite Int64_add_idemp. auto. }
  destruct Hloc as (Hl & He & Hp & Hd). repeat split; try assumption.
  intros Hfit. rewrite Hl. apply Int64_small. exact Hfit.
Qed.

(** Edit unit 3, second element: 3 * 1000 + 256. *)
Lemma IndexTable_Lookup_CBR_witness :
  Location (fst (IndexTable_Lookup example_cbr_table 3 1 true)) = 3256 /\
  Exact (fst (IndexTable_Lookup example_cbr_table 3 1 true)) = true.
Proof.
  destruct (IndexTable_Lookup_CBR example_cbr_table 3 1 true)
    as (_ & Hloc & Hexact & _).
  - simpl. lia.
  - right. simpl. split; [lia|reflexivity].
  - split; [|exact Hexact]. rewrite Hloc; [reflexivity|].
    unfold is_Int64. vm_compute. split; [discriminate|reflexivity].
Defined.

Section Locate_entry.

Variable T : IndexTable.
Hypothesis Hwf : wf_IndexTable T.

(** The walk for an edit unit that has an entry ends on the segment
    holding that entry. *)
Lemma IndexTable_locate_contains (E k : Z) (Segment : IndexSegment) :
  (k, Segment) ∈ SegmentMap T -> contains Segment E ->
  SegmentMap T !! IndexTable_locate T E = Some (k, Segment).
Proof.
  destruct Hwf as (Hsize & Hsorted & Hsegs & Hdisj).
  intros Hin Hcon. pose proof Hin as [i Hi]%list_elem_of_lookup.
  destruct (Hsegs _ _ Hin) as (Hst & _ & Hcnt & _).
  unfold contains in Hcon. rewrite Hst in Hcon.
  pose proof (IndexTable_locate_spec T E Hsorted) as Hloc.
  destruct (SegmentMap T !! IndexTable_locate T E) as [[k' s']|] eqn:Hit.
  - destruct Hloc as [Hk' Hlast].
    specialize (Hlast _ _ _ Hi ltac:(lia)).
    destruct (Nat.eq_dec i (IndexTable_locate T E)) as [->|Hne]; [congruence|].
    assert (k < k')
      by (eapply (smap_sorted_lookup_lt _ i (IndexTable_locate T E)); eauto; lia).
    assert (Hin' : (k', s') ∈ SegmentMap T) by (apply list_elem_of_lookup; eauto).
    specialize (Hdisj _ _ _ _ Hin Hin' ltac:(lia)). lia.
  - destruct Hloc as [_ Hafter]. specialize (Hafter _ _ _ Hi). lia.
Qed.

(** The byte offset of an entry, as the source computes it, is the
    exact product and lies inside the entry array. *)
Lemma entry_offset_exact (E k : Z) (Segment : IndexSegment) :
  (k, Segment) ∈ SegmentMap T -> contains Segment E ->
  Int64 (Int64 (E - StartPosition Segment) * IndexEntrySize T)
    = (E - k) * IndexEntrySize T /\
  0 <= (E - k) * IndexEntrySize T /\
  (E - k) * IndexEntrySize T + IndexEntrySize T
    <= Z.of_nat (length (IndexEntryArray Segment)).
Proof.
  destruct Hwf as (Hsize & Hsorted & Hsegs & Hdisj).
  intros Hin Hcon. destruct (Hsegs _ _ Hin) as (Hst & Hlow & Hcnt & Hhigh & Hlen).
  unfold contains in Hcon. rewrite Hst in *.
  assert (0 <= (E - k) * IndexEntrySize T) by (apply Z.mul_nonneg_nonneg; lia).
  assert ((E - k) * IndexEntrySize T < 2 ^ 31 * 2 ^ 31)
    by (apply Z.mul_lt_mono_nonneg; lia).
  assert ((E - k + 1) * IndexEntrySize T <= EntryCount Segment * IndexEntrySize T)
    by (apply Z.mul_le_mono_nonneg_r; lia).
  rewrite (Int64_small (E - k)) by lia.
  rewrite Int64_small by lia. lia.
Qed.

End Locate_entry.

(** C2. In a well-formed VBR table, for an edit unit [E] whose index
    entry carries a non-zero TemporalOffset [D], and a sub-item that is
    re-ordered (the segment has no delta array, or the sub-item's
    DeltaEntry has a negative PosTableIndex), [Lookup(E, SubItem, true)]
    is [Lookup(E + D, SubItem, false)] with TemporalOffset set to [D]; in
    particular both give the same Location. *)
Theorem IndexTable_Lookup_reorder (T : IndexTable) (E SubItem k D : Z)
    (Segment : IndexSegment) :
  wf_IndexTable T -> EditUnitByteCount T = 0 ->
  (k, Segment) ∈ SegmentMap T -> contains Segment E ->
  GetI8 (IndexEntryArray Segment) ((E - k) * IndexEntrySize T) = D ->
  D <> 0 ->
  DeltaCount Segment = 0 \/
  (SubItem < DeltaCount Segment /\
   PosTableIndex (delta_at (DeltaArray Segment) SubItem) < 0) ->
  is_Int64 (E + D) ->
  Location (fst (IndexTable_Lookup T E SubItem true))
    = Location (fst (IndexTable_Lookup T (E + D) SubItem false)) /\
  IndexTable_Lookup T E SubItem true
    = (set_TemporalOffset (fst (IndexTable_Lookup T (E + D) SubItem false)) D,
       snd (IndexTable_Lookup T (E + D) SubItem false)).
Proof.
  intros Hwf Hvbr Hin Hcon HD HD0 Hsub Hfit.
  assert (Heq : IndexTable_Lookup T E SubItem true
    = (set_TemporalOffset (fst (IndexTable_Lookup T (E + D) SubItem false)) D,
       snd (IndexTable_Lookup T (E + D) SubItem false))).
  { rewrite (IndexTable_Lookup_unfold T E). unfold Lookup_body.
    rewrite Hvbr. simpl negb. cbv iota. unfold smap_deref.
    rewrite (IndexTable_locate_contains T Hwf E k Segment Hin Hcon).
    destruct (entry_offset_exact T Hwf E k Segment Hin Hcon) as (Hptr & _).
    pose proof Hwf as (Hsize & Hsorted & Hsegs & Hdisj).
    destruct (Hsegs _ _ Hin) as (Hst & Hlow & Hcnt & Hhigh & Hlen).
    unfold contains in Hcon. rewrite Hst in Hcon.
    destruct (Z.gtb_spec k E) as [|_]; [lia|].
    destruct (Z.eqb_spec (EntryCount Segment) 0) as [|_]; [lia|].
    rewrite Hptr, HD, Hst.
    rewrite (Int64_small (k + EntryCount Segment)) by lia.
    rewrite (Int64_small (k + EntryCount Segment - 1)) by lia.
    destruct (Z.ltb_spec (k + EntryCount Segment - 1) E) as [|_]; [lia|].
    assert (Hre : reorders Segment SubItem = true).
    { unfold reorders. destruct Hsub as [->|[Hlt Hneg]]; [reflexivity|].
      apply Z.ltb_lt in Hlt, Hneg. rewrite Hlt, Hneg. apply orb_true_r. }
    rewrite Hre. apply Z.eqb_neq in HD0. rewrite HD0. simpl.
    rewrite (Int64_small (E + D)) by exact Hfit.
    destruct (IndexTable_Lookup T (E + D) SubItem false). reflexivity. }
  split; [|exact Heq]. rewrite Heq. reflexivity.
Qed.

(** Edit unit 1 of the example table is stored where edit unit 2 is
    presented: both look-ups locate stream offset 250. *)
Lemma IndexTable_Lookup_reorder_witness :
  Location (fst (IndexTable_Lookup example_table 1 0 true)) = 250 /\
  Location (fst (IndexTable_Lookup example_table (1 + 1) 0 false)) = 250.
Proof.
  destruct (IndexTable_Lookup_reorder example_table 1 0 0 1 example_segment0)
    as [Hloc _].
  - exact example_table_wf.
  - reflexivity.
  - apply elem_of_cons. left. reflexivity.
  - unfold contains. simpl. lia.
  - reflexivity.
  - lia.
  - left. reflexivity.
  - unfold is_Int64. lia.
  - rewrite Hloc. split; reflexivity.
Defined.

Section Buffers.

Implicit Types (d bs : list Z) (p q b : Z).

Lemma poke_length d p b : length (poke d p b) = length d.
Proof. unfold poke. destruct (p <? 0); [reflexivity|]. apply length_insert. Qed.

Lemma byte_at_poke_ne d p q b : q <> p -> byte_at (poke d p b) q = byte_at d q.
Proof.
  intros Hne. unfold byte_at, poke.
  destruct (Z.ltb_spec q 0); [reflexivity|].
  destruct (Z.ltb_spec p 0); [reflexivity|].
  rewrite list_lookup_insert_ne by lia. reflexivity.
Qed.

Lemma byte_at_poke_eq d p b :
  0 <= p < Z.of_nat (length d) -> byte_at (poke d p b) p = b.
Proof.
  intros Hp. unfold byte_at, poke.
  destruct (Z.ltb_spec p 0); [lia|].
  rewrite list_lookup_insert_eq by lia. reflexivity.
Qed.

Lemma write_bytes_length bs : forall d p, length (write_bytes d p bs) = length d.
Proof.
  induction bs as [|b bs IH]; intros d p; simpl; [reflexivity|].
  rewrite IH. apply poke_length.
Qed.

(** A write leaves every byte outside its range as it was. *)
Lemma byte_at_write_bytes_outside bs : forall d p q,
  q < p \/ p + Z.of_nat (length bs) <= q ->
  byte_at (write_bytes d p bs) q = byte_at d q.
Proof.
  induction bs as [|b bs IH]; intros d p q Hq; simpl; [reflexivity|].
  simpl length in Hq. rewrite IH by lia. apply byte_at_poke_ne. lia.
Qed.

Lemma read_bytes_cons d p n :
  read_bytes d p (S n) = byte_at d p :: read_bytes d (p + 1) n.
Proof.
  unfold read_bytes. simpl. rewrite Z.add_0_r. f_equal.
  rewrite <- seq_shift, map_map. apply map_ext. intros i. f_equal. lia.
Qed.

(** Reading back what was written inside the buffer. *)
Lemma read_bytes_write_bytes bs : forall d p,
  0 <= p -> p + Z.of_nat (length bs) <= Z.of_nat (length d) ->
  read_bytes (write_bytes d p bs) p (length bs) = bs.
Proof.
  induction bs as [|b bs IH]; intros d p Hp Hfit; [reflexivity|].
  simpl length in *. rewrite read_bytes_cons. simpl. f_equal.
  - rewrite byte_at_write_bytes_outside by lia. apply byte_at_poke_eq. lia.
  - apply IH; [lia|]. rewrite poke_length. lia.
Qed.

Lemma be_encode_length n : forall v, length (be_encode n v) = n.
Proof.
  induction n as [|n IH]; intros v; simpl; [reflexivity|].
  rewrite length_app, IH. simpl. lia.
Qed.

Lemma be_decode_snoc bs b : be_decode (bs ++ [b]) = be_decode bs * 256 + b.
Proof. unfold be_decode. rewrite fold_left_app. reflexivity. Qed.

Lemma be_decode_encode n : forall v,
  be_decode (be_encode n v) = v mod 256 ^ Z.of_nat n.
Proof.
  induction n as [|n IH]; intros v.
  - simpl. rewrite Z.mod_1_r. reflexivity.
  - simpl be_encode. rewrite be_decode_snoc, IH.
    rewrite Nat2Z.inj_succ, Z.pow_succ_r by lia.
    rewrite (Z.rem_mul_r v 256 (256 ^ Z.of_nat n)) by lia. lia.
Qed.

(** [GetU64] reads what [PutU64] wrote, as a 64-bit value. *)
Lemma GetU64_PutU64 d p v :
  0 <= p -> p + 8 <= Z.of_nat (length d) ->
  GetU64 (PutU64 v d p) p = UInt64 v.
Proof.
  intros Hp Hfit. unfold GetU64, PutU64.
  replace 8%nat with (length (be_encode 8 v)) at 2 by apply be_encode_length.
  rewrite read_bytes_write_bytes by (rewrite ?be_encode_length; lia).
  rewrite be_decode_encode. reflexivity.
Qed.

End Buffers.

Lemma with_SegmentMap_same (T : IndexTable) : with_SegmentMap T (SegmentMap T) = T.
Proof. destruct T. reflexivity. Qed.

(** C10. On a well-formed table [Update(EditUnit, StreamOffset)] does
    nothing when the edit unit lies before the first segment, or outside
    the entries of the segment the walk locates (so whenever no segment
    holds an entry for it).  When a segment holds the entry, that
    segment's entry array is the only thing replaced: it keeps its
    length, every byte outside the eight bytes at offset 3 of the entry
    keeps its value (TemporalOffset, KeyFrameOffset, Flags, slice
    offsets and PosTable of the entry, and all other entries), and the
    eight bytes read back as the new stream offset. *)
Theorem IndexTable_Update_frame (T : IndexTable) (E StreamOffset : Z) :
  wf_IndexTable T ->
  let T' := IndexTable_Update T E StreamOffset in
  ((forall k s, (k, s) ∈ SegmentMap T -> E < k) -> T' = T) /\
  (forall k s, SegmentMap T !! IndexTable_locate T E = Some (k, s) ->
     ~ contains s E -> T' = T) /\
  ((forall k s, (k, s) ∈ SegmentMap T -> ~ contains s E) -> T' = T) /\
  (forall k s, (k, s) ∈ SegmentMap T -> contains s E ->
     exists i Data,
       SegmentMap T !! i = Some (k, s) /\
       T' = with_SegmentMap T
              (<[i := (k, mkIndexSegment (StartPosition s) (DeltaCount s)
                            (DeltaArray s) (EntryCount s) Data)]>
                 (SegmentMap T)) /\
       length Data = length (IndexEntryArray s) /\
       (forall q, q < (E - k) * IndexEntrySize T + 3 \/
                  (E - k) * IndexEntrySize T + 11 <= q ->
                  byte_at Data q = byte_at (IndexEntryArray s) q) /\
       GetU64 Data ((E - k) * IndexEntrySize T + 3) = UInt64 StreamOffset).
Proof.
  intros Hwf T'. pose proof Hwf as (Hsize & Hsorted & Hsegs & Hdisj).
  assert (Hmiss : forall k s,
            SegmentMap T !! IndexTable_locate T E = Some (k, s) ->
            ~ contains s E -> T' = T).
  { intros k s Hit Hout. subst T'. unfold IndexTable_Update, smap_deref.
    rewrite Hit.
    assert (Hin : (k, s) ∈ SegmentMap T) by (apply list_elem_of_lookup; eauto).
    destruct (Hsegs _ _ Hin) as (Hst & Hlow & Hcnt & Hhigh & _).
    destruct (Z.gtb_spec k E); [reflexivity|].
    assert (Hsame : IndexSegment_Update T s E StreamOffset = s).
    { unfold IndexSegment_Update. unfold contains in Hout. rewrite Hst in *.
      destruct (Z.ltb_spec E k); [reflexivity|].
      rewrite (Int64_small (k + EntryCount s)) by lia.
      rewrite (Int64_small (k + EntryCount s - 1)) by lia.
      destruct (Z.gtb_spec E (k + EntryCount s - 1)); [reflexivity|lia]. }
    rewrite Hsame, list_insert_id by exact Hit. apply with_SegmentMap_same. }
  assert (Hnone : (forall k s, (k, s) ∈ SegmentMap T -> ~ contains s E) -> T' = T).
  { intros Hno.
    destruct (SegmentMap T !! IndexTable_locate T E) as [[k s]|] eqn:Hit.
    - apply (Hmiss k s eq_refl). apply (Hno k). apply list_elem_of_lookup. eauto.
    - subst T'. unfold IndexTable_Update, smap_deref. rewrite Hit. reflexivity. }
  split; [|split; [exact Hmiss|split; [exact Hnone|]]].
  - intros Hbefore. apply Hnone. intros k s Hin Hcon.
    specialize (Hbefore _ _ Hin). destruct (Hsegs _ _ Hin) as (Hst & _).
    unfold contains in Hcon. lia.
  - intros k s Hin Hcon.
    pose proof (IndexTable_locate_contains T Hwf E k s Hin Hcon) as Hit.
    destruct (entry_offset_exact T Hwf E k s Hin Hcon) as (Hptr & Hptr0 & Hptr1).
    destruct (Hsegs _ _ Hin) as (Hst & Hlow & Hcnt & Hhigh & Hlen).
    exists (IndexTable_locate T E),
           (PutU64 StreamOffset (IndexEntryArray s) ((E - k) * IndexEntrySize T + 3)).
    split; [exact Hit|]. split; [|split; [|split]].
    + subst T'. unfold IndexTable_Update, smap_deref. rewrite Hit.
      unfold contains in Hcon. rewrite Hst in Hcon.
      destruct (Z.gtb_spec k E) as [|_]; [lia|].
      unfold IndexSegment_Update. rewrite Hptr, Hst.
      destruct (Z.ltb_spec E k) as [|_]; [lia|].
      rewrite (Int64_small (k + EntryCount s)) by lia.
      rewrite (Int64_small (k + EntryCount s - 1)) by lia.
      destruct (Z.gtb_spec E (k + EntryCount s - 1)) as [|_]; [lia|].
      unfold with_IndexEntryArray. rewrite ?Hst. reflexivity.
    + apply write_bytes_length.
    + intros q Hq. apply byte_at_write_bytes_outside.
      rewrite be_encode_length. lia.
    + apply GetU64_PutU64; lia.
Qed.

(** Edit unit 1 of the example table gets stream offset 120; its
    TemporalOffset byte is what it was. *)
Lemma IndexTable_Update_frame_witness :
  exists i Data,
    SegmentMap (IndexTable_Update example_table 1 120) !! i
      = Some (0, mkIndexSegment 0 0 [] 3 Data) /\
    GetU64 Data 14 = 120 /\ byte_at Data 11 = 1.
Proof.
  destruct (IndexTable_Update_frame example_table 1 120 example_table_wf)
    as (_ & _ & _ & Hupd).
  destruct (Hupd 0 example_segment0) as (i & Data & Hi & HT & _ & Hkeep & Hget).
  - apply elem_of_cons. left. reflexivity.
  - unfold contains. simpl. lia.
  - exists i, Data. rewrite HT. simpl. split; [|split].
    + apply list_lookup_insert_eq. apply lookup_lt_Some in Hi. exact Hi.
    + exact Hget.
    + rewrite (Hkeep 11) by (simpl; lia). reflexivity.
Defined.

Section AddIndexEntry_facts.

Lemma Int32_small z : - 2 ^ 31 <= z < 2 ^ 31 -> Int32 z = z.
Proof.
  intros H. unfold Int32, wrap_signed.
  change (2 ^ (32 - 1)) with (2 ^ 31). change (2 ^ 32) with (2 * 2 ^ 31).
  rewrite Z.mod_small; lia.
Qed.

Lemma read_bytes_ext d1 d2 p n :
  (forall q, p <= q < p + Z.of_nat n -> byte_at d1 q = byte_at d2 q) ->
  read_bytes d1 p n = read_bytes d2 p n.
Proof.
  intros H. unfold read_bytes. apply map_ext_in. intros i Hi.
  apply in_seq in Hi. apply H. lia.
Qed.

(** The slice offsets are written from [Ptr] on: the buffer keeps its
    length and the bytes before [Ptr]. *)
Lemma put_slice_offsets_frame n : forall SlicePtr Buffer Ptr,
  length (put_slice_offsets n SlicePtr Buffer Ptr).1 = length Buffer /\
  Ptr <= (put_slice_offsets n SlicePtr Buffer Ptr).2 /\
  forall q, q < Ptr ->
    byte_at (put_slice_offsets n SlicePtr Buffer Ptr).1 q = byte_at Buffer q.
Proof.
  induction n as [|n IH]; intros SlicePtr Buffer Ptr; simpl.
  - split; [reflexivity|]. split; [lia|]. intros q _. reflexivity.
  - destruct (IH (tail SlicePtr)
                (PutU32 (default 0 (head SlicePtr)) Buffer Ptr) (Ptr + 4))
      as (Hlen & Hptr & Hkeep).
    split; [|split].
    + rewrite Hlen. apply write_bytes_length.
    + lia.
    + intros q Hq. rewrite Hkeep by lia.
      apply byte_at_write_bytes_outside. lia.
Qed.

Lemma put_pos_table_frame n : forall PosPtr Buffer Ptr,
  length (put_pos_table n PosPtr Buffer Ptr).1 = length Buffer /\
  forall q, q < Ptr ->
    byte_at (put_pos_table n PosPtr Buffer Ptr).1 q = byte_at Buffer q.
Proof.
  induction n as [|n IH]; intros PosPtr Buffer Ptr; simpl.
  - split; reflexivity.
  - match goal with |- context [put_pos_table n ?a ?b ?c] =>
      destruct (IH a b c) as (Hlen & Hkeep) end.
    split.
    + rewrite Hlen. unfold PutI32. rewrite !write_bytes_length. reflexivity.
    + intros q Hq. rewrite Hkeep by lia. unfold PutI32.
      rewrite !byte_at_write_bytes_outside by lia. reflexivity.
Qed.

(** Appending at the end of a chunk. *)
Lemma DataChunk_Set_append (n : nat) (Buffer d : list Z) :
  length Buffer = n -> DataChunk_Set n Buffer (length d) d = d ++ Buffer.
Proof.
  intros Hn. unfold DataChunk_Set.
  rewrite Nat.sub_diag. simpl. rewrite app_nil_r.
  rewrite (take_ge d) by lia. rewrite (take_ge Buffer) by lia.
  rewrite drop_ge by lia. rewrite app_nil_r. reflexivity.
Qed.

End AddIndexEntry_facts.

Section AddIndexEntry_fields.

Lemma GetU32_PutU32 d p v :
  0 <= p -> p + 4 <= Z.of_nat (length d) ->
  GetU32 (PutU32 v d p) p = UInt32 v.
Proof.
  intros Hp Hfit. unfold GetU32, PutU32.
  replace 4%nat with (length (be_encode 4 v)) at 2 by apply be_encode_length.
  rewrite read_bytes_write_bytes by (rewrite ?be_encode_length; lia).
  rewrite be_decode_encode. reflexivity.
Qed.

Lemma Int32_UInt32 v : Int32 (UInt32 v) = Int32 v.
Proof.
  unfold Int32, UInt32, wrap_signed, wrap_unsigned.
  change (2 ^ (32 - 1)) with (2 ^ 31).
  rewrite Zplus_mod_idemp_l. reflexivity.
Qed.

(** Where the slice offsets land: slot [i] is the 32-bit big-endian
    value at [Ptr + 4 i], and nothing else is written. *)
Lemma put_slice_offsets_spec n : forall SlicePtr Buffer Ptr,
  0 <= Ptr -> Ptr + 4 * Z.of_nat n <= Z.of_nat (length Buffer) ->
  (put_slice_offsets n SlicePtr Buffer Ptr).2 = Ptr + 4 * Z.of_nat n /\
  (forall q, q < Ptr \/ Ptr + 4 * Z.of_nat n <= q ->
     byte_at (put_slice_offsets n SlicePtr Buffer Ptr).1 q = byte_at Buffer q) /\
  (forall i, (i < n)%nat ->
     GetU32 (put_slice_offsets n SlicePtr Buffer Ptr).1 (Ptr + 4 * Z.of_nat i)
     = UInt32 (default 0 (SlicePtr !! i))).
Proof.
  induction n as [|n IH]; intros SlicePtr Buffer Ptr HPtr Hfit;
    cbn [put_slice_offsets].
  - cbn [fst snd]. split; [lia|]. split; [reflexivity|]. intros i Hi. lia.
  - destruct (IH (tail SlicePtr)
                (PutU32 (default 0 (head SlicePtr)) Buffer Ptr) (Ptr + 4))
      as (Hptr & Hkeep & Hget).
    { lia. }
    { unfold PutU32. rewrite write_bytes_length. lia. }
    split; [rewrite Hptr; lia|]. split.
    + intros q Hq. rewrite Hkeep by lia. unfold PutU32.
      apply byte_at_write_bytes_outside. rewrite be_encode_length. lia.
    + intros [|i] Hi.
      * rewrite Z.mul_0_r, Z.add_0_r. unfold GetU32 at 1.
        rewrite (read_bytes_ext _ (PutU32 (default 0 (head SlicePtr)) Buffer Ptr))
          by (intros q Hq; apply Hkeep; lia).
        fold (GetU32 (PutU32 (default 0 (head SlicePtr)) Buffer Ptr) Ptr).
        rewrite GetU32_PutU32 by lia. rewrite head_lookup. reflexivity.
      * replace (Ptr + 4 * Z.of_nat (S i)) with (Ptr + 4 + 4 * Z.of_nat i) by lia.
        rewrite Hget by lia. rewrite lookup_tail. reflexivity.
Qed.

(** Where the PosTable is written: both halves of entry [i] go to
    [Ptr + 8 i], so that the four bytes there end as the denominator and
    the four bytes after them are not written. *)
Lemma put_pos_table_spec n : forall PosPtr Buffer Ptr,
  0 <= Ptr -> Ptr + 8 * Z.of_nat n <= Z.of_nat (length Buffer) ->
  (forall q,
     (forall i, (i < n)%nat ->
        q < Ptr + 8 * Z.of_nat i \/ Ptr + 8 * Z.of_nat i + 4 <= q) ->
     byte_at (put_pos_table n PosPtr Buffer Ptr).1 q = byte_at Buffer q) /\
  (forall i, (i < n)%nat ->
     GetI32 (put_pos_table n PosPtr Buffer Ptr).1 (Ptr + 8 * Z.of_nat i)
     = Int32 (Denominator (default (mkRational 0 0) (PosPtr !! i)))).
Proof.
  induction n as [|n IH]; intros PosPtr Buffer Ptr HPtr Hfit;
    cbn [put_pos_table].
  - cbn [fst]. split; [reflexivity|]. intros i Hi. lia.
  - set (r := default (mkRational 0 0) (head PosPtr)).
    set (B1 := PutI32 (Denominator r) (PutI32 (Numerator r) Buffer Ptr) Ptr).
    assert (HB1 : length B1 = length Buffer)
      by (unfold B1, PutI32; rewrite !write_bytes_length; reflexivity).
    assert (Hout : forall q, q < Ptr \/ Ptr + 4 <= q ->
              byte_at B1 q = byte_at Buffer q).
    { intros q Hq. unfold B1, PutI32.
      rewrite !byte_at_write_bytes_outside by (rewrite be_encode_length; lia).
      reflexivity. }
    destruct (IH (tail PosPtr) B1 (Ptr + 8)) as (Hkeep & Hget); [lia|lia|].
    split.
    + intros q Hq. rewrite Hkeep.
      * apply Hout. specialize (Hq 0%nat ltac:(lia)). lia.
      * intros i Hi. specialize (Hq (S i) ltac:(lia)). lia.
    + intros [|i] Hi.
      * rewrite Z.mul_0_r, Z.add_0_r. unfold GetI32, GetU32.
        rewrite (read_bytes_ext _ B1).
        -- unfold B1, PutI32.
           replace 4%nat with (length (be_encode 4 (Denominator r))) at 3
             by apply be_encode_length.
           rewrite read_bytes_write_bytes
             by (rewrite ?write_bytes_length, ?be_encode_length; lia).
           rewrite be_decode_encode. change (256 ^ Z.of_nat 4) with (2 ^ 32).
           fold (wrap_unsigned 32 (Denominator r)).
           fold (UInt32 (Denominator r)). rewrite Int32_UInt32.
           unfold r. rewrite head_lookup. reflexivity.
        -- intros q Hq. apply Hkeep. intros i Hi'. lia.
      * replace (Ptr + 8 * Z.of_nat (S i)) with (Ptr + 8 + 8 * Z.of_nat i) by lia.
        rewrite Hget by lia. rewrite lookup_tail. reflexivity.
Qed.

End AddIndexEntry_fields.

(** C4 (as the code has it). [IndexSegment::AddIndexEntry] returns false
    and leaves the segment as it was when NSL or NPE do not match the
    table's, and when the entry array with one more entry, together with
    the 8-byte header it is written with, would exceed 65535 bytes.
    Otherwise, with an entry size that holds the 11 fixed bytes, the
    slice offsets and the PosTable, and arrays of at least NSL and NPE
    elements, it returns true, the entry count goes up by one, and one
    entry of [IndexEntrySize] bytes is appended to the entry array:
    TemporalOffset, KeyFrameOffset, Flags, the big-endian StreamOffset,
    then slice offset [i] as 32 bits big-endian at byte [11 + 4 i].  Of
    PosTable entry [i] the code writes numerator and denominator to the
    same four bytes at [11 + 4 NSL + 8 i], which end as the denominator;
    every other byte of the entry is as the allocation left it. *)
Theorem IndexSegment_AddIndexEntry_spec (Parent : IndexTable) (fresh : list Z)
    (Seg : IndexSegment) (TemporalOffset KeyFrameOffset Flags StreamOffset : Z)
    (SliceCount : Z) (SliceOffsets : list Z) (PosCount : Z)
    (PosTable : list Rational) :
  11 <= IndexEntrySize Parent -> 0 <= EntryCount Seg ->
  (EntryCount Seg + 1) * IndexEntrySize Parent + 8 < 2 ^ 31 ->
  let r := IndexSegment_AddIndexEntry Parent fresh Seg TemporalOffset
             KeyFrameOffset Flags StreamOffset SliceCount SliceOffsets
             PosCount PosTable in
  (SliceCount <> NSL Parent \/ PosCount <> NPE Parent ->
     r.1.1 = false /\ r.1.2 = Seg) /\
  (65535 < (EntryCount Seg + 1) * IndexEntrySize Parent + 8 ->
     r.1.1 = false /\ r.1.2 = Seg) /\
  (SliceCount = NSL Parent -> PosCount = NPE Parent ->
   (EntryCount Seg + 1) * IndexEntrySize Parent + 8 <= 65535 ->
   0 <= NSL Parent <= Z.of_nat (length SliceOffsets) ->
   0 <= NPE Parent <= Z.of_nat (length PosTable) ->
   11 + 4 * NSL Parent + 8 * NPE Parent <= IndexEntrySize Parent ->
   exists Buffer,
     r = (true,
          mkIndexSegment (StartPosition Seg) (DeltaCount Seg) (DeltaArray Seg)
            (EntryCount Seg + 1) (IndexEntryArray Seg ++ Buffer), []) /\
     Z.of_nat (length Buffer) = IndexEntrySize Parent /\
     byte_at Buffer 0 = UInt8 TemporalOffset /\
     byte_at Buffer 1 = UInt8 KeyFrameOffset /\
     byte_at Buffer 2 = UInt8 Flags /\
     GetU64 Buffer 3 = UInt64 StreamOffset /\
     (forall (i : nat) (x : Z),
        SliceOffsets !! i = Some x -> Z.of_nat i < NSL Parent ->
        GetU32 Buffer (11 + 4 * Z.of_nat i) = UInt32 x) /\
     (forall (i : nat) (p : Rational),
        PosTable !! i = Some p -> Z.of_nat i < NPE Parent ->
        GetI32 Buffer (11 + 4 * NSL Parent + 8 * Z.of_nat i)
        = Int32 (Denominator p)) /\
     (forall q, 11 + 4 * NSL Parent <= q ->
        (forall i : nat, Z.of_nat i < NPE Parent ->
           q < 11 + 4 * NSL Parent + 8 * Z.of_nat i
           \/ 11 + 4 * NSL Parent + 8 * Z.of_nat i + 4 <= q) ->
        byte_at Buffer q
        = byte_at (resize (Z.to_nat (IndexEntrySize Parent)) 0 fresh) q)).
Proof.
  intros Hsize Hcount Hint r.
  assert (Hmul : 0 <= (EntryCount Seg + 1) * IndexEntrySize Parent)
    by (apply Z.mul_nonneg_nonneg; lia).
  assert (HNewSize :
    Int32 (Int32 (Int32 (EntryCount Seg + 1) * IndexEntrySize Parent) + 8)
    = (EntryCount Seg + 1) * IndexEntrySize Parent + 8).
  { assert (EntryCount Seg + 1 <= (EntryCount Seg + 1) * IndexEntrySize Parent)
      by nia.
    rewrite (Int32_small (EntryCount Seg + 1)) by lia.
    rewrite (Int32_small ((EntryCount Seg + 1) * _)) by lia.
    apply Int32_small. lia. }
  subst r. unfold IndexSegment_AddIndexEntry. rewrite HNewSize.
  split; [|split].
  - intros [Hne|Hne].
    + apply Z.eqb_neq in Hne. rewrite Hne. simpl. auto.
    + destruct (SliceCount =? NSL Parent); simpl; [|auto].
      apply Z.eqb_neq in Hne. rewrite Hne. simpl. auto.
  - intros Hbig.
    destruct (negb (SliceCount =? NSL Parent)); [simpl; auto|].
    destruct (negb (PosCount =? NPE Parent)); [simpl; auto|].
    destruct (Z.gtb_spec ((EntryCount Seg + 1) * IndexEntrySize Parent + 8) 65535);
      [simpl; auto|lia].
  - intros -> -> Hfits HNSL HNPE Hroom. rewrite !Z.eqb_refl. simpl negb.
    cbv iota.
    destruct (Z.gtb_spec ((EntryCount Seg + 1) * IndexEntrySize Parent + 8) 65535)
      as [|_]; [lia|].
    set (F := resize (Z.to_nat (IndexEntrySize Parent)) 0 fresh).
    assert (HFlen : length F = Z.to_nat (IndexEntrySize Parent))
      by apply length_resize.
    set (B0 := PutU64 StreamOffset
                 (poke (poke (poke F 0 (UInt8 TemporalOffset))
                    1 (UInt8 KeyFrameOffset)) 2 (UInt8 Flags)) 3).
    assert (HB0len : length B0 = Z.to_nat (IndexEntrySize Parent)).
    { unfold B0, PutU64. rewrite write_bytes_length, !poke_length.
      exact HFlen. }
    assert (HB0back : forall q, 11 <= q -> byte_at B0 q = byte_at F q).
    { intros q Hq. unfold B0, PutU64.
      rewrite byte_at_write_bytes_outside by (rewrite be_encode_length; lia).
      rewrite !byte_at_poke_ne by lia. reflexivity. }
    pose proof (put_slice_offsets_frame (Z.to_nat (NSL Parent)) SliceOffsets B0 11)
      as (Hlen1 & _ & Hkeep1).
    destruct (put_slice_offsets_spec (Z.to_nat (NSL Parent)) SliceOffsets B0 11)
      as (Hptr1 & Hout1 & Hget1); [lia|lia|].
    destruct (put_slice_offsets (Z.to_nat (NSL Parent)) SliceOffsets B0 11)
      as [B1 Ptr] eqn:HB1. cbn [fst snd] in Hlen1, Hkeep1, Hptr1, Hout1, Hget1.
    rewrite Z2Nat.id in Hptr1, Hout1 by lia. subst Ptr.
    pose proof (put_pos_table_frame (Z.to_nat (NPE Parent)) PosTable B1
                  (11 + 4 * NSL Parent)) as (Hlen2 & Hkeep2).
    destruct (put_pos_table_spec (Z.to_nat (NPE Parent)) PosTable B1
                (11 + 4 * NSL Parent)) as (Hout2 & Hget2); [lia|lia|].
    destruct (put_pos_table (Z.to_nat (NPE Parent)) PosTable B1
                (11 + 4 * NSL Parent)) as [B2 Ptr2] eqn:HB2.
    cbn [fst snd] in Hlen2, Hkeep2, Hout2, Hget2.
    assert (Hfront : forall q, q < 11 + 4 * NSL Parent ->
              byte_at B2 q = byte_at B1 q).
    { intros q Hq. apply Hkeep2. lia. }
    assert (Hfront0 : forall q, q < 11 -> byte_at B2 q = byte_at B0 q).
    { intros q Hq. rewrite Hfront by lia. apply Hkeep1. lia. }
    exists B2.
    split; [|split; [|split; [|split; [|split; [|split; [|split; [|split]]]]]]].
    + rewrite DataChunk_Set_append by lia.
      rewrite (Int32_small (EntryCount Seg + 1)) by lia. reflexivity.
    + lia.
    + rewrite Hfront0 by lia. unfold B0, PutU64.
      rewrite byte_at_write_bytes_outside by lia.
      rewrite !byte_at_poke_ne by lia. apply byte_at_poke_eq. lia.
    + rewrite Hfront0 by lia. unfold B0, PutU64.
      rewrite byte_at_write_bytes_outside by lia.
      rewrite byte_at_poke_ne by lia. apply byte_at_poke_eq.
      rewrite poke_length. lia.
    + rewrite Hfront0 by lia. unfold B0, PutU64.
      rewrite byte_at_write_bytes_outside by lia.
      apply byte_at_poke_eq. rewrite !poke_length. lia.
    + unfold GetU64.
      rewrite (read_bytes_ext B2 B0) by (intros q Hq; apply Hfront0; lia).
      apply GetU64_PutU64; [lia|]. rewrite !poke_length. lia.
    + intros i x Hx Hi. unfold GetU32.
      rewrite (read_bytes_ext B2 B1) by (intros q Hq; apply Hfront; lia).
      fold (GetU32 B1 (11 + 4 * Z.of_nat i)).
      rewrite Hget1 by lia. rewrite Hx. reflexivity.
    + intros i p Hp Hi. rewrite Hget2 by lia. rewrite Hp. reflexivity.
    + intros q Hq Hnot. rewrite Hout2.
      * rewrite Hout1 by lia. apply HB0back. lia.
      * intros i Hi. apply Hnot. lia.
Qed.

(** A first entry with one slice offset is appended to an empty
    segment of the table with 15-byte entries. *)
Lemma IndexSegment_AddIndexEntry_spec_witness :
  let r := IndexSegment_AddIndexEntry example_sliced_table []
             (mkIndexSegment 0 0 [] 0 []) 0 (-1) 0 1500 1 [77] 0 [] in
  r.1.1 = true /\ EntryCount r.1.2 = 1 /\
  GetU64 (IndexEntryArray r.1.2) 3 = 1500 /\
  GetU32 (IndexEntryArray r.1.2) 11 = 77.
Proof.
  intros r.
  destruct (IndexSegment_AddIndexEntry_spec example_sliced_table []
              (mkIndexSegment 0 0 [] 0 []) 0 (-1) 0 1500 1 [77] 0 [])
    as (_ & _ & Happend).
  - simpl. lia.
  - simpl. lia.
  - simpl. lia.
  - destruct Happend as (Buffer & Hr & _ & _ & _ & _ & HSO & Hslice & _).
    + reflexivity.
    + reflexivity.
    + simpl. lia.
    + simpl. lia.
    + simpl. lia.
    + simpl. lia.
    + fold r in Hr. rewrite Hr. cbn [fst snd EntryCount IndexEntryArray app].
      split; [reflexivity|]. split; [reflexivity|].
      split; [exact HSO|]. exact (Hslice 0%nat 77 eq_refl ltac:(simpl; lia)).
Defined.

(** With 15-byte entries and 4368 entries in place, one more entry makes
    an entry array of exactly 65535 bytes, which does not exceed 65535;
    NSL and NPE match; yet the entry is refused. *)
Lemma IndexSegment_AddIndexEntry_counterexample :
  Z.of_nat (length (IndexEntryArray example_full_segment))
    = EntryCount example_full_segment * IndexEntrySize example_sliced_table /\
  (EntryCount example_full_segment + 1) * IndexEntrySize example_sliced_table
    <= 65535 /\
  IndexSegment_AddIndexEntry example_sliced_table [] example_full_segment
    0 0 0 0 (NSL example_sliced_table) [0] (NPE example_sliced_table) []
  = (false, example_full_segment, []).
Proof.
  split; [|split].
  - unfold example_full_segment. cbn [IndexEntryArray EntryCount].
    rewrite length_replicate, Z2Nat.id by lia. reflexivity.
  - cbn. lia.
  - reflexivity.
Qed.

Section Format_fixed.

Import IndexManager.

Variable Log : Position -> LogState -> LogState.
Variable IndexTable_new : IndexTable.
Variable DefineDeltaArray : Z -> list Z -> IndexTable -> IndexTable.

Lemma acquire_FormatFixed (m : State) (E : Position) :
  FormatFixed (acquire m E).1.1 = true.
Proof.
  unfold acquire. repeat case_match; simplify_eq; reflexivity.
Qed.

Lemma AddEditUnit_FormatFixed (m : State) S E K F :
  FormatFixed m = true -> FormatFixed (AddEditUnit Log m S E K F) = true.
Proof.
  intros Hm. unfold AddEditUnit. destruct (DataIsCBR m); [exact Hm|].
  pose proof (acquire_FormatFixed m (Int64 (E - SubRangeOffset m))) as Hacq.
  destruct (acquire m (Int64 (E - SubRangeOffset m))) as [[m' e] stored].
  simpl in Hacq. unfold store. destruct stored; simpl; exact Hacq.
Qed.

Lemma SetOffset_FormatFixed (m : State) S E O K F :
  FormatFixed m = true -> FormatFixed (SetOffset Log m S E O K F) = true.
Proof.
  intros Hm. unfold SetOffset. destruct (DataIsCBR m); [exact Hm|].
  pose proof (acquire_FormatFixed m E) as Hacq.
  destruct (acquire m E) as [[m' e] stored].
  simpl in Hacq. unfold store. destruct stored; simpl; exact Hacq.
Qed.

Lemma SetTemporalOffset_FormatFixed (m : State) E O :
  FormatFixed (SetTemporalOffset m E O) = FormatFixed m.
Proof. unfold SetTemporalOffset. repeat case_match; reflexivity. Qed.

Lemma set_per_entry_FormatFixed set (m : State) E x :
  FormatFixed (set_per_entry set m E x).1 = FormatFixed m.
Proof. unfold set_per_entry. repeat case_match; reflexivity. Qed.

(** No call of the manager un-fixes the format. *)
Lemma call_FormatFixed (m : State) (c : Call) :
  FormatFixed m = true ->
  FormatFixed (call Log IndexTable_new DefineDeltaArray m c) = true.
Proof.
  intros Hm. destruct c; simpl.
  - unfold AddSubStream. rewrite Hm. exact Hm.
  - apply AddEditUnit_FormatFixed, Hm.
  - apply SetOffset_FormatFixed, Hm.
  - apply AddEditUnit_FormatFixed, Hm.
  - apply SetOffset_FormatFixed, Hm.
  - rewrite SetTemporalOffset_FormatFixed. exact Hm.
  - rewrite SetTemporalOffset_FormatFixed. exact Hm.
  - unfold SetKeyOffset. rewrite set_per_entry_FormatFixed. exact Hm.
  - unfold SetKeyOffset. rewrite set_per_entry_FormatFixed. exact Hm.
  - unfold SetFlags. rewrite set_per_entry_FormatFixed. exact Hm.
  - unfold SetFlags. rewrite set_per_entry_FormatFixed. exact Hm.
  - unfold Flush. destruct (DataIsCBR m); exact Hm.
  - reflexivity.
  - exact Hm.
Qed.

Lemma run_FormatFixed (cs : list Call) : forall m : State,
  FormatFixed m = true ->
  FormatFixed (run Log IndexTable_new DefineDeltaArray m cs) = true.
Proof.
  unfold run. induction cs as [|c cs IH]; intros m Hm; simpl; [exact Hm|].
  apply IH, call_FormatFixed, Hm.
Qed.

End Format_fixed.

(** C7. After [MakeIndex], and after any further calls on the manager,
    [AddSubStream] reports an error, returns 0 and leaves the manager as
    it is: stream count, PosTable list and element-size list included. *)
Theorem AddSubStream_after_MakeIndex
    (Log : Position -> IndexManager.LogState -> IndexManager.LogState)
    (IndexTable_new : IndexTable)
    (DefineDeltaArray : Z -> list Z -> IndexTable -> IndexTable)
    (m : IndexManager.State) (cs : list IndexManager.Call)
    (PosTableIndex ElementSize : Z) :
  let m1 := (IndexManager.MakeIndex IndexTable_new DefineDeltaArray m).1 in
  let m2 := IndexManager.run Log IndexTable_new DefineDeltaArray m1 cs in
  let r := IndexManager.AddSubStream m2 PosTableIndex ElementSize in
  r = (m2, 0, [AddSubStreamAfterFormatFixed]) /\
  IndexManager.StreamCount r.1.1 = IndexManager.StreamCount m2 /\
  IndexManager.PosTableList r.1.1 = IndexManager.PosTableList m2 /\
  IndexManager.ElementSizeList r.1.1 = IndexManager.ElementSizeList m2.
Proof.
  intros m1 m2 r.
  assert (Hfixed : IndexManager.FormatFixed m2 = true)
    by (apply run_FormatFixed; reflexivity).
  assert (Hr : r = (m2, 0, [AddSubStreamAfterFormatFixed])).
  { subst r. unfold IndexManager.AddSubStream. rewrite Hfixed. reflexivity. }
  rewrite Hr. simpl. auto.
Qed.

(** Reduce the projections of a manager state that is spelled out. *)
Ltac state_simpl :=
  cbn [
       IndexManager.FormatFixed IndexManager.UsesReordering
       IndexManager.DataIsCBR IndexManager.StreamListSize
       IndexManager.PosTableList IndexManager.ElementSizeList
       IndexManager.StreamCount IndexManager.ManagedDataEntrySize
       IndexManager.MasterStream IndexManager.Values
       IndexManager.LastNewEditUnit IndexManager.ProvisionalEntry
       IndexManager.ProvisionalEditUnit IndexManager.LogSt
       IndexManager.ValueRelativeIndexing IndexManager.SubRangeOffset
       IndexManager.ManagedData
       IndexManager.UnsatisfiedTemporalOffsets
       IndexManager.UnsatisfiedTemporalDiffs
       IndexManager.set_FormatFixed IndexManager.set_LastNewEditUnit
       IndexManager.set_ProvisionalEntry IndexManager.set_LogSt
       IndexManager.set_SubRangeOffset IndexManager.set_ManagedData
       IndexManager.set_UnsatisfiedTemporalOffsets
       IndexManager.set_UnsatisfiedTemporalDiffs fst snd] in *.

Ltac state_cases :=
  repeat (state_simpl; case_match; simplify_eq); state_simpl.

Section SubRange.

Import IndexManager.

Variable Log : Position -> LogState -> LogState.

Lemma Int64_idemp z : Int64 (Int64 z) = Int64 z.
Proof. apply Int64_small, Int64_range. Qed.

Lemma set_SubRangeOffset_restore (m : State) :
  set_SubRangeOffset (set_SubRangeOffset m 0) (SubRangeOffset m) = m.
Proof. destruct m. reflexivity. Qed.

Lemma acquire_SubRangeOffset (m : State) (E : Position) (k : Z) :
  acquire (set_SubRangeOffset m k) E
  = (set_SubRangeOffset (acquire m E).1.1 k, (acquire m E).1.2, (acquire m E).2).
Proof.
  destruct m. unfold acquire, map_insert_new, new_entry.
  state_cases; reflexivity.
Qed.

Lemma acquire_keeps_SubRangeOffset (m : State) (E : Position) :
  SubRangeOffset (acquire m E).1.1 = SubRangeOffset m.
Proof.
  destruct m. unfold acquire, map_insert_new, new_entry.
  state_cases; reflexivity.
Qed.

(** [AddEditUnit] works on [EditUnit - SubRangeOffset]. *)
Lemma AddEditUnit_subtracts (m : State) S E K F :
  AddEditUnit Log m S E K F
  = set_SubRangeOffset
      (AddEditUnit Log (set_SubRangeOffset m 0) S (Int64 (E - SubRangeOffset m)) K F)
      (SubRangeOffset m).
Proof.
  unfold AddEditUnit.
  replace (DataIsCBR (set_SubRangeOffset m 0)) with (DataIsCBR m) by reflexivity.
  destruct (DataIsCBR m); [symmetry; apply set_SubRangeOffset_restore|].
  replace (SubRangeOffset (set_SubRangeOffset m 0)) with 0 by reflexivity.
  rewrite Z.sub_0_r, Int64_idemp, acquire_SubRangeOffset.
  pose proof (acquire_keeps_SubRangeOffset m (Int64 (E - SubRangeOffset m))) as Hk.
  destruct (acquire m (Int64 (E - SubRangeOffset m))) as [[m' e] stored].
  rewrite <- Hk. destruct m'. unfold store, master_values.
  destruct stored; reflexivity.
Qed.

(** [SetOffset] works on the edit unit as given. *)
Lemma SetOffset_does_not_subtract (m : State) S E O K F :
  SetOffset Log m S E O K F
  = set_SubRangeOffset (SetOffset Log (set_SubRangeOffset m 0) S E O K F)
      (SubRangeOffset m).
Proof.
  unfold SetOffset.
  replace (DataIsCBR (set_SubRangeOffset m 0)) with (DataIsCBR m) by reflexivity.
  destruct (DataIsCBR m); [symmetry; apply set_SubRangeOffset_restore|].
  rewrite acquire_SubRangeOffset.
  pose proof (acquire_keeps_SubRangeOffset m E) as Hk.
  destruct (acquire m E) as [[m' e] stored].
  rewrite <- Hk. destruct m'. unfold store, master_values.
  destruct stored; reflexivity.
Qed.

Lemma SetTemporalOffset_subtracts (m : State) E O :
  SetTemporalOffset m E O
  = set_SubRangeOffset
      (SetTemporalOffset (set_SubRangeOffset m 0) (Int64 (E - SubRangeOffset m)) O)
      (SubRangeOffset m).
Proof.
  unfold SetTemporalOffset.
  replace (DataIsCBR (set_SubRangeOffset m 0)) with (DataIsCBR m) by reflexivity.
  destruct (DataIsCBR m); [symmetry; apply set_SubRangeOffset_restore|].
  replace (SubRangeOffset (set_SubRangeOffset m 0)) with 0 by reflexivity.
  rewrite Z.sub_0_r, Int64_idemp.
  destruct m. unfold provisional_for, map_insert_new.
  state_cases; reflexivity.
Qed.

Lemma set_per_entry_subtracts set (m : State) E x :
  (set_per_entry set m E x).1
  = set_SubRangeOffset
      (set_per_entry set (set_SubRangeOffset m 0) (Int64 (E - SubRangeOffset m)) x).1
      (SubRangeOffset m).
Proof.
  unfold set_per_entry.
  replace (DataIsCBR (set_SubRangeOffset m 0)) with (DataIsCBR m) by reflexivity.
  destruct (DataIsCBR m); [symmetry; apply set_SubRangeOffset_restore|].
  replace (SubRangeOffset (set_SubRangeOffset m 0)) with 0 by reflexivity.
  rewrite Z.sub_0_r, Int64_idemp.
  destruct m. unfold provisional_for, map_insert_new.
  state_cases; reflexivity.
Qed.

(** After [acquire] the map has an entry for the edit unit. *)
Lemma acquire_managed (m : State) (E : Position) :
  is_Some (ManagedData (acquire m E).1.1 !! E).
Proof.
  destruct m. unfold acquire, map_insert_new.
  state_cases; rewrite ?lookup_insert_eq; eauto.
Qed.

Lemma AddEditUnit_managed (m : State) S E K F :
  DataIsCBR m = false ->
  is_Some (ManagedData (AddEditUnit Log m S E K F) !! Int64 (E - SubRangeOffset m)).
Proof.
  intros Hvbr. unfold AddEditUnit. rewrite Hvbr.
  pose proof (acquire_managed m (Int64 (E - SubRangeOffset m))) as Hacq.
  destruct (acquire m (Int64 (E - SubRangeOffset m))) as [[m' e] stored].
  simpl in Hacq. unfold store. destruct stored; simpl; [|exact Hacq].
  rewrite lookup_insert_eq. eauto.
Qed.

End SubRange.

(** C5 (as the code has it). The manager subtracts [SubRangeOffset]
    from the edit unit given to [AddEditUnit]/[OfferEditUnit],
    [SetTemporalOffset]/[OfferTemporalOffset], [SetKeyOffset] and
    [SetFlags]: each acts as it would with no sub-range offset on the
    edit unit less the offset, so that for a VBR stream the edit unit
    equal to the offset is managed as edit unit 0 and earlier ones under
    negative positions.  [SetOffset]/[OfferOffset] subtract nothing:
    they take the edit unit as relative to the sub-range already. *)
Theorem SubRangeOffset_correction
    (Log : Position -> IndexManager.LogState -> IndexManager.LogState)
    (m : IndexManager.State) (SubStream : Z) (EditUnit : Position)
    (Offset KeyOffset Flags : Z) :
  let k := IndexManager.SubRangeOffset m in
  let m0 := IndexManager.set_SubRangeOffset m 0 in
  let back (m' : IndexManager.State) := IndexManager.set_SubRangeOffset m' k in
  IndexManager.AddEditUnit Log m SubStream EditUnit KeyOffset Flags
    = back (IndexManager.AddEditUnit Log m0 SubStream (Int64 (EditUnit - k))
              KeyOffset Flags) /\
  (IndexManager.OfferEditUnit Log m SubStream EditUnit KeyOffset Flags).1
    = back (IndexManager.OfferEditUnit Log m0 SubStream (Int64 (EditUnit - k))
              KeyOffset Flags).1 /\
  IndexManager.SetTemporalOffset m EditUnit Offset
    = back (IndexManager.SetTemporalOffset m0 (Int64 (EditUnit - k)) Offset) /\
  (IndexManager.OfferTemporalOffset m EditUnit Offset).1
    = back (IndexManager.OfferTemporalOffset m0 (Int64 (EditUnit - k)) Offset).1 /\
  (IndexManager.SetKeyOffset m EditUnit KeyOffset).1
    = back (IndexManager.SetKeyOffset m0 (Int64 (EditUnit - k)) KeyOffset).1 /\
  (IndexManager.SetFlags m EditUnit Flags).1
    = back (IndexManager.SetFlags m0 (Int64 (EditUnit - k)) Flags).1 /\
  IndexManager.SetOffset Log m SubStream EditUnit Offset KeyOffset Flags
    = back (IndexManager.SetOffset Log m0 SubStream EditUnit Offset KeyOffset Flags) /\
  (IndexManager.OfferOffset Log m SubStream EditUnit Offset KeyOffset Flags).1
    = back (IndexManager.OfferOffset Log m0 SubStream EditUnit Offset
              KeyOffset Flags).1 /\
  (IndexManager.DataIsCBR m = false ->
   is_Some (IndexManager.ManagedData
              (IndexManager.AddEditUnit Log m SubStream EditUnit KeyOffset Flags)
            !! Int64 (EditUnit - k)) /\
   is_Some (IndexManager.ManagedData
              (IndexManager.AddEditUnit Log m SubStream k KeyOffset Flags)
            !! 0)).
Proof.
  intros k m0 back. subst k m0 back. cbv beta.
  repeat split.
  - apply AddEditUnit_subtracts.
  - apply AddEditUnit_subtracts.
  - apply SetTemporalOffset_subtracts.
  - apply SetTemporalOffset_subtracts.
  - apply set_per_entry_subtracts.
  - apply set_per_entry_subtracts.
  - apply SetOffset_does_not_subtract.
  - apply SetOffset_does_not_subtract.
  - apply AddEditUnit_managed. assumption.
  - pose proof (AddEditUnit_managed Log m SubStream
                  (IndexManager.SubRangeOffset m) KeyOffset Flags H) as Hz.
    rewrite Z.sub_diag in Hz. exact Hz.
Qed.

(** With a sub-range offset of 5, the edit unit added as 7 is managed as
    edit unit 2. *)
Lemma SubRangeOffset_correction_witness :
  is_Some (IndexManager.ManagedData
             (IndexManager.AddEditUnit example_Log
                (IndexManager.set_SubRangeOffset example_manager 5) 0 7 0 (-1))
           !! 2).
Proof.
  pose proof (SubRangeOffset_correction example_Log
                (IndexManager.set_SubRangeOffset example_manager 5) 0 7 0 0 (-1))
    as H.
  cbv zeta in H. destruct H as (_ & _ & _ & _ & _ & _ & _ & _ & Hmanaged).
  destruct Hmanaged as [H7 _]; [reflexivity|]. exact H7.
Defined.

(** With a sub-range offset of 5, [SetOffset] for edit unit 7 creates
    the entry of edit unit 7 and none for edit unit 2. *)
Lemma SetOffset_SubRangeOffset_counterexample :
  IndexManager.SubRangeOffset (IndexManager.set_SubRangeOffset example_manager 5) = 5 /\
  is_Some (IndexManager.ManagedData
             (IndexManager.SetOffset example_Log
                (IndexManager.set_SubRangeOffset example_manager 5) 0 7 1000 0 (-1))
           !! 7) /\
  IndexManager.ManagedData
    (IndexManager.SetOffset example_Log
       (IndexManager.set_SubRangeOffset example_manager 5) 0 7 1000 0 (-1))
  !! (7 - 5) = None.
Proof.
  split; [reflexivity|]. split.
  - vm_compute. eauto.
  - vm_compute. reflexivity.
Qed.

(** C6 at a concrete run.  [SetTemporalOffset(0, 2)] on a fresh VBR
    manager parks offset 2 for edit unit 0, and parks the reverse offset
    -2, meant for the partner edit unit 2, under edit unit 0 as well.
    When edit unit 2 is then created by [SetOffset] it receives no
    TemporalDiff and the parked difference stays in the side map; when
    edit unit 0 is created it receives the parked TemporalOffset 2, and
    the difference -2 that belonged to edit unit 2. *)
Lemma SetTemporalOffset_partner_diff_misfiled :
  IndexManager.UnsatisfiedTemporalOffsets example_manager_parked !! 0 = Some 2 /\
  IndexManager.UnsatisfiedTemporalDiffs example_manager_parked !! (0 + 2) = None /\
  IndexManager.UnsatisfiedTemporalDiffs example_manager_parked !! 0 = Some (-2) /\
  IndexManager.TemporalDiff <$> IndexManager.ManagedData example_manager_partner !! 2
    = Some 0 /\
  IndexManager.UnsatisfiedTemporalDiffs example_manager_partner !! 0 = Some (-2) /\
  IndexManager.TemporalOffset <$> IndexManager.ManagedData example_manager_both !! 0
    = Some 2 /\
  IndexManager.TemporalDiff <$> IndexManager.ManagedData example_manager_both !! 0
    = Some (-2) /\
  IndexManager.UnsatisfiedTemporalOffsets example_manager_both !! 0 = None.
Proof. repeat split; vm_compute; reflexivity. Qed.

Section Parked.

Import IndexManager.

Variable Log : Position -> LogState -> LogState.

Lemma master_values_TemporalOffset (m : State) S e K F :
  TemporalOffset (master_values m S e K F) = TemporalOffset e /\
  TemporalDiff (master_values m S e K F) = TemporalDiff e.
Proof.
  unfold master_values. repeat case_match; split; reflexivity.
Qed.

(** A temporal offset for an edit unit that is neither managed nor
    provisional, and has nothing parked yet, is parked under that edit
    unit. *)
Lemma SetTemporalOffset_parks (m : State) (E : Position) (Off : Z) :
  DataIsCBR m = false ->
  provisional_for m (Int64 (E - SubRangeOffset m)) = None ->
  ManagedData m !! Int64 (E - SubRangeOffset m) = None ->
  UnsatisfiedTemporalOffsets m !! Int64 (E - SubRangeOffset m) = None ->
  UnsatisfiedTemporalOffsets (SetTemporalOffset m E Off)
    !! Int64 (E - SubRangeOffset m) = Some Off.
Proof.
  intros Hvbr Hprov Hman Hpark. unfold SetTemporalOffset.
  rewrite Hvbr, Hprov, Hman. unfold map_insert_new. rewrite Hpark.
  destruct m. unfold provisional_for in *. state_cases;
    apply lookup_insert_eq.
Qed.

(** Creating an edit unit hands it what is parked under it and erases
    the parked values. *)
Lemma acquire_takes_parked (m : State) (X : Position) :
  provisional_for m X = None -> ManagedData m !! X = None ->
  let r := acquire m X in
  r.2 = true /\
  TemporalOffset r.1.2
    = default 0 (UnsatisfiedTemporalOffsets m !! X) /\
  TemporalDiff r.1.2
    = default 0 (UnsatisfiedTemporalDiffs m !! X) /\
  UnsatisfiedTemporalOffsets r.1.1 !! X = None /\
  UnsatisfiedTemporalDiffs r.1.1 !! X = None.
Proof.
  intros Hprov Hman r. subst r.
  destruct m. unfold provisional_for, acquire in *.
  state_simpl. rewrite Hman.
  assert (Hsym : (ProvisionalEditUnit0 =? X) = (X =? ProvisionalEditUnit0))
    by apply Z.eqb_sym.
  destruct ProvisionalEntry0 as [p|]; state_simpl.
  - rewrite Hsym. destruct (X =? ProvisionalEditUnit0); [discriminate|].
    state_simpl. rewrite Hman.
    destruct (UnsatisfiedTemporalOffsets0 !! X) eqn:Ho;
      destruct (UnsatisfiedTemporalDiffs0 !! X) eqn:Hd;
      state_simpl; rewrite ?Hman; state_simpl; rewrite ?Hd; state_simpl;
      rewrite ?lookup_delete_eq, ?Ho, ?Hd; auto.
  - destruct (UnsatisfiedTemporalOffsets0 !! X) eqn:Ho;
      destruct (UnsatisfiedTemporalDiffs0 !! X) eqn:Hd;
      state_simpl; rewrite ?Hman; state_simpl; rewrite ?Hd; state_simpl;
      rewrite ?lookup_delete_eq, ?Ho, ?Hd; auto.
Qed.

End Parked.

Section Parked_delivery.

Import IndexManager.

Variable Log : Position -> LogState -> LogState.

Lemma SetOffset_takes_parked (m : State) (X : Position) S O K F :
  DataIsCBR m = false -> provisional_for m X = None -> ManagedData m !! X = None ->
  let m' := SetOffset Log m S X O K F in
  TemporalOffset <$> ManagedData m' !! X
    = Some (default 0 (UnsatisfiedTemporalOffsets m !! X)) /\
  TemporalDiff <$> ManagedData m' !! X
    = Some (default 0 (UnsatisfiedTemporalDiffs m !! X)) /\
  UnsatisfiedTemporalOffsets m' !! X = None /\
  UnsatisfiedTemporalDiffs m' !! X = None.
Proof.
  intros Hvbr Hprov Hman m'. subst m'. unfold SetOffset. rewrite Hvbr.
  pose proof (acquire_takes_parked m X Hprov Hman) as Hacq. cbv zeta in Hacq.
  destruct (acquire m X) as [[m1 e] stored].
  cbn [fst snd] in Hacq. destruct Hacq as (-> & HTO & HTD & HUO & HUD).
  destruct m1. unfold store. state_simpl.
  rewrite lookup_insert_eq. cbn [fmap option_fmap option_map].
  destruct (master_values_TemporalOffset
              {| FormatFixed := FormatFixed0; UsesReordering := UsesReordering0;
                 DataIsCBR := DataIsCBR0; StreamListSize := StreamListSize0;
                 PosTableList := PosTableList0; ElementSizeList := ElementSizeList0;
                 StreamCount := StreamCount0;
                 ManagedDataEntrySize := ManagedDataEntrySize0;
                 MasterStream := MasterStream0; Values := Values0;
                 LastNewEditUnit := LastNewEditUnit0;
                 ProvisionalEntry := ProvisionalEntry0;
                 ProvisionalEditUnit := ProvisionalEditUnit0; LogSt := LogSt0;
                 ValueRelativeIndexing := ValueRelativeIndexing0;
                 SubRangeOffset := SubRangeOffset0; ManagedData := ManagedData0;
                 UnsatisfiedTemporalOffsets := UnsatisfiedTemporalOffsets0;
                 UnsatisfiedTemporalDiffs := UnsatisfiedTemporalDiffs0 |}
              S (set_entry_StreamOffset (or_entry_Status e 1) S O) K F)
    as [-> ->].
  cbn [TemporalOffset TemporalDiff set_entry_StreamOffset or_entry_Status].
  rewrite HTO, HTD. auto.
Qed.

Lemma AddEditUnit_takes_parked (m : State) (E : Position) S K F :
  DataIsCBR m = false ->
  provisional_for m (Int64 (E - SubRangeOffset m)) = None ->
  ManagedData m !! Int64 (E - SubRangeOffset m) = None ->
  let X := Int64 (E - SubRangeOffset m) in
  let m' := AddEditUnit Log m S E K F in
  TemporalOffset <$> ManagedData m' !! X
    = Some (default 0 (UnsatisfiedTemporalOffsets m !! X)) /\
  TemporalDiff <$> ManagedData m' !! X
    = Some (default 0 (UnsatisfiedTemporalDiffs m !! X)) /\
  UnsatisfiedTemporalOffsets m' !! X = None /\
  UnsatisfiedTemporalDiffs m' !! X = None.
Proof.
  intros Hvbr Hprov Hman X m'. subst m' X. unfold AddEditUnit. rewrite Hvbr.
  pose proof (acquire_takes_parked m _ Hprov Hman) as Hacq. cbv zeta in Hacq.
  destruct (acquire m (Int64 (E - SubRangeOffset m))) as [[m1 e] stored].
  cbn [fst snd] in Hacq. destruct Hacq as (-> & HTO & HTD & HUO & HUD).
  pose proof (master_values_TemporalOffset m1 S e K F) as [HmO HmD].
  destruct m1. unfold store. state_simpl.
  rewrite lookup_insert_eq. cbn [fmap option_fmap option_map].
  rewrite HmO, HmD, HTO, HTD. auto.
Qed.

(** [SetTemporalOffset] for an edit unit that is not managed leaves it
    unmanaged, and leaves a provisional entry where it was. *)
Lemma SetTemporalOffset_keeps_absent (m : State) (E : Position) (Off : Z)
    (X : Position) :
  ManagedData m !! X = None -> provisional_for m X = None ->
  let m1 := SetTemporalOffset m E Off in
  DataIsCBR m1 = DataIsCBR m /\ SubRangeOffset m1 = SubRangeOffset m /\
  ManagedData m1 !! X = None /\ provisional_for m1 X = None.
Proof.
  intros Hman Hprov m1. subst m1. unfold SetTemporalOffset.
  destruct (DataIsCBR m) eqn:Hcbr; [auto|].
  destruct m. unfold provisional_for, map_insert_new in *. state_simpl.
  repeat (state_simpl; case_match; simplify_eq); state_simpl;
    repeat split; try reflexivity; try assumption; try congruence;
    rewrite ?lookup_insert_None; repeat split; try assumption;
    intros Heq; rewrite ?Heq in *;
    repeat match goal with
           | H : <[_ := _]> _ !! _ = Some _ |- _ =>
               rewrite lookup_insert_ne in H by congruence
           end;
    congruence.
Qed.

End Parked_delivery.

Section Parked_through_calls.

Import IndexManager.

Variable Log : Position -> LogState -> LogState.
Variable IndexTable_new : IndexTable.
Variable DefineDeltaArray : Z -> list Z -> IndexTable -> IndexTable.
Variables (X : Position) (Off : Z) (Sub : Position).

Ltac parked_solve :=
  repeat split; try reflexivity; try assumption; try congruence;
  rewrite ?lookup_insert_ne, ?lookup_delete_ne by congruence;
  try assumption; try congruence.

Lemma SetOffset_keeps_parked (m : State) S E O K F :
  E <> X -> parked_for X Off Sub m ->
  parked_for X Off Sub (SetOffset Log m S E O K F).
Proof.
  intros Hne (Hcbr & Hsub & Hprov & Hman & Hpark). unfold SetOffset.
  rewrite Hcbr. destruct m.
  unfold parked_for, acquire, store, map_insert_new, provisional_for in *.
  state_simpl. subst.
  repeat (state_simpl; case_match; simplify_eq); state_simpl; parked_solve.
Qed.

Lemma AddEditUnit_keeps_parked (m : State) S E K F :
  Int64 (E - Sub) <> X -> parked_for X Off Sub m ->
  parked_for X Off Sub (AddEditUnit Log m S E K F).
Proof.
  intros Hne (Hcbr & Hsub & Hprov & Hman & Hpark). unfold AddEditUnit.
  rewrite Hcbr. destruct m.
  unfold parked_for, acquire, store, map_insert_new, provisional_for in *.
  state_simpl. subst.
  repeat (state_simpl; case_match; simplify_eq); state_simpl; parked_solve.
Qed.

Lemma SetTemporalOffset_keeps_parked (m : State) E O :
  parked_for X Off Sub m -> parked_for X Off Sub (SetTemporalOffset m E O).
Proof.
  intros (Hcbr & Hsub & Hprov & Hman & Hpark).
  destruct (SetTemporalOffset_keeps_absent m E O X Hman Hprov)
    as (H1 & H2 & H3 & H4).
  unfold parked_for.
  split; [rewrite H1; exact Hcbr|]. split; [rewrite H2; exact Hsub|].
  split; [exact H4|]. split; [exact H3|].
  unfold SetTemporalOffset. rewrite Hcbr.
  destruct m. unfold provisional_for, map_insert_new in *. state_simpl.
  repeat (state_simpl; case_match; simplify_eq); state_simpl;
    try assumption;
    match goal with
    | |- <[?k := _]> _ !! X = _ =>
        rewrite lookup_insert_ne by (intros Heq; congruence); assumption
    end.
Qed.

Lemma set_per_entry_keeps_parked set (m : State) E x :
  parked_for X Off Sub m -> parked_for X Off Sub (set_per_entry set m E x).1.
Proof.
  intros (Hcbr & Hsub & Hprov & Hman & Hpark). unfold set_per_entry.
  rewrite Hcbr. destruct m. unfold parked_for, provisional_for in *.
  state_simpl. subst.
  repeat (state_simpl; case_match; simplify_eq); state_simpl; parked_solve.
  all: try match goal with
    | |- <[?k := _]> _ !! X = _ =>
        rewrite lookup_insert_ne by (intros Heq; congruence); assumption
    end.
Qed.

(** A call that does not create the entry of [X] leaves what is parked
    for [X] where it is. *)
Lemma call_keeps_parked (m : State) (c : Call) :
  creates_edit_unit Sub X c = false -> parked_for X Off Sub m ->
  parked_for X Off Sub (call Log IndexTable_new DefineDeltaArray m c).
Proof.
  intros Hc Hm. destruct c; cbn [call creates_edit_unit fst snd] in *.
  - destruct Hm as (Hcbr & Hsub & Hprov & Hman & Hpark).
    unfold AddSubStream. destruct m. unfold parked_for, provisional_for in *.
    state_simpl. subst.
    repeat (state_simpl; case_match; simplify_eq); state_simpl; parked_solve.
  - apply AddEditUnit_keeps_parked; [apply Z.eqb_neq; exact Hc|exact Hm].
  - apply SetOffset_keeps_parked; [apply Z.eqb_neq; exact Hc|exact Hm].
  - apply AddEditUnit_keeps_parked; [apply Z.eqb_neq; exact Hc|exact Hm].
  - apply SetOffset_keeps_parked; [apply Z.eqb_neq; exact Hc|exact Hm].
  - apply SetTemporalOffset_keeps_parked, Hm.
  - apply SetTemporalOffset_keeps_parked, Hm.
  - apply set_per_entry_keeps_parked, Hm.
  - apply set_per_entry_keeps_parked, Hm.
  - apply set_per_entry_keeps_parked, Hm.
  - apply set_per_entry_keeps_parked, Hm.
  - unfold Flush. destruct (DataIsCBR m); exact Hm.
  - destruct Hm as (Hcbr & Hsub & Hprov & Hman & Hpark).
    destruct m. unfold parked_for, MakeIndex, provisional_for in *.
    state_simpl. auto.
  - destruct Hm as (Hcbr & Hsub & Hprov & Hman & Hpark).
    destruct m. unfold parked_for, provisional_for in *. state_simpl. auto.
Qed.

Lemma run_keeps_parked (cs : list Call) : forall m : State,
  Forall (fun c => creates_edit_unit Sub X c = false) cs ->
  parked_for X Off Sub m ->
  parked_for X Off Sub (run Log IndexTable_new DefineDeltaArray m cs).
Proof.
  unfold run. induction cs as [|c cs IH]; intros m Hcs Hm; [exact Hm|].
  apply Forall_cons in Hcs as [Hc Hcs]. cbn [fold_left].
  apply IH; [exact Hcs|]. apply call_keeps_parked; assumption.
Qed.

End Parked_through_calls.

(** X1.  A parked temporal offset is delivered.  A temporal offset given for
    an edit unit that is not managed, not the provisional entry and has
    nothing parked is parked in [UnsatisfiedTemporalOffsets] under that
    edit unit.  It stays there, and the edit unit stays without an
    entry, through any calls of the manager that do not create that
    edit unit, among them calls that create other edit units and take
    what is parked for those.  When the edit unit is then created, by
    [SetOffset] or by [AddEditUnit], the new entry has that
    TemporalOffset and the parked entry is erased. *)
Theorem parked_TemporalOffset_delivered
    (Log : Position -> IndexManager.LogState -> IndexManager.LogState)
    (IndexTable_new : IndexTable)
    (DefineDeltaArray : Z -> list Z -> IndexTable -> IndexTable)
    (m : IndexManager.State) (E : Position) (Off : Z)
    (cs : list IndexManager.Call) (S O K F : Z) :
  IndexManager.DataIsCBR m = false ->
  let X := Int64 (E - IndexManager.SubRangeOffset m) in
  IndexManager.provisional_for m X = None ->
  IndexManager.ManagedData m !! X = None ->
  IndexManager.UnsatisfiedTemporalOffsets m !! X = None ->
  Forall (fun c => creates_edit_unit (IndexManager.SubRangeOffset m) X c = false)
    cs ->
  let m1 := IndexManager.SetTemporalOffset m E Off in
  let m2 := IndexManager.run Log IndexTable_new DefineDeltaArray m1 cs in
  IndexManager.UnsatisfiedTemporalOffsets m1 !! X = Some Off /\
  (IndexManager.ManagedData m2 !! X = None /\
   IndexManager.UnsatisfiedTemporalOffsets m2 !! X = Some Off) /\
  (IndexManager.TemporalOffset
     <$> IndexManager.ManagedData (IndexManager.SetOffset Log m2 S X O K F) !! X
     = Some Off /\
   IndexManager.UnsatisfiedTemporalOffsets
     (IndexManager.SetOffset Log m2 S X O K F) !! X = None) /\
  (IndexManager.TemporalOffset
     <$> IndexManager.ManagedData (IndexManager.AddEditUnit Log m2 S E K F) !! X
     = Some Off /\
   IndexManager.UnsatisfiedTemporalOffsets
     (IndexManager.AddEditUnit Log m2 S E K F) !! X = None).
Proof.
  intros Hvbr. cbv zeta. intros Hprov Hman Hnone Hcs.
  pose proof (SetTemporalOffset_parks m E Off Hvbr Hprov Hman Hnone) as Hpark.
  pose proof (SetTemporalOffset_keeps_absent m E Off _ Hman Hprov)
    as (Hcbr1 & Hk1 & Hman1 & Hprov1).
  rewrite Hvbr in Hcbr1.
  remember (Int64 (E - IndexManager.SubRangeOffset m)) as X eqn:HX.
  remember (IndexManager.SetTemporalOffset m E Off) as m1 eqn:Hm1.
  assert (Hparked1 : parked_for X Off (IndexManager.SubRangeOffset m) m1)
    by (unfold parked_for; auto).
  pose proof (run_keeps_parked Log IndexTable_new DefineDeltaArray X Off
                (IndexManager.SubRangeOffset m) cs m1 Hcs Hparked1)
    as (Hcbr2 & Hk2 & Hprov2 & Hman2 & Hpark2).
  remember (IndexManager.run Log IndexTable_new DefineDeltaArray m1 cs)
    as m2 eqn:Hm2.
  split; [exact Hpark|]. split; [split; assumption|]. split.
  - destruct (SetOffset_takes_parked Log m2 X S O K F Hcbr2 Hprov2 Hman2)
      as (HTO & _ & HUO & _).
    rewrite Hpark2 in HTO. split; [exact HTO|exact HUO].
  - assert (HX2 : Int64 (E - IndexManager.SubRangeOffset m2) = X)
      by (rewrite Hk2; symmetry; exact HX).
    destruct (AddEditUnit_takes_parked Log m2 E S K F Hcbr2
                ltac:(rewrite HX2; exact Hprov2) ltac:(rewrite HX2; exact Hman2))
      as (HTO & _ & HUO & _).
    rewrite HX2 in HTO, HUO. rewrite Hpark2 in HTO.
    split; [exact HTO|exact HUO].
Qed.

(** Offset 2 parked for edit unit 0 reaches the entry of edit unit 0
    after the partner edit unit and others have been created and a
    second offset has been given for it. *)
Lemma parked_TemporalOffset_delivered_witness :
  let m2 := IndexManager.run example_Log example_empty_table (fun _ _ T => T)
              (IndexManager.SetTemporalOffset example_manager 0 2)
              example_calls_between in
  IndexManager.TemporalOffset
    <$> IndexManager.ManagedData
          (IndexManager.SetOffset example_Log m2 0 0 0 0 (-1)) !! 0
  = Some 2.
Proof.
  intros m2.
  destruct (parked_TemporalOffset_delivered example_Log example_empty_table
              (fun _ _ T => T) example_manager 0 2 example_calls_between
              0 0 0 (-1)) as (_ & _ & [H _] & _).
  - reflexivity.
  - reflexivity.
  - reflexivity.
  - reflexivity.
  - unfold example_calls_between. repeat constructor.
  - exact H.
Defined.

(** What the two tests of [GetCurrentPosition] make of every state.
    [(NativeEditRate.Denominator || 0)] is the truth value of the
    denominator.  With a native denominator of 0, which no assignment
    of the parser produces, and a selected edit rate that differs, the
    function goes on to the rescaling, whose dividend
    [PictureNumber * Selected.Numerator * Native.Denominator] is 0. *)
Lemma GetCurrentPosition_cases (this : MPEG2_VES_EssenceSubParser) :
  let Selected := SelectedEditRate this in
  let Native := NativeEditRate this in
  (native_denominator_guard (Denominator Native) = true
   <-> Denominator Native <> 0) /\
  (Numerator Selected = Numerator Native ->
   Denominator Selected = Denominator Native ->
   GetCurrentPosition this = Returned (PictureNumber this)) /\
  (Numerator Selected <> Numerator Native
   \/ Denominator Selected <> Denominator Native ->
   (Denominator Selected = 0 \/ Denominator Native <> 0 ->
    GetCurrentPosition this = Returned 0) /\
   (Denominator Selected <> 0 -> Denominator Native = 0 ->
    GetCurrentPosition this
    = Rescaled 0 (Int32 (Denominator Selected * Numerator Native)))).
Proof.
  intros Selected Native. split; [|split].
  - unfold native_denominator_guard. simpl. rewrite orb_false_r, negb_true_iff.
    apply Z.eqb_neq.
  - intros Hn Hd. unfold GetCurrentPosition. fold Selected Native.
    rewrite Hn, Hd, !Z.eqb_refl. reflexivity.
  - intros Hdiff.
    assert (Hrates : (Numerator Selected =? Numerator Native)
                     && (Denominator Selected =? Denominator Native) = false).
    { apply andb_false_iff. destruct Hdiff as [H|H]; [left|right];
        apply Z.eqb_neq; exact H. }
    unfold GetCurrentPosition. fold Selected Native. rewrite Hrates.
    unfold native_denominator_guard. simpl (negb (0 =? 0)).
    rewrite orb_false_r. split.
    + intros [H|H].
      * rewrite H. reflexivity.
      * apply Z.eqb_neq in H. rewrite H. simpl. rewrite orb_true_r. reflexivity.
    + intros Hs Hn. apply Z.eqb_neq in Hs. rewrite Hs, Hn. simpl.
      rewrite Z.mul_0_r. reflexivity.
Qed.

(** C9. In [GetCurrentPosition] the guard
    [(NativeEditRate.Denominator || 0)] is true in every state the
    parser builds: [BuildMPEG2VideoDescriptor], the one place that
    assigns the native edit rate, gives it the denominator 1001 or 1.
    So, for every native denominator that is not zero, whenever the
    selected edit rate differs from the native one the function returns
    0 at the guard, whatever the picture number, and the rescaling below
    it is not reached. *)
Theorem GetCurrentPosition_guard (this : MPEG2_VES_EssenceSubParser) :
  let Selected := SelectedEditRate this in
  let Native := NativeEditRate this in
  (forall DropFrame FrameRate,
     Native = BuildMPEG2VideoDescriptor_NativeEditRate DropFrame FrameRate ->
     Denominator Native = 1001 \/ Denominator Native = 1) /\
  (Denominator Native <> 0 ->
   native_denominator_guard (Denominator Native) = true /\
   (Numerator Selected <> Numerator Native
    \/ Denominator Selected <> Denominator Native ->
    GetCurrentPosition this = Returned 0)).
Proof.
  intros Selected Native. split.
  - intros DropFrame FrameRate ->. destruct DropFrame; [left|right]; reflexivity.
  - intros Hden.
    destruct (GetCurrentPosition_cases this) as (Hguard & _ & Hdiff).
    fold Selected Native in Hguard, Hdiff.
    split; [apply Hguard; exact Hden|].
    intros Hrates. destruct (Hdiff Hrates) as [Hzero _]. apply Hzero.
    right. exact Hden.
Qed.

(** A native rate of 30/1, as the descriptor builder sets it, wrapped
    at 25/1: position 0 is returned for picture 50. *)
Lemma GetCurrentPosition_guard_witness :
  Denominator (NativeEditRate example_parser) = 1 /\
  GetCurrentPosition example_parser = Returned 0.
Proof.
  destruct (GetCurrentPosition_guard example_parser) as (_ & H).
  split; [reflexivity|].
  destruct H as [_ H]; [simpl; lia|].
  apply H. left. simpl. lia.
Defined.

(* -------------------------------------------------------------------- *)
(** * Further properties of the index table *)

Section Entry_access.

Variable T : IndexTable.
Hypothesis Hwf : wf_IndexTable T.

(** What a look-up without re-ordering reads for sub-item 0 of an edit
    unit that has an entry: the fields of that entry. *)
Lemma IndexTable_Lookup_entry (E k : Z) (s : IndexSegment) :
  EditUnitByteCount T = 0 -> (k, s) ∈ SegmentMap T -> contains s E ->
  let Ptr := (E - k) * IndexEntrySize T in
  let Ret := (IndexTable_Lookup T E 0 false).1 in
  ThisPos Ret = E /\
  Location Ret = Int64 (GetU64 (IndexEntryArray s) (Ptr + 3)) /\
  KeyFrameOffset Ret = GetI8 (IndexEntryArray s) (Ptr + 1) /\
  Flags Ret = GetU8 (IndexEntryArray s) (Ptr + 2) /\
  TemporalOffset Ret
    = (if reorders s 0 then GetI8 (IndexEntryArray s) Ptr else 0) /\
  OtherPos Ret = false.
Proof.
  intros Hvbr Hin Hcon Ptr Ret. subst Ptr Ret.
  unfold IndexTable_Lookup, Lookup_body.
  rewrite Hvbr. simpl negb. cbv iota. unfold smap_deref.
  rewrite (IndexTable_locate_contains T Hwf E k s Hin Hcon).
  destruct (entry_offset_exact T Hwf E k s Hin Hcon) as (Hptr & _).
  pose proof Hwf as (Hsize & Hsorted & Hsegs & Hdisj).
  destruct (Hsegs _ _ Hin) as (Hst & Hlow & Hcnt & Hhigh & Hlen).
  unfold contains in Hcon. rewrite Hst in Hcon.
  destruct (Z.gtb_spec k E) as [|_]; [lia|].
  destruct (Z.eqb_spec (EntryCount s) 0) as [|_]; [lia|].
  rewrite Hptr, Hst.
  rewrite (Int64_small (k + EntryCount s)) by lia.
  rewrite (Int64_small (k + EntryCount s - 1)) by lia.
  destruct (Z.ltb_spec (k + EntryCount s - 1) E) as [|_]; [lia|].
  cbn [andb].
  destruct (0 >=? DeltaCount s); [cbn; auto 10|].
  change (0 >? 0) with false. cbv iota.
  destruct ((if DeltaCount s >? 0
             then PosTableIndex (delta_at (DeltaArray s) 0) else 0) >? 0);
    cbn; auto 10.
Qed.

(** Replacing the entry bytes of one segment by as many bytes keeps the
    table well-formed. *)
Lemma wf_IndexTable_replace_data (i : nat) (k : Z) (s : IndexSegment)
    (Data : list Z) :
  SegmentMap T !! i = Some (k, s) ->
  length Data = length (IndexEntryArray s) ->
  wf_IndexTable
    (with_SegmentMap T
       (<[i := (k, with_IndexEntryArray s Data (EntryCount s))]> (SegmentMap T))).
Proof.
  intros Hi Hlen. destruct Hwf as (Hsize & Hsorted & Hsegs & Hdisj).
  assert (Hkeys : (<[i := (k, with_IndexEntryArray s Data (EntryCount s))]>
                     (SegmentMap T)).*1 = (SegmentMap T).*1).
  { rewrite list_fmap_insert. apply list_insert_id.
    rewrite list_lookup_fmap, Hi. reflexivity. }
  assert (Hold : forall k2 s2,
            (k2, s2) ∈ <[i := (k, with_IndexEntryArray s Data (EntryCount s))]>
                         (SegmentMap T) ->
            exists s2', (k2, s2') ∈ SegmentMap T /\
              EntryCount s2 = EntryCount s2' /\
              StartPosition s2 = StartPosition s2' /\
              length (IndexEntryArray s2) = length (IndexEntryArray s2')).
  { intros k2 s2 [j Hj]%list_elem_of_lookup.
    destruct (Nat.eq_dec i j) as [->|Hne].
    - rewrite list_lookup_insert_eq in Hj by (eapply lookup_lt_Some; eauto).
      injection Hj as <- <-. exists s. split; [apply list_elem_of_lookup; eauto|].
      simpl. auto.
    - rewrite list_lookup_insert_ne in Hj by exact Hne.
      exists s2. split; [apply list_elem_of_lookup; eauto|auto]. }
  unfold wf_IndexTable. cbn [with_SegmentMap IndexEntrySize SegmentMap].
  split; [exact Hsize|]. split; [|split].
  - unfold smap_sorted. rewrite Hkeys. exact Hsorted.
  - intros k2 s2 Hin. destruct (Hold _ _ Hin) as (s2' & Hin' & Hc & Hs & Hl).
    destruct (Hsegs _ _ Hin') as (H1 & H2 & H3 & H4 & H5).
    unfold wf_segment. rewrite Hc, Hs, Hl. auto.
  - intros k1 s1 k2 s2 Hin1 Hin2 Hlt.
    destruct (Hold _ _ Hin1) as (s1' & Hin1' & Hc1 & _).
    destruct (Hold _ _ Hin2) as (s2' & Hin2' & _).
    rewrite Hc1. eauto.
Qed.

End Entry_access.

Section Replace_entry_bytes.

Variable T : IndexTable.
Hypothesis Hwf : wf_IndexTable T.
Hypothesis Hvbr : EditUnitByteCount T = 0.
Variables (i : nat) (k : Z) (s : IndexSegment) (Data : list Z).
Hypothesis Hi : SegmentMap T !! i = Some (k, s).
Hypothesis Hlen : length Data = length (IndexEntryArray s).

(** The table after the entry bytes of segment [s] became [Data]. *)
Let T' : IndexTable :=
  with_SegmentMap T
    (<[i := (k, with_IndexEntryArray s Data (EntryCount s))]> (SegmentMap T)).

Lemma replaced_segment_elem :
  (k, with_IndexEntryArray s Data (EntryCount s)) ∈ SegmentMap T'.
Proof.
  apply list_elem_of_lookup. exists i. subst T'. cbn [with_SegmentMap SegmentMap].
  apply list_lookup_insert_eq. eapply lookup_lt_Some; eauto.
Qed.

Lemma other_segment_elem (k0 : Z) (s0 : IndexSegment) :
  k0 <> k -> (k0, s0) ∈ SegmentMap T -> (k0, s0) ∈ SegmentMap T'.
Proof.
  intros Hne [j Hj]%list_elem_of_lookup. apply list_elem_of_lookup. exists j.
  subst T'. cbn [with_SegmentMap SegmentMap].
  rewrite list_lookup_insert_ne; [exact Hj|]. intros <-. congruence.
Qed.

(** Sub-item 0 of an edit unit of the changed segment is looked up in
    the new bytes. *)
Lemma replaced_Lookup (E : Z) :
  contains s E ->
  let Ptr := (E - k) * IndexEntrySize T in
  let Ret := (IndexTable_Lookup T' E 0 false).1 in
  Location Ret = Int64 (GetU64 Data (Ptr + 3)) /\
  KeyFrameOffset Ret = GetI8 Data (Ptr + 1) /\
  Flags Ret = GetU8 Data (Ptr + 2) /\
  TemporalOffset Ret = (if reorders s 0 then GetI8 Data Ptr else 0).
Proof.
  intros Hcon.
  pose proof (wf_IndexTable_replace_data T Hwf i k s Data Hi Hlen) as Hwf'.
  destruct (IndexTable_Lookup_entry T' Hwf' E k
              (with_IndexEntryArray s Data (EntryCount s)) Hvbr
              replaced_segment_elem Hcon) as (_ & HL & HK & HF & HT & _).
  auto.
Qed.

(** The location found for sub-item 0 of an edit unit is kept when the
    eight bytes of its stream offset are. *)
Lemma replaced_Location_kept (E : Z) (k0 : Z) (s0 : IndexSegment) :
  (k0, s0) ∈ SegmentMap T -> contains s0 E ->
  (forall q, (E - k) * IndexEntrySize T + 3 <= q < (E - k) * IndexEntrySize T + 11 ->
             byte_at Data q = byte_at (IndexEntryArray s) q) ->
  Location (IndexTable_Lookup T' E 0 false).1
    = Location (IndexTable_Lookup T E 0 false).1.
Proof.
  intros Hin Hcon Hkeep.
  pose proof (wf_IndexTable_replace_data T Hwf i k s Data Hi Hlen) as Hwf'.
  destruct (IndexTable_Lookup_entry T Hwf E k0 s0 Hvbr Hin Hcon)
    as (_ & HL & _).
  rewrite HL.
  destruct (Z.eq_dec k0 k) as [->|Hne].
  - assert (s0 = s) as ->.
    { destruct Hwf as (_ & Hsorted & _).
      eapply smap_sorted_functional; eauto. apply list_elem_of_lookup; eauto. }
    destruct (replaced_Lookup E Hcon) as (HL' & _). rewrite HL'.
    f_equal. unfold GetU64. f_equal. apply read_bytes_ext.
    intros q Hq. apply Hkeep. simpl in Hq. lia.
  - destruct (IndexTable_Lookup_entry T' Hwf' E k0 s0 Hvbr
                (other_segment_elem k0 s0 Hne Hin) Hcon) as (_ & HL' & _).
    exact HL'.
Qed.

End Replace_entry_bytes.

Section Update_Correct_shape.

Variable T : IndexTable.
Hypothesis Hwf : wf_IndexTable T.
Variables (E k : Z) (s : IndexSegment).
Hypothesis Hin : (k, s) ∈ SegmentMap T.
Hypothesis Hcon : contains s E.

Lemma IndexTable_Update_shape (StreamOffset : Z) :
  IndexTable_Update T E StreamOffset
  = with_SegmentMap T
      (<[IndexTable_locate T E :=
           (k, with_IndexEntryArray s
                 (PutU64 StreamOffset (IndexEntryArray s)
                    ((E - k) * IndexEntrySize T + 3))
                 (EntryCount s))]> (SegmentMap T)).
Proof.
  pose proof (IndexTable_locate_contains T Hwf E k s Hin Hcon) as Hit.
  destruct (entry_offset_exact T Hwf E k s Hin Hcon) as (Hptr & _).
  pose proof Hwf as (Hsize & Hsorted & Hsegs & Hdisj).
  destruct (Hsegs _ _ Hin) as (Hst & Hlow & Hcnt & Hhigh & Hlen).
  unfold IndexTable_Update, smap_deref. rewrite Hit.
  pose proof Hcon as Hcon'. unfold contains in Hcon'. rewrite Hst in Hcon'.
  destruct (Z.gtb_spec k E) as [|_]; [lia|].
  unfold IndexSegment_Update. rewrite Hptr, Hst.
  destruct (Z.ltb_spec E k) as [|_]; [lia|].
  rewrite (Int64_small (k + EntryCount s)) by lia.
  rewrite (Int64_small (k + EntryCount s - 1)) by lia.
  destruct (Z.gtb_spec E (k + EntryCount s - 1)) as [|_]; [lia|].
  reflexivity.
Qed.

Lemma IndexTable_Correct_shape (TemporalOffset KeyFrameOffset Flags : Z) :
  IndexTable_Correct T E TemporalOffset KeyFrameOffset Flags
  = with_SegmentMap T
      (<[IndexTable_locate T E :=
           (k, with_IndexEntryArray s
                 (poke (poke (poke (IndexEntryArray s)
                    ((E - k) * IndexEntrySize T) (UInt8 TemporalOffset))
                    ((E - k) * IndexEntrySize T + 1) (UInt8 KeyFrameOffset))
                    ((E - k) * IndexEntrySize T + 2) (UInt8 Flags))
                 (EntryCount s))]> (SegmentMap T)).
Proof.
  pose proof (IndexTable_locate_contains T Hwf E k s Hin Hcon) as Hit.
  destruct (entry_offset_exact T Hwf E k s Hin Hcon) as (Hptr & _).
  pose proof Hwf as (Hsize & Hsorted & Hsegs & Hdisj).
  destruct (Hsegs _ _ Hin) as (Hst & Hlow & Hcnt & Hhigh & Hlen).
  unfold IndexTable_Correct, smap_deref. rewrite Hit.
  pose proof Hcon as Hcon'. unfold contains in Hcon'. rewrite Hst in Hcon'.
  destruct (Z.gtb_spec k E) as [|_]; [lia|].
  destruct (Z.eqb_spec (EntryCount s) 0) as [|_]; [lia|].
  rewrite Hptr, Hst.
  rewrite (Int64_small (k + EntryCount s)) by lia.
  rewrite (Int64_small (k + EntryCount s - 1)) by lia.
  destruct (Z.ltb_spec (k + EntryCount s - 1) E) as [|_]; [lia|].
  reflexivity.
Qed.

End Update_Correct_shape.

Lemma Int8_UInt8 (x : Z) : - 2 ^ 7 <= x < 2 ^ 7 -> Int8 (UInt8 x) = x.
Proof.
  intros Hx. unfold Int8, UInt8, wrap_signed, wrap_unsigned.
  change (2 ^ (8 - 1)) with 128 in *. change (2 ^ 8) with 256.
  change (2 ^ 7) with 128 in Hx.
  destruct (Z_lt_le_dec x 0) as [Hneg|Hpos].
  - replace (x mod 256) with (x + 256)
      by (apply (Z.mod_unique_pos _ _ (-1)); lia).
    replace ((x + 256 + 128) mod 256) with (x + 128)
      by (apply (Z.mod_unique_pos _ _ 1); lia).
    lia.
  - rewrite (Z.mod_small x) by lia. rewrite Z.mod_small by lia. lia.
Qed.

Lemma UInt8_small (x : Z) : 0 <= x < 2 ^ 8 -> UInt8 x = x.
Proof. intros Hx. unfold UInt8, wrap_unsigned. apply Z.mod_small. exact Hx. Qed.

(** X2. Update and look-up.  On a well-formed VBR table, after
    [Update(E, StreamOffset)] of an edit unit that has an entry, the
    table is still well-formed, a look-up of [E] (sub-item 0, no
    re-ordering) locates the new stream offset, and the location found
    for every other edit unit that has an entry is what it was. *)
Theorem IndexTable_Update_Lookup (T : IndexTable) (E StreamOffset k : Z)
    (s : IndexSegment) :
  wf_IndexTable T -> EditUnitByteCount T = 0 ->
  (k, s) ∈ SegmentMap T -> contains s E ->
  let T' := IndexTable_Update T E StreamOffset in
  wf_IndexTable T' /\
  Location (IndexTable_Lookup T' E 0 false).1 = Int64 (UInt64 StreamOffset) /\
  forall E' k' s', E' <> E -> (k', s') ∈ SegmentMap T -> contains s' E' ->
    Location (IndexTable_Lookup T' E' 0 false).1
      = Location (IndexTable_Lookup T E' 0 false).1.
Proof.
  intros Hwf Hvbr Hin Hcon T'. subst T'.
  rewrite (IndexTable_Update_shape T Hwf E k s Hin Hcon).
  pose proof (IndexTable_locate_contains T Hwf E k s Hin Hcon) as Hit.
  destruct (entry_offset_exact T Hwf E k s Hin Hcon) as (_ & Hp0 & Hp1).
  pose proof Hwf as (Hsize & _).
  assert (Hlen : length (PutU64 StreamOffset (IndexEntryArray s)
                           ((E - k) * IndexEntrySize T + 3))
                 = length (IndexEntryArray s)) by apply write_bytes_length.
  split; [apply wf_IndexTable_replace_data; assumption|]. split.
  - destruct (replaced_Lookup T Hwf Hvbr _ k s _ Hit Hlen E Hcon) as (HL & _).
    rewrite HL. f_equal. apply GetU64_PutU64; lia.
  - intros E' k' s' Hne Hin' Hcon'.
    apply (replaced_Location_kept T Hwf Hvbr _ k s _ Hit Hlen E' k' s' Hin' Hcon').
    intros q Hq. unfold PutU64. apply byte_at_write_bytes_outside.
    rewrite be_encode_length.
    assert (E' < E \/ E < E') as [Hlt|Hlt] by lia.
    + left. assert ((E' - k + 1) * IndexEntrySize T <= (E - k) * IndexEntrySize T)
        by (apply Z.mul_le_mono_nonneg_r; lia). lia.
    + right. assert ((E - k + 1) * IndexEntrySize T <= (E' - k) * IndexEntrySize T)
        by (apply Z.mul_le_mono_nonneg_r; lia). lia.
Qed.

(** Edit unit 1 of the example table is moved to stream offset 120. *)
Lemma IndexTable_Update_Lookup_witness :
  Location (IndexTable_Lookup (IndexTable_Update example_table 1 120) 1 0 false).1
    = 120 /\
  Location (IndexTable_Lookup (IndexTable_Update example_table 1 120) 2 0 false).1
    = 250.
Proof.
  destruct (IndexTable_Update_Lookup example_table 1 120 0 example_segment0)
    as (_ & Hnew & Hold).
  - exact example_table_wf.
  - reflexivity.
  - apply elem_of_cons. left. reflexivity.
  - unfold contains. simpl. lia.
  - split; [rewrite Hnew; reflexivity|].
    rewrite (Hold 2 0 example_segment0); [reflexivity|lia| |].
    + apply elem_of_cons. left. reflexivity.
    + unfold contains. simpl. lia.
Defined.

Lemma IndexTable_Correct_absent (T : IndexTable) (E TO KFO Fl : Z) :
  wf_IndexTable T ->
  (forall k s, (k, s) ∈ SegmentMap T -> ~ contains s E) ->
  IndexTable_Correct T E TO KFO Fl = T.
Proof.
  intros Hwf Hno. pose proof Hwf as (Hsize & Hsorted & Hsegs & Hdisj).
  pose proof (IndexTable_locate_spec T E Hsorted) as Hloc.
  unfold IndexTable_Correct, smap_deref.
  destruct (SegmentMap T !! IndexTable_locate T E) as [[first Segment]|] eqn:Hit;
    [|reflexivity].
  destruct Hloc as (Hle & _).
  assert (Hin : (first, Segment) ∈ SegmentMap T)
    by (apply list_elem_of_lookup; eauto).
  destruct (Hsegs _ _ Hin) as (Hst & Hlow & Hcnt & Hhigh & Hlen).
  destruct (Z.gtb_spec first E) as [|_]; [reflexivity|].
  destruct (Z.eqb_spec (EntryCount Segment) 0) as [|Hnz]; [reflexivity|].
  rewrite Hst.
  rewrite (Int64_small (first + EntryCount Segment)) by lia.
  rewrite (Int64_small (first + EntryCount Segment - 1)) by lia.
  destruct (Z.ltb_spec (first + EntryCount Segment - 1) E) as [|Hge];
    [reflexivity|].
  exfalso. apply (Hno _ _ Hin). unfold contains. rewrite Hst. lia.
Qed.

(** X3. Correct and look-up.  On a well-formed VBR table [Correct] does
    nothing for an edit unit without an entry.  For one with an entry
    the table stays well-formed, a look-up of it returns the
    KeyFrameOffset and Flags given (and the TemporalOffset given, when
    the sub-item is re-ordered), and the location found for every edit
    unit that has an entry, this one included, is what it was. *)
Theorem IndexTable_Correct_Lookup (T : IndexTable) (E TO KFO Fl : Z) :
  wf_IndexTable T -> EditUnitByteCount T = 0 ->
  - 2 ^ 7 <= TO < 2 ^ 7 -> - 2 ^ 7 <= KFO < 2 ^ 7 -> 0 <= Fl < 2 ^ 8 ->
  let T' := IndexTable_Correct T E TO KFO Fl in
  ((forall k s, (k, s) ∈ SegmentMap T -> ~ contains s E) -> T' = T) /\
  (forall k s, (k, s) ∈ SegmentMap T -> contains s E ->
     let Ret := (IndexTable_Lookup T' E 0 false).1 in
     wf_IndexTable T' /\
     KeyFrameOffset Ret = KFO /\
     Flags Ret = Fl /\
     TemporalOffset Ret = (if reorders s 0 then TO else 0) /\
     forall E' k' s', (k', s') ∈ SegmentMap T -> contains s' E' ->
       Location (IndexTable_Lookup T' E' 0 false).1
         = Location (IndexTable_Lookup T E' 0 false).1).
Proof.
  intros Hwf Hvbr HTO HKFO HFl T'. subst T'.
  split; [apply IndexTable_Correct_absent; exact Hwf|].
  intros k s Hin Hcon.
  rewrite (IndexTable_Correct_shape T Hwf E k s Hin Hcon).
  pose proof (IndexTable_locate_contains T Hwf E k s Hin Hcon) as Hit.
  destruct (entry_offset_exact T Hwf E k s Hin Hcon) as (_ & Hp0 & Hp1).
  pose proof Hwf as (Hsize & _).
  set (Ptr := (E - k) * IndexEntrySize T) in *.
  set (Data := poke (poke (poke (IndexEntryArray s) Ptr (UInt8 TO))
                       (Ptr + 1) (UInt8 KFO)) (Ptr + 2) (UInt8 Fl)).
  assert (Hlen : length Data = length (IndexEntryArray s))
    by (subst Data; rewrite !poke_length; reflexivity).
  assert (Hlen1 : length (poke (IndexEntryArray s) Ptr (UInt8 TO))
                  = length (IndexEntryArray s)) by apply poke_length.
  assert (Hlen2 : length (poke (poke (IndexEntryArray s) Ptr (UInt8 TO))
                            (Ptr + 1) (UInt8 KFO))
                  = length (IndexEntryArray s))
    by (rewrite !poke_length; reflexivity).
  destruct (replaced_Lookup T Hwf Hvbr _ k s Data Hit Hlen E Hcon)
    as (_ & HK & HF & HT).
  fold Ptr in HK, HF, HT.
  split; [apply wf_IndexTable_replace_data; assumption|].
  split; [|split; [|split]].
  - rewrite HK. unfold GetI8, Data.
    rewrite byte_at_poke_ne by lia.
    rewrite byte_at_poke_eq by (rewrite Hlen1; lia).
    apply Int8_UInt8. exact HKFO.
  - rewrite HF. unfold GetU8, Data.
    rewrite byte_at_poke_eq by (rewrite Hlen2; lia).
    rewrite !(UInt8_small Fl) by exact HFl. reflexivity.
  - rewrite HT. destruct (reorders s 0); [|reflexivity].
    unfold GetI8, Data.
    rewrite !byte_at_poke_ne by lia.
    rewrite byte_at_poke_eq by lia.
    apply Int8_UInt8. exact HTO.
  - intros E' k' s' Hin' Hcon'.
    apply (replaced_Location_kept T Hwf Hvbr _ k s Data Hit Hlen E' k' s' Hin' Hcon').
    intros q Hq. unfold Data.
    assert (E' < E \/ E' = E \/ E < E') as [Hlt|[->|Hlt]] by lia.
    + assert ((E' - k + 1) * IndexEntrySize T <= Ptr)
        by (apply Z.mul_le_mono_nonneg_r; lia).
      rewrite !byte_at_poke_ne by lia. reflexivity.
    + fold Ptr in Hq. rewrite !byte_at_poke_ne by lia. reflexivity.
    + assert ((E - k + 1) * IndexEntrySize T <= (E' - k) * IndexEntrySize T)
        by (apply Z.mul_le_mono_nonneg_r; lia).
      rewrite !byte_at_poke_ne by lia. reflexivity.
Qed.

(** Edit unit 1 of the example table gets key-frame offset -1 and flags
    0x80; its stream offset stays 100. *)
Lemma IndexTable_Correct_Lookup_witness :
  let T' := IndexTable_Correct example_table 1 0 (-1) 128 in
  KeyFrameOffset (IndexTable_Lookup T' 1 0 false).1 = -1 /\
  Flags (IndexTable_Lookup T' 1 0 false).1 = 128 /\
  IndexTable_Correct example_table 7 0 (-1) 128 = example_table.
Proof.
  intros T'. subst T'.
  destruct (IndexTable_Correct_Lookup example_table 1 0 (-1) 128
              example_table_wf eq_refl ltac:(lia) ltac:(lia) ltac:(lia))
    as (_ & Hhit).
  destruct (Hhit 0 example_segment0) as (_ & HK & HF & _).
  - apply elem_of_cons. left. reflexivity.
  - unfold contains. simpl. lia.
  - split; [exact HK|]. split; [exact HF|].
    destruct (IndexTable_Correct_Lookup example_table 7 0 (-1) 128
                example_table_wf eq_refl ltac:(lia) ltac:(lia) ltac:(lia))
      as (Hmiss & _).
    apply Hmiss. intros k s Hin.
    unfold example_table in Hin. cbn [SegmentMap] in Hin.
    repeat (apply elem_of_cons in Hin as [Hin|Hin]; [inversion Hin; subst; unfold contains; simpl; lia|]).
    apply elem_of_nil in Hin. contradiction.
Defined.

(** X4. [IndexSegment::AddIndexEntries] refuses entries of another size
    than the table's, reporting the two sizes, and, unless over-size
    segments are allowed, refuses when the entry array would grow above
    65535 bytes (the 8-byte header is not counted here); a refused call
    leaves the segment as it was.  Otherwise the entries are appended
    and counted.  In every case the entry array keeps the length
    [EntryCount * IndexEntrySize]. *)
Theorem IndexSegment_AddIndexEntries_spec (Parent : IndexTable)
    (Seg : IndexSegment) (Count Size : Z) (Entries : list Z)
    (AllowOverSize : bool) :
  11 <= IndexEntrySize Parent < 2 ^ 31 -> 0 <= EntryCount Seg -> 0 <= Count ->
  Z.of_nat (length (IndexEntryArray Seg))
    = EntryCount Seg * IndexEntrySize Parent ->
  Z.of_nat (length Entries) = Count * IndexEntrySize Parent ->
  (EntryCount Seg + Count) * IndexEntrySize Parent < 2 ^ 31 ->
  let r := IndexSegment_AddIndexEntries Parent Seg Count Size Entries
             AllowOverSize in
  (Size <> IndexEntrySize Parent ->
     r = (false, Seg, [EntrySizeMismatch (IndexEntrySize Parent) Size])) /\
  (Size = IndexEntrySize Parent -> AllowOverSize = false ->
   65535 < (EntryCount Seg + Count) * IndexEntrySize Parent ->
     r = (false, Seg, [])) /\
  (Size = IndexEntrySize Parent ->
   AllowOverSize = true
   \/ (EntryCount Seg + Count) * IndexEntrySize Parent <= 65535 ->
     r = (true,
          mkIndexSegment (StartPosition Seg) (DeltaCount Seg) (DeltaArray Seg)
            (EntryCount Seg + Count) (IndexEntryArray Seg ++ Entries), [])) /\
  Z.of_nat (length (IndexEntryArray r.1.2))
    = EntryCount r.1.2 * IndexEntrySize Parent.
Proof.
  intros Hsize Hcount HCount Hlen HEntries Hint r.
  assert (H0 : 0 <= EntryCount Seg * IndexEntrySize Parent)
    by (apply Z.mul_nonneg_nonneg; lia).
  assert (H1 : 0 <= Count * IndexEntrySize Parent)
    by (apply Z.mul_nonneg_nonneg; lia).
  assert (Hsum : (EntryCount Seg + Count) * IndexEntrySize Parent
                 = EntryCount Seg * IndexEntrySize Parent
                   + Count * IndexEntrySize Parent) by lia.
  assert (Hc : EntryCount Seg + Count
               <= (EntryCount Seg + Count) * IndexEntrySize Parent).
  { pose proof (Z.mul_le_mono_nonneg_l 1 (IndexEntrySize Parent)
                  (EntryCount Seg + Count) ltac:(lia) ltac:(lia)). lia. }
  assert (HIES : Int32 (IndexEntrySize Parent) = IndexEntrySize Parent).
  { apply Int32_small. lia. }
  assert (Happ : Size = IndexEntrySize Parent ->
    DataChunk_Set (Z.to_nat (Int32 (Size * Count))) Entries
      (length (IndexEntryArray Seg)) (IndexEntryArray Seg)
    = IndexEntryArray Seg ++ Entries).
  { intros ->. apply DataChunk_Set_append.
    rewrite Int32_small by lia. lia. }
  assert (HNew : Size = IndexEntrySize Parent ->
    Int32 (Int32 (EntryCount Seg * IndexEntrySize Parent) + Int32 (Count * Size))
    = (EntryCount Seg + Count) * IndexEntrySize Parent).
  { intros ->. rewrite !(Int32_small (_ * _)) by lia.
    rewrite Int32_small by lia. lia. }
  subst r. unfold IndexSegment_AddIndexEntries. rewrite HIES.
  destruct (Z.eqb_spec Size (IndexEntrySize Parent)) as [Heq|Hne]; simpl negb;
    cbv iota.
  - rewrite (HNew Heq), (Happ Heq).
    rewrite (Int32_small (EntryCount Seg + Count)) by lia.
    destruct AllowOverSize; simpl andb; cbv iota.
    + split; [intros; congruence|]. split; [intros; congruence|].
      split; [reflexivity|]. simpl. rewrite length_app. lia.
    + destruct (Z.gtb_spec ((EntryCount Seg + Count) * IndexEntrySize Parent) 65535).
      * split; [intros; congruence|]. split; [reflexivity|].
        split; [intros _ [|]; [congruence|lia]|]. simpl. exact Hlen.
      * split; [intros; congruence|]. split; [intros; lia|].
        split; [reflexivity|]. simpl. rewrite length_app. lia.
  - split; [reflexivity|]. split; [intros; congruence|].
    split; [intros; congruence|]. simpl. exact Hlen.
Qed.

(** One more entry is appended to the first segment of the example
    table; two entries of another size are refused. *)
Lemma IndexSegment_AddIndexEntries_spec_witness :
  IndexSegment_AddIndexEntries example_table example_segment0 1 11
    (example_entry 0 0 0 500) false
  = (true,
     mkIndexSegment 0 0 [] 4
       (IndexEntryArray example_segment0 ++ example_entry 0 0 0 500), []) /\
  IndexSegment_AddIndexEntries example_table example_segment0 2 15
    (example_entry 0 0 0 500 ++ example_entry 0 0 0 600) false
  = (false, example_segment0, [EntrySizeMismatch 11 15]).
Proof.
  split.
  - destruct (IndexSegment_AddIndexEntries_spec example_table example_segment0
                1 11 (example_entry 0 0 0 500) false)
      as (_ & _ & Happ & _); [simpl; lia..|].
    apply Happ; [reflexivity|right; simpl; lia].
  - destruct (IndexSegment_AddIndexEntries_spec example_table example_segment0
                2 15 (example_entry 0 0 0 500 ++ example_entry 0 0 0 600) false)
      as (Hmis & _); [simpl; lia..|].
    apply Hmis. simpl. lia.
Defined.

Section smap_set_facts.

Context {V : Type}.
Implicit Types (m : list (Z * V)) (k : Z) (v : V).

Lemma smap_set_keys m k v : (smap_set k v m).*1 = m.*1.
Proof.
  induction m as [|[k' v'] m IH]; simpl; [reflexivity|].
  destruct (k' =? k); simpl; [reflexivity|]. f_equal. exact IH.
Qed.

Lemma smap_set_sorted m k v : smap_sorted m -> smap_sorted (smap_set k v m).
Proof. unfold smap_sorted. rewrite smap_set_keys. auto. Qed.

Lemma elem_of_smap_set m k v k0 v0 :
  smap_sorted m ->
  (k0, v0) ∈ smap_set k v m <->
  (k0 = k /\ v0 = v /\ exists v', (k, v') ∈ m) \/ ((k0, v0) ∈ m /\ k0 <> k).
Proof.
  induction m as [|[k' v'] m IH]; intros Hs; simpl.
  - split; [intros []%elem_of_nil|].
    intros [(_ & _ & v' & []%elem_of_nil)|[[]%elem_of_nil _]].
  - apply smap_sorted_cons_inv in Hs as [Hs Hhd].
    assert (Hhd' : forall kk vv, (kk, vv) ∈ m -> k' < kk).
    { intros kk vv [j Hj]%list_elem_of_lookup. eauto. }
    destruct (Z.eqb_spec k' k) as [->|Hne].
    + rewrite !elem_of_cons. split.
      * intros [[= -> ->]|Hin].
        -- left. split; [reflexivity|]. split; [reflexivity|].
           exists v'. apply elem_of_cons. auto.
        -- right. split; [auto|]. specialize (Hhd' _ _ Hin). lia.
      * intros [(-> & -> & _)|[[[= -> ->]|Hin] Hk]]; [auto|congruence|auto].
    + rewrite !elem_of_cons, (IH Hs). split.
      * intros [[= -> ->]|[(-> & -> & v1 & Hin)|[Hin Hk]]].
        -- right. split; [left; reflexivity|exact Hne].
        -- left. split; [reflexivity|]. split; [reflexivity|].
           exists v1. apply elem_of_cons. auto.
        -- right. split; [right; exact Hin|exact Hk].
      * intros [(-> & -> & v1 & Hin)|[[[= -> ->]|Hin] Hk]].
        -- right. left. split; [reflexivity|]. split; [reflexivity|].
           apply elem_of_cons in Hin as [[= ? ?]|Hin]; [congruence|eauto].
        -- auto.
        -- right. right. auto.
Qed.

Lemma smap_lookup_elem m k v :
  smap_sorted m -> (k, v) ∈ m -> smap_lookup k m = Some v.
Proof.
  intros Hs [i Hi]%list_elem_of_lookup. unfold smap_lookup, smap_deref.
  rewrite (smap_find_Some m k i v Hs Hi), Hi. reflexivity.
Qed.

End smap_set_facts.

(** An entry that fits is appended: one more entry of [IndexEntrySize]
    bytes, beginning with the values given. *)
Lemma IndexSegment_AddIndexEntry_appends (Parent : IndexTable) (fresh : list Z)
    (Seg : IndexSegment) (TO KFO Fl SO : Z) (SliceOffsets : list Z)
    (PosTable : list Rational) :
  11 <= IndexEntrySize Parent -> 0 <= EntryCount Seg ->
  (EntryCount Seg + 1) * IndexEntrySize Parent + 8 <= 65535 ->
  exists Buffer,
    IndexSegment_AddIndexEntry Parent fresh Seg TO KFO Fl SO (NSL Parent)
      SliceOffsets (NPE Parent) PosTable
    = (true,
       mkIndexSegment (StartPosition Seg) (DeltaCount Seg) (DeltaArray Seg)
         (EntryCount Seg + 1) (IndexEntryArray Seg ++ Buffer), []) /\
    Z.of_nat (length Buffer) = IndexEntrySize Parent /\
    byte_at Buffer 0 = UInt8 TO /\
    byte_at Buffer 1 = UInt8 KFO /\
    byte_at Buffer 2 = UInt8 Fl /\
    GetU64 Buffer 3 = UInt64 SO.
Proof.
  intros Hsize Hcount Hfits.
  assert (Hmul : 0 <= (EntryCount Seg + 1) * IndexEntrySize Parent)
    by (apply Z.mul_nonneg_nonneg; lia).
  assert (HNewSize :
    Int32 (Int32 (Int32 (EntryCount Seg + 1) * IndexEntrySize Parent) + 8)
    = (EntryCount Seg + 1) * IndexEntrySize Parent + 8).
  { assert (EntryCount Seg + 1 <= (EntryCount Seg + 1) * IndexEntrySize Parent).
    { pose proof (Z.mul_le_mono_nonneg_l 1 (IndexEntrySize Parent)
                    (EntryCount Seg + 1) ltac:(lia) ltac:(lia)). lia. }
    rewrite (Int32_small (EntryCount Seg + 1)) by lia.
    rewrite (Int32_small ((EntryCount Seg + 1) * _)) by lia.
    apply Int32_small. lia. }
  unfold IndexSegment_AddIndexEntry. rewrite HNewSize.
  rewrite !Z.eqb_refl. simpl negb. cbv iota.
  destruct (Z.gtb_spec ((EntryCount Seg + 1) * IndexEntrySize Parent + 8) 65535)
    as [|_]; [lia|].
  set (B0 := PutU64 SO
               (poke (poke (poke (resize (Z.to_nat (IndexEntrySize Parent)) 0 fresh)
                  0 (UInt8 TO)) 1 (UInt8 KFO)) 2 (UInt8 Fl)) 3).
  assert (HB0len : length B0 = Z.to_nat (IndexEntrySize Parent)).
  { unfold B0, PutU64. rewrite write_bytes_length, !poke_length.
    apply length_resize. }
  pose proof (put_slice_offsets_frame (Z.to_nat (NSL Parent)) SliceOffsets B0 11)
    as (Hlen1 & Hptr1 & Hkeep1).
  destruct (put_slice_offsets (Z.to_nat (NSL Parent)) SliceOffsets B0 11)
    as [B1 Ptr] eqn:HB1. simpl in Hlen1, Hptr1, Hkeep1.
  pose proof (put_pos_table_frame (Z.to_nat (NPE Parent)) PosTable B1 Ptr)
    as (Hlen2 & Hkeep2).
  destruct (put_pos_table (Z.to_nat (NPE Parent)) PosTable B1 Ptr)
    as [B2 Ptr2] eqn:HB2. simpl in Hlen2, Hkeep2.
  assert (Hfront : forall q, q < 11 -> byte_at B2 q = byte_at B0 q).
  { intros q Hq. rewrite Hkeep2 by lia. apply Hkeep1. lia. }
  exists B2. split; [|split; [|split; [|split; [|split]]]].
  - rewrite DataChunk_Set_append by lia.
    rewrite (Int32_small (EntryCount Seg + 1)) by lia. reflexivity.
  - lia.
  - rewrite Hfront by lia. unfold B0, PutU64.
    rewrite byte_at_write_bytes_outside by lia.
    rewrite !byte_at_poke_ne by lia. apply byte_at_poke_eq.
    rewrite length_resize. lia.
  - rewrite Hfront by lia. unfold B0, PutU64.
    rewrite byte_at_write_bytes_outside by lia.
    rewrite byte_at_poke_ne by lia. apply byte_at_poke_eq.
    rewrite poke_length, length_resize. lia.
  - rewrite Hfront by lia. unfold B0, PutU64.
    rewrite byte_at_write_bytes_outside by lia.
    apply byte_at_poke_eq. rewrite !poke_length, length_resize. lia.
  - unfold GetU64. rewrite (read_bytes_ext B2 B0) by (intros q Hq; apply Hfront; lia).
    apply GetU64_PutU64; [lia|]. rewrite !poke_length, length_resize. lia.
Qed.

(** A refused entry leaves the segment as it was. *)
Lemma IndexSegment_AddIndexEntry_refused (Parent : IndexTable) (fresh : list Z)
    (Seg : IndexSegment) (TO KFO Fl SO SliceCount : Z) (SliceOffsets : list Z)
    (PosCount : Z) (PosTable : list Rational) :
  (IndexSegment_AddIndexEntry Parent fresh Seg TO KFO Fl SO SliceCount
     SliceOffsets PosCount PosTable).1.1 = false ->
  (IndexSegment_AddIndexEntry Parent fresh Seg TO KFO Fl SO SliceCount
     SliceOffsets PosCount PosTable).1.2 = Seg.
Proof.
  unfold IndexSegment_AddIndexEntry.
  repeat case_match; simpl; congruence.
Qed.

Lemma byte_at_app_l (d1 d2 : list Z) (q : Z) :
  q < Z.of_nat (length d1) -> byte_at (d1 ++ d2) q = byte_at d1 q.
Proof.
  intros Hq. unfold byte_at. destruct (Z.ltb_spec q 0); [reflexivity|].
  rewrite lookup_app_l by lia. reflexivity.
Qed.

Lemma byte_at_app_r (d1 d2 : list Z) (q : Z) :
  0 <= q -> byte_at (d1 ++ d2) (Z.of_nat (length d1) + q) = byte_at d2 q.
Proof.
  intros Hq. unfold byte_at.
  destruct (Z.ltb_spec (Z.of_nat (length d1) + q) 0); [lia|].
  destruct (Z.ltb_spec q 0); [lia|].
  rewrite lookup_app_r by lia. do 2 f_equal. lia.
Qed.

Lemma read_bytes_app_r (d1 d2 : list Z) (p : Z) (n : nat) :
  0 <= p ->
  read_bytes (d1 ++ d2) (Z.of_nat (length d1) + p) n = read_bytes d2 p n.
Proof.
  intros Hp. unfold read_bytes. apply map_ext_in. intros i _.
  rewrite <- Z.add_assoc. apply byte_at_app_r. lia.
Qed.

(** The table after one entry, [Buffer], was appended to the segment [s]
    stored under [k], whose free slot is edit unit [E]. *)
Section Appended_entry.

Variable T : IndexTable.
Hypothesis Hwf : wf_IndexTable T.
Hypothesis Hvbr : EditUnitByteCount T = 0.
Variables (m' : list (Z * IndexSegment)) (k E : Z) (s : IndexSegment)
          (Buffer : list Z).

Let s' : IndexSegment :=
  mkIndexSegment (StartPosition s) (DeltaCount s) (DeltaArray s)
    (EntryCount s + 1) (IndexEntryArray s ++ Buffer).

Hypothesis Hsorted' : smap_sorted m'.
Hypothesis Hmem : forall k0 s0,
  (k0, s0) ∈ m' <-> (k0, s0) = (k, s') \/ ((k0, s0) ∈ SegmentMap T /\ k0 <> k).
Hypothesis Hseg : wf_segment (IndexEntrySize T) k s.
Hypothesis Hend : k + EntryCount s = E.
Hypothesis Hfit : (EntryCount s + 1) * IndexEntrySize T + 8 <= 65535.
Hypothesis HE : E + 1 < 2 ^ 63.
Hypothesis Hafter : forall k0 s0, (k0, s0) ∈ SegmentMap T -> k < k0 -> E < k0.
Hypothesis Hbefore : forall k0 s0,
  (k0, s0) ∈ SegmentMap T -> k0 < k -> k0 + EntryCount s0 <= k.
Hypothesis Hold : forall s0, (k, s0) ∈ SegmentMap T -> s0 = s.
Hypothesis HBlen : Z.of_nat (length Buffer) = IndexEntrySize T.

Lemma appended_count : EntryCount s + 1 < 2 ^ 31.
Proof.
  pose proof Hwf as (Hsize & _). pose proof Hseg as (_ & _ & Hcnt & _).
  pose proof (Z.mul_le_mono_nonneg_l 1 (IndexEntrySize T)
                (EntryCount s + 1) ltac:(lia) ltac:(lia)). lia.
Qed.

Lemma appended_wf : wf_IndexTable (with_SegmentMap T m').
Proof.
  pose proof appended_count as Hc.
  pose proof Hwf as (Hsize & Hsorted & Hsegs & Hdisj).
  pose proof Hseg as (Hst & Hlow & Hcnt & Hhigh & Hlen).
  unfold wf_IndexTable. cbn [with_SegmentMap SegmentMap IndexEntrySize].
  split; [exact Hsize|]. split; [exact Hsorted'|]. split.
  - intros k0 s0 [[= -> ->]|[Hin _]]%Hmem; [|auto].
    unfold wf_segment, s'. cbn [StartPosition EntryCount IndexEntryArray].
    rewrite length_app. lia.
  - intros k1 s1 k2 s2 [[= -> ->]|[H1 Hk1]]%Hmem [[= -> ->]|[H2 Hk2]]%Hmem Hlt.
    + lia.
    + unfold s'. cbn [EntryCount]. specialize (Hafter _ _ H2 Hlt). lia.
    + apply Hbefore; assumption.
    + eauto.
Qed.

Lemma appended_new_elem : (k, s') ∈ SegmentMap (with_SegmentMap T m').
Proof. cbn [with_SegmentMap SegmentMap]. apply Hmem. auto. Qed.

Lemma appended_new_contains : contains s' E.
Proof.
  pose proof Hseg as (Hst & _ & Hcnt & _).
  unfold contains, s'. cbn [StartPosition EntryCount]. lia.
Qed.

(** The new entry is found under [E]. *)
Lemma appended_Lookup_new :
  let Ret := (IndexTable_Lookup (with_SegmentMap T m') E 0 false).1 in
  ThisPos Ret = E /\
  Location Ret = Int64 (GetU64 Buffer 3) /\
  KeyFrameOffset Ret = GetI8 Buffer 1 /\
  Flags Ret = GetU8 Buffer 2.
Proof.
  pose proof Hwf as (Hsize & _).
  pose proof Hseg as (Hst & Hlow & Hcnt & Hhigh & Hlen).
  destruct (IndexTable_Lookup_entry (with_SegmentMap T m') appended_wf E k s'
              Hvbr appended_new_elem appended_new_contains)
    as (HP & HL & HK & HF & _).
  cbn [with_SegmentMap IndexEntrySize] in HL, HK, HF.
  unfold s' in HL, HK, HF. cbn [IndexEntryArray] in HL, HK, HF.
  replace ((E - k) * IndexEntrySize T)
    with (Z.of_nat (length (IndexEntryArray s))) in HL, HK, HF
    by (rewrite Hlen; f_equal; lia).
  split; [exact HP|]. split; [|split].
  - rewrite HL. f_equal. unfold GetU64. f_equal. apply read_bytes_app_r. lia.
  - rewrite HK. unfold GetI8. rewrite byte_at_app_r by lia. reflexivity.
  - rewrite HF. unfold GetU8. rewrite byte_at_app_r by lia. reflexivity.
Qed.

(** The entries the table had are found where they were. *)
Lemma appended_Lookup_old (E' k0 : Z) (s0 : IndexSegment) :
  (k0, s0) ∈ SegmentMap T -> contains s0 E' ->
  let Ret' := (IndexTable_Lookup (with_SegmentMap T m') E' 0 false).1 in
  let Ret := (IndexTable_Lookup T E' 0 false).1 in
  Location Ret' = Location Ret /\ KeyFrameOffset Ret' = KeyFrameOffset Ret /\
  Flags Ret' = Flags Ret.
Proof.
  intros Hin Hcon.
  destruct (IndexTable_Lookup_entry T Hwf E' k0 s0 Hvbr Hin Hcon)
    as (_ & HL & HK & HF & _).
  cbv zeta. rewrite HL, HK, HF.
  destruct (Z.eq_dec k0 k) as [->|Hne].
  - assert (s0 = s) as -> by (apply Hold; exact Hin).
    assert (Hcon' : contains s' E').
    { unfold contains in *. unfold s'. cbn [StartPosition EntryCount]. lia. }
    destruct (IndexTable_Lookup_entry (with_SegmentMap T m') appended_wf E' k s'
                Hvbr appended_new_elem Hcon') as (_ & HL' & HK' & HF' & _).
    cbn [with_SegmentMap IndexEntrySize] in HL', HK', HF'.
    unfold s' in HL', HK', HF'. cbn [IndexEntryArray] in HL', HK', HF'.
    destruct (entry_offset_exact T Hwf E' k s Hin Hcon) as (_ & Hp0 & Hp1).
    pose proof Hwf as (Hsize & _).
    rewrite HL', HK', HF'. unfold GetU64, GetI8, GetU8.
    rewrite !byte_at_app_l by lia.
    split; [|auto]. do 2 f_equal. apply read_bytes_ext.
    intros q Hq. apply byte_at_app_l. lia.
  - assert (Hin' : (k0, s0) ∈ SegmentMap (with_SegmentMap T m')).
    { cbn [with_SegmentMap SegmentMap]. apply Hmem. auto. }
    destruct (IndexTable_Lookup_entry (with_SegmentMap T m') appended_wf E' k0 s0
                Hvbr Hin' Hcon) as (_ & HL' & HK' & HF' & _).
    auto.
Qed.

End Appended_entry.

(** [GetSegment] for an edit unit without an entry: the segment whose
    free slot it is, or a new segment. *)
Lemma IndexTable_GetSegment_free (T : IndexTable) (E : Z) :
  wf_IndexTable T -> - 2 ^ 63 < E < 2 ^ 63 ->
  (forall k s, (k, s) ∈ SegmentMap T -> ~ contains s E) ->
  (exists k s, IndexTable_GetSegment T E = (T, k) /\
     (k, s) ∈ SegmentMap T /\ k + EntryCount s = E /\
     forall s0, (E, s0) ∈ SegmentMap T -> k = E) \/
  (IndexTable_GetSegment T E = IndexTable_AddSegment T E /\
   forall s0, (E, s0) ∉ SegmentMap T).
Proof.
  intros Hwf HE Hno. pose proof Hwf as (Hsize & Hsorted & Hsegs & Hdisj).
  unfold IndexTable_GetSegment. cbv zeta.
  pose proof (GetSegment_walk T E) as Hwalk. cbv zeta in Hwalk. rewrite Hwalk.
  pose proof (IndexTable_locate_spec T E Hsorted) as Hloc.
  unfold smap_deref.
  destruct (SegmentMap T !! IndexTable_locate T E) as [[first second]|] eqn:Hit.
  - destruct Hloc as [Hfirst Hlast].
    assert (Hin : (first, second) ∈ SegmentMap T)
      by (apply list_elem_of_lookup; eauto).
    destruct (Hsegs _ _ Hin) as (Hst & Hlow & Hcnt & Hhigh & _).
    assert (Hkey : forall s0, (E, s0) ∈ SegmentMap T -> first = E).
    { intros s0 [j Hj]%list_elem_of_lookup.
      specialize (Hlast _ _ _ Hj ltac:(lia)).
      destruct (Nat.eq_dec j (IndexTable_locate T E)) as [->|Hne];
        [congruence|].
      pose proof (smap_sorted_lookup_lt _ j (IndexTable_locate T E)
                    _ _ _ _ Hsorted ltac:(lia) Hj Hit). lia. }
    destruct (Z.gtb_spec first E) as [|_]; [lia|].
    rewrite Int64_small by lia. rewrite Hst.
    destruct (Z.gtb_spec E (first + EntryCount second)) as [Hbeyond|Hcov].
    + right. split; [reflexivity|]. intros s0 Hs0.
      specialize (Hkey _ Hs0). lia.
    + left. exists first, second. split; [reflexivity|]. split; [exact Hin|].
      split; [|exact Hkey].
      specialize (Hno _ _ Hin). unfold contains in Hno. lia.
  - destruct Hloc as [_ Hall]. right. split; [reflexivity|].
    intros s0 [j Hj]%list_elem_of_lookup. specialize (Hall _ _ _ Hj). lia.
Qed.

Lemma elem_of_smap_insert_absent {V : Type} (m : list (Z * V)) k v k0 v0 :
  (forall v', (k, v') ∉ m) ->
  (k0, v0) ∈ smap_insert k v m <-> (k0, v0) = (k, v) \/ (k0, v0) ∈ m.
Proof.
  intros Habs. split; [apply elem_of_smap_insert_inv|].
  intros [[= -> ->]|Hin];
    [apply elem_of_smap_insert_new, Habs|apply elem_of_smap_insert_old, Hin].
Qed.

Section AddIndexEntry_outcome.

Variable T : IndexTable.
Hypothesis Hwf : wf_IndexTable T.
Variable E : Z.
Hypothesis HE : - 2 ^ 63 < E < 2 ^ 63.
Hypothesis Hone : IndexEntrySize T + 8 <= 65535.
Hypothesis Hno : forall k s, (k, s) ∈ SegmentMap T -> ~ contains s E.
Variables (fresh fresh' : list Z) (TO KFO Fl SO : Z) (SliceOffsets : list Z)
          (PosTable : list Rational).

Hypothesis Hsmall : forall k s,
  (k, s) ∈ SegmentMap T -> (EntryCount s + 1) * IndexEntrySize T + 8 < 2 ^ 31.

(** A new segment at [E] takes the entry. *)
Lemma new_segment_entry (fr : list Z) :
  (forall s0, (E, s0) ∉ SegmentMap T) ->
  let new := AddIndexSegmentToIndexTable T E in
  let T2 := with_SegmentMap T (smap_insert E new (SegmentMap T)) in
  IndexTable_AddSegment T E = (T2, E) /\
  smap_lookup E (SegmentMap T2) = Some new /\
  exists Buffer,
    IndexSegment_AddIndexEntry T2 fr new TO KFO Fl SO (NSL T) SliceOffsets
      (NPE T) PosTable
    = (true, mkIndexSegment (StartPosition new) (DeltaCount new)
               (DeltaArray new) (EntryCount new + 1)
               (IndexEntryArray new ++ Buffer), []) /\
    Z.of_nat (length Buffer) = IndexEntrySize T /\
    byte_at Buffer 1 = UInt8 KFO /\ byte_at Buffer 2 = UInt8 Fl /\
    GetU64 Buffer 3 = UInt64 SO.
Proof.
  intros Habs new T2. pose proof Hwf as (Hsize & Hsorted & Hsegs & Hdisj).
  split; [apply IndexTable_AddSegment_absent, Habs|]. split.
  - apply smap_lookup_elem.
    + apply smap_insert_sorted, Hsorted.
    + apply elem_of_smap_insert_new, Habs.
  - destruct (IndexSegment_AddIndexEntry_appends T2 fr new TO KFO Fl SO
                SliceOffsets PosTable)
      as (Buffer & Hadd & HBlen & _ & HB1 & HB2 & HB3).
    { cbn. lia. } { cbn. lia. } { cbn. lia. }
    exists Buffer. auto.
Qed.

Lemma IndexTable_AddIndexEntry_outcome :
  exists m' k s Buffer,
    IndexTable_AddIndexEntry T fresh fresh' E TO KFO Fl SO (NSL T) SliceOffsets
      (NPE T) PosTable = (true, with_SegmentMap T m', []) /\
    smap_sorted m' /\
    (forall k0 s0, (k0, s0) ∈ m' <->
       (k0, s0) = (k, mkIndexSegment (StartPosition s) (DeltaCount s)
                        (DeltaArray s) (EntryCount s + 1)
                        (IndexEntryArray s ++ Buffer))
       \/ ((k0, s0) ∈ SegmentMap T /\ k0 <> k)) /\
    wf_segment (IndexEntrySize T) k s /\
    k + EntryCount s = E /\
    (EntryCount s + 1) * IndexEntrySize T + 8 <= 65535 /\
    (forall k0 s0, (k0, s0) ∈ SegmentMap T -> k < k0 -> E < k0) /\
    (forall k0 s0, (k0, s0) ∈ SegmentMap T -> k0 < k ->
       k0 + EntryCount s0 <= k) /\
    (forall s0, (k, s0) ∈ SegmentMap T -> s0 = s) /\
    Z.of_nat (length Buffer) = IndexEntrySize T /\
    byte_at Buffer 1 = UInt8 KFO /\ byte_at Buffer 2 = UInt8 Fl /\
    GetU64 Buffer 3 = UInt64 SO /\
    ((k, s) ∈ SegmentMap T \/ EntryCount s = 0).
Proof.
  pose proof Hwf as (Hsize & Hsorted & Hsegs & Hdisj).
  (* the outcome with a new segment *)
  assert (Hnew : (forall s0, (E, s0) ∉ SegmentMap T) ->
    forall Buffer,
    Z.of_nat (length Buffer) = IndexEntrySize T ->
    let new := AddIndexSegmentToIndexTable T E in
    let m' := smap_set E
                (mkIndexSegment E (DeltaCount new) (DeltaArray new) (0 + 1)
                   ([] ++ Buffer))
                (smap_insert E new (SegmentMap T)) in
    smap_sorted m' /\
    (forall k0 s0, (k0, s0) ∈ m' <->
       (k0, s0) = (E, mkIndexSegment (StartPosition new) (DeltaCount new)
                        (DeltaArray new) (EntryCount new + 1)
                        (IndexEntryArray new ++ Buffer))
       \/ ((k0, s0) ∈ SegmentMap T /\ k0 <> E)) /\
    wf_segment (IndexEntrySize T) E new /\
    E + EntryCount new = E /\
    (EntryCount new + 1) * IndexEntrySize T + 8 <= 65535 /\
    (forall k0 s0, (k0, s0) ∈ SegmentMap T -> E < k0 -> E < k0) /\
    (forall k0 s0, (k0, s0) ∈ SegmentMap T -> k0 < E ->
       k0 + EntryCount s0 <= E) /\
    (forall s0, (E, s0) ∈ SegmentMap T -> s0 = new)).
  { intros Habs Buffer HBlen new m'.
    assert (Hs2 : smap_sorted (smap_insert E new (SegmentMap T)))
      by apply smap_insert_sorted, Hsorted.
    split; [apply smap_set_sorted, Hs2|]. split.
    { intros k0 s0. subst m'. rewrite (elem_of_smap_set _ _ _ _ _ Hs2).
      cbn [new AddIndexSegmentToIndexTable StartPosition EntryCount
           IndexEntryArray DeltaCount DeltaArray].
      split.
      - intros [(-> & -> & _)|[Hin Hk]]; [left; reflexivity|].
        right. split; [|exact Hk].
        apply elem_of_smap_insert_inv in Hin as [[= ? ?]|Hin]; [lia|exact Hin].
      - intros [[= -> ->]|[Hin Hk]].
        + left. split; [reflexivity|]. split; [reflexivity|].
          exists new. apply elem_of_smap_insert_new, Habs.
        + right. split; [|exact Hk]. apply elem_of_smap_insert_old, Hin. }
    split; [unfold wf_segment; cbn; lia|].
    split; [cbn; lia|]. split; [cbn; lia|].
    split; [auto|]. split.
    - intros k0 s0 Hin Hlt. specialize (Hno _ _ Hin).
      destruct (Hsegs _ _ Hin) as (Hst & _ & Hcnt & _).
      unfold contains in Hno. lia.
    - intros s0 Hin. exfalso. exact (Habs _ Hin). }
  (* the call, once a new segment is the one to use *)
  assert (Hcall : (forall s0, (E, s0) ∉ SegmentMap T) ->
    forall fr, exists Buffer,
    let new := AddIndexSegmentToIndexTable T E in
    let T2 := with_SegmentMap T (smap_insert E new (SegmentMap T)) in
    IndexTable_AddSegment T E = (T2, E) /\
    smap_lookup E (SegmentMap T2) = Some new /\
    (E <? Int64 (StartPosition new + EntryCount new)) = false /\
    IndexSegment_AddIndexEntry T2 fr new TO KFO Fl SO (NSL T) SliceOffsets
      (NPE T) PosTable
    = (true, mkIndexSegment (StartPosition new) (DeltaCount new)
               (DeltaArray new) (EntryCount new + 1)
               (IndexEntryArray new ++ Buffer), []) /\
    with_SegmentMap T2
      (smap_set E (mkIndexSegment (StartPosition new) (DeltaCount new)
                     (DeltaArray new) (EntryCount new + 1)
                     (IndexEntryArray new ++ Buffer)) (SegmentMap T2))
    = with_SegmentMap T
        (smap_set E (mkIndexSegment E (DeltaCount new) (DeltaArray new) (0 + 1)
                       ([] ++ Buffer))
           (smap_insert E new (SegmentMap T))) /\
    Z.of_nat (length Buffer) = IndexEntrySize T /\
    byte_at Buffer 1 = UInt8 KFO /\ byte_at Buffer 2 = UInt8 Fl /\
    GetU64 Buffer 3 = UInt64 SO).
  { intros Habs fr.
    destruct (new_segment_entry fr Habs) as (HA & HL & Buffer & HB & Hrest).
    exists Buffer. cbv zeta. split; [exact HA|]. split; [exact HL|].
    split; [|split; [exact HB|split; [reflexivity|exact Hrest]]].
    cbn [AddIndexSegmentToIndexTable StartPosition EntryCount].
    rewrite Z.add_0_r, Int64_small by lia. apply Z.ltb_irrefl. }
  assert (Hfinish : (forall s0, (E, s0) ∉ SegmentMap T) ->
    forall Buffer,
    Z.of_nat (length Buffer) = IndexEntrySize T ->
    byte_at Buffer 1 = UInt8 KFO -> byte_at Buffer 2 = UInt8 Fl ->
    GetU64 Buffer 3 = UInt64 SO ->
    let new := AddIndexSegmentToIndexTable T E in
    exists m' k s,
      (true,
       with_SegmentMap T
         (smap_set E (mkIndexSegment E (DeltaCount new) (DeltaArray new) (0 + 1)
                        ([] ++ Buffer))
            (smap_insert E new (SegmentMap T))), @nil IndexMessage)
      = (true, with_SegmentMap T m', []) /\
    smap_sorted m' /\
    (forall k0 s0, (k0, s0) ∈ m' <->
       (k0, s0) = (k, mkIndexSegment (StartPosition s) (DeltaCount s)
                        (DeltaArray s) (EntryCount s + 1)
                        (IndexEntryArray s ++ Buffer))
       \/ ((k0, s0) ∈ SegmentMap T /\ k0 <> k)) /\
    wf_segment (IndexEntrySize T) k s /\
    k + EntryCount s = E /\
    (EntryCount s + 1) * IndexEntrySize T + 8 <= 65535 /\
    (forall k0 s0, (k0, s0) ∈ SegmentMap T -> k < k0 -> E < k0) /\
    (forall k0 s0, (k0, s0) ∈ SegmentMap T -> k0 < k ->
       k0 + EntryCount s0 <= k) /\
    (forall s0, (k, s0) ∈ SegmentMap T -> s0 = s) /\
    Z.of_nat (length Buffer) = IndexEntrySize T /\
    byte_at Buffer 1 = UInt8 KFO /\ byte_at Buffer 2 = UInt8 Fl /\
    GetU64 Buffer 3 = UInt64 SO /\
    ((k, s) ∈ SegmentMap T \/ EntryCount s = 0)).
  { intros Habs Buffer HBlen HB1 HB2 HB3 new.
    destruct (Hnew Habs Buffer HBlen) as (H1 & H2 & H3 & H4 & H5 & H6 & H7 & H8).
    assert (H9 : (E, new) ∈ SegmentMap T \/ EntryCount new = 0)
      by (right; reflexivity).
    eexists _, E, new. split; [reflexivity|]. auto 20. }
  unfold IndexTable_AddIndexEntry.
  destruct (IndexTable_GetSegment_free T E Hwf HE Hno)
    as [(k & s & HGet & Hin & Hend & Hkey)|[HGet Habs]].
  - rewrite HGet. rewrite (smap_lookup_elem _ _ _ Hsorted Hin).
    destruct (Hsegs _ _ Hin) as (Hst & Hlow & Hcnt & Hhigh & Hlen).
    rewrite Hst, Int64_small by lia.
    destruct (Z.ltb_spec E (k + EntryCount s)) as [|_]; [lia|].
    destruct (Z_le_gt_dec ((EntryCount s + 1) * IndexEntrySize T + 8) 65535)
      as [Hfit|Hfull].
    + destruct (IndexSegment_AddIndexEntry_appends T fresh s TO KFO Fl SO
                  SliceOffsets PosTable ltac:(lia) ltac:(lia) Hfit)
        as (Buffer & Hadd & HBlen & _ & HB1 & HB2 & HB3).
      rewrite Hadd. cbn [app map].
      eexists _, k, s, Buffer. split; [reflexivity|].
      split; [apply smap_set_sorted, Hsorted|]. split.
      { intros k0 s0. rewrite (elem_of_smap_set _ _ _ _ _ Hsorted). split.
        - intros [(-> & -> & _)|?]; auto.
        - intros [[= -> ->]|?]; [left|auto].
          split; [reflexivity|]. split; [reflexivity|]. eauto. }
      split; [unfold wf_segment; auto|]. split; [exact Hend|].
      split; [exact Hfit|]. split; [|split; [|split]].
      * intros k0 s0 Hin0 Hlt.
        pose proof (Hdisj _ _ _ _ Hin Hin0 Hlt) as Hd.
        destruct (Z.eq_dec k0 E) as [->|]; [|lia].
        specialize (Hkey _ Hin0). lia.
      * intros k0 s0 Hin0 Hlt. exact (Hdisj _ _ _ _ Hin0 Hin Hlt).
      * intros s0 Hin0. exact (smap_sorted_functional _ _ _ _ Hsorted Hin0 Hin).
      * auto 10.
    + (* the segment is full: a new segment is added *)
      assert (Hrefuse : IndexSegment_AddIndexEntry T fresh s TO KFO Fl SO
                (NSL T) SliceOffsets (NPE T) PosTable = (false, s, [])).
      { unfold IndexSegment_AddIndexEntry. rewrite !Z.eqb_refl. simpl negb.
        cbv iota. pose proof (Hsmall _ _ Hin) as Hsm.
        assert (Hc : EntryCount s + 1 <= (EntryCount s + 1) * IndexEntrySize T).
        { pose proof (Z.mul_le_mono_nonneg_l 1 (IndexEntrySize T)
                        (EntryCount s + 1) ltac:(lia) ltac:(lia)). lia. }
        rewrite (Int32_small (EntryCount s + 1)) by lia.
        rewrite (Int32_small ((EntryCount s + 1) * _)) by lia.
        rewrite Int32_small by lia.
        destruct (Z.gtb_spec ((EntryCount s + 1) * IndexEntrySize T + 8) 65535);
          [reflexivity|lia]. }
      rewrite Hrefuse.
      assert (Habs : forall s0, (E, s0) ∉ SegmentMap T).
      { intros s0 Hs0. specialize (Hkey _ Hs0).
        assert (EntryCount s = 0) as Hz by lia. rewrite Hz in Hfull. lia. }
      destruct (Hcall Habs fresh')
        as (Buffer & HA & HL & _ & HB & HT & HBlen & HB1 & HB2 & HB3).
      rewrite HA, HL, HB, HT. cbn [app map].
      destruct (Hfinish Habs Buffer HBlen HB1 HB2 HB3) as (m' & k' & s' & Hall).
      exists m', k', s', Buffer. exact Hall.
  - rewrite HGet.
    destruct (Hcall Habs fresh)
      as (Buffer & HA & HL & Hlt & HB & HT & HBlen & HB1 & HB2 & HB3).
    rewrite HA, HL, Hlt, HB, HT. cbn [app map].
    destruct (Hfinish Habs Buffer HBlen HB1 HB2 HB3) as (m' & k' & s' & Hall).
    exists m', k', s', Buffer. exact Hall.
Qed.

End AddIndexEntry_outcome.

(** X5. Adding an entry and looking it up.  On a well-formed VBR table
    whose entry arrays stay below 2^31 bytes and whose entries fit a
    segment, [AddIndexEntry] for an edit unit that has no entry yet,
    with the table's slice and PosTable counts, succeeds without a
    message and leaves the table well-formed; a look-up of that edit
    unit then finds the StreamOffset, KeyFrameOffset and Flags given,
    and every edit unit that had an entry is found as before. *)
Theorem IndexTable_AddIndexEntry_Lookup (T : IndexTable)
    (fresh fresh' : list Z) (E TO KFO Fl SO : Z) (SliceOffsets : list Z)
    (PosTable : list Rational) :
  wf_IndexTable T -> EditUnitByteCount T = 0 ->
  IndexEntrySize T + 8 <= 65535 ->
  (forall k s, (k, s) ∈ SegmentMap T ->
     (EntryCount s + 1) * IndexEntrySize T + 8 < 2 ^ 31) ->
  - 2 ^ 63 < E -> E + 1 < 2 ^ 63 ->
  (forall k s, (k, s) ∈ SegmentMap T -> ~ contains s E) ->
  - 2 ^ 7 <= KFO < 2 ^ 7 -> 0 <= Fl < 2 ^ 8 ->
  let r := IndexTable_AddIndexEntry T fresh fresh' E TO KFO Fl SO (NSL T)
             SliceOffsets (NPE T) PosTable in
  r.1.1 = true /\ r.2 = [] /\ wf_IndexTable r.1.2 /\
  ThisPos (IndexTable_Lookup r.1.2 E 0 false).1 = E /\
  Location (IndexTable_Lookup r.1.2 E 0 false).1 = Int64 (UInt64 SO) /\
  KeyFrameOffset (IndexTable_Lookup r.1.2 E 0 false).1 = KFO /\
  Flags (IndexTable_Lookup r.1.2 E 0 false).1 = Fl /\
  forall E' k' s', (k', s') ∈ SegmentMap T -> contains s' E' ->
    Location (IndexTable_Lookup r.1.2 E' 0 false).1
      = Location (IndexTable_Lookup T E' 0 false).1 /\
    KeyFrameOffset (IndexTable_Lookup r.1.2 E' 0 false).1
      = KeyFrameOffset (IndexTable_Lookup T E' 0 false).1 /\
    Flags (IndexTable_Lookup r.1.2 E' 0 false).1
      = Flags (IndexTable_Lookup T E' 0 false).1.
Proof.
  intros Hwf Hvbr Hone Hsmall HE1 HE2 Hno HKFO HFl r.
  destruct (IndexTable_AddIndexEntry_outcome T Hwf E ltac:(lia) Hone Hno
              fresh fresh' TO KFO Fl SO SliceOffsets PosTable Hsmall)
    as (m' & k & s & Buffer & Hr & Hsorted' & Hmem & Hseg & Hend & Hfit
        & Hafter & Hbefore & Hold & HBlen & HB1 & HB2 & HB3 & _).
  subst r. rewrite Hr. cbn [fst snd].
  split; [reflexivity|]. split; [reflexivity|].
  split; [exact (appended_wf T Hwf m' k E s Buffer Hsorted' Hmem Hseg Hend Hfit
                   HE2 Hafter Hbefore HBlen)|].
  destruct (appended_Lookup_new T Hwf Hvbr m' k E s Buffer Hsorted' Hmem Hseg
              Hend Hfit HE2 Hafter Hbefore HBlen) as (HP & HL & HK & HF).
  split; [exact HP|]. split; [rewrite HL, HB3; reflexivity|].
  split; [rewrite HK; unfold GetI8; rewrite HB1; apply Int8_UInt8, HKFO|].
  split; [rewrite HF; unfold GetU8; rewrite HB2; apply UInt8_small, HFl|].
  intros E' k' s' Hin Hcon.
  exact (appended_Lookup_old T Hwf Hvbr m' k E s Buffer Hsorted' Hmem Hseg Hend
           Hfit HE2 Hafter Hbefore Hold HBlen E' k' s' Hin Hcon).
Qed.

(** Edit unit 3, the free slot of the first segment of the example
    table, gets an entry at stream offset 400. *)
Lemma IndexTable_AddIndexEntry_Lookup_witness :
  let r := IndexTable_AddIndexEntry example_table [] [] 3 0 (-1) 128 400 0 []
             0 [] in
  r.1.1 = true /\
  Location (IndexTable_Lookup r.1.2 3 0 false).1 = 400 /\
  Location (IndexTable_Lookup r.1.2 10 0 false).1 = 1000.
Proof.
  intros r.
  assert (Hsegs : forall k s, (k, s) ∈ SegmentMap example_table ->
            (k, s) = (0, example_segment0) \/ (k, s) = (10, example_segment10)).
  { intros k s Hin. unfold example_table in Hin. cbn [SegmentMap] in Hin.
    apply elem_of_cons in Hin as [Hin|Hin]; [auto|].
    apply elem_of_cons in Hin as [Hin|Hin]; [auto|].
    apply elem_of_nil in Hin. contradiction. }
  destruct (IndexTable_AddIndexEntry_Lookup example_table [] [] 3 0 (-1) 128
              400 [] [] example_table_wf eq_refl)
    as (Hok & _ & _ & _ & HL & _ & _ & Hold).
  - simpl. lia.
  - intros k s [[= -> ->]|[= -> ->]]%Hsegs; simpl; lia.
  - lia.
  - lia.
  - intros k s [[= -> ->]|[= -> ->]]%Hsegs; unfold contains; simpl; lia.
  - lia.
  - lia.
  - split; [exact Hok|].
    split; [etransitivity; [exact HL|reflexivity]|].
    destruct (Hold 10 10 example_segment10) as (HL10 & _).
    + apply elem_of_cons. right. apply elem_of_cons. left. reflexivity.
    + unfold contains. simpl. lia.
    + etransitivity; [exact HL10|reflexivity].
Defined.

Lemma UInt64_small (x : Z) : 0 <= x < 2 ^ 64 -> UInt64 x = x.
Proof. intros Hx. unfold UInt64, wrap_unsigned. apply Z.mod_small. exact Hx. Qed.

Section Purge_facts.

Context {V : Type}.
Implicit Types (m l : list (Z * V)).

Lemma smap_sorted_drop l n : smap_sorted l -> smap_sorted (drop n l).
Proof.
  revert n. induction l as [|[k v] l IH]; intros [|n] Hs; simpl; auto.
  apply smap_sorted_cons_inv in Hs as [Hs _]. auto.
Qed.

Lemma smap_sorted_app_drop l1 l2 n :
  smap_sorted (l1 ++ l2) -> smap_sorted (l1 ++ drop n l2).
Proof.
  induction l1 as [|[k v] l1 IH]; simpl; intros Hs.
  - apply smap_sorted_drop, Hs.
  - apply smap_sorted_cons_elem in Hs as [Hs Hlt].
    apply smap_sorted_cons; [auto|].
    intros k' v' Hin. apply (Hlt k' v').
    rewrite elem_of_app in Hin |- *. destruct Hin as [Hin|Hin]; [auto|].
    right. apply list_elem_of_lookup in Hin as [j Hj].
    rewrite lookup_drop in Hj. apply list_elem_of_lookup. eauto.
Qed.

(** What is left when [n] elements from position [i] on are erased. *)
Lemma elem_of_erased l i n (x : Z * V) :
  x ∈ take i l ++ drop n (drop i l) <->
  exists j, l !! j = Some x /\ ((j < i)%nat \/ (i + n <= j)%nat).
Proof.
  rewrite elem_of_app. split.
  - intros [[j Hj]%list_elem_of_lookup|[j Hj]%list_elem_of_lookup].
    + apply lookup_take_Some in Hj as [Hj Hlt]. eauto.
    + rewrite !lookup_drop in Hj. exists (i + (n + j))%nat. split; [exact Hj|lia].
  - intros (j & Hj & [Hlt|Hge]).
    + left. apply list_elem_of_lookup. exists j.
      apply lookup_take_Some. auto.
    + right. apply list_elem_of_lookup. exists (j - (i + n))%nat.
      rewrite !lookup_drop. rewrite <- Hj. f_equal. lia.
Qed.

End Purge_facts.

(** The loop of [Purge] erases a run of segments, each of which ends at
    or before [LastPosition]. *)
Lemma purge_while_spec (LastPosition : Z) (l : list (Z * IndexSegment)) :
  exists n : nat,
    purge_while LastPosition l = drop n l /\
    (forall j k s, l !! j = Some (k, s) -> (j < n)%nat ->
      UInt64 (Int64 (Int64 (k + EntryCount s) - 1)) <= LastPosition) /\
    (forall k s, l !! n = Some (k, s) ->
      LastPosition < UInt64 (Int64 (Int64 (k + EntryCount s) - 1))).
Proof.
  induction l as [|[first second] l IH]; simpl.
  - exists O. split; [reflexivity|]. split; intros; discriminate.
  - destruct (Z.leb_spec
                (UInt64 (Int64 (Int64 (first + EntryCount second) - 1)))
                LastPosition) as [Hle|Hgt].
    + destruct IH as (n & Hn & Hall & Hmax). exists (S n).
      split; [exact Hn|]. split; [|exact Hmax].
      intros [|j] k s Hj Hlt; simpl in Hj.
      * injection Hj as <- <-. exact Hle.
      * apply (Hall j); [exact Hj|lia].
    + exists O. split; [reflexivity|]. split; [intros; lia|].
      intros k s [= <- <-]. exact Hgt.
Qed.

(** The position [Purge] starts at: every segment before it starts
    before [FirstPosition]. *)
Lemma purge_start_spec (m : list (Z * IndexSegment)) (F : Z) :
  smap_sorted m ->
  let it := smap_find F m in
  let it := if Nat.eqb it (smap_end m) then smap_lower_bound F m else it in
  forall j k s, m !! j = Some (k, s) -> (it <= j)%nat -> F <= k.
Proof.
  intros Hs. cbv zeta. unfold smap_end.
  destruct (Nat.eqb_spec (smap_find F m) (length m)) as [Hend|Hfound];
    intros j k s Hj Hle.
  - destruct (Z_lt_le_dec k F) as [Hlt|]; [|assumption].
    apply (smap_lower_bound_spec m F j k s Hs Hj) in Hlt. lia.
  - pose proof (smap_find_le m F).
    destruct (smap_find_found m F ltac:(lia)) as [v Hv].
    destruct (Nat.eq_dec (smap_find F m) j) as [Heq|Hne].
    + rewrite Heq in Hv. assert (k = F) by congruence. lia.
    + pose proof (smap_sorted_lookup_lt m (smap_find F m) j _ _ _ _ Hs
                    ltac:(lia) Hv Hj). lia.
Qed.

(** X6. [Purge] on a well-formed table, for a first position below 2^63:
    the table stays well-formed, no segment is added or changed, a
    segment that is erased starts at or after [FirstPosition] and has
    all its edit units in the range purged, and a segment with entries
    that starts at [FirstPosition] and ends at or before [LastPosition]
    is erased. *)
Theorem IndexTable_Purge_spec (T : IndexTable) (FirstPosition LastPosition : Z) :
  wf_IndexTable T -> 0 <= FirstPosition < 2 ^ 63 ->
  let T' := IndexTable_Purge T FirstPosition LastPosition in
  wf_IndexTable T' /\
  (forall k s, (k, s) ∈ SegmentMap T' -> (k, s) ∈ SegmentMap T) /\
  (forall k s, (k, s) ∈ SegmentMap T -> (k, s) ∉ SegmentMap T' ->
     FirstPosition <= k /\
     forall E, contains s E -> FirstPosition <= E <= LastPosition) /\
  (forall s, (FirstPosition, s) ∈ SegmentMap T -> 0 < EntryCount s ->
     FirstPosition + EntryCount s - 1 <= LastPosition ->
     (FirstPosition, s) ∉ SegmentMap T').
Proof.
  intros Hwf HF T'. pose proof Hwf as (Hsize & Hsorted & Hsegs & Hdisj).
  subst T'. unfold IndexTable_Purge. cbv zeta.
  pose proof (purge_start_spec (SegmentMap T) (Int64 FirstPosition) Hsorted)
    as Hstart. cbv zeta in Hstart.
  rewrite (Int64_small FirstPosition) in * by lia.
  set (it := if Nat.eqb (smap_find FirstPosition (SegmentMap T))
                  (smap_end (SegmentMap T))
             then smap_lower_bound FirstPosition (SegmentMap T)
             else smap_find FirstPosition (SegmentMap T)) in *.
  destruct (Nat.eqb_spec it (smap_end (SegmentMap T))) as [Hend|Hnend].
  { split; [exact Hwf|]. split; [auto|].
    split; [intros k s Hin Hout; contradiction|].
    intros s [i Hi]%list_elem_of_lookup _ _. exfalso.
    pose proof (smap_find_Some _ _ _ _ Hsorted Hi) as Hfind.
    apply lookup_lt_Some in Hi. subst it. unfold smap_end in Hend.
    rewrite Hfind in Hend.
    destruct (Nat.eqb_spec i (length (SegmentMap T))); lia. }
  destruct (purge_while_spec LastPosition (drop it (SegmentMap T)))
    as (n & Hn & Hall & Hmax).
  rewrite Hn. cbn [with_SegmentMap SegmentMap].
  assert (Hsub : forall k s,
            (k, s) ∈ take it (SegmentMap T) ++ drop n (drop it (SegmentMap T))
            -> (k, s) ∈ SegmentMap T).
  { intros k s (j & Hj & _)%elem_of_erased. apply list_elem_of_lookup. eauto. }
  split; [|split; [|split]].
  - unfold wf_IndexTable. cbn [with_SegmentMap SegmentMap IndexEntrySize].
    split; [exact Hsize|]. split; [|split].
    + apply smap_sorted_app_drop. rewrite take_drop. exact Hsorted.
    + intros k s Hin. apply Hsegs, Hsub, Hin.
    + intros k1 s1 k2 s2 H1 H2. apply (Hdisj k1 s1 k2 s2); auto.
  - exact Hsub.
  - intros k s [j Hj]%list_elem_of_lookup Hout.
    assert (Hj' : (it <= j < it + n)%nat).
    { destruct (le_lt_dec it j) as [Hge|Hlt];
        [destruct (le_lt_dec (it + n) j) as [Hge'|Hlt']|]; [|lia|].
      - exfalso. apply Hout, elem_of_erased. exists j. auto.
      - exfalso. apply Hout, elem_of_erased. exists j. auto. }
    pose proof (Hstart j k s Hj ltac:(lia)) as Hk.
    split; [exact Hk|]. intros E Hcon.
    assert (Hin : (k, s) ∈ SegmentMap T) by (apply list_elem_of_lookup; eauto).
    destruct (Hsegs _ _ Hin) as (Hst & Hlow & Hcnt & Hhigh & _).
    unfold contains in Hcon. rewrite Hst in Hcon.
    specialize (Hall (j - it)%nat k s).
    rewrite lookup_drop in Hall.
    replace (it + (j - it))%nat with j in Hall by lia.
    specialize (Hall Hj ltac:(lia)).
    rewrite (Int64_small (k + EntryCount s)) in Hall by lia.
    rewrite (Int64_small (k + EntryCount s - 1)) in Hall by lia.
    rewrite UInt64_small in Hall by lia. lia.
  - intros s [i Hi]%list_elem_of_lookup Hcnt Hfits.
    pose proof (smap_find_Some _ _ _ _ Hsorted Hi) as Hfind.
    pose proof (lookup_lt_Some _ _ _ Hi) as Hlt.
    assert (Hit : it = i).
    { subst it. unfold smap_end. rewrite Hfind.
      destruct (Nat.eqb_spec i (length (SegmentMap T))); [lia|reflexivity]. }
    assert (Hin : (FirstPosition, s) ∈ SegmentMap T)
      by (apply list_elem_of_lookup; eauto).
    destruct (Hsegs _ _ Hin) as (Hst & Hlow & Hcnt' & Hhigh & _).
    assert (Hn1 : (0 < n)%nat).
    { destruct n as [|n]; [|lia]. exfalso.
      specialize (Hmax FirstPosition s). rewrite lookup_drop in Hmax.
      rewrite Nat.add_0_r, Hit in Hmax. specialize (Hmax Hi).
      rewrite (Int64_small (FirstPosition + EntryCount s)) in Hmax by lia.
      rewrite (Int64_small (FirstPosition + EntryCount s - 1)) in Hmax by lia.
      rewrite UInt64_small in Hmax by lia. lia. }
    intros (j & Hj & Hout)%elem_of_erased.
    pose proof (smap_find_Some _ _ _ _ Hsorted Hj) as Hfind'. lia.
Qed.

(** Purging edit units 0 to 5 of the example table erases its first
    segment, which holds edit units 0 to 2. *)
Lemma IndexTable_Purge_spec_witness :
  wf_IndexTable (IndexTable_Purge example_table 0 5) /\
  (0, example_segment0) ∉ SegmentMap (IndexTable_Purge example_table 0 5).
Proof.
  destruct (IndexTable_Purge_spec example_table 0 5 example_table_wf
              ltac:(lia)) as (Hwf & _ & _ & Hgone).
  split; [exact Hwf|]. apply Hgone.
  - apply elem_of_cons. left. reflexivity.
  - simpl. lia.
  - simpl. lia.
Defined.

(** X7. [GetDuration] keeps the segments and stores the duration it
    returns in [IndexDuration].  For a CBR table that is the duration
    the table had.  For a well-formed VBR table it is 0 when there is no
    segment and otherwise the end of the last segment, and every edit
    unit that has an entry lies below it. *)
Theorem IndexTable_GetDuration_spec (T : IndexTable) :
  wf_IndexTable T ->
  let r := IndexTable_GetDuration T in
  SegmentMap r.1 = SegmentMap T /\ IndexDuration r.1 = r.2 /\
  EditUnitByteCount r.1 = EditUnitByteCount T /\
  (EditUnitByteCount T <> 0 -> r = (T, IndexDuration T)) /\
  (EditUnitByteCount T = 0 ->
     (SegmentMap T = [] -> r.2 = 0) /\
     (forall k s, last (SegmentMap T) = Some (k, s) ->
        r.2 = k + EntryCount s) /\
     (forall k s E, (k, s) ∈ SegmentMap T -> contains s E -> E < r.2)).
Proof.
  intros Hwf r. pose proof Hwf as (Hsize & Hsorted & Hsegs & Hdisj).
  subst r. unfold IndexTable_GetDuration.
  destruct (Z.eqb_spec (EditUnitByteCount T) 0) as [Hvbr|Hcbr];
    cbn [fst snd IndexTable_set_CBR SegmentMap IndexDuration EditUnitByteCount].
  - split; [reflexivity|]. split; [reflexivity|]. split; [reflexivity|].
    split; [intros; congruence|]. intros _.
    assert (Hlast : forall k s, last (SegmentMap T) = Some (k, s) ->
              Int64 (k + EntryCount s) = k + EntryCount s /\
              (k, s) ∈ SegmentMap T).
    { intros k s Hl.
      assert (Hin : (k, s) ∈ SegmentMap T).
      { rewrite last_lookup in Hl. apply list_elem_of_lookup. eauto. }
      destruct (Hsegs _ _ Hin) as (_ & Hlow & Hcnt & Hhigh & _).
      split; [apply Int64_small; lia|exact Hin]. }
    split; [intros ->; reflexivity|]. split.
    + intros k s Hl. rewrite Hl. apply Hlast, Hl.
    + intros k s E Hin Hcon.
      destruct (last (SegmentMap T)) as [[kl sl]|] eqn:Hl.
      * destruct (Hlast _ _ eq_refl) as [-> Hinl].
        destruct (Hsegs _ _ Hin) as (Hst & _ & Hcnt & _).
        destruct (Hsegs _ _ Hinl) as (_ & _ & Hcntl & _).
        unfold contains in Hcon. rewrite Hst in Hcon.
        apply list_elem_of_lookup in Hin as [j Hj].
        pose proof (lookup_lt_Some _ _ _ Hj) as Hlt.
        rewrite last_lookup in Hl.
        destruct (Nat.eq_dec j (pred (length (SegmentMap T)))) as [->|Hne].
        -- assert (k = kl /\ s = sl) as [-> ->] by (split; congruence). lia.
        -- assert (Hjl : (j < pred (length (SegmentMap T)))%nat)
             by (destruct (length (SegmentMap T)); simpl in *; lia).
           pose proof (smap_sorted_lookup_lt _ j _ _ _ _ _ Hsorted
                         Hjl Hj Hl) as Hk.
           assert (Hin : (k, s) ∈ SegmentMap T)
             by (apply list_elem_of_lookup; eauto).
           pose proof (Hdisj _ _ _ _ Hin Hinl Hk). lia.
      * apply last_None in Hl. rewrite Hl in Hin.
        apply elem_of_nil in Hin. contradiction.
  - split; [reflexivity|]. split; [reflexivity|]. split; [reflexivity|].
    split; [reflexivity|]. intros; contradiction.
Qed.

(** The example table indexes edit units 0 to 2 and 10: its duration
    is 11. *)
Lemma IndexTable_GetDuration_spec_witness :
  (IndexTable_GetDuration example_table).2 = 11 /\
  IndexDuration (IndexTable_GetDuration example_table).1 = 11.
Proof.
  destruct (IndexTable_GetDuration_spec example_table example_table_wf)
    as (_ & HD & _ & _ & Hvbr).
  destruct (Hvbr eq_refl) as (_ & Hlast & _).
  rewrite HD. split; exact (Hlast 10 example_segment10 eq_refl).
Defined.

Section SubStreams.

Import IndexManager.

Lemma new_streams_registered (p s : Z) :
  streams_registered (new p s) [(p, s)].
Proof.
  unfold streams_registered, new. state_simpl. simpl length.
  split; [reflexivity|]. split; [lia|]. split; [reflexivity|].
  split; [reflexivity|]. split; [lia|]. split; [|split; [|split]].
  - intros [|i] p' s' Hi; simpl in Hi; [|discriminate].
    injection Hi as <- <-. split; reflexivity.
  - simpl. rewrite orb_false_r. reflexivity.
  - simpl. rewrite andb_true_r.
    destruct (Z.gtb_spec s 0), (Z.ltb_spec 0 s); try reflexivity; lia.
  - reflexivity.
Qed.

Lemma AddSubStream_streams_registered (m : State) (L : list (Z * Z)) (p s : Z) :
  streams_registered m L -> FormatFixed m = false ->
  Z.of_nat (length L) + 17 < 2 ^ 31 -> 0 <= s ->
  (AddSubStream m p s).1.2 = Z.of_nat (length L) /\
  (AddSubStream m p s).2 = [] /\
  FormatFixed (AddSubStream m p s).1.1 = false /\
  streams_registered (AddSubStream m p s).1.1 (L ++ [(p, s)]).
Proof.
  intros (Hcount & Hone & Hsize & Hlen & Hroom & Hlist & Hre & Hcbr & Hmde)
    Hff Hsmall Hs.
  unfold AddSubStream. rewrite Hff.
  set (grown := if StreamCount m =? StreamListSize m
                then (Int32 (StreamListSize m + 16),
                      take (Z.to_nat (StreamListSize m)) (PosTableList m)
                        ++ replicate 16 0,
                      take (Z.to_nat (StreamListSize m)) (ElementSizeList m)
                        ++ replicate 16 0)
                else (StreamListSize m, PosTableList m, ElementSizeList m)).
  assert (Hgrown :
    grown.1.1 = Z.of_nat (length grown.1.2) /\
    length grown.2 = length grown.1.2 /\
    (length L + 1 <= length grown.1.2 < length L + 1 + 16)%nat /\
    forall i p' s', L !! i = Some (p', s') ->
      grown.1.2 !! i = Some p' /\ grown.2 !! i = Some s').
  { subst grown. rewrite Hcount, Hsize.
    destruct (Z.eqb_spec (Z.of_nat (length L))
                (Z.of_nat (length (PosTableList m)))) as [Heq|Hne];
      cbn [fst snd].
    - rewrite Nat2Z.id. rewrite (take_ge (PosTableList m)) by lia.
      rewrite (take_ge (ElementSizeList m)) by lia.
      rewrite !length_app, !length_replicate.
      split; [rewrite Int32_small by lia; lia|]. split; [lia|].
      split; [lia|]. intros i p' s' Hi.
      destruct (Hlist _ _ _ Hi) as [Hp Hs'].
      rewrite (lookup_app_l_Some _ _ _ _ Hp), (lookup_app_l_Some _ _ _ _ Hs').
      auto.
    - split; [reflexivity|]. split; [exact Hlen|]. split; [lia|]. exact Hlist. }
  destruct grown as [[StreamListSize' PosTableList'] ElementSizeList'].
  cbn [fst snd] in Hgrown.
  destruct Hgrown as (Hsize' & Hlen' & Hroom' & Hlist').
  cbn [fst snd]. split; [exact Hcount|]. split; [reflexivity|].
  split; [reflexivity|].
  unfold streams_registered. state_simpl.
  rewrite !length_insert, length_app, Hcount, Nat2Z.id. simpl length.
  split; [rewrite Int32_small by lia; lia|]. split; [lia|].
  split; [exact Hsize'|]. split; [exact Hlen'|]. split; [lia|].
  split; [|split; [|split]].
  - intros i p' s' Hi.
    destruct (Nat.eq_dec i (length L)) as [->|Hne].
    + rewrite lookup_app_r, Nat.sub_diag in Hi by lia.
      injection Hi as <- <-.
      rewrite !list_lookup_insert_eq by lia. auto.
    + rewrite !list_lookup_insert_ne by lia. apply Hlist'.
      rewrite lookup_app_l in Hi; [exact Hi|].
      apply lookup_lt_Some in Hi. rewrite length_app in Hi. simpl in Hi. lia.
  - rewrite existsb_app, <- Hre. simpl. rewrite orb_false_r.
    destruct (p <? 0), (UsesReordering m); reflexivity.
  - rewrite forallb_app, <- Hcbr. simpl. rewrite andb_true_r.
    destruct (Z.eqb_spec s 0), (Z.ltb_spec 0 s), (DataIsCBR m);
      try reflexivity; lia.
  - lia.
Qed.

End SubStreams.

(** X8. Registering sub-streams.  Starting from a new manager, a run of
    [AddSubStream] calls (fewer than 2^31 - 17 of them) leaves the format
    open and every stream counted and held in the stream arrays under
    its stream ID, across the growth of the arrays; re-ordering is in
    use exactly when some stream has a negative PosTableIndex, the data
    is CBR exactly when every ElementSize is positive, and a managed
    entry has one stream-offset slot per stream.  The next [AddSubStream]
    returns the number of streams so far as the new stream ID, without
    an error. *)
Theorem AddSubStream_registers
    (Log : Position -> IndexManager.LogState -> IndexManager.LogState)
    (IndexTable_new : IndexTable)
    (DefineDeltaArray : Z -> list Z -> IndexTable -> IndexTable)
    (p0 s0 : Z) (l : list (Z * Z)) (p s : Z) :
  Z.of_nat (length l) + 18 < 2 ^ 31 ->
  (forall x, x ∈ l -> 0 <= x.2) -> 0 <= s ->
  let m := IndexManager.run Log IndexTable_new DefineDeltaArray
             (IndexManager.new p0 s0)
             (map (fun x => IndexManager.CallAddSubStream x.1 x.2) l) in
  IndexManager.FormatFixed m = false /\
  streams_registered m ((p0, s0) :: l) /\
  IndexManager.AddSubStream m p s
    = ((IndexManager.AddSubStream m p s).1.1, 1 + Z.of_nat (length l), []).
Proof.
  intros Hlen Hpos Hs m.
  assert (Hrun : IndexManager.FormatFixed m = false /\
                 streams_registered m ((p0, s0) :: l)).
  { subst m. revert Hlen Hpos.
    induction l as [|[p' s'] l IH] using rev_ind; intros Hlen Hpos.
    - simpl. split; [reflexivity|apply new_streams_registered].
    - rewrite length_app in Hlen. simpl in Hlen.
      destruct IH as [Hff Hreg]; [lia| |].
      { intros x Hx. apply Hpos. apply elem_of_app. auto. }
      unfold IndexManager.run in *. rewrite map_app, fold_left_app.
      cbn [map fold_left IndexManager.call fst snd].
      destruct (AddSubStream_streams_registered _ _ p' s' Hreg Hff)
        as (_ & _ & Hff' & Hreg').
      + simpl length. lia.
      + apply (Hpos (p', s')). apply elem_of_app. right.
        apply list_elem_of_singleton. reflexivity.
      + split; [exact Hff'|]. exact Hreg'. }
  destruct Hrun as [Hff Hreg]. split; [exact Hff|]. split; [exact Hreg|].
  destruct (AddSubStream_streams_registered m _ p s Hreg Hff)
    as (Hid & Herr & _); [simpl length; lia|exact Hs|].
  destruct (IndexManager.AddSubStream m p s) as [[m' id] errs].
  cbn [fst snd] in *. subst. f_equal. f_equal. simpl length. lia.
Qed.

(** Sixteen sub-streams fill the arrays of a new manager and make them
    grow; the next one is stream 17, and stream 16 is still in place. *)
Lemma AddSubStream_registers_witness :
  let m := IndexManager.run example_Log example_table (fun _ _ T => T)
             (IndexManager.new (-1) 0)
             (map (fun x => IndexManager.CallAddSubStream x.1 x.2)
                (replicate 15 (0, 0) ++ [(3, 188)])) in
  (IndexManager.AddSubStream m 5 7).1.2 = 17 /\
  IndexManager.PosTableList m !! 16%nat = Some 3 /\
  IndexManager.ElementSizeList m !! 16%nat = Some 188.
Proof.
  intros m.
  destruct (AddSubStream_registers example_Log example_table (fun _ _ T => T)
              (-1) 0 (replicate 15 (0, 0) ++ [(3, 188)]) 5 7)
    as (_ & Hreg & Hnext).
  - simpl. lia.
  - intros x [[-> _]%elem_of_replicate| ->%list_elem_of_singleton]%elem_of_app;
      simpl; lia.
  - lia.
  - fold m in Hreg, Hnext. split; [rewrite Hnext; reflexivity|].
    destruct Hreg as (_ & _ & _ & _ & _ & Hlist & _).
    exact (Hlist 16%nat 3 188 eq_refl).
Defined.

(** The filler computed at a position that is not aligned. *)
Lemma CalcFillerSize_unaligned (fuel : nat) (P K : Z) (ForceBER4 : bool) :
  (21 <= fuel)%nat -> 0 <= P < 2 ^ 63 -> 0 < K < 2 ^ 32 -> P mod K <> 0 ->
  exists v,
    fill_while fuel (MinFiller ForceBER4) K (K - P mod K) = Some v /\
    CalcFillerSize fuel P K ForceBER4
    = (if 16777215 <? v then Some (16777215, [FillerTooLarge P K v])
       else Some (v, [])) /\
    ((FillsToKAG P K ForceBER4 v /\
      forall S, FillsToKAG P K ForceBER4 S -> v <= S) \/
     (16777215 < v /\
      forall S, FillsToKAG P K ForceBER4 S -> 16777215 < S)).
Proof.
  intros Hfuel HP HK Hr.
  pose proof (Z.mod_pos_bound P K ltac:(lia)) as Hb.
  assert (Hrem : Z.rem P K = P mod K) by (apply Z.rem_mod_nonneg; lia).
  assert (HK0 : (K =? 0) = false) by (apply Z.eqb_neq; lia).
  destruct (fill_while_result P K ForceBER4 fuel Hfuel HP HK Hr)
    as (v & Hrun & Hres).
  exists v. split; [exact Hrun|]. split; [|exact Hres].
  unfold CalcFillerSize. rewrite HK0, Hrem, (UInt32_small (P mod K)) by lia.
  destruct (Z.eqb_spec (P mod K) 0) as [|_]; [contradiction|].
  rewrite (UInt32_small (K - P mod K)) by lia.
  unfold MinFiller in Hrun. rewrite Hrun. reflexivity.
Qed.

(** X9. [SystemSource::GetBytesPerEditUnit] returns (given 21 steps for
    the loop of [CalcFillerSize]).  For a KAG of 0 or 1 the result is the
    77 bytes of key, length and value.  For a KAG up to 16777199 nothing
    is reported and the result is the least multiple of the KAG that is
    77 or leaves room for a filler of 17 bytes after the 77.  For a KAG
    above 16777292 an error is reported and the result is 16777292,
    below the KAG. *)
Theorem GetBytesPerEditUnit_spec (fuel : nat) (K : Z) :
  (21 <= fuel)%nat -> 0 <= K < 2 ^ 32 ->
  exists R errs,
    SystemSource_GetBytesPerEditUnit fuel K = Some (R, errs) /\
    (K <= 1 -> R = 77 /\ errs = []) /\
    (0 < K <= 16777199 ->
       errs = [] /\ R mod K = 0 /\ (R = 77 \/ 94 <= R) /\
       forall R', R' mod K = 0 -> R' = 77 \/ 94 <= R' -> R <= R') /\
    (16777292 < K -> R = 16777292 /\ errs <> []).
Proof.
  intros Hfuel HK. unfold SystemSource_GetBytesPerEditUnit.
  change (UInt32 (16 + SystemSource_GetBERSize + 57)) with 77.
  destruct (Z.eq_dec K 0) as [->|HK0].
  { exists 77, []. split; [|split; [auto|split; intros; lia]].
    destruct fuel; reflexivity. }
  pose proof (Z.mod_pos_bound 77 K ltac:(lia)) as Hb.
  destruct (Z.eq_dec (77 mod K) 0) as [Hal|Hr].
  - (* already aligned: no filler *)
    assert (Hcalc : CalcFillerSize fuel 77 K false = Some (0, [])).
    { unfold CalcFillerSize.
      assert (HK0' : (K =? 0) = false) by (apply Z.eqb_neq; lia).
      rewrite HK0', Z.rem_mod_nonneg, Hal by lia. reflexivity. }
    rewrite Hcalc. exists 77, []. split; [reflexivity|].
    split; [auto|]. split.
    + intros _. split; [reflexivity|]. split; [exact Hal|].
      split; [auto|]. intros R' _ [->|]; lia.
    + intros Hbig. rewrite Z.mod_small in Hal by lia. lia.
  - destruct (CalcFillerSize_unaligned fuel 77 K false Hfuel ltac:(lia)
                ltac:(lia) Hr) as (v & _ & Hcalc & Hres).
    rewrite Hcalc.
    assert (HK1 : 1 < K).
    { destruct (Z.eq_dec K 1) as [->|]; [|lia]. rewrite Z.mod_1_r in Hr. lia. }
    (* the least admissible filler is at most one KAG and 16 bytes *)
    assert (Hcand : exists S0, FillsToKAG 77 K false S0 /\ S0 <= K + 16).
    { exists (K - 77 mod K + (if 17 <=? K - 77 mod K then 0
                             else (16 + 77 mod K) / K) * K).
      pose proof (shape_aligned 77 K ltac:(lia)
                    (if 17 <=? K - 77 mod K then 0
                     else (16 + 77 mod K) / K)) as Hsh.
      unfold FillsToKAG, MinFiller. split; [split; [|exact Hsh]|].
      - destruct (Z.leb_spec 17 (K - 77 mod K)); [lia|].
        pose proof (Z.div_mod (16 + 77 mod K) K ltac:(lia)).
        pose proof (Z.mod_pos_bound (16 + 77 mod K) K ltac:(lia)). nia.
      - destruct (Z.leb_spec 17 (K - 77 mod K)); [lia|].
        pose proof (Z.div_mod (16 + 77 mod K) K ltac:(lia)).
        pose proof (Z.mod_pos_bound (16 + 77 mod K) K ltac:(lia)). nia. }
    destruct Hcand as (S0 & HS0 & HS0le).
    destruct (Z.ltb_spec 16777215 v) as [Hover|Hfits].
    + (* the filler is cut to the maximum *)
      exists (UInt32 (77 + 16777215)), [FillerTooLarge 77 K v].
      split; [reflexivity|]. split; [intros; lia|]. split.
      * intros Hsmall. exfalso.
        destruct Hres as [[_ Hleast]|[_ Hall]].
        -- specialize (Hleast _ HS0). lia.
        -- specialize (Hall _ HS0). lia.
      * intros _. split; [reflexivity|discriminate].
    + destruct Hres as [[[Hmin Halign] Hleast]|[Hover _]]; [|lia].
      unfold MinFiller in Hmin.
      exists (UInt32 (77 + v)), []. rewrite UInt32_small by lia.
      split; [reflexivity|]. split; [intros; lia|]. split.
      * intros _. split; [reflexivity|]. split; [exact Halign|].
        split; [right; lia|].
        intros R' HR' [->|HR94]; [contradiction|].
        assert (HF : FillsToKAG 77 K false (R' - 77)).
        { unfold FillsToKAG, MinFiller. split; [lia|].
          replace (77 + (R' - 77)) with R' by lia. exact HR'. }
        specialize (Hleast _ HF). lia.
      * intros Hbig. exfalso.
        assert (Hk : K - 77 <= v).
        { destruct (aligned_shape 77 K ltac:(lia) Hr v ltac:(lia) Halign)
            as (n & Hn & Hv).
          rewrite Z.mod_small in Hv by lia. nia. }
        lia.
Qed.

(** A KAG of 512 bytes: one KAG per edit unit. *)
Lemma GetBytesPerEditUnit_spec_witness :
  SystemSource_GetBytesPerEditUnit 21 512 = Some (512, []).
Proof.
  destruct (GetBytesPerEditUnit_spec 21 512 ltac:(lia) ltac:(lia))
    as (R & errs & Hrun & _ & Hmid & _).
  destruct (Hmid ltac:(lia)) as (-> & Hmod & H94 & Hleast).
  rewrite Hrun. f_equal. f_equal.
  assert (R <= 512) by (apply Hleast; [reflexivity|lia]).
  assert (Hdiv : R = 512 * (R / 512)) by (apply Z.div_exact; lia).
  destruct H94 as [->|H94]; [discriminate|].
  assert (0 < R / 512) by (apply Z.div_str_pos; lia).
  lia.
Defined.

Section GCLayout_facts.

Import GCLayout.

(** X10. [ForceEnd] never reports success: it returns -1 whatever the
    state, and so never makes the layout valid; the layout being built
    becomes the template and is cleared. *)
Theorem ForceEnd_never_ends (g : State) :
  (ForceEnd g).2 = -1 /\
  _valid (ForceEnd g).1 = _valid g /\
  _current (ForceEnd g).1 = _fresh g /\
  _fresh (ForceEnd g).1 = [] /\
  _inconsistent (ForceEnd g).1 = false.
Proof.
  unfold ForceEnd, Where. cbn [_valid _current _fresh length].
  destruct (_valid g); cbn [negb orb]; [|cbn; auto].
  destruct (_fresh g) as [|a [|b l]]; cbn; auto.
Qed.

(** X11. [Offer] while a template is in force ([_valid]).  The template
    and its validity are kept and the layout being built is not empty
    afterwards.  The result is 3 exactly when the element equals the
    first of the template.  Any other element is compared with the last
    element of the template, wherever in the container it comes: the
    result is 0, 1 or 2 only if it equals that last element, and an
    element that equals neither the first nor the last gives -1.  A
    result of -1 marks the layout inconsistent, and the mark, once set,
    stays. *)
Theorem Offer_valid (g : State) (me : GCElementKind) :
  _valid g = true ->
  let g' := (Offer g me).1 in
  let r := (Offer g me).2 in
  _current g' = _current g /\ _valid g' = true /\ _fresh g' <> [] /\
  (r = -1 \/ r = 0 \/ r = 1 \/ r = 2 \/ r = 3) /\
  (r = 3 <-> exists f, head (_current g) = Some f /\ eqb me f = true) /\
  (r = 0 \/ r = 1 \/ r = 2 ->
     exists b, last (_current g) = Some b /\ eqb me b = true) /\
  (forall f b, head (_current g) = Some f -> last (_current g) = Some b ->
     eqb me f = false -> eqb me b = false -> r = -1) /\
  (r = -1 -> _inconsistent g' = true) /\
  (_inconsistent g = true -> _inconsistent g' = true).
Proof.
  intros Hvalid. unfold Offer. rewrite Hvalid.
  cbn [negb push_fresh _current _fresh _valid _inconsistent _autorefresh _pos].
  destruct (_current g) as [|front cur] eqn:Hcur.
  - (* an empty template: every element makes the layout too long *)
    assert (Hlong : (length (@nil GCElementKind) <? length (_fresh g ++ [me]))%nat = true).
    { apply Nat.ltb_lt. rewrite length_app. simpl. lia. }
    rewrite Hlong. cbn [fst snd set_inconsistent push_fresh _current _valid
                        _fresh _inconsistent head last].
    split; [first [reflexivity|exact Hcur]|]. split; [first [reflexivity|exact Hvalid]|].
    split; [intros H; apply app_eq_nil in H as [_ H]; discriminate|].
    split; [auto|].
    split; [split; [lia|intros (f & Hf & _); discriminate]|].
    split; [intros [|[|]]; lia|]. split; [discriminate|]. auto.
  - destruct (eqb me front) eqn:Hfront.
    + cbn [fst snd _current _valid _fresh _inconsistent head].
      split; [first [reflexivity|exact Hcur]|]. split; [first [reflexivity|exact Hvalid]|]. split; [discriminate|].
      split; [auto 6|]. split; [split; eauto|].
      split; [intros [|[|]]; lia|].
      split; [intros f b [= <-]; congruence|]. split; [lia|]. auto.
    + rewrite <- Hcur.
      assert (Hback : exists b, last (_current g) = Some b).
      { rewrite Hcur. destruct (last (front :: cur)) eqn:Hl; [eauto|].
        apply last_None in Hl. discriminate. }
      destruct Hback as [b Hb]. rewrite Hb.
      change (default me (Some b)) with b.
      assert (Hne : _fresh g ++ [me] <> [])
        by (intros H; apply app_eq_nil in H as [_ H]; discriminate).
      assert (Hhead : forall r : Z, r <> 3 ->
                (r = 3 <-> exists f, head (_current g) = Some f
                                     /\ eqb me f = true)).
      { intros r Hr. split; [lia|]. rewrite Hcur.
        intros (f & [= <-] & Hf). congruence. }
      unfold neqb.
      destruct (length (_current g) <? length (_fresh g ++ [me]))%nat;
        [|destruct (Nat.eqb (length (_fresh g ++ [me])) (length (_current g)));
          [|destruct (Nat.eqb (length (_fresh g ++ [me]))
                        (length (_current g) - 1))]];
        try destruct (eqb me b) eqn:Hlast;
        cbn [negb fst snd set_inconsistent push_fresh _current _valid _fresh
             _inconsistent];
        (split; [reflexivity|]; split; [first [reflexivity|exact Hvalid]|]; split; [exact Hne|];
         split; [auto 6|]; split; [apply Hhead; lia|];
         split; [first [intros [|[|]]; lia | intros _; eauto]|];
         split; [first [intros; reflexivity
                       | intros f0 b0 _ [= <-] _ ?; congruence]|];
         split; [first [reflexivity|lia]|]; auto).
Qed.

(** Every element offered leaves the layout being built non-empty, and
    the position is advanced exactly when it starts a new container on
    a layout that was not empty. *)
Lemma Offer_step (g : State) (me : GCElementKind) :
  (_valid g = true -> _current g <> []) ->
  let g' := (Offer g me).1 in
  let r := (Offer g me).2 in
  _fresh g' <> [] /\
  (_valid g' = true -> _current g' <> []) /\
  (r = -1 \/ r = 0 \/ r = 1 \/ r = 2 \/ r = 3) /\
  (_fresh g = [] -> _valid g = false -> r = 3 /\ _pos g' = _pos g) /\
  (_fresh g <> [] ->
     (r = 3 -> _pos g' = Int64 (_pos g + 1)) /\
     (r <> 3 -> _pos g' = _pos g)).
Proof.
  intros Hinv.
  assert (Hne : forall l, l ++ [me] <> [])
    by (intros l H; apply app_eq_nil in H as [_ H]; discriminate).
  unfold Offer. destruct (_valid g) eqn:Hvalid;
    cbn [negb push_fresh _current _fresh _valid _inconsistent _autorefresh
         _pos].
  - specialize (Hinv eq_refl).
    destruct (_current g) as [|front cur] eqn:Hcur; [contradiction|].
    destruct (eqb me front).
    + cbn [fst snd _fresh _valid _current _pos].
      split; [discriminate|]. split; [discriminate|]. split; [auto 6|].
      split; [intros; discriminate|]. intros _. split; [reflexivity|lia].
    + repeat match goal with
             | |- context [if ?c then _ else _] => destruct c
             end;
        cbn [fst snd set_inconsistent push_fresh _fresh _valid _current _pos];
        (split; [apply Hne|]; split; [intros _; rewrite Hcur; discriminate|];
         split; [auto 6|]; split; [intros; discriminate|];
         intros _; split; [lia|reflexivity]).
  - destruct (_fresh g) as [|front rest] eqn:Hfresh.
    + cbn [fst snd push_fresh _fresh _valid _current _pos].
      split; [apply Hne|]. split; [intros; congruence|]. split; [auto 6|].
      split; [auto|]. intros; contradiction.
    + unfold start_new.
      repeat match goal with
             | |- context [if ?c then _ else _] => destruct c
             end;
        cbn [fst snd push_fresh _fresh _valid _current _pos _autorefresh
             _inconsistent];
        (split; [first [discriminate|apply Hne]|];
         split; [first [intros _; discriminate|intros; congruence]|];
         split; [auto 6|]; split; [intros; discriminate|];
         intros _; split; first [reflexivity|lia]).
Qed.

Lemma offers_Pos_from (l : list GCElementKind) : forall g,
  (_valid g = true -> _current g <> []) -> _fresh g <> [] ->
  0 <= _pos g -> _pos g + Z.of_nat (length l) < 2 ^ 63 ->
  let g' := (offers g l).1 in
  let rs := (offers g l).2 in
  length rs = length l /\
  Forall (fun r => r = -1 \/ r = 0 \/ r = 1 \/ r = 2 \/ r = 3) rs /\
  (_valid g' = true -> _current g' <> []) /\ _fresh g' <> [] /\
  _pos g' = _pos g + Z.of_nat (count_occ Z.eq_dec rs 3).
Proof.
  induction l as [|me l IH]; intros g Hinv Hfresh Hpos Hroom.
  - cbn. split; [reflexivity|]. split; [constructor|].
    split; [exact Hinv|]. split; [exact Hfresh|]. lia.
  - cbn [offers].
    destruct (Offer_step g me Hinv) as (Hf1 & Hinv1 & Hr1 & _ & Hp1).
    specialize (Hp1 Hfresh).
    destruct (Offer g me) as [g1 r1]. cbn [fst snd] in *.
    assert (Hstep : _pos g1 = _pos g + (if r1 =? 3 then 1 else 0)).
    { destruct Hp1 as [Hp3 Hpn]. destruct (Z.eqb_spec r1 3) as [H3|Hn3].
      - rewrite (Hp3 H3). apply Int64_small. simpl length in Hroom. lia.
      - rewrite (Hpn Hn3). lia. }
    simpl length in Hroom.
    specialize (IH g1 Hinv1 Hf1).
    destruct IH as (Hlen & Hall & Hinv' & Hf' & Hp').
    { rewrite Hstep. destruct (r1 =? 3); lia. }
    { rewrite Hstep. destruct (r1 =? 3); lia. }
    destruct (offers g1 l) as [g' rs]. cbn [fst snd] in *.
    split; [simpl; lia|]. split; [constructor; assumption|].
    split; [exact Hinv'|]. split; [exact Hf'|].
    rewrite Hp', Hstep. simpl count_occ.
    destruct (Z.eqb_spec r1 3) as [->|Hne].
    + destruct (Z.eq_dec 3 3); [lia|contradiction].
    + destruct (Z.eq_dec r1 3); [contradiction|lia].
Qed.

(** X12. Counting containers.  When the elements of a non-empty list
    (of fewer than 2^63 elements) are offered to a new layout, every
    [Offer] returns -1, 0, 1, 2 or 3, the first returns 3, the layout
    being built is not empty afterwards, so that [Which] has an element
    to return, and [Pos] is the number of times [Offer] returned 3, less
    one for the first element. *)
Theorem offers_Pos (refresh : bool) (l : list GCElementKind) :
  l <> [] -> Z.of_nat (length l) < 2 ^ 63 ->
  let g := (offers (new refresh) l).1 in
  let rs := (offers (new refresh) l).2 in
  length rs = length l /\
  Forall (fun r => r = -1 \/ r = 0 \/ r = 1 \/ r = 2 \/ r = 3) rs /\
  head rs = Some 3 /\
  _fresh g <> [] /\
  Pos g = Z.of_nat (count_occ Z.eq_dec rs 3) - 1.
Proof.
  intros Hl Hlen. destruct l as [|me l]; [contradiction|].
  cbn [offers]. simpl length in Hlen.
  change (Offer (new refresh) me)
    with (mkState [] [me] false false refresh 0, 3).
  destruct (offers_Pos_from l (mkState [] [me] false false refresh 0))
    as (Hlen' & Hall & _ & Hf & Hp); cbn [_valid _fresh _pos];
    [discriminate|discriminate|lia|lia|].
  destruct (offers (mkState [] [me] false false refresh 0) l) as [g rs].
  cbn [fst snd _pos] in *.
  split; [simpl; lia|]. split; [constructor; auto 6|].
  split; [reflexivity|]. split; [exact Hf|].
  unfold Pos. rewrite Hp. simpl count_occ.
  destruct (Z.eq_dec 3 3); [lia|contradiction].
Qed.

(** A system item, a picture item and a sound item, twice over: the
    second system item starts container 1. *)
Lemma offers_Pos_witness :
  let Sys := mkGCElementKind true 4 1 0 0 in
  let Pic := mkGCElementKind true 21 1 1 0 in
  let Snd := mkGCElementKind true 22 1 1 0 in
  Pos (offers (new true) [Sys; Pic; Snd; Sys; Pic; Snd]).1 = 1.
Proof.
  intros Sys Pic Snd.
  destruct (offers_Pos true [Sys; Pic; Snd; Sys; Pic; Snd])
    as (_ & _ & _ & _ & Hpos); [discriminate|simpl; lia|].
  rewrite Hpos. reflexivity.
Defined.

(** The template [Sys; Pic; Snd] is in force; the picture item of the
    next container is compared with the sound item and rejected. *)
Lemma Offer_valid_witness :
  let Sys := mkGCElementKind true 4 1 0 0 in
  let Pic := mkGCElementKind true 21 1 1 0 in
  let Snd := mkGCElementKind true 22 1 1 0 in
  (Offer (mkState [Sys; Pic; Snd] [Sys] true false true 1) Pic).2 = -1.
Proof.
  intros Sys Pic Snd.
  destruct (Offer_valid (mkState [Sys; Pic; Snd] [Sys] true false true 1) Pic
              eq_refl) as (_ & _ & _ & _ & _ & _ & Hrej & _).
  exact (Hrej Sys Snd eq_refl eq_refl eq_refl eq_refl).
Defined.

End GCLayout_facts.

Section Ordered_entries.

Context {V : Type}.
Implicit Types (l : list (Z * V)).

Lemma smap_of_list_sorted l :
  smap_sorted (foldr (fun kv acc => smap_insert kv.1 kv.2 acc) [] l).
Proof.
  induction l as [|[k v] l IH]; simpl.
  - constructor.
  - apply smap_insert_sorted, IH.
Qed.

Lemma elem_of_smap_of_list_inv l k v :
  (k, v) ∈ foldr (fun kv acc => smap_insert kv.1 kv.2 acc) [] l -> (k, v) ∈ l.
Proof.
  induction l as [|[k0 v0] l IH]; simpl; [auto|].
  intros [[= -> ->]|Hin]%elem_of_smap_insert_inv; apply elem_of_cons; auto.
Qed.

Lemma elem_of_smap_of_list l k v :
  NoDup (l.*1) ->
  (k, v) ∈ foldr (fun kv acc => smap_insert kv.1 kv.2 acc) [] l <-> (k, v) ∈ l.
Proof.
  induction l as [|[k0 v0] l IH]; intros Hnd; [reflexivity|].
  rewrite fmap_cons in Hnd. apply NoDup_cons in Hnd as [Hk0 Hnd].
  specialize (IH Hnd). cbn [foldr fst snd].
  rewrite elem_of_smap_insert_absent, elem_of_cons.
  - rewrite IH. reflexivity.
  - intros v' Hin%elem_of_smap_of_list_inv.
    apply Hk0. apply list_elem_of_fmap. exists (k0, v'). auto.
Qed.

(** The iterator [find(F)], or [lower_bound(F)] when [F] is no key,
    separates the keys below [F] from the others. *)
Lemma smap_start_spec l (F : Z) :
  smap_sorted l ->
  let it := smap_find F l in
  let it := if Nat.eqb it (smap_end l) then smap_lower_bound F l else it in
  forall j k v, l !! j = Some (k, v) -> (it <= j)%nat <-> F <= k.
Proof.
  intros Hs. cbv zeta. unfold smap_end.
  destruct (Nat.eqb_spec (smap_find F l) (length l)) as [Hend|Hfound];
    intros j k v Hj.
  - pose proof (smap_lower_bound_spec l F j k v Hs Hj). lia.
  - pose proof (smap_find_le l F).
    destruct (smap_find_found l F ltac:(lia)) as [v0 Hv0].
    destruct (Nat.lt_trichotomy (smap_find F l) j) as [Hlt|[Heq|Hgt]].
    + pose proof (smap_sorted_lookup_lt l _ j _ _ _ _ Hs Hlt Hv0 Hj). lia.
    + rewrite Heq in Hv0. assert (k = F) by congruence. lia.
    + pose proof (smap_sorted_lookup_lt l j _ _ _ _ _ Hs Hgt Hj Hv0). lia.
Qed.

End Ordered_entries.

Lemma ManagedData_entries_sorted (M : gmap Z IndexManager.IndexData) :
  smap_sorted (ManagedData_entries M).
Proof. apply smap_of_list_sorted. Qed.

Lemma elem_of_ManagedData_entries (M : gmap Z IndexManager.IndexData) k v :
  (k, v) ∈ ManagedData_entries M <-> M !! k = Some v.
Proof.
  unfold ManagedData_entries.
  rewrite elem_of_smap_of_list by apply NoDup_fst_map_to_list.
  apply elem_of_map_to_list.
Qed.

Lemma Int8_range (x : Z) : - 2 ^ 7 <= Int8 x < 2 ^ 7.
Proof.
  unfold Int8, wrap_signed. change (2 ^ (8 - 1)) with 128.
  change (2 ^ 8) with 256. change (2 ^ 7) with 128.
  pose proof (Z.mod_pos_bound (x + 128) 256 ltac:(lia)). lia.
Qed.

Lemma UInt8_range (x : Z) : 0 <= UInt8 x < 2 ^ 8.
Proof. unfold UInt8, wrap_unsigned. apply Z.mod_pos_bound. lia. Qed.

Lemma UInt64_idemp (x : Z) : UInt64 (UInt64 x) = UInt64 x.
Proof.
  unfold UInt64, wrap_unsigned. apply Z.mod_mod. lia.
Qed.

(** One entry added at or beyond the end of every segment of a table
    that accepts entries. *)
Lemma AddIndexEntry_step (T : IndexTable) (fr fr' : list Z)
    (E TO KFO Fl SO : Z) (Slices : list Z) :
  wf_VBR_IndexTable T -> - 2 ^ 63 < E -> E + 1 < 2 ^ 63 ->
  (forall k s, (k, s) ∈ SegmentMap T -> k + EntryCount s <= E) ->
  - 2 ^ 7 <= KFO < 2 ^ 7 -> 0 <= Fl < 2 ^ 8 ->
  exists T',
    IndexTable_AddIndexEntry T fr fr' E TO KFO Fl SO (NSL T) Slices 0 []
      = (true, T', []) /\
    wf_VBR_IndexTable T' /\ NSL T' = NSL T /\
    (forall k s, (k, s) ∈ SegmentMap T' -> k + EntryCount s <= E + 1) /\
    (exists k1 s1, (k1, s1) ∈ SegmentMap T' /\ contains s1 E) /\
    entry_of T' E = (Int64 (UInt64 SO), KFO, Fl) /\
    (forall E' k s, (k, s) ∈ SegmentMap T -> contains s E' ->
       entry_of T' E' = entry_of T E' /\
       exists k' s', (k', s') ∈ SegmentMap T' /\ contains s' E') /\
    (forall E' k s, (k, s) ∈ SegmentMap T' -> contains s E' ->
       E' = E \/ exists k0 s0, (k0, s0) ∈ SegmentMap T /\ contains s0 E').
Proof.
  intros (Hwf & Hvbr & Hnpe & Hnsl & Hone & Hsegs64) HE1 HE2 Hends HKFO HFl.
  pose proof Hwf as (Hsize & Hsorted & Hsegs & Hdisj).
  assert (Hno : forall k s, (k, s) ∈ SegmentMap T -> ~ contains s E).
  { intros k s Hin Hcon. specialize (Hends _ _ Hin).
    destruct (Hsegs _ _ Hin) as (Hst & _). unfold contains in Hcon. lia. }
  assert (Hsmall : forall k s, (k, s) ∈ SegmentMap T ->
            (EntryCount s + 1) * IndexEntrySize T + 8 < 2 ^ 31).
  { intros k s Hin. specialize (Hsegs64 _ _ Hin). lia. }
  destruct (IndexTable_AddIndexEntry_outcome T Hwf E ltac:(lia) Hone Hno
              fr fr' TO KFO Fl SO Slices [] Hsmall)
    as (m' & k & s & Buffer & Hr & Hsorted' & Hmem & Hseg & Hend & Hfit
        & Hafter & Hbefore & Hold & HBlen & HB1 & HB2 & HB3 & Horigin).
  rewrite Hnpe in Hr.
  exists (with_SegmentMap T m'). split; [exact Hr|].
  pose proof (appended_wf T Hwf m' k E s Buffer Hsorted' Hmem Hseg Hend Hfit
                HE2 Hafter Hbefore HBlen) as Hwf'.
  destruct (appended_Lookup_new T Hwf Hvbr m' k E s Buffer Hsorted' Hmem Hseg
              Hend Hfit HE2 Hafter Hbefore HBlen) as (HP & HL & HK & HF).
  pose proof Hseg as (Hst & _ & Hcnt & _).
  split; [|split; [reflexivity|split; [|split; [|split; [|split]]]]].
  - unfold wf_VBR_IndexTable.
    cbn [with_SegmentMap SegmentMap EditUnitByteCount NPE NSL IndexEntrySize].
    split; [exact Hwf'|]. do 4 (split; [assumption|]).
    intros k0 s0 [[= -> ->]|[Hin _]]%Hmem; [|exact (Hsegs64 _ _ Hin)].
    cbn [EntryCount]. lia.
  - cbn [with_SegmentMap SegmentMap].
    intros k0 s0 [[= -> ->]|[Hin _]]%Hmem.
    + cbn [EntryCount]. lia.
    + specialize (Hends _ _ Hin). lia.
  - eexists _, _. cbn [with_SegmentMap SegmentMap]. split.
    + apply Hmem. left. reflexivity.
    + unfold contains. cbn [StartPosition EntryCount]. lia.
  - unfold entry_of. cbv zeta. rewrite HL, HK, HF, HB3.
    unfold GetI8, GetU8. rewrite HB1, HB2.
    rewrite Int8_UInt8 by exact HKFO. rewrite UInt8_small by exact HFl.
    reflexivity.
  - intros E' k' s' Hin Hcon. split.
    + destruct (appended_Lookup_old T Hwf Hvbr m' k E s Buffer Hsorted' Hmem
                  Hseg Hend Hfit HE2 Hafter Hbefore Hold HBlen E' k' s' Hin
                  Hcon) as (H1 & H2 & H3).
      unfold entry_of. cbv zeta. rewrite H1, H2, H3. reflexivity.
    + cbn [with_SegmentMap SegmentMap].
      destruct (Z.eq_dec k' k) as [->|Hne].
      * rewrite (Hold _ Hin) in Hcon. eexists _, _. split.
        -- apply Hmem. left. reflexivity.
        -- unfold contains in *. cbn [StartPosition EntryCount]. lia.
      * exists k', s'. split; [apply Hmem; auto|exact Hcon].
  - cbn [with_SegmentMap SegmentMap].
    intros E' k0 s0 [[= -> ->]|[Hin _]]%Hmem Hcon.
    + unfold contains in Hcon. cbn [StartPosition EntryCount] in Hcon.
      destruct (Z.eq_dec E' E) as [|Hne]; [auto|]. right.
      (* the segment had an entry, so it is one of the table *)
      destruct Horigin as [Hin|Hzero]; [|lia].
      exists k, s. split; [exact Hin|]. unfold contains. lia.
    + right. eauto.
Qed.

(** With a slot for every store, the slice table is built and keeps its
    length. *)
Lemma build_slice_table_fits (n : nat) :
  forall (Sizes Offsets : list Z) (StreamPos : Z) (Slices : list Z)
         (Slice : nat),
  (Slice + slice_stores n Sizes <= length Slices)%nat ->
  exists Slices',
    build_slice_table n Sizes Offsets StreamPos Slices Slice = Some Slices' /\
    length Slices' = length Slices.
Proof.
  induction n as [|n IH]; intros Sizes Offsets StreamPos Slices Slice Hfit;
    cbn [build_slice_table slice_stores] in *.
  - eauto.
  - destruct (default 0 (head Sizes) =? 0).
    + destruct (Nat.ltb_spec Slice (length Slices)) as [Hlt|Hge]; [|lia].
      destruct (IH (tail Sizes) (tail Offsets) StreamPos
                  (<[Slice := if Int64 (default 0 (head Offsets)) >=? StreamPos
                              then UInt32 (Int64 (default 0 (head Offsets))
                                           - StreamPos)
                              else 0]> Slices) (S Slice))
        as (Slices' & Hrun & Hlen).
      * rewrite length_insert. lia.
      * exists Slices'. split; [exact Hrun|].
        rewrite Hlen. apply length_insert.
    + apply IH. lia.
Qed.

Section AddEntries_loop_facts.

Variable fresh : nat -> list Z.
Variable m : IndexManager.State.
Variables (Last StatusTest NSL0 : Z).

Let so0 (e : IndexManager.IndexData) : Z :=
  default 0 (IndexManager.StreamOffset e !! 0%nat).

(** The loop adds every complete entry up to [Last], in ascending order
    of the edit units, to a table that ends at or before the first of
    them. *)
Lemma AddEntries_loop_spec (l : list (Z * IndexManager.IndexData)) :
  forall (T : IndexTable) (Slices : list Z) (calls : nat) (Ret : Z)
         (msgs : list ManagerMessage) (bound : Z),
  smap_sorted l ->
  (forall k e, (k, e) ∈ l -> bound <= k /\ - 2 ^ 63 < k /\ k + 1 < 2 ^ 63) ->
  wf_VBR_IndexTable T -> NSL T = NSL0 ->
  (forall k s, (k, s) ∈ SegmentMap T -> k + EntryCount s <= bound) ->
  0 <= Ret -> Ret + Z.of_nat (length l) < 2 ^ 31 ->
  (slice_stores (Z.to_nat (IndexManager.StreamCount m - 1))
     (IndexManager.ElementSizeList m) <= length Slices)%nat ->
  exists T',
    AddEntries_loop fresh m false Last NSL0 StatusTest l T Slices calls Ret msgs
    = (T',
       Ret + Z.of_nat (length (List.filter (entry_complete StatusTest Last) l)),
       msgs) /\
    wf_VBR_IndexTable T' /\ NSL T' = NSL0 /\
    (forall E' k s, (k, s) ∈ SegmentMap T -> contains s E' ->
       entry_of T' E' = entry_of T E' /\
       exists k' s', (k', s') ∈ SegmentMap T' /\ contains s' E') /\
    (forall E e, (E, e) ∈ l -> entry_complete StatusTest Last (E, e) = true ->
       entry_of T' E
         = (Int64 (UInt64 (so0 e)), Int8 (IndexManager.KeyOffset e),
            UInt8 (IndexManager.Flags e)) /\
       exists k' s', (k', s') ∈ SegmentMap T' /\ contains s' E) /\
    (forall E' k s, (k, s) ∈ SegmentMap T' -> contains s E' ->
       (exists k0 s0, (k0, s0) ∈ SegmentMap T /\ contains s0 E') \/
       (exists e, (E', e) ∈ l /\ entry_complete StatusTest Last (E', e) = true)).
Proof.
  induction l as [|[first e] l IH];
    intros T Slices calls Ret msgs bound Hsorted Hkeys HT HNSL Hends HRet Hroom
           Hslots.
  - cbn [AddEntries_loop List.filter length]. exists T.
    split; [f_equal; f_equal; lia|]. split; [exact HT|]. split; [exact HNSL|].
    split; [eauto|]. split; [intros E e []%elem_of_nil|]. eauto.
  - apply smap_sorted_cons_elem in Hsorted as [Hsorted Hlt].
    destruct (Hkeys first e ltac:(apply elem_of_cons; auto))
      as (Hb & Hlow & Hhigh).
    assert (Hkeys' : forall b, b <= first + 1 ->
              forall k e0, (k, e0) ∈ l -> b <= k /\ - 2 ^ 63 < k /\ k + 1 < 2 ^ 63).
    { intros b Hbb k e0 Hin. specialize (Hlt _ _ Hin).
      destruct (Hkeys k e0 ltac:(apply elem_of_cons; auto)) as (_ & ? & ?).
      lia. }
    simpl length in Hroom.
    cbn [AddEntries_loop List.filter].
    unfold entry_complete at 1. cbn [fst snd].
    destruct (Z.leb_spec first Last) as [Hin_range|Hbeyond]; cbn [andb].
    + destruct (Z.eqb_spec (Z.land (IndexManager.Status e) StatusTest)
                  StatusTest) as [Hcomplete|Hincomplete]; cbn [negb].
      * (* a complete entry: it is added *)
        destruct (build_slice_table_fits
                    (Z.to_nat (IndexManager.StreamCount m - 1))
                    (IndexManager.ElementSizeList m)
                    (tail (IndexManager.StreamOffset e))
                    (Int64 (default 0 (IndexManager.StreamOffset e !! 0%nat)))
                    Slices 0 Hslots) as (Slices1 & Hbuilt & HSlices1).
        rewrite Hbuilt.
        destruct (AddIndexEntry_step T (fresh (2 * calls)) (fresh (2 * calls + 1))
                    first (Int8 (IndexManager.TemporalOffset e))
                    (Int8 (IndexManager.KeyOffset e))
                    (UInt8 (IndexManager.Flags e))
                    (UInt64 (default 0 (IndexManager.StreamOffset e !! 0%nat)))
                    Slices1
                    HT Hlow Hhigh)
          as (T1 & Hadd & HT1 & HNSL1 & Hends1 & Hhas & Hnew & Hold & Honly).
        { intros k s Hin. specialize (Hends _ _ Hin). lia. }
        { apply Int8_range. } { apply UInt8_range. }
        rewrite HNSL in Hadd. rewrite Hadd. cbn [map]. rewrite app_nil_r.
        rewrite Int32_small by lia.
        destruct (IH T1 Slices1 (S calls) (Ret + 1) msgs (first + 1) Hsorted
                    (Hkeys' (first + 1) ltac:(lia)) HT1 ltac:(congruence) Hends1
                    ltac:(lia) ltac:(lia) ltac:(rewrite HSlices1; exact Hslots))
          as (T' & Hrun & HT' & HNSL' & Hold' & Hnew' & Honly').
        exists T'. split; [rewrite Hrun; simpl length; f_equal; f_equal; lia|].
        split; [exact HT'|]. split; [exact HNSL'|]. split; [|split].
        -- intros E' k s Hin Hcon.
           destruct (Hold E' k s Hin Hcon) as (Heq1 & k1 & s1 & Hin1 & Hcon1).
           destruct (Hold' E' k1 s1 Hin1 Hcon1) as (Heq2 & Hex).
           split; [congruence|exact Hex].
        -- intros E e0 [[= -> ->]|Hin]%elem_of_cons Hc.
           ++ (* the entry just added is kept by the rest of the loop *)
              destruct Hhas as (k1 & s1 & Hin1 & Hcon1).
              destruct (Hold' first k1 s1 Hin1 Hcon1) as (Heq2 & Hex).
              split; [|exact Hex]. rewrite Heq2, Hnew.
              rewrite UInt64_idemp. reflexivity.
           ++ apply (Hnew' E e0 Hin Hc).
        -- intros E' k s Hin Hcon.
           destruct (Honly' E' k s Hin Hcon) as [(k1 & s1 & Hin1 & Hcon1)|Hl].
           ++ destruct (Honly E' k1 s1 Hin1 Hcon1) as [->|Hex]; [|auto].
              right. exists e. split; [apply elem_of_cons; auto|].
              unfold entry_complete. cbn [fst snd].
              rewrite (proj2 (Z.leb_le _ _) Hin_range), Hcomplete, Z.eqb_refl.
              reflexivity.
           ++ right. destruct Hl as (e0 & Hin0 & Hc0). exists e0.
              split; [apply elem_of_cons; auto|exact Hc0].
      * (* not complete: skipped *)
        destruct (IH T Slices calls Ret msgs bound Hsorted
                    (Hkeys' bound ltac:(lia)) HT HNSL Hends HRet ltac:(lia)
                    Hslots)
          as (T' & Hrun & HT' & HNSL' & Hold' & Hnew' & Honly').
        exists T'. split; [exact Hrun|]. split; [exact HT'|].
        split; [exact HNSL'|]. split; [exact Hold'|]. split.
        -- intros E e0 [[= -> ->]|Hin]%elem_of_cons Hc; [|eauto].
           unfold entry_complete in Hc. cbn [fst snd] in Hc.
           apply andb_true_iff in Hc as [_ Hc%Z.eqb_eq]. contradiction.
        -- intros E' k s Hin Hcon.
           destruct (Honly' E' k s Hin Hcon) as [|(e0 & Hin0 & Hc0)]; [auto|].
           right. exists e0. split; [apply elem_of_cons; auto|exact Hc0].
    + (* beyond the last edit unit: the loop ends *)
      assert (Hnone : List.filter (entry_complete StatusTest Last) l = []).
      { clear -Hlt Hbeyond. induction l as [|[k e0] l IHl]; [reflexivity|].
        cbn [List.filter]. unfold entry_complete at 1. cbn [fst snd].
        pose proof (Hlt k e0 ltac:(apply elem_of_cons; auto)).
        destruct (Z.leb_spec k Last); [lia|]. cbn [andb].
        apply IHl. intros k' e' Hin. apply (Hlt k' e').
        apply elem_of_cons. auto. }
      rewrite Hnone. exists T. split; [simpl; f_equal; f_equal; lia|].
      split; [exact HT|]. split; [exact HNSL|]. split; [eauto|]. split.
      * intros E e0 Hin Hc. exfalso.
        unfold entry_complete in Hc. cbn [fst snd] in Hc.
        apply andb_true_iff in Hc as [Hc%Z.leb_le _].
        apply elem_of_cons in Hin as [[= -> ->]|Hin]; [lia|].
        specialize (Hlt _ _ Hin). lia.
      * eauto.
Qed.

End AddEntries_loop_facts.

Lemma smap_insert_absent_length {V : Type} (l : list (Z * V)) k v :
  (forall v', (k, v') ∉ l) -> length (smap_insert k v l) = S (length l).
Proof.
  induction l as [|[k0 v0] l IH]; simpl; intros Habs; [reflexivity|].
  destruct (k <? k0); [reflexivity|].
  destruct (Z.eqb_spec k k0) as [->|Hne].
  - exfalso. apply (Habs v0). apply elem_of_cons. auto.
  - simpl. f_equal. apply IH. intros v' Hin. apply (Habs v').
    apply elem_of_cons. auto.
Qed.

Lemma ManagedData_entries_length (M : gmap Z IndexManager.IndexData) :
  length (ManagedData_entries M) = size M.
Proof.
  rewrite <- length_map_to_list. unfold ManagedData_entries.
  pose proof (NoDup_fst_map_to_list M) as Hnd.
  induction (map_to_list M) as [|[k v] l IH]; [reflexivity|].
  rewrite fmap_cons in Hnd. apply NoDup_cons in Hnd as [Hk Hnd].
  cbn [foldr fst snd length]. rewrite smap_insert_absent_length.
  - f_equal. apply IH, Hnd.
  - intros v' Hin%elem_of_smap_of_list_inv. apply Hk.
    apply list_elem_of_fmap. exists (k, v'). auto.
Qed.

Lemma List_filter_ext_elem {A : Type} (f g : A -> bool) (l : list A) :
  (forall x, x ∈ l -> f x = g x) -> List.filter f l = List.filter g l.
Proof.
  induction l as [|a l IH]; intros Hfg; [reflexivity|]. cbn [List.filter].
  rewrite (Hfg a) by (apply elem_of_cons; auto).
  rewrite IH; [reflexivity|]. intros x Hx. apply Hfg. apply elem_of_cons. auto.
Qed.

Lemma List_filter_none {A : Type} (f : A -> bool) (l : list A) :
  (forall x, x ∈ l -> f x = false) -> List.filter f l = [].
Proof.
  induction l as [|a l IH]; intros Hf; [reflexivity|]. cbn [List.filter].
  rewrite (Hf a) by (apply elem_of_cons; auto).
  apply IH. intros x Hx. apply Hf. apply elem_of_cons. auto.
Qed.

(** What [AddEntriesToIndex] makes of the managed entries. *)
Lemma AddEntriesToIndex_outcome (fresh : nat -> list Z)
    (fresh_slices : list Z) (m : IndexManager.State) (Index : IndexTable)
    (FirstEditUnit LastEditUnit : Position) :
  IndexManager.DataIsCBR m = false ->
  wf_VBR_IndexTable Index ->
  (forall k s, (k, s) ∈ SegmentMap Index -> k + EntryCount s <= FirstEditUnit) ->
  (forall E e, IndexManager.ManagedData m !! E = Some e ->
     - 2 ^ 63 < E /\ E + 1 < 2 ^ 63) ->
  Z.of_nat (size (IndexManager.ManagedData m)) < 2 ^ 31 ->
  Z.of_nat (slice_stores (Z.to_nat (IndexManager.StreamCount m - 1))
              (IndexManager.ElementSizeList m)) <= NSL Index ->
  let StatusTest := if IndexManager.UsesReordering m then 3 else 1 in
  let complete E e :=
    IndexManager.ManagedData m !! E = Some e /\
    FirstEditUnit <= E <= LastEditUnit /\
    Z.land (IndexManager.Status e) StatusTest = StatusTest in
  let r := IndexManager_AddEntriesToIndex fresh fresh_slices m false Index
             FirstEditUnit LastEditUnit in
  r.2 = [] /\ wf_VBR_IndexTable r.1.1 /\
  r.1.2 = Z.of_nat (length (List.filter
            (fun kv => (FirstEditUnit <=? kv.1)
                       && entry_complete StatusTest LastEditUnit kv)
            (ManagedData_entries (IndexManager.ManagedData m)))) /\
  (forall E e, complete E e ->
     ThisPos (IndexTable_Lookup r.1.1 E 0 false).1 = E /\
     entry_of r.1.1 E
       = (Int64 (UInt64 (default 0 (IndexManager.StreamOffset e !! 0%nat))),
          Int8 (IndexManager.KeyOffset e), UInt8 (IndexManager.Flags e))) /\
  (forall E k s, (k, s) ∈ SegmentMap Index -> contains s E ->
     entry_of r.1.1 E = entry_of Index E) /\
  (forall E k s, (k, s) ∈ SegmentMap r.1.1 -> contains s E ->
     (exists k0 s0, (k0, s0) ∈ SegmentMap Index /\ contains s0 E) \/
     exists e, complete E e).
Proof.
  intros Hvbr HT Hends Hkeys Hsize Hslots StatusTest complete r.
  set (M := IndexManager.ManagedData m) in *.
  set (entries := ManagedData_entries M).
  pose proof (ManagedData_entries_sorted M) as Hsorted. fold entries in Hsorted.
  pose proof (smap_start_spec entries FirstEditUnit Hsorted) as Hstart.
  cbv zeta in Hstart.
  set (it := if Nat.eqb (smap_find FirstEditUnit entries) (smap_end entries)
             then smap_lower_bound FirstEditUnit entries
             else smap_find FirstEditUnit entries) in *.
  assert (Hentry : forall E e, (E, e) ∈ entries <-> M !! E = Some e)
    by (intros; apply elem_of_ManagedData_entries).
  (* the entries from the iterator on are those at or after the first
     edit unit *)
  assert (Hdrop : forall E e, (E, e) ∈ drop it entries
                              <-> M !! E = Some e /\ FirstEditUnit <= E).
  { intros E e. rewrite <- Hentry. split.
    - intros [j Hj]%list_elem_of_lookup. rewrite lookup_drop in Hj.
      split; [apply list_elem_of_lookup; eauto|].
      apply (Hstart _ _ _ Hj). lia.
    - intros [[j Hj]%list_elem_of_lookup HE].
      apply (Hstart _ _ _ Hj) in HE. apply list_elem_of_lookup.
      exists (j - it)%nat. rewrite lookup_drop. rewrite <- Hj. f_equal. lia. }
  assert (Hcount : List.filter
            (fun kv => (FirstEditUnit <=? kv.1)
                       && entry_complete StatusTest LastEditUnit kv) entries
          = List.filter (entry_complete StatusTest LastEditUnit)
              (drop it entries)).
  { rewrite <- (take_drop it entries) at 1. rewrite List.filter_app.
    rewrite List_filter_none.
    - apply List_filter_ext_elem. intros [E e] [_ HE]%Hdrop. cbn [fst].
      rewrite (proj2 (Z.leb_le _ _) HE). reflexivity.
    - intros [E e] [j Hj]%list_elem_of_lookup. cbn [fst].
      apply lookup_take_Some in Hj as [Hj Hlt].
      destruct (Z.leb_spec FirstEditUnit E) as [HE|]; [|reflexivity].
      apply (Hstart _ _ _ Hj) in HE. lia. }
  (* when nothing is added *)
  assert (Hnothing :
    (forall E e, M !! E = Some e -> FirstEditUnit <= E -> LastEditUnit < E) ->
    (Index, 0, @nil ManagerMessage).2 = [] /\
    wf_VBR_IndexTable (Index, 0, @nil ManagerMessage).1.1 /\
    (Index, 0, @nil ManagerMessage).1.2
      = Z.of_nat (length (List.filter
            (fun kv => (FirstEditUnit <=? kv.1)
                       && entry_complete StatusTest LastEditUnit kv) entries)) /\
    (forall E e, complete E e ->
       ThisPos (IndexTable_Lookup (Index, 0, @nil ManagerMessage).1.1 E 0
                  false).1 = E /\
       entry_of (Index, 0, @nil ManagerMessage).1.1 E
         = (Int64 (UInt64 (default 0 (IndexManager.StreamOffset e !! 0%nat))),
            Int8 (IndexManager.KeyOffset e), UInt8 (IndexManager.Flags e))) /\
    (forall E k s, (k, s) ∈ SegmentMap Index -> contains s E ->
       entry_of (Index, 0, @nil ManagerMessage).1.1 E = entry_of Index E) /\
    (forall E k s, (k, s) ∈ SegmentMap (Index, 0, @nil ManagerMessage).1.1 ->
       contains s E ->
       (exists k0 s0, (k0, s0) ∈ SegmentMap Index /\ contains s0 E) \/
       exists e, complete E e)).
  { intros Hout. cbn [fst snd]. split; [reflexivity|]. split; [exact HT|].
    split; [|split; [|split]].
    - rewrite Hcount, List_filter_none; [reflexivity|].
      intros [E e] [HM HE]%Hdrop. unfold entry_complete. cbn [fst snd].
      specialize (Hout _ _ HM HE).
      destruct (Z.leb_spec E LastEditUnit); [lia|reflexivity].
    - intros E e (HM & [HE1 HE2] & _). specialize (Hout _ _ HM HE1). lia.
    - reflexivity.
    - eauto. }
  subst r. unfold IndexManager_AddEntriesToIndex. rewrite Hvbr. cbv zeta.
  fold M. fold entries. fold it. unfold smap_deref.
  destruct (entries !! it) as [[first e0]|] eqn:Hit.
  - destruct (Z.gtb_spec first LastEditUnit) as [Hgt|Hle].
    + (* the first entry at or after the first edit unit is beyond the
         last *)
      apply Hnothing. intros E e HM HE.
      assert (Hin : (E, e) ∈ drop it entries) by (apply Hdrop; auto).
      apply list_elem_of_lookup in Hin as [j Hj]. rewrite lookup_drop in Hj.
      destruct j as [|j].
      * rewrite Nat.add_0_r, Hit in Hj. injection Hj as <- <-. lia.
      * pose proof (smap_sorted_lookup_lt entries it (it + S j) _ _ _ _
                      Hsorted ltac:(lia) Hit Hj). lia.
    + pose proof HT as (Hwf & HvbrT & Hnpe & Hnsl & _).
      rewrite andb_false_r, Hnpe, (Int32_small (NSL Index)) by lia.
      change (negb (Int32 0 =? 0)) with false. cbv iota.
      destruct (AddEntries_loop_spec fresh m LastEditUnit StatusTest
                  (NSL Index) (drop it entries) Index
                  (resize (Z.to_nat (NSL Index)) 0 fresh_slices) 0%nat 0 []
                  FirstEditUnit)
        as (T' & Hrun & HT' & _ & Hold & Hnew & Honly).
      * apply smap_sorted_drop, Hsorted.
      * intros k e [HM HE]%Hdrop. destruct (Hkeys _ _ HM). auto.
      * exact HT.
      * reflexivity.
      * exact Hends.
      * lia.
      * rewrite length_drop.
        pose proof (ManagedData_entries_length M). fold entries in H. lia.
      * rewrite length_resize. lia.
      * fold StatusTest. rewrite Hrun. cbn [fst snd].
        split; [reflexivity|]. split; [exact HT'|].
        split; [rewrite Hcount; lia|]. split; [|split].
        -- intros E e (HM & [HE1 HE2] & Hc).
           destruct (Hnew E e) as (Hval & k' & s' & Hin' & Hcon').
           { apply Hdrop. auto. }
           { unfold entry_complete. cbn [fst snd].
             rewrite (proj2 (Z.leb_le _ _) HE2), Hc, Z.eqb_refl. reflexivity. }
           split; [|exact Hval].
           destruct HT' as (Hwf' & Hvbr' & _).
           destruct (IndexTable_Lookup_entry T' Hwf' E k' s' Hvbr' Hin' Hcon')
             as (HP & _). exact HP.
        -- intros E k s Hin Hcon. apply (Hold E k s Hin Hcon).
        -- intros E k s Hin Hcon.
           destruct (Honly E k s Hin Hcon) as [|(e & [HM HE]%Hdrop & Hc)];
             [auto|].
           right. exists e. unfold entry_complete in Hc. cbn [fst snd] in Hc.
           apply andb_true_iff in Hc as [HL%Z.leb_le Hc%Z.eqb_eq].
           split; [exact HM|]. split; [lia|exact Hc].
  - (* every entry is before the first edit unit *)
    apply Hnothing. intros E e HM HE. exfalso.
    assert (Hin : (E, e) ∈ drop it entries) by (apply Hdrop; auto).
    apply list_elem_of_lookup in Hin as [j Hj]. rewrite lookup_drop in Hj.
    apply lookup_ge_None in Hit. apply lookup_lt_Some in Hj. lia.
Qed.

(** X13. From the manager to the index table.  For a VBR manager and a
    well-formed VBR table without PosTable that ends at or before
    [FirstEditUnit] and has a slice offset for every store the slice
    loop makes (one for each VBR stream but the last), so that no store
    leaves [SliceOffsets] and no read leaves the arrays of the manager,
    [AddEntriesToIndex] without undoing re-ordering
    reports nothing, keeps the table well-formed, and returns the
    number of managed entries from [FirstEditUnit] to [LastEditUnit]
    that are complete (stream offset set, and temporal offset too when
    re-ordering is in use).  Each of these is then found by a look-up of
    its edit unit, with the stream offset of stream 0, the key offset
    and the flags of the entry.  What the table held before is found as
    before, and no other edit unit has got an entry. *)
Theorem AddEntriesToIndex_Lookup (fresh : nat -> list Z)
    (fresh_slices : list Z) (m : IndexManager.State) (Index : IndexTable)
    (FirstEditUnit LastEditUnit : Position) :
  IndexManager.DataIsCBR m = false ->
  wf_VBR_IndexTable Index ->
  (forall k s, (k, s) ∈ SegmentMap Index -> k + EntryCount s <= FirstEditUnit) ->
  (forall E e, IndexManager.ManagedData m !! E = Some e ->
     - 2 ^ 63 < E /\ E + 1 < 2 ^ 63) ->
  Z.of_nat (size (IndexManager.ManagedData m)) < 2 ^ 31 ->
  streams_in_range m ->
  Z.of_nat (slice_stores (Z.to_nat (IndexManager.StreamCount m - 1))
              (IndexManager.ElementSizeList m)) <= NSL Index ->
  let StatusTest := if IndexManager.UsesReordering m then 3 else 1 in
  let complete E e :=
    IndexManager.ManagedData m !! E = Some e /\
    FirstEditUnit <= E <= LastEditUnit /\
    Z.land (IndexManager.Status e) StatusTest = StatusTest in
  let r := IndexManager_AddEntriesToIndex fresh fresh_slices m false Index
             FirstEditUnit LastEditUnit in
  r.2 = [] /\ wf_VBR_IndexTable r.1.1 /\
  r.1.2 = Z.of_nat (length (List.filter
            (fun kv => (FirstEditUnit <=? kv.1)
                       && entry_complete StatusTest LastEditUnit kv)
            (ManagedData_entries (IndexManager.ManagedData m)))) /\
  (forall E e, complete E e ->
     ThisPos (IndexTable_Lookup r.1.1 E 0 false).1 = E /\
     entry_of r.1.1 E
       = (Int64 (UInt64 (default 0 (IndexManager.StreamOffset e !! 0%nat))),
          Int8 (IndexManager.KeyOffset e), UInt8 (IndexManager.Flags e))) /\
  (forall E k s, (k, s) ∈ SegmentMap Index -> contains s E ->
     entry_of r.1.1 E = entry_of Index E) /\
  (forall E k s, (k, s) ∈ SegmentMap r.1.1 -> contains s E ->
     (exists k0 s0, (k0, s0) ∈ SegmentMap Index /\ contains s0 E) \/
     exists e, complete E e).
Proof.
  intros Hvbr HT Hends Hkeys Hsize _ Hslots.
  exact (AddEntriesToIndex_outcome fresh fresh_slices m Index FirstEditUnit
           LastEditUnit Hvbr HT Hends Hkeys Hsize Hslots).
Qed.

(** Edit units 0 and 1 of a manager of two VBR streams go to an empty
    table with one slice offset per entry; edit unit 1 is then found at
    stream offset 1000. *)
Lemma AddEntriesToIndex_Lookup_witness :
  let r := IndexManager_AddEntriesToIndex (fun _ => []) []
             example_manager_sliced false example_sliced_table 0 10 in
  r.2 = [] /\ r.1.2 = 2 /\ entry_of r.1.1 1 = (1000, -1, 0).
Proof.
  intros r.
  destruct (AddEntriesToIndex_Lookup (fun _ => []) [] example_manager_sliced
              example_sliced_table 0 10) as (Hmsg & _ & Hret & Hnew & _).
  - reflexivity.
  - unfold wf_VBR_IndexTable, wf_IndexTable, example_sliced_table.
    cbn [SegmentMap IndexEntrySize EditUnitByteCount NPE NSL].
    split; [|split; [reflexivity|split; [reflexivity|split; [lia|split; [lia|]]]]].
    + split; [lia|]. split; [constructor|].
      split; [intros k s []%elem_of_nil|intros k1 s1 k2 s2 []%elem_of_nil].
    + intros k s []%elem_of_nil.
  - intros k s []%elem_of_nil.
  - apply map_Forall_lookup. apply (bool_decide_unpack _). vm_compute. exact I.
  - vm_compute. reflexivity.
  - split; [vm_compute; discriminate|]. split; [vm_compute; discriminate|].
    apply map_Forall_lookup. apply (bool_decide_unpack _). vm_compute. exact I.
  - vm_compute. discriminate.
  - fold r in Hmsg, Hret, Hnew. split; [exact Hmsg|].
    split; [rewrite Hret; vm_compute; reflexivity|].
    destruct (Hnew 1 (IndexManager.mkIndexData 1 0 (-1) 0 0 [1000; 1200]))
      as (_ & Hval).
    + split; [vm_compute; reflexivity|]. split; [lia|reflexivity].
    + rewrite Hval. reflexivity.
Defined.

Lemma size_t_small (z : Z) : 0 <= z < 2 ^ 64 -> size_t z = z.
Proof. intros Hz. unfold size_t, wrap_unsigned. apply Z.mod_small. exact Hz. Qed.


Section MPEG2_essence_facts.

Variable ReadInternal : ESP_Cache -> Z -> ESP_Cache.
Variables (Size MaxSize : Z).
Hypothesis HSize : 0 <= Size.
Hypothesis HMaxSize : 0 <= MaxSize.

(** A chunk within the limits asked for. *)
Let within (b : Z) : Prop :=
  0 < b /\ (MaxSize <> 0 -> b <= MaxSize) /\ (Size <> 0 -> b <= Size).

(** With bytes remaining, a call hands out some of them and scans
    nothing. *)
Lemma GetEssenceData_remaining (c : ESP_Cache) (s : ESP_EssenceSource) :
  0 < BytesRemaining s < 2 ^ 64 ->
  exists b,
    GetEssenceData ReadInternal c s Size MaxSize
    = (c, mkESP_EssenceSource (BytesRemaining s - b) (AtEndOfData s)
            (RequestedCount s), Some b) /\
    within b /\ b <= BytesRemaining s.
Proof using HSize HMaxSize.
  intros Hr. unfold GetEssenceData.
  destruct (Z.eqb_spec (BytesRemaining s) 0) as [|_]; [lia|].
  cbv iota beta.
  set (b1 := if negb (MaxSize =? 0) && (BytesRemaining s >? MaxSize)
             then MaxSize else BytesRemaining s).
  set (b := if negb (Size =? 0) && (b1 >? Size) then Size else b1).
  assert (Hb1 : 0 < b1 <= BytesRemaining s /\ (MaxSize <> 0 -> b1 <= MaxSize)).
  { subst b1. destruct (Z.eqb_spec MaxSize 0); cbn [negb andb]; [lia|].
    destruct (Z.gtb_spec (BytesRemaining s) MaxSize); lia. }
  assert (Hb : 0 < b <= b1 /\ (Size <> 0 -> b <= Size)).
  { subst b. destruct (Z.eqb_spec Size 0); cbn [negb andb]; [lia|].
    destruct (Z.gtb_spec b1 Size); lia. }
  exists b. rewrite size_t_small by lia.
  split; [reflexivity|]. unfold within. split; lia.
Qed.

Lemma GetEssenceData_drain (fuel : nat) : forall (c : ESP_Cache)
    (s : ESP_EssenceSource),
  0 < BytesRemaining s < 2 ^ 64 ->
  (Z.to_nat (BytesRemaining s) <= fuel)%nat ->
  exists s' chunks,
    GetEssenceData_item ReadInternal fuel c s Size MaxSize
      = Some (c, s', chunks) /\
    total_bytes chunks = BytesRemaining s /\ Forall within chunks /\
    chunks <> [] /\
    BytesRemaining s' = 0 /\ AtEndOfData s' = AtEndOfData s.
Proof using HSize HMaxSize.
  induction fuel as [|fuel IH]; intros c s Hr Hfuel; [lia|].
  destruct (GetEssenceData_remaining c s Hr) as (b & Hcall & Hb & Hle).
  cbn [GetEssenceData_item]. rewrite Hcall. cbn [BytesRemaining].
  destruct (Z.eqb_spec (BytesRemaining s - b) 0) as [Hz|Hnz].
  - eexists _, [b]. split; [reflexivity|]. cbn.
    split; [lia|]. split; [constructor; [exact Hb|constructor]|].
    split; [discriminate|]. split; [exact Hz|reflexivity].
  - pose proof Hb as (Hpos & _).
    destruct (IH c (mkESP_EssenceSource (BytesRemaining s - b) (AtEndOfData s)
                      (RequestedCount s)))
      as (s' & chunks & Hrun & Hsum & Hall & _ & Hend & Hflag);
      cbn [BytesRemaining AtEndOfData] in *; [lia|lia|].
    rewrite Hrun. eexists s', (b :: chunks). split; [reflexivity|].
    cbn [total_bytes foldr]. fold (total_bytes chunks).
    split; [lia|]. split; [constructor; [exact Hb|exact Hall]|].
    split; [discriminate|]. split; [exact Hend|exact Hflag].
Qed.

(** X14. Handing out one edit unit.  When nothing remains of the last
    edit unit, the calls of [GetEssenceData] up to the one that leaves
    nothing to read scan the stream at most once, in the first call,
    and only if no size is cached for the count requested.  When the
    size found is 0 the first call returns NULL and flags the end of
    the data.  Otherwise the chunks asked for add up to the size found,
    each has at least one byte, and none is larger than [MaxSize] or
    [Size] where these are not 0. *)
Theorem GetEssenceData_item_spec (fuel : nat) (c : ESP_Cache)
    (s : ESP_EssenceSource) :
  BytesRemaining s = 0 ->
  let c1 := cached_or_scan ReadInternal c (RequestedCount s) in
  let n := CachedDataSize c1 in
  0 <= n < 2 ^ 64 -> (Z.to_nat n < fuel)%nat ->
  exists s' chunks,
    GetEssenceData_item ReadInternal fuel c s Size MaxSize
      = Some (mkESP_Cache no_cached_size (CachedCount c1), s', chunks) /\
    total_bytes chunks = n /\
    Forall (fun b => 0 < b /\ (MaxSize <> 0 -> b <= MaxSize)
                     /\ (Size <> 0 -> b <= Size)) chunks /\
    BytesRemaining s' = 0 /\
    (n = 0 -> chunks = [] /\ AtEndOfData s' = true) /\
    (0 < n -> chunks <> [] /\ AtEndOfData s' = AtEndOfData s).
Proof using HSize HMaxSize.
  intros Hzero c1 n Hn Hfuel. destruct fuel as [|fuel]; [lia|].
  cbn [GetEssenceData_item].
  destruct (Z.eq_dec n 0) as [Hn0|Hn0].
  - (* nothing more to read *)
    unfold GetEssenceData. rewrite Hzero. cbn [Z.eqb]. fold c1.
    cbn [BytesRemaining]. fold n. rewrite Hn0. cbn [Z.eqb].
    eexists _, []. split; [reflexivity|]. cbn.
    split; [reflexivity|]. split; [constructor|]. split; [reflexivity|].
    split; [auto|lia].
  - (* the first call takes the size from the cache *)
    set (s1 := mkESP_EssenceSource n (AtEndOfData s) (RequestedCount s)).
    set (c2 := mkESP_Cache no_cached_size (CachedCount c1)).
    assert (Hload : GetEssenceData ReadInternal c s Size MaxSize
                    = GetEssenceData ReadInternal c2 s1 Size MaxSize).
    { unfold GetEssenceData at 1. rewrite Hzero. cbn [Z.eqb]. fold c1.
      cbn [BytesRemaining]. fold n.
      destruct (Z.eqb_spec n 0) as [|_]; [contradiction|].
      unfold GetEssenceData. cbn [BytesRemaining s1].
      destruct (Z.eqb_spec n 0) as [|_]; [contradiction|]. reflexivity. }
    rewrite Hload.
    destruct (GetEssenceData_drain (S fuel) c2 s1)
      as (s' & chunks & Hrun & Hsum & Hall & Hne & Hend & Hflag);
      cbn [BytesRemaining s1]; [lia|lia|].
    cbn [GetEssenceData_item] in Hrun. rewrite Hrun.
    exists s', chunks. split; [reflexivity|]. split; [exact Hsum|].
    split; [exact Hall|]. split; [exact Hend|]. split; [lia|].
    intros _. split; [exact Hne|exact Hflag].
Qed.

End MPEG2_essence_facts.

Lemma total_bytes_app (l1 l2 : list Z) :
  total_bytes (l1 ++ l2) = total_bytes l1 + total_bytes l2.
Proof.
  unfold total_bytes. induction l1 as [|a l1 IH]; simpl; [reflexivity|].
  rewrite IH. lia.
Qed.

Lemma total_bytes_replicate (n : nat) (b : Z) :
  total_bytes (replicate n b) = Z.of_nat n * b.
Proof.
  unfold total_bytes. induction n as [|n IH]; [reflexivity|].
  cbn [replicate foldr]. rewrite IH. lia.
Qed.

(** The loop of [Write] transfers whole buffers and then the rest. *)
Lemma Write_chunks_spec (fuel : nat) : forall n : Z,
  0 <= n < 2 ^ 64 -> (Z.to_nat (n / 32768) < fuel)%nat ->
  Write_chunks fuel n
  = Some (replicate (Z.to_nat (n / 32768)) 32768
          ++ (if n mod 32768 =? 0 then [] else [n mod 32768])).
Proof.
  induction fuel as [|fuel IH]; intros n Hn Hfuel; [lia|].
  cbn [Write_chunks].
  destruct (Z.eqb_spec n 0) as [->|Hn0]; [reflexivity|].
  destruct (Z.ltb_spec n 32768) as [Hlt|Hge].
  - replace (n - n) with 0 by lia. change (size_t 0) with 0.
    assert (Hnil : Write_chunks fuel 0 = Some [])
      by (destruct fuel; reflexivity).
    rewrite Hnil, Z.div_small, Z.mod_small by lia.
    destruct (Z.eqb_spec n 0); [contradiction|]. reflexivity.
  - rewrite size_t_small by lia.
    assert (Hdiv : n / 32768 = (n - 32768) / 32768 + 1).
    { replace n with ((n - 32768) + 1 * 32768) at 1 by lia.
      rewrite Z.div_add by lia. reflexivity. }
    assert (Hmod : n mod 32768 = (n - 32768) mod 32768).
    { replace n with ((n - 32768) + 1 * 32768) at 1 by lia.
      rewrite Z.mod_add by lia. reflexivity. }
    pose proof (Z.div_pos (n - 32768) 32768 ltac:(lia) ltac:(lia)) as Hq.
    rewrite IH by lia. rewrite Hdiv, Hmod.
    rewrite Z2Nat.inj_add by lia. rewrite Nat.add_comm. reflexivity.
Qed.

(** X15. [Write] scans the stream only if no size is cached for the
    count given, clears the cache, and, for a size below 2^63,
    transfers that size and returns it: in whole buffers of 32768
    bytes followed by one chunk for what is left. *)
Theorem MPEG2_Write_spec (ReadInternal : ESP_Cache -> Z -> ESP_Cache)
    (fuel : nat) (c : ESP_Cache) (Count : Z) :
  let c1 := cached_or_scan ReadInternal c Count in
  let n := CachedDataSize c1 in
  0 <= n < 2 ^ 63 -> (Z.to_nat (n / 32768) < fuel)%nat ->
  exists chunks,
    MPEG2_Write ReadInternal fuel c Count
      = Some (mkESP_Cache no_cached_size (CachedCount c1), n, chunks) /\
    chunks = replicate (Z.to_nat (n / 32768)) 32768
             ++ (if n mod 32768 =? 0 then [] else [n mod 32768]) /\
    total_bytes chunks = n /\
    Forall (fun b => 0 < b <= 32768) chunks.
Proof.
  intros c1 n Hn Hfuel. unfold MPEG2_Write. fold c1. fold n.
  rewrite Write_chunks_spec by lia. rewrite Int64_small by lia.
  eexists. split; [reflexivity|]. split; [reflexivity|].
  pose proof (Z.div_mod n 32768 ltac:(lia)) as Hdm.
  pose proof (Z.mod_pos_bound n 32768 ltac:(lia)) as Hmb.
  pose proof (Z.div_pos n 32768 ltac:(lia) ltac:(lia)) as Hq.
  split.
  - rewrite total_bytes_app, total_bytes_replicate, Z2Nat.id by lia.
    destruct (Z.eqb_spec (n mod 32768) 0); cbn; lia.
  - apply Forall_app. split.
    + apply Forall_replicate. lia.
    + destruct (Z.eqb_spec (n mod 32768) 0); constructor; [lia|constructor].
Qed.

(** An edit unit of 70000 bytes is cached; it is written in two whole
    buffers and a chunk of 4464 bytes. *)
Lemma MPEG2_Write_spec_witness :
  MPEG2_Write (fun c _ => c) 3 (mkESP_Cache 70000 1) 1
  = Some (mkESP_Cache no_cached_size 1, 70000, [32768; 32768; 4464]).
Proof.
  destruct (MPEG2_Write_spec (fun c _ => c) 3 (mkESP_Cache 70000 1) 1)
    as (chunks & Hrun & -> & _).
  - vm_compute. split; [discriminate|reflexivity].
  - vm_compute. lia.
  - exact Hrun.
Defined.

(** An edit unit of 1000 bytes, read 400 bytes at a time. *)
Lemma GetEssenceData_item_spec_witness :
  exists s' chunks,
    GetEssenceData_item (fun c _ => c) 1001 (mkESP_Cache 1000 1)
      (mkESP_EssenceSource 0 false 1) 400 0
    = Some (mkESP_Cache no_cached_size 1, s', chunks) /\
    total_bytes chunks = 1000.
Proof.
  destruct (GetEssenceData_item_spec (fun c _ => c) 400 0 ltac:(lia) ltac:(lia)
              1001 (mkESP_Cache 1000 1) (mkESP_EssenceSource 0 false 1))
    as (s' & chunks & Hrun & Hsum & _).
  - reflexivity.
  - vm_compute. split; [discriminate|reflexivity].
  - vm_compute. lia.
  - exists s', chunks. split; [exact Hrun|exact Hsum].
Defined.

(** X16. The index details of a picture.  When the anchor frame is not
    after the picture and not more than 2^31 pictures before it, the
    anchor offset offered to the index manager fits a signed byte: it
    is the distance back to the anchor frame when that is at most 128,
    and otherwise 127, with bit 2 of the flags set to mark it.  The
    flags fit an unsigned byte, bit 7 (random access) is set only
    together with bit 6 (sequence header) and only then is the picture
    an edit point.  A picture that is not of type P or B becomes the
    anchor frame, at offset 0; otherwise the anchor frame is kept. *)
Theorem picture_index_details_spec (p : PictureScan) (SeqHead : bool)
    (PictureData : Z) :
  0 <= PictureData < 2 ^ 16 ->
  - 2 ^ 63 < ScanPictureNumber p ->
  ScanPictureNumber p - 2 ^ 31 < AnchorFrame p <= ScanPictureNumber p ->
  let p' := (picture_index_details p SeqHead PictureData).1 in
  let o := (picture_index_details p SeqHead PictureData).2 in
  let PictureType := Z.land (Z.shiftr PictureData 3) 7 in
  let back := ScanPictureNumber p - AnchorFrame p' in
  (- 2 ^ 7 <= OfferedAnchorOffset o < 2 ^ 7) /\
  (back <= 128 ->
     OfferedAnchorOffset o = - back /\ Z.testbit (OfferedFlags o) 2 = false) /\
  (128 < back ->
     OfferedAnchorOffset o = 127 /\ Z.testbit (OfferedFlags o) 2 = true) /\
  (0 <= OfferedFlags o < 2 ^ 8) /\
  (Z.testbit (OfferedFlags o) 7 = SeqHead && ClosedGOP p) /\
  (Z.testbit (OfferedFlags o) 6 = SeqHead) /\
  (OfferedEditPoint o = SeqHead && ClosedGOP p) /\
  (AnchorFrame p' = if (PictureType =? 2) || (PictureType =? 3)
                    then AnchorFrame p else ScanPictureNumber p) /\
  (AnchorFrame p' <= ScanPictureNumber p') /\
  OfferedEditUnit o = ScanPictureNumber p.
Proof.
  intros HPD HPN Hanchor. cbv zeta.
  unfold picture_index_details.
  set (PictureType := Z.land (Z.shiftr PictureData 3) 7).
  set (place := if GOP_place_eqb (GOP_place p) GOP_start && (PictureType =? 1)
                then GOP_first_I else _).
  clearbody place.
  assert (Hoff : forall A, ScanPictureNumber p - 2 ^ 31 < A <= ScanPictureNumber p ->
            Int32 (Int64 (A - ScanPictureNumber p)) = A - ScanPictureNumber p).
  { intros A HA. rewrite Int64_small by lia. apply Int32_small. lia. }
  destruct (Z.eqb_spec PictureType 2) as [H2|H2];
    [|destruct (Z.eqb_spec PictureType 3) as [H3|H3]];
    cbn [orb];
    [| destruct (ClosedGOP p && GOP_place_eqb place GOP_consec_B) |];
    destruct SeqHead; destruct (ClosedGOP p); cbn [andb];
    rewrite Hoff by lia;
    match goal with
    | |- context [?A - ScanPictureNumber p <? -128] =>
        destruct (Z.ltb_spec (A - ScanPictureNumber p) (-128))
    end;
    cbn [fst snd AnchorFrame ScanPictureNumber OfferedAnchorOffset OfferedFlags
         OfferedEditPoint OfferedEditUnit];
    (split; [lia|];
     split; [intros Hb; first [exfalso; lia|split; [lia|reflexivity]]|];
     split; [intros Hb; first [exfalso; lia|split; reflexivity]|];
     split; [vm_compute; split; [discriminate|reflexivity]|];
     split; [reflexivity|]; split; [reflexivity|];
     split; [reflexivity|]; split; [reflexivity|]; split; [lia|reflexivity]).
Qed.

(** Picture 12, a B picture two pictures after its anchor frame. *)
Lemma picture_index_details_spec_witness :
  OfferedAnchorOffset
    (picture_index_details (mkPictureScan GOP_first_I true 10 12 2) false 88).2
  = -2.
Proof.
  destruct (picture_index_details_spec
              (mkPictureScan GOP_first_I true 10 12 2) false 88)
    as (_ & Hnear & _).
  - lia.
  - simpl. lia.
  - simpl. lia.
  - destruct Hnear as [Hoff _]; [vm_compute; discriminate|].
    rewrite Hoff. reflexivity.
Defined.

Lemma byte_at_write_bytes_inside bs : forall d p i,
  0 <= p -> p + Z.of_nat (length bs) <= Z.of_nat (length d) ->
  0 <= i < Z.of_nat (length bs) ->
  byte_at (write_bytes d p bs) (p + i) = default 0 (bs !! Z.to_nat i).
Proof.
  induction bs as [|b bs IH]; intros d p i Hp Hfit Hi; simpl length in *; [lia|].
  simpl. destruct (Z.eq_dec i 0) as [->|Hne].
  - rewrite Z.add_0_r, byte_at_write_bytes_outside by lia.
    rewrite byte_at_poke_eq by lia. reflexivity.
  - replace (p + i) with (p + 1 + (i - 1)) by lia.
    rewrite IH by (rewrite ?poke_length; lia).
    replace (Z.to_nat i) with (S (Z.to_nat (i - 1))) by lia. reflexivity.
Qed.

Lemma read_bytes_length d p n : length (read_bytes d p n) = n.
Proof. unfold read_bytes. rewrite length_map, length_seq. reflexivity. Qed.

Lemma read_bytes_lookup d p n i :
  (i < n)%nat -> read_bytes d p n !! i = Some (byte_at d (p + Z.of_nat i)).
Proof.
  intros Hi. unfold read_bytes. rewrite list_lookup_fmap.
  rewrite lookup_seq_lt by exact Hi. reflexivity.
Qed.

Lemma byte_at_memmove d dst src n i :
  0 <= dst -> 0 <= n -> dst + n <= Z.of_nat (length d) ->
  0 <= i < n ->
  byte_at (memmove d dst src n) (dst + i) = byte_at d (src + i).
Proof.
  intros Hd Hn Hfit Hi. unfold memmove.
  rewrite byte_at_write_bytes_inside by (rewrite ?read_bytes_length; lia).
  rewrite read_bytes_lookup by lia. simpl. f_equal. lia.
Qed.

Lemma memmove_length d dst src n : length (memmove d dst src n) = length d.
Proof. unfold memmove. apply write_bytes_length. Qed.

Lemma entry_offset_bound (e n s i : Z) :
  0 <= e < n -> 0 <= i < s -> 0 <= e * s + i /\ e * s + i < n * s.
Proof. intros He Hi. split; nia. Qed.

Lemma mul_ge_r (a s : Z) : 0 <= a -> 1 <= s -> a <= a * s.
Proof. intros. nia. Qed.

Section ReorderIndex_facts.

Variable Resize : Z -> list Z -> list Z.
Hypothesis HResize : ReorderIndex.Resize_ok Resize.

(** Making room for an entry: the entry exists afterwards, and every
    entry held before is still held, byte for byte. *)
Lemma ReorderIndex_make_room_spec (R : ReorderIndex.State) (Pos : Z) :
  ReorderIndex.wf R -> ReorderIndex.in_reach R Pos ->
  exists R1 Entry,
    ReorderIndex.make_room Resize R Pos = (R1, Entry) /\
    ReorderIndex.wf R1 /\
    ReorderIndex.IndexEntrySize R1 = ReorderIndex.IndexEntrySize R /\
    Entry = Pos - ReorderIndex.FirstPosition R1 /\
    0 <= Entry < ReorderIndex.EntryCount R1 /\
    ReorderIndex.FirstPosition R1 =
      (if decide (ReorderIndex.IndexEntries R = []) then Pos
       else Z.min (ReorderIndex.FirstPosition R) Pos) /\
    ReorderIndex.EntryCount R1 =
      (if decide (ReorderIndex.IndexEntries R = []) then 1
       else Z.max (ReorderIndex.FirstPosition R + ReorderIndex.EntryCount R)
              (Pos + 1)
            - Z.min (ReorderIndex.FirstPosition R) Pos) /\
    ReorderIndex.CompleteEntryCount R1 =
      (if decide (ReorderIndex.IndexEntries R <> [] /\
                  Pos < ReorderIndex.FirstPosition R /\
                  ReorderIndex.CompleteEntryCount R <> 0)
       then ReorderIndex.CompleteEntryCount R
            + (ReorderIndex.FirstPosition R - Pos)
       else ReorderIndex.CompleteEntryCount R) /\
    Z.of_nat (length (ReorderIndex.IndexEntries R1)) <=
      (if decide (ReorderIndex.IndexEntries R = [])
       then ReorderIndex.IndexEntrySize R
       else Z.of_nat (length (ReorderIndex.IndexEntries R))
            + (Z.abs (Pos - ReorderIndex.FirstPosition R) + 1)
              * ReorderIndex.IndexEntrySize R) /\
    (forall Q, ReorderIndex.has_entry R Q ->
       ReorderIndex.has_entry R1 Q /\
       forall i, 0 <= i < ReorderIndex.IndexEntrySize R ->
         ReorderIndex.entry_byte R1 Q i = ReorderIndex.entry_byte R Q i).
Proof.
  intros Hwf Hreach.
  pose proof HResize as (HRlen & HRkeep).
  destruct R as [d cec ec first s].
  destruct Hwf as (Hs & Hcec & Hlen & Hlt & Hfirst).
  destruct Hreach as (HPos & Hfit).
  cbn [ReorderIndex.IndexEntries ReorderIndex.CompleteEntryCount
       ReorderIndex.EntryCount ReorderIndex.FirstPosition
       ReorderIndex.IndexEntrySize] in *.
  unfold ReorderIndex.make_room.
  cbn [ReorderIndex.IndexEntries ReorderIndex.CompleteEntryCount
       ReorderIndex.EntryCount ReorderIndex.FirstPosition
       ReorderIndex.IndexEntrySize].
  change (2 ^ 31) with 2147483648 in *. change (2 ^ 62) with 4611686018427387904 in *.
  assert (Hecs : 0 <= ec * s) by (apply Z.mul_nonneg_nonneg; lia).
  destruct (decide (d = [])) as [->|Hd].
  - (* the first entry *)
    simpl length in *. change (Z.of_nat 0 =? 0) with true. cbv iota.
    cbn [ReorderIndex.IndexEntries ReorderIndex.CompleteEntryCount
         ReorderIndex.EntryCount ReorderIndex.FirstPosition
         ReorderIndex.IndexEntrySize].
    assert (ec = 0) as -> by nia.
    assert (cec = 0) as -> by lia.
    rewrite Z.sub_diag. change (Int32 (Int64 0)) with 0.
    change (0 >=? 0) with true. cbv iota.
    change (Int32 (0 + 1)) with 1. rewrite Z.mul_1_l.
    rewrite UInt32_small by (change (2 ^ 32) with 4294967296; lia).
    eexists _, 0. split; [reflexivity|].
    cbn [ReorderIndex.IndexEntries ReorderIndex.CompleteEntryCount
         ReorderIndex.EntryCount ReorderIndex.FirstPosition
         ReorderIndex.IndexEntrySize].
    rewrite decide_False by (intros (Hne & _); congruence).
    rewrite HRlen by lia.
    split; [unfold ReorderIndex.wf; cbn; rewrite HRlen by lia; lia|].
    split; [reflexivity|]. split; [lia|]. split; [lia|].
    split; [reflexivity|]. split; [reflexivity|]. split; [reflexivity|].
    split; [lia|].
    intros Q HQ. unfold ReorderIndex.has_entry in HQ. cbn in HQ. lia.
  - assert (Hlen0 : Z.of_nat (length d) <> 0) by (destruct d; [congruence|simpl; lia]).
    destruct Hfit as [?|Hfit]; [congruence|].
    rewrite (proj2 (Z.eqb_neq _ _) Hlen0).
    cbv iota.
    destruct (Z.ltb_spec Pos first) as [Hlt'|Hge].
    + (* an entry before the start *)
      set (D := first - Pos) in *.
      assert (HD : Z.abs (Pos - first) = D) by lia.
      rewrite HD in Hfit.
      assert (HDs : D <= D * s) by (apply mul_ge_r; lia).
      rewrite (Int64_small D) by lia.
      rewrite (Int64_small (D * s)) by lia.
      rewrite (Int32_small D) by lia.
      rewrite (UInt32_small (_ + _)) by (change (2 ^ 32) with 4294967296; lia).
      assert (Hec : ec <= ec * s) by (apply mul_ge_r; lia).
      rewrite (UInt32_small (ec * s)) by (change (2 ^ 32) with 4294967296; lia).
      rewrite (Int32_small (ec + D)) by lia.
      cbn [ReorderIndex.IndexEntries ReorderIndex.CompleteEntryCount
           ReorderIndex.EntryCount ReorderIndex.FirstPosition
           ReorderIndex.IndexEntrySize].
      rewrite Z.sub_diag. change (Int32 (Int64 0)) with 0.
      destruct (Z.geb_spec 0 (ec + D)) as [?|_]; [lia|].
      eexists _, 0. split; [reflexivity|].
      cbn [ReorderIndex.IndexEntries ReorderIndex.CompleteEntryCount
           ReorderIndex.EntryCount ReorderIndex.FirstPosition
           ReorderIndex.IndexEntrySize].
      assert (Hnewlen : Z.of_nat (length (memmove
                 (Resize (Z.of_nat (length d) + D * s) d) (D * s) 0 (ec * s)))
               = Z.of_nat (length d) + D * s)
        by (rewrite memmove_length; apply HRlen; lia).
      split.
      { unfold ReorderIndex.wf.
        cbn [ReorderIndex.IndexEntries ReorderIndex.CompleteEntryCount
             ReorderIndex.EntryCount ReorderIndex.FirstPosition
             ReorderIndex.IndexEntrySize].
        rewrite Hnewlen. change (2 ^ 31) with 2147483648.
        change (2 ^ 62) with 4611686018427387904.
        split; [lia|]. split.
        - destruct (Z.eqb_spec cec 0); [lia|]. rewrite Int32_small by lia. lia.
        - split; [lia|]. split; lia. }
      split; [reflexivity|]. split; [lia|]. split; [lia|].
      split; [lia|]. split; [lia|]. split.
      { destruct (Z.eqb_spec cec 0) as [->|Hne].
        - rewrite decide_False by lia. reflexivity.
        - rewrite decide_True by (split; [exact Hd|split; [exact Hlt'|exact Hne]]).
          rewrite Int32_small by lia. reflexivity. }
      split; [rewrite Hnewlen; lia|].
      intros Q HQ. unfold ReorderIndex.has_entry in *.
      cbn [ReorderIndex.IndexEntries ReorderIndex.CompleteEntryCount
           ReorderIndex.EntryCount ReorderIndex.FirstPosition
           ReorderIndex.IndexEntrySize] in *.
      split; [lia|]. intros i Hi. unfold ReorderIndex.entry_byte.
      cbn [ReorderIndex.IndexEntries ReorderIndex.CompleteEntryCount
           ReorderIndex.EntryCount ReorderIndex.FirstPosition
           ReorderIndex.IndexEntrySize].
      pose proof (entry_offset_bound (Q - first) ec s i ltac:(lia) Hi) as (Hlo & Hhi).
      replace ((Q - Pos) * s + i) with (D * s + ((Q - first) * s + i))
        by (unfold D; ring).
      rewrite byte_at_memmove by (rewrite ?HRlen by lia; lia).
      rewrite Z.add_0_l. apply HRkeep; lia.
    + (* at or after the start *)
      cbn [ReorderIndex.IndexEntries ReorderIndex.CompleteEntryCount
           ReorderIndex.EntryCount ReorderIndex.FirstPosition
           ReorderIndex.IndexEntrySize].
      set (E := Pos - first) in *.
      assert (HE : Z.abs E = E) by lia. rewrite HE in Hfit.
      assert (HEs : E <= E * s) by (apply mul_ge_r; lia).
      rewrite (Int64_small E) by lia. rewrite (Int32_small E) by lia.
      assert (Hmin : Z.min first Pos = first) by lia.
      destruct (Z.geb_spec E ec) as [Hout|Hin].
      * rewrite (Int32_small (E + 1)) by lia.
        rewrite (UInt32_small (_ * _)) by (change (2 ^ 32) with 4294967296; lia).
        eexists _, E. split; [reflexivity|].
        cbn [ReorderIndex.IndexEntries ReorderIndex.CompleteEntryCount
             ReorderIndex.EntryCount ReorderIndex.FirstPosition
             ReorderIndex.IndexEntrySize].
        split.
        { unfold ReorderIndex.wf.
          cbn [ReorderIndex.IndexEntries ReorderIndex.CompleteEntryCount
               ReorderIndex.EntryCount ReorderIndex.FirstPosition
               ReorderIndex.IndexEntrySize].
          rewrite HRlen by lia. change (2 ^ 31) with 2147483648.
          change (2 ^ 62) with 4611686018427387904. lia. }
        split; [reflexivity|]. split; [reflexivity|]. split; [lia|].
        split; [lia|]. split; [lia|]. split; [rewrite decide_False by lia; reflexivity|].
        split; [rewrite HRlen by lia; lia|].
        intros Q HQ. unfold ReorderIndex.has_entry in *.
        cbn [ReorderIndex.IndexEntries ReorderIndex.CompleteEntryCount
             ReorderIndex.EntryCount ReorderIndex.FirstPosition
             ReorderIndex.IndexEntrySize] in *.
        split; [lia|]. intros i Hi. unfold ReorderIndex.entry_byte.
        cbn [ReorderIndex.IndexEntries ReorderIndex.CompleteEntryCount
             ReorderIndex.EntryCount ReorderIndex.FirstPosition
             ReorderIndex.IndexEntrySize].
        pose proof (entry_offset_bound (Q - first) ec s i ltac:(lia) Hi) as (Hlo & Hhi).
        assert (ec * s <= (E + 1) * s) by (apply Z.mul_le_mono_nonneg_r; lia).
        apply HRkeep; lia.
      * eexists _, E. split; [reflexivity|].
        cbn [ReorderIndex.IndexEntries ReorderIndex.CompleteEntryCount
             ReorderIndex.EntryCount ReorderIndex.FirstPosition
             ReorderIndex.IndexEntrySize].
        split.
        { unfold ReorderIndex.wf.
          cbn [ReorderIndex.IndexEntries ReorderIndex.CompleteEntryCount
               ReorderIndex.EntryCount ReorderIndex.FirstPosition
               ReorderIndex.IndexEntrySize].
          change (2 ^ 31) with 2147483648.
          change (2 ^ 62) with 4611686018427387904. lia. }
        split; [reflexivity|]. split; [reflexivity|]. split; [lia|].
        split; [lia|]. split; [lia|]. split; [rewrite decide_False by lia; reflexivity|].
        split; [lia|].
        intros Q HQ. split; [exact HQ|]. intros i Hi. reflexivity.
Qed.

End ReorderIndex_facts.

Section ReorderIndex_entries.

Variable Resize : Z -> list Z -> list Z.
Hypothesis HResize : ReorderIndex.Resize_ok Resize.

Lemma ReorderIndex_make_room_extended (R : ReorderIndex.State) (Pos : Z) :
  ReorderIndex.wf R -> ReorderIndex.in_reach R Pos ->
  exists R1,
    ReorderIndex.make_room Resize R Pos
      = (R1, Pos - ReorderIndex.FirstPosition R1) /\
    ReorderIndex.extended R Pos R1 /\
    ReorderIndex.CompleteEntryCount R1 = ReorderIndex.moved_complete R Pos /\
    (forall Q, ReorderIndex.has_entry R Q ->
       ReorderIndex.has_entry R1 Q /\
       forall i, 0 <= i < ReorderIndex.IndexEntrySize R ->
         ReorderIndex.entry_byte R1 Q i = ReorderIndex.entry_byte R Q i).
Proof.
  intros Hwf Hreach.
  destruct (ReorderIndex_make_room_spec Resize HResize R Pos Hwf Hreach)
    as (R1 & Entry & Hrun & Hwf1 & Hs & HE & Hin & Hfirst & Hec & Hcec & Hlen & Hkeep).
  exists R1. subst Entry. split; [exact Hrun|].
  split; [|split; [exact Hcec|exact Hkeep]].
  unfold ReorderIndex.extended, ReorderIndex.has_entry.
  split; [exact Hwf1|]. split; [exact Hs|]. split; [lia|].
  split; [exact Hfirst|]. split; [exact Hec|exact Hlen].
Qed.

(** The bytes [SetEntry] writes into an entry at offset [p] of a chunk
    that holds the whole entry. *)
Lemma SetEntry_bytes (d : list Z) (p s Flags AnchorOffset : Z)
    (Tables : option (list Z)) :
  0 <= p -> 11 <= s -> p + s <= Z.of_nat (length d) ->
  (forall t, Tables = Some t -> s - 11 <= Z.of_nat (length t)) ->
  let d1 := poke d (p + 1) (UInt8 AnchorOffset) in
  let d2 := poke d1 (p + 2) (UInt8 Flags) in
  let d3 := write_bytes d2 (p + 3) (replicate 8 0) in
  let d4 :=
    match Tables with
    | Some t =>
        if s >? 11 then write_bytes d3 (p + 11) (take (Z.to_nat (s - 11)) t)
        else d3
    | None => d3
    end in
  length d4 = length d /\
  byte_at d4 (p + 1) = UInt8 AnchorOffset /\
  byte_at d4 (p + 2) = UInt8 Flags /\
  GetU64 d4 (p + 3) = 0 /\
  (forall t, Tables = Some t ->
     read_bytes d4 (p + 11) (Z.to_nat (s - 11)) = take (Z.to_nat (s - 11)) t) /\
  (Tables = None -> forall q, p + 11 <= q -> byte_at d4 q = byte_at d q) /\
  (forall q, q < p + 1 \/ p + s <= q -> byte_at d4 q = byte_at d q).
Proof.
  intros Hp Hs Hfit Ht d1 d2 d3 d4.
  assert (Hl3 : length d3 = length d)
    by (unfold d3, d2, d1; rewrite write_bytes_length, !poke_length; reflexivity).
  assert (H3 : forall q, q < p + 1 \/ p + 11 <= q -> byte_at d3 q = byte_at d q).
  { intros q Hq. unfold d3, d2, d1.
    rewrite byte_at_write_bytes_outside by (simpl; lia).
    rewrite !byte_at_poke_ne by lia. reflexivity. }
  assert (H31 : byte_at d3 (p + 1) = UInt8 AnchorOffset).
  { unfold d3, d2, d1. rewrite byte_at_write_bytes_outside by (simpl; lia).
    rewrite byte_at_poke_ne by lia. apply byte_at_poke_eq. lia. }
  assert (H32 : byte_at d3 (p + 2) = UInt8 Flags).
  { unfold d3, d2, d1. rewrite byte_at_write_bytes_outside by (simpl; lia).
    apply byte_at_poke_eq. rewrite poke_length. lia. }
  assert (H33 : read_bytes d3 (p + 3) 8 = replicate 8 0).
  { unfold d3. apply (read_bytes_write_bytes (replicate 8 0)); [lia|].
    unfold d2, d1. rewrite !poke_length. simpl. lia. }
  assert (Hout : forall q, q < p + 11 \/ p + s <= q -> byte_at d4 q = byte_at d3 q).
  { intros q Hq. unfold d4. destruct Tables as [t|]; [|reflexivity].
    destruct (s >? 11); [|reflexivity].
    apply byte_at_write_bytes_outside. rewrite length_take.
    specialize (Ht t eq_refl). lia. }
  split.
  { unfold d4. destruct Tables as [t|]; [|exact Hl3].
    destruct (s >? 11); [|exact Hl3]. rewrite write_bytes_length. exact Hl3. }
  split; [rewrite Hout by lia; exact H31|].
  split; [rewrite Hout by lia; exact H32|].
  split.
  { unfold GetU64. rewrite (read_bytes_ext d4 d3) by (intros q Hq; apply Hout; lia).
    rewrite H33. reflexivity. }
  split.
  { intros t ->. specialize (Ht t eq_refl). unfold d4.
    destruct (Z.gtb_spec s 11) as [Hgt|Hle].
    - set (bs := take (Z.to_nat (s - 11)) t).
      assert (Hbs : length bs = Z.to_nat (s - 11))
        by (unfold bs; rewrite length_take; lia).
      rewrite <- Hbs at 1. apply read_bytes_write_bytes; [lia|].
      rewrite Hl3, Hbs. lia.
    - replace (s - 11) with 0 by lia. reflexivity. }
  split.
  { intros -> q Hq. unfold d4. apply H3. lia. }
  intros q Hq. rewrite Hout by lia. apply H3. lia.
Qed.

Lemma entry_before (e1 e2 s i : Z) :
  e1 < e2 -> 0 <= i < s -> e1 * s + i < e2 * s.
Proof. intros. nia. Qed.

Lemma entry_after (e1 e2 s i : Z) :
  e2 < e1 -> 0 <= i -> 0 <= s -> e2 * s + s <= e1 * s + i.
Proof. intros. nia. Qed.

Lemma ReorderIndex_SetEntry_outcome (R : ReorderIndex.State) (Pos : Z)
    (Flags AnchorOffset : Z) (Tables : option (list Z)) :
  ReorderIndex.wf R -> ReorderIndex.in_reach R Pos ->
  (forall t, Tables = Some t ->
     ReorderIndex.IndexEntrySize R - 11 <= Z.of_nat (length t)) ->
  exists R',
    ReorderIndex.SetEntry Resize R Pos Flags AnchorOffset Tables = (R', true) /\
    ReorderIndex.extended R Pos R' /\
    ReorderIndex.CompleteEntryCount R' =
      Z.max (ReorderIndex.moved_complete R Pos)
        (Pos - ReorderIndex.FirstPosition R' + 1) /\
    ReorderIndex.entry_byte R' Pos 1 = UInt8 AnchorOffset /\
    ReorderIndex.entry_byte R' Pos 2 = UInt8 Flags /\
    ReorderIndex.StreamOffset_of R' Pos = 0 /\
    (forall t, Tables = Some t ->
       ReorderIndex.Tables_of R' Pos
         = take (Z.to_nat (ReorderIndex.IndexEntrySize R - 11)) t) /\
    ReorderIndex.entry_byte R' Pos 0
      = ReorderIndex.entry_byte (ReorderIndex.make_room Resize R Pos).1 Pos 0 /\
    (forall Q, ReorderIndex.has_entry R Q ->
       forall i, 0 <= i < ReorderIndex.IndexEntrySize R ->
       Q <> Pos \/ i = 0 \/ (Tables = None /\ 11 <= i) ->
       ReorderIndex.entry_byte R' Q i = ReorderIndex.entry_byte R Q i).
Proof.
  intros Hwf Hreach Ht.
  destruct (ReorderIndex_make_room_extended R Pos Hwf Hreach)
    as (R1 & Hrun & Hext & Hcec & Hkeep).
  unfold ReorderIndex.SetEntry. rewrite Hrun. cbn [fst snd].
  destruct Hext as (Hwf1 & Hs & Hhas & Hfirst & Hec & Hlen).
  pose proof Hwf1 as (Hs1 & Hcec1 & Hlen1 & Hlt1 & Hfirst1).
  unfold ReorderIndex.has_entry in Hhas.
  set (E := Pos - ReorderIndex.FirstPosition R1) in *.
  set (s := ReorderIndex.IndexEntrySize R1) in *.
  change (2 ^ 31) with 2147483648 in *.
  pose proof (entry_offset_bound E (ReorderIndex.EntryCount R1) s 0
                ltac:(lia) ltac:(lia)) as (Hlo & Hhi).
  rewrite Z.add_0_r in Hlo, Hhi.
  assert (HEs : E * s + s <= ReorderIndex.EntryCount R1 * s).
  { replace (E * s + s) with ((E + 1) * s) by ring.
    apply Z.mul_le_mono_nonneg_r; lia. }
  rewrite (UInt32_small (E * s)) by (change (2 ^ 32) with 4294967296; lia).
  rewrite (UInt32_small (s - 11)) by (change (2 ^ 32) with 4294967296; lia).
  destruct (Z.geb_spec E (ReorderIndex.EntryCount R1)) as [?|_]; [lia|].
  destruct (SetEntry_bytes (ReorderIndex.IndexEntries R1) (E * s) s
              Flags AnchorOffset Tables ltac:(lia) ltac:(lia) ltac:(lia))
    as (Hl4 & H41 & H42 & H43 & H4t & H4n & H4o).
  { intros t Heq. rewrite Hs. exact (Ht t Heq). }
  eexists. split; [reflexivity|].
  split.
  { unfold ReorderIndex.extended, ReorderIndex.wf, ReorderIndex.has_entry.
    cbn [ReorderIndex.IndexEntries ReorderIndex.CompleteEntryCount
         ReorderIndex.EntryCount ReorderIndex.FirstPosition
         ReorderIndex.IndexEntrySize].
    rewrite Hl4. fold s. fold E.
    change (2 ^ 31) with 2147483648.
    split.
    { split; [lia|]. split.
      - destruct (Z.geb_spec E (ReorderIndex.CompleteEntryCount R1)).
        + rewrite Int32_small by lia. lia.
        + lia.
      - split; [lia|]. split; [lia|exact Hfirst1]. }
    split; [exact Hs|]. split; [lia|].
    split; [exact Hfirst|]. split; [exact Hec|exact Hlen]. }
  cbn [ReorderIndex.IndexEntries ReorderIndex.CompleteEntryCount
       ReorderIndex.EntryCount ReorderIndex.FirstPosition
       ReorderIndex.IndexEntrySize].
  unfold ReorderIndex.entry_byte, ReorderIndex.StreamOffset_of,
    ReorderIndex.Tables_of.
  cbn [ReorderIndex.IndexEntries ReorderIndex.CompleteEntryCount
       ReorderIndex.EntryCount ReorderIndex.FirstPosition
       ReorderIndex.IndexEntrySize].
  fold s. fold E.
  split.
  { rewrite <- Hcec.
    destruct (Z.geb_spec E (ReorderIndex.CompleteEntryCount R1)).
    - rewrite Int32_small by lia. lia.
    - lia. }
  split; [exact H41|]. split; [exact H42|].
  split; [unfold GetI64; rewrite H43; reflexivity|].
  split.
  { intros t Heq. rewrite <- Hs. fold s. exact (H4t t Heq). }
  split; [rewrite Z.add_0_r; apply H4o; lia|].
  intros Q HQ i Hi Hcase.
  destruct (Hkeep Q HQ) as (HQ1 & Hbytes).
  transitivity (ReorderIndex.entry_byte R1 Q i); [|exact (Hbytes i Hi)].
  unfold ReorderIndex.entry_byte.
  fold s. rewrite <- Hs in Hi.
  unfold ReorderIndex.has_entry in HQ1.
  destruct (Z.lt_total Q Pos) as [Hlt|[Heq|Hgt]].
  - apply H4o. left.
    pose proof (entry_before (Q - ReorderIndex.FirstPosition R1) E s i
                  ltac:(unfold E; lia) Hi). lia.
  - subst Q. fold E. destruct Hcase as [?|[->|(Hnone & Hi11)]]; [congruence| |].
    + apply H4o. lia.
    + apply H4n; [exact Hnone|lia].
  - apply H4o. right.
    pose proof (entry_after (Q - ReorderIndex.FirstPosition R1) E s i
                  ltac:(unfold E; lia) ltac:(lia) ltac:(lia)). lia.
Qed.

Lemma ReorderIndex_SetTemporalOffset_outcome (R : ReorderIndex.State)
    (Pos TemporalOffset : Z) :
  ReorderIndex.wf R -> ReorderIndex.in_reach R Pos ->
  exists R',
    ReorderIndex.SetTemporalOffset Resize R Pos TemporalOffset = (R', true) /\
    ReorderIndex.extended R Pos R' /\
    ReorderIndex.CompleteEntryCount R' = ReorderIndex.moved_complete R Pos /\
    ReorderIndex.entry_byte R' Pos 0 = UInt8 TemporalOffset /\
    (forall Q, ReorderIndex.has_entry R Q ->
       forall i, 0 <= i < ReorderIndex.IndexEntrySize R ->
       Q <> Pos \/ i <> 0 ->
       ReorderIndex.entry_byte R' Q i = ReorderIndex.entry_byte R Q i).
Proof.
  intros Hwf Hreach.
  destruct (ReorderIndex_make_room_extended R Pos Hwf Hreach)
    as (R1 & Hrun & Hext & Hcec & Hkeep).
  unfold ReorderIndex.SetTemporalOffset. rewrite Hrun.
  destruct Hext as (Hwf1 & Hs & Hhas & Hfirst & Hec & Hlen).
  pose proof Hwf1 as (Hs1 & Hcec1 & Hlen1 & Hlt1 & Hfirst1).
  unfold ReorderIndex.has_entry in Hhas.
  set (E := Pos - ReorderIndex.FirstPosition R1) in *.
  set (s := ReorderIndex.IndexEntrySize R1) in *.
  change (2 ^ 31) with 2147483648 in *.
  pose proof (entry_offset_bound E (ReorderIndex.EntryCount R1) s 0
                ltac:(lia) ltac:(lia)) as (Hlo & Hhi).
  rewrite Z.add_0_r in Hlo, Hhi.
  rewrite (UInt32_small (E * s)) by (change (2 ^ 32) with 4294967296; lia).
  eexists. split; [reflexivity|].
  split.
  { unfold ReorderIndex.extended, ReorderIndex.wf, ReorderIndex.has_entry.
    cbn [ReorderIndex.IndexEntries ReorderIndex.CompleteEntryCount
         ReorderIndex.EntryCount ReorderIndex.FirstPosition
         ReorderIndex.IndexEntrySize].
    rewrite poke_length. fold s. fold E. change (2 ^ 31) with 2147483648.
    split; [split; [lia|split; [lia|split; [lia|split; [lia|exact Hfirst1]]]]|].
    split; [exact Hs|]. split; [lia|].
    split; [exact Hfirst|]. split; [exact Hec|exact Hlen]. }
  cbn [ReorderIndex.IndexEntries ReorderIndex.CompleteEntryCount
       ReorderIndex.EntryCount ReorderIndex.FirstPosition
       ReorderIndex.IndexEntrySize].
  split; [exact Hcec|].
  unfold ReorderIndex.entry_byte.
  cbn [ReorderIndex.IndexEntries ReorderIndex.CompleteEntryCount
       ReorderIndex.EntryCount ReorderIndex.FirstPosition
       ReorderIndex.IndexEntrySize].
  fold s. fold E.
  split; [rewrite Z.add_0_r; apply byte_at_poke_eq; lia|].
  intros Q HQ i Hi Hcase.
  destruct (Hkeep Q HQ) as (HQ1 & Hbytes).
  transitivity (ReorderIndex.entry_byte R1 Q i); [|exact (Hbytes i Hi)].
  unfold ReorderIndex.entry_byte. fold s. rewrite <- Hs in Hi.
  unfold ReorderIndex.has_entry in HQ1.
  apply byte_at_poke_ne.
  destruct (Z.lt_total Q Pos) as [Hlt|[Heq|Hgt]].
  - pose proof (entry_before (Q - ReorderIndex.FirstPosition R1) E s i
                  ltac:(unfold E; lia) Hi). lia.
  - subst Q. fold E. destruct Hcase; [congruence|lia].
  - pose proof (entry_after (Q - ReorderIndex.FirstPosition R1) E s i
                  ltac:(unfold E; lia) ltac:(lia) ltac:(lia)). lia.
Qed.

End ReorderIndex_entries.

Lemma ReorderIndex_SetStreamOffset_outcome (R : ReorderIndex.State)
    (Pos StreamOffset : Z) :
  ReorderIndex.wf R -> - 2 ^ 62 < Pos < 2 ^ 62 ->
  (ReorderIndex.has_entry R Pos ->
   exists R',
     ReorderIndex.SetStreamOffset R Pos StreamOffset = (R', true, []) /\
     ReorderIndex.wf R' /\
     ReorderIndex.CompleteEntryCount R' = ReorderIndex.CompleteEntryCount R /\
     ReorderIndex.EntryCount R' = ReorderIndex.EntryCount R /\
     ReorderIndex.FirstPosition R' = ReorderIndex.FirstPosition R /\
     ReorderIndex.IndexEntrySize R' = ReorderIndex.IndexEntrySize R /\
     length (ReorderIndex.IndexEntries R') = length (ReorderIndex.IndexEntries R) /\
     ReorderIndex.StreamOffset_of R' Pos = Int64 (UInt64 StreamOffset) /\
     (forall Q, ReorderIndex.has_entry R Q ->
        forall i, 0 <= i < ReorderIndex.IndexEntrySize R ->
        Q <> Pos \/ i < 3 \/ 11 <= i ->
        ReorderIndex.entry_byte R' Q i = ReorderIndex.entry_byte R Q i)) /\
  (~ ReorderIndex.has_entry R Pos ->
   Pos - ReorderIndex.FirstPosition R < 2 ^ 31 ->
   exists msg, ReorderIndex.SetStreamOffset R Pos StreamOffset = (R, false, [msg])).
Proof.
  intros Hwf HPos.
  pose proof Hwf as (Hs & Hcec & Hlen & Hlt & Hfirst).
  unfold ReorderIndex.has_entry, ReorderIndex.SetStreamOffset.
  change (2 ^ 31) with 2147483648 in *.
  change (2 ^ 62) with 4611686018427387904 in *.
  set (s := ReorderIndex.IndexEntrySize R) in *.
  set (E := Pos - ReorderIndex.FirstPosition R) in *.
  split.
  - intros Hhas.
    destruct (Z.ltb_spec Pos (ReorderIndex.FirstPosition R)) as [?|_]; [lia|].
    pose proof (entry_offset_bound E (ReorderIndex.EntryCount R) s 0
                  ltac:(unfold E; lia) ltac:(lia)) as (Hlo & Hhi).
    rewrite Z.add_0_r in Hlo, Hhi.
    assert (HEs : E * s + s <= ReorderIndex.EntryCount R * s).
    { replace (E * s + s) with ((E + 1) * s) by ring.
      apply Z.mul_le_mono_nonneg_r; unfold E; lia. }
    assert (HEE : E <= E * s) by (apply mul_ge_r; unfold E; lia).
    rewrite (Int64_small E) by lia. rewrite (Int32_small E) by lia.
    destruct (Z.geb_spec E (ReorderIndex.EntryCount R)) as [?|_]; [unfold E in *; lia|].
    rewrite (UInt32_small (E * s)) by (change (2 ^ 32) with 4294967296; lia).
    eexists. split; [reflexivity|].
    unfold ReorderIndex.wf, ReorderIndex.StreamOffset_of, ReorderIndex.entry_byte.
    cbn [ReorderIndex.IndexEntries ReorderIndex.CompleteEntryCount
         ReorderIndex.EntryCount ReorderIndex.FirstPosition
         ReorderIndex.IndexEntrySize].
    unfold PutI64. rewrite write_bytes_length. fold s. fold E.
    change (2 ^ 31) with 2147483648. change (2 ^ 62) with 4611686018427387904.
    split; [lia|]. split; [reflexivity|]. split; [reflexivity|].
    split; [reflexivity|]. split; [reflexivity|]. split; [reflexivity|].
    split.
    { unfold GetI64. f_equal. apply (GetU64_PutU64 _ _ StreamOffset); lia. }
    intros Q HQ i Hi Hcase.
    apply byte_at_write_bytes_outside. rewrite be_encode_length.
    destruct (Z.lt_total Q Pos) as [Hlt'|[Heq|Hgt]].
    + pose proof (entry_before (Q - ReorderIndex.FirstPosition R) E s i
                    ltac:(unfold E; lia) Hi). lia.
    + subst Q. fold E. destruct Hcase as [?|[?|?]]; [congruence|lia|lia].
    + pose proof (entry_after (Q - ReorderIndex.FirstPosition R) E s i
                    ltac:(unfold E; lia) ltac:(lia) ltac:(lia)). lia.
  - intros Hno Hnear.
    destruct (Z.ltb_spec Pos (ReorderIndex.FirstPosition R)) as [?|Hge];
      [eexists; reflexivity|].
    rewrite (Int64_small E) by (unfold E; lia).
    rewrite (Int32_small E) by (unfold E in *; lia).
    destruct (Z.geb_spec E (ReorderIndex.EntryCount R)) as [?|?];
      [eexists; reflexivity|unfold E in *; lia].
Qed.

Lemma DataChunk_Set_append_take (n : nat) (Buffer d : list Z) :
  (n <= length Buffer)%nat ->
  DataChunk_Set n Buffer (length d) d = d ++ take n Buffer.
Proof.
  intros Hn. unfold DataChunk_Set.
  rewrite Nat.sub_diag. simpl. rewrite app_nil_r.
  rewrite (take_ge d) by lia.
  rewrite drop_ge by lia. rewrite app_nil_r. reflexivity.
Qed.

Lemma byte_at_take (n : nat) (d : list Z) (q : Z) :
  q < Z.of_nat n -> byte_at (take n d) q = byte_at d q.
Proof.
  intros Hq. unfold byte_at. destruct (Z.ltb_spec q 0); [reflexivity|].
  rewrite lookup_take_lt by lia. reflexivity.
Qed.

(** Entries appended to the segment that ends at [E]. *)
Section Appended_entries.

Variable T : IndexTable.
Hypothesis Hwf : wf_IndexTable T.
Hypothesis Hvbr : EditUnitByteCount T = 0.
Variables (m' : list (Z * IndexSegment)) (k E n : Z) (s : IndexSegment)
          (Buffer : list Z).

Let s' : IndexSegment :=
  mkIndexSegment (StartPosition s) (DeltaCount s) (DeltaArray s)
    (EntryCount s + n) (IndexEntryArray s ++ Buffer).

Hypothesis Hn : 0 <= n.
Hypothesis Hsorted' : smap_sorted m'.
Hypothesis Hmem : forall k0 s0,
  (k0, s0) ∈ m' <-> (k0, s0) = (k, s') \/ ((k0, s0) ∈ SegmentMap T /\ k0 <> k).
Hypothesis Hseg : wf_segment (IndexEntrySize T) k s.
Hypothesis Hend : k + EntryCount s = E.
Hypothesis Hfit : (EntryCount s + n) * IndexEntrySize T < 2 ^ 31.
Hypothesis HE : E + n < 2 ^ 63.
Hypothesis Hafter : forall k0 s0,
  (k0, s0) ∈ SegmentMap T -> k < k0 -> E + n <= k0.
Hypothesis Hbefore : forall k0 s0,
  (k0, s0) ∈ SegmentMap T -> k0 < k -> k0 + EntryCount s0 <= k.
Hypothesis Hold : forall s0, (k, s0) ∈ SegmentMap T -> s0 = s.
Hypothesis HBlen : Z.of_nat (length Buffer) = n * IndexEntrySize T.

Lemma appended_entries_count : EntryCount s + n < 2 ^ 31.
Proof.
  pose proof Hwf as (Hsize & _). pose proof Hseg as (_ & _ & Hcnt & _).
  pose proof (Z.mul_le_mono_nonneg_l 1 (IndexEntrySize T)
                (EntryCount s + n) ltac:(lia) ltac:(lia)). lia.
Qed.

Lemma appended_entries_wf : wf_IndexTable (with_SegmentMap T m').
Proof.
  pose proof appended_entries_count as Hc.
  pose proof Hwf as (Hsize & Hsorted & Hsegs & Hdisj).
  pose proof Hseg as (Hst & Hlow & Hcnt & Hhigh & Hlen).
  unfold wf_IndexTable. cbn [with_SegmentMap SegmentMap IndexEntrySize].
  split; [exact Hsize|]. split; [exact Hsorted'|]. split.
  - intros k0 s0 [[= -> ->]|[Hin _]]%Hmem; [|auto].
    unfold wf_segment, s'. cbn [StartPosition EntryCount IndexEntryArray].
    rewrite length_app. lia.
  - intros k1 s1 k2 s2 [[= -> ->]|[H1 Hk1]]%Hmem [[= -> ->]|[H2 Hk2]]%Hmem Hlt.
    + lia.
    + unfold s'. cbn [EntryCount]. specialize (Hafter _ _ H2 Hlt). lia.
    + apply Hbefore; assumption.
    + eauto.
Qed.

Lemma appended_entries_elem : (k, s') ∈ SegmentMap (with_SegmentMap T m').
Proof. cbn [with_SegmentMap SegmentMap]. apply Hmem. auto. Qed.

(** A new entry is found under its edit unit. *)
Lemma appended_entries_Lookup_new (Q : Z) :
  E <= Q < E + n ->
  let Ptr := (Q - E) * IndexEntrySize T in
  let Ret := (IndexTable_Lookup (with_SegmentMap T m') Q 0 false).1 in
  contains s' Q /\
  ThisPos Ret = Q /\
  Location Ret = Int64 (GetU64 Buffer (Ptr + 3)) /\
  KeyFrameOffset Ret = GetI8 Buffer (Ptr + 1) /\
  Flags Ret = GetU8 Buffer (Ptr + 2) /\
  TemporalOffset Ret = (if reorders s 0 then GetI8 Buffer Ptr else 0).
Proof.
  intros HQ.
  pose proof Hwf as (Hsize & _).
  pose proof Hseg as (Hst & Hlow & Hcnt & Hhigh & Hlen).
  assert (Hcon : contains s' Q).
  { unfold contains, s'. cbn [StartPosition EntryCount]. lia. }
  destruct (IndexTable_Lookup_entry (with_SegmentMap T m') appended_entries_wf
              Q k s' Hvbr appended_entries_elem Hcon)
    as (HP & HL & HK & HF & HT & _).
  cbn [with_SegmentMap IndexEntrySize] in HL, HK, HF, HT.
  unfold s' in HL, HK, HF, HT. cbn [IndexEntryArray] in HL, HK, HF, HT.
  assert (Hnn : 0 <= (Q - E) * IndexEntrySize T)
    by (apply Z.mul_nonneg_nonneg; lia).
  replace ((Q - k) * IndexEntrySize T)
    with (Z.of_nat (length (IndexEntryArray s)) + (Q - E) * IndexEntrySize T)
    in HL, HK, HF, HT by (rewrite Hlen; subst E; ring).
  cbv zeta. split; [exact Hcon|]. split; [exact HP|].
  split; [|split; [|split]].
  - rewrite HL. f_equal. unfold GetU64. f_equal.
    rewrite <- Z.add_assoc. apply read_bytes_app_r. lia.
  - rewrite HK. unfold GetI8. rewrite <- Z.add_assoc, byte_at_app_r by lia.
    reflexivity.
  - rewrite HF. unfold GetU8. rewrite <- Z.add_assoc, byte_at_app_r by lia.
    reflexivity.
  - rewrite HT.
    change (reorders (mkIndexSegment (StartPosition s) (DeltaCount s)
                        (DeltaArray s) (EntryCount s + n)
                        (IndexEntryArray s ++ Buffer)) 0)
      with (reorders s 0).
    destruct (reorders s 0); [|reflexivity].
    unfold GetI8. rewrite byte_at_app_r by lia. reflexivity.
Qed.

(** The entries the table had are found where they were. *)
Lemma appended_entries_Lookup_old (E' k0 : Z) (s0 : IndexSegment) :
  (k0, s0) ∈ SegmentMap T -> contains s0 E' ->
  let Ret' := (IndexTable_Lookup (with_SegmentMap T m') E' 0 false).1 in
  let Ret := (IndexTable_Lookup T E' 0 false).1 in
  Location Ret' = Location Ret /\ KeyFrameOffset Ret' = KeyFrameOffset Ret /\
  Flags Ret' = Flags Ret /\ TemporalOffset Ret' = TemporalOffset Ret.
Proof.
  intros Hin Hcon.
  destruct (IndexTable_Lookup_entry T Hwf E' k0 s0 Hvbr Hin Hcon)
    as (_ & HL & HK & HF & HT & _).
  cbv zeta. rewrite HL, HK, HF, HT.
  destruct (Z.eq_dec k0 k) as [->|Hne].
  - assert (s0 = s) as -> by (apply Hold; exact Hin).
    assert (Hcon' : contains s' E').
    { unfold contains in *. unfold s'. cbn [StartPosition EntryCount]. lia. }
    destruct (IndexTable_Lookup_entry (with_SegmentMap T m') appended_entries_wf
                E' k s' Hvbr appended_entries_elem Hcon')
      as (_ & HL' & HK' & HF' & HT' & _).
    cbn [with_SegmentMap IndexEntrySize] in HL', HK', HF', HT'.
    unfold s' in HL', HK', HF', HT'. cbn [IndexEntryArray] in HL', HK', HF', HT'.
    change (reorders (mkIndexSegment (StartPosition s) (DeltaCount s)
                        (DeltaArray s) (EntryCount s + n)
                        (IndexEntryArray s ++ Buffer)) 0)
      with (reorders s 0) in HT'.
    destruct (entry_offset_exact T Hwf E' k s Hin Hcon) as (_ & Hp0 & Hp1).
    pose proof Hwf as (Hsize & _).
    rewrite HL', HK', HF', HT'. unfold GetU64, GetI8, GetU8.
    rewrite !byte_at_app_l by lia.
    split; [|auto]. do 2 f_equal. apply read_bytes_ext.
    intros q Hq. apply byte_at_app_l. lia.
  - assert (Hin' : (k0, s0) ∈ SegmentMap (with_SegmentMap T m')).
    { cbn [with_SegmentMap SegmentMap]. apply Hmem. auto. }
    destruct (IndexTable_Lookup_entry (with_SegmentMap T m') appended_entries_wf
                E' k0 s0 Hvbr Hin' Hcon) as (_ & HL' & HK' & HF' & HT' & _).
    auto.
Qed.

End Appended_entries.

Lemma commit_count_range (R : ReorderIndex.State) (Count : Z) :
  0 <= ReorderIndex.CompleteEntryCount R ->
  0 <= commit_count R Count <= ReorderIndex.CompleteEntryCount R.
Proof.
  intros H. unfold commit_count.
  destruct (Z.ltb_spec Count 0); [simpl; lia|].
  destruct (Z.gtb_spec Count (ReorderIndex.CompleteEntryCount R)); simpl; lia.
Qed.

(** What [AddIndexEntries] does with the entries of a [ReorderIndex]. *)
Lemma AddIndexEntries_from_array (T : IndexTable) (s : IndexSegment)
    (n Size : Z) (Entries : list Z) :
  11 <= IndexEntrySize T < 2 ^ 31 -> Size = IndexEntrySize T ->
  0 <= EntryCount s -> 0 <= n ->
  Z.of_nat (length (IndexEntryArray s)) = EntryCount s * IndexEntrySize T ->
  n * IndexEntrySize T <= Z.of_nat (length Entries) ->
  (EntryCount s + n) * IndexEntrySize T < 2 ^ 31 ->
  IndexSegment_AddIndexEntries T s n (Int32 Size) Entries false =
    if (EntryCount s + n) * IndexEntrySize T >? 65535 then (false, s, [])
    else
      (true,
       mkIndexSegment (StartPosition s) (DeltaCount s) (DeltaArray s)
         (EntryCount s + n)
         (IndexEntryArray s
          ++ take (Z.to_nat (n * IndexEntrySize T)) Entries), []).
Proof.
  intros Hsize -> Hcount Hn Hlen HEntries Hint.
  assert (H0 : 0 <= EntryCount s * IndexEntrySize T)
    by (apply Z.mul_nonneg_nonneg; lia).
  assert (H1 : 0 <= n * IndexEntrySize T)
    by (apply Z.mul_nonneg_nonneg; lia).
  assert (Hsum : (EntryCount s + n) * IndexEntrySize T
                 = EntryCount s * IndexEntrySize T + n * IndexEntrySize T) by lia.
  assert (Hc : EntryCount s + n <= (EntryCount s + n) * IndexEntrySize T)
    by (apply mul_ge_r; lia).
  unfold IndexSegment_AddIndexEntries.
  rewrite Z.eqb_refl. simpl negb. cbv iota.
  rewrite (Int32_small (IndexEntrySize T)) by lia.
  rewrite !(Int32_small (_ * _)) by lia.
  rewrite (Int32_small (_ + _ * _)) by lia.
  rewrite (Int32_small (EntryCount s + n)) by lia.
  rewrite <- Hsum.
  destruct ((EntryCount s + n) * IndexEntrySize T >? 65535); [reflexivity|].
  unfold with_IndexEntryArray. f_equal. f_equal. f_equal.
  rewrite (Z.mul_comm (IndexEntrySize T) n).
  apply DataChunk_Set_append_take. lia.
Qed.

Section CommitEntries_facts.

Variable Resize : Z -> list Z -> list Z.
Variable R : ReorderIndex.State.
Variable T : IndexTable.
Variable Count : Z.

Hypothesis HwfR : ReorderIndex.wf R.
Hypothesis HwfT : wf_IndexTable T.
Hypothesis Hsame : IndexEntrySize T = ReorderIndex.IndexEntrySize R.
Hypothesis Hends : forall k s,
  (k, s) ∈ SegmentMap T -> k + EntryCount s <= ReorderIndex.FirstPosition R.
Hypothesis Hsmall : forall k s,
  (k, s) ∈ SegmentMap T ->
  (EntryCount s + commit_count R Count) * IndexEntrySize T < 2 ^ 31.

(** The array after a successful commit of [n] entries. *)
Let after (n : Z) : ReorderIndex.State :=
  if ReorderIndex.EntryCount R <=? n then
    ReorderIndex.mkState (Resize 0 (ReorderIndex.IndexEntries R)) 0 0 0
      (ReorderIndex.IndexEntrySize R)
  else
    let NewCount := ReorderIndex.EntryCount R - n in
    ReorderIndex.mkState
      (Resize ((n + 1) * ReorderIndex.IndexEntrySize R)
         (memmove (ReorderIndex.IndexEntries R) 0
            (n * ReorderIndex.IndexEntrySize R)
            (NewCount * ReorderIndex.IndexEntrySize R)))
      (if ReorderIndex.CompleteEntryCount R >? NewCount
       then ReorderIndex.CompleteEntryCount R - NewCount else 0)
      n
      (if ReorderIndex.FirstPosition R >? NewCount
       then ReorderIndex.FirstPosition R - NewCount else 0)
      (ReorderIndex.IndexEntrySize R).

Lemma ReorderIndex_CommitEntries_run :
  let n := commit_count R Count in
  let E := ReorderIndex.FirstPosition R in
  let Buffer :=
    take (Z.to_nat (n * IndexEntrySize T)) (ReorderIndex.IndexEntries R) in
  exists T1 k s,
    (T1 = T /\ (k, s) ∈ SegmentMap T
     \/ T1 = with_SegmentMap T
               (smap_insert E (AddIndexSegmentToIndexTable T E) (SegmentMap T))
        /\ k = E /\ s = AddIndexSegmentToIndexTable T E
        /\ forall s0, (E, s0) ∉ SegmentMap T) /\
    wf_segment (IndexEntrySize T) k s /\
    k + EntryCount s = E /\
    (forall s0, (k, s0) ∈ SegmentMap T -> s0 = s) /\
    (forall k0 s0, (k0, s0) ∈ SegmentMap T -> k0 <= k) /\
    Z.of_nat (length Buffer) = n * IndexEntrySize T /\
    (65535 < (EntryCount s + n) * IndexEntrySize T ->
       ReorderIndex_CommitEntries Resize R T Count = (R, T1, 0, [CommitProblem])) /\
    ((EntryCount s + n) * IndexEntrySize T <= 65535 ->
       exists m',
       ReorderIndex_CommitEntries Resize R T Count
         = (after n, with_SegmentMap T m', n, []) /\
       smap_sorted m' /\
       (forall k0 s0, (k0, s0) ∈ m' <->
          (k0, s0) = (k, mkIndexSegment (StartPosition s) (DeltaCount s)
                           (DeltaArray s) (EntryCount s + n)
                           (IndexEntryArray s ++ Buffer))
          \/ ((k0, s0) ∈ SegmentMap T /\ k0 <> k))).
Proof.
  intros n E Buffer.
  pose proof HwfR as (HsR & Hcec & HlenR & HltR & HfirstR).
  pose proof HwfT as (Hsize & Hsorted & Hsegs & Hdisj).
  pose proof (commit_count_range R Count ltac:(lia)) as Hn. fold n in Hn.
  change (2 ^ 31) with 2147483648 in *.
  change (2 ^ 62) with 4611686018427387904 in *.
  set (sz := ReorderIndex.IndexEntrySize R) in *.
  assert (Hnsz : 0 <= n * sz) by (apply Z.mul_nonneg_nonneg; lia).
  assert (Hnec : n * sz <= ReorderIndex.EntryCount R * sz)
    by (apply Z.mul_le_mono_nonneg_r; lia).
  assert (HBl : Z.of_nat (length Buffer) = n * IndexEntrySize T).
  { unfold Buffer. rewrite length_take, Hsame. fold sz. lia. }
  (* the array after the call *)
  assert (Hafter : forall (T' : IndexTable),
    (if ReorderIndex.EntryCount R <=? n then
       (ReorderIndex.mkState (Resize 0 (ReorderIndex.IndexEntries R)) 0 0 0 sz,
        T', n, map FromAddIndexEntries [])
     else
       let Shift := Int64 (UInt32 (n * sz)) in
       let NewCount := Int32 (ReorderIndex.EntryCount R - n) in
       let d := memmove (ReorderIndex.IndexEntries R) 0 Shift
                  (UInt32 (NewCount * sz)) in
       let Complete :=
         if ReorderIndex.CompleteEntryCount R >? NewCount
         then Int32 (ReorderIndex.CompleteEntryCount R - NewCount) else 0 in
       let Entries :=
         if ReorderIndex.EntryCount R >? NewCount
         then Int32 (ReorderIndex.EntryCount R - NewCount) else 0 in
       let First :=
         if ReorderIndex.FirstPosition R >? NewCount
         then Int64 (ReorderIndex.FirstPosition R - NewCount) else 0 in
       (ReorderIndex.mkState
          (Resize (UInt32 (Int32 (Entries + 1) * sz)) d)
          Complete Entries First sz,
        T', n, map FromAddIndexEntries []))
    = (after n, T', n, [])).
  { intros T'. unfold after. fold sz.
    destruct (Z.leb_spec (ReorderIndex.EntryCount R) n) as [|Hpart];
      [reflexivity|].
    cbv zeta.
    assert (Hec : ReorderIndex.EntryCount R
                  <= ReorderIndex.EntryCount R * sz) by (apply mul_ge_r; lia).
    assert (Hnew : 0 <= (ReorderIndex.EntryCount R - n) * sz
                   <= ReorderIndex.EntryCount R * sz).
    { split; [apply Z.mul_nonneg_nonneg; lia|].
      apply Z.mul_le_mono_nonneg_r; lia. }
    assert (Hn1 : 0 <= (n + 1) * sz <= ReorderIndex.EntryCount R * sz).
    { split; [apply Z.mul_nonneg_nonneg; lia|].
      apply Z.mul_le_mono_nonneg_r; lia. }
    rewrite (UInt32_small (n * sz)) by (change (2 ^ 32) with 4294967296; lia).
    rewrite (Int64_small (n * sz)) by lia.
    rewrite (Int32_small (ReorderIndex.EntryCount R - n)) by lia.
    rewrite (UInt32_small ((ReorderIndex.EntryCount R - n) * sz))
      by (change (2 ^ 32) with 4294967296; lia).
    assert (Hent : (if ReorderIndex.EntryCount R
                       >? ReorderIndex.EntryCount R - n
                    then Int32 (ReorderIndex.EntryCount R
                                - (ReorderIndex.EntryCount R - n)) else 0) = n).
    { destruct (Z.gtb_spec (ReorderIndex.EntryCount R)
                  (ReorderIndex.EntryCount R - n)).
      - rewrite Int32_small by lia. lia.
      - lia. }
    rewrite Hent. rewrite (Int32_small (n + 1)) by lia.
    rewrite (UInt32_small ((n + 1) * sz))
      by (change (2 ^ 32) with 4294967296; lia).
    assert (Hcomp : (if ReorderIndex.CompleteEntryCount R
                        >? ReorderIndex.EntryCount R - n
                     then Int32 (ReorderIndex.CompleteEntryCount R
                                 - (ReorderIndex.EntryCount R - n)) else 0)
                  = (if ReorderIndex.CompleteEntryCount R
                        >? ReorderIndex.EntryCount R - n
                     then ReorderIndex.CompleteEntryCount R
                          - (ReorderIndex.EntryCount R - n) else 0)).
    { destruct (ReorderIndex.CompleteEntryCount R
                >? ReorderIndex.EntryCount R - n); [|reflexivity].
      apply Int32_small. lia. }
    rewrite Hcomp.
    assert (Hfst : (if ReorderIndex.FirstPosition R
                        >? ReorderIndex.EntryCount R - n
                    then Int64 (ReorderIndex.FirstPosition R
                                - (ReorderIndex.EntryCount R - n)) else 0)
                 = (if ReorderIndex.FirstPosition R
                        >? ReorderIndex.EntryCount R - n
                    then ReorderIndex.FirstPosition R
                         - (ReorderIndex.EntryCount R - n) else 0)).
    { destruct (ReorderIndex.FirstPosition R
                >? ReorderIndex.EntryCount R - n); [|reflexivity].
      apply Int64_small. lia. }
    rewrite Hfst. reflexivity. }
  (* the call once the segment is known *)
  assert (Hcall : forall (T1 : IndexTable) k s,
    IndexTable_GetSegment T E = (T1, k) ->
    smap_lookup k (SegmentMap T1) = Some s ->
    IndexEntrySize T1 = IndexEntrySize T ->
    wf_segment (IndexEntrySize T) k s ->
    (EntryCount s + n) * IndexEntrySize T < 2147483648 ->
    (65535 < (EntryCount s + n) * IndexEntrySize T ->
       ReorderIndex_CommitEntries Resize R T Count = (R, T1, 0, [CommitProblem])) /\
    ((EntryCount s + n) * IndexEntrySize T <= 65535 ->
       ReorderIndex_CommitEntries Resize R T Count
         = (after n,
            with_SegmentMap T1
              (smap_set k
                 (mkIndexSegment (StartPosition s) (DeltaCount s)
                    (DeltaArray s) (EntryCount s + n)
                    (IndexEntryArray s ++ Buffer)) (SegmentMap T1)),
            n, []))).
  { intros T1 k s HGet Hlook HT1 (Hst & Hlow & Hcnt & Hhigh & Hlen) Hint.
    unfold ReorderIndex_CommitEntries. fold E. rewrite HGet, Hlook.
    fold (commit_count R Count). fold n. fold sz.
    rewrite (AddIndexEntries_from_array T1 s n sz (ReorderIndex.IndexEntries R))
      by (rewrite ?HT1, ?Hsame; fold sz; lia).
    rewrite HT1. fold Buffer.
    split; intros Hcmp.
    - destruct (Z.gtb_spec ((EntryCount s + n) * IndexEntrySize T) 65535);
        [reflexivity|lia].
    - destruct (Z.gtb_spec ((EntryCount s + n) * IndexEntrySize T) 65535);
        [lia|].
      simpl negb. cbv iota. apply Hafter. }
  assert (Hno : forall k s, (k, s) ∈ SegmentMap T -> ~ contains s E).
  { intros k s Hin Hcon. specialize (Hends _ _ Hin).
    destruct (Hsegs _ _ Hin) as (Hst & _). unfold contains in Hcon.
    fold E in Hends. lia. }
  destruct (IndexTable_GetSegment_free T E HwfT ltac:(unfold E; lia) Hno)
    as [(k & s & HGet & Hin & Hend & Hkey)|[HGet Habs]].
  - (* the segment that ends at the first position *)
    exists T, k, s.
    pose proof (Hsegs _ _ Hin) as Hseg.
    assert (Hlast : forall k0 s0, (k0, s0) ∈ SegmentMap T -> k0 <= k).
    { intros k0 s0 Hin0.
      destruct (Z_le_gt_dec k0 k) as [|Hgt]; [assumption|].
      pose proof (Hdisj _ _ _ _ Hin Hin0 ltac:(lia)) as Hd.
      pose proof (Hends _ _ Hin0) as He. fold E in He.
      destruct (Hsegs _ _ Hin0) as (_ & _ & Hcnt0 & _).
      assert (k0 = E) as -> by lia.
      specialize (Hkey _ Hin0). lia. }
    split; [left; auto|]. split; [exact Hseg|]. split; [exact Hend|].
    split; [intros s0 Hin0; exact (smap_sorted_functional _ _ _ _ Hsorted Hin0 Hin)|].
    split; [exact Hlast|]. split; [exact HBl|].
    destruct (Hcall T k s HGet (smap_lookup_elem _ _ _ Hsorted Hin) eq_refl Hseg
                (Hsmall _ _ Hin)) as (Hfull & Hfits).
    split; [exact Hfull|]. intros Hcmp. eexists. split; [exact (Hfits Hcmp)|].
    split; [apply smap_set_sorted, Hsorted|].
    intros k0 s0. rewrite (elem_of_smap_set _ _ _ _ _ Hsorted). split.
    + intros [(-> & -> & _)|?]; auto.
    + intros [[= -> ->]|?]; [left|auto].
      split; [reflexivity|]. split; [reflexivity|]. eauto.
  - (* a new segment *)
    rewrite (IndexTable_AddSegment_absent T E Habs) in HGet.
    set (new := AddIndexSegmentToIndexTable T E) in *.
    set (T2 := with_SegmentMap T (smap_insert E new (SegmentMap T))) in *.
    assert (Hs2 : smap_sorted (smap_insert E new (SegmentMap T)))
      by apply smap_insert_sorted, Hsorted.
    assert (Hseg : wf_segment (IndexEntrySize T) E new)
      by (unfold wf_segment, E; cbn; lia).
    assert (Hlook : smap_lookup E (SegmentMap T2) = Some new).
    { apply smap_lookup_elem; [exact Hs2|].
      apply elem_of_smap_insert_new, Habs. }
    exists T2, E, new.
    split; [right; auto|]. split; [exact Hseg|].
    split; [cbn; lia|].
    split; [intros s0 Hin0; exfalso; exact (Habs _ Hin0)|].
    split.
    { intros k0 s0 Hin0. pose proof (Hends _ _ Hin0) as He. fold E in He.
      destruct (Hsegs _ _ Hin0) as (_ & _ & Hcnt0 & _). lia. }
    split; [exact HBl|].
    assert (Hint : (EntryCount new + n) * IndexEntrySize T < 2147483648).
    { cbn [new AddIndexSegmentToIndexTable EntryCount]. rewrite Hsame.
      fold sz. lia. }
    destruct (Hcall T2 E new HGet Hlook eq_refl Hseg Hint) as (Hfull & Hfits).
    split; [exact Hfull|]. intros Hcmp. eexists. split; [exact (Hfits Hcmp)|].
    cbn [T2 with_SegmentMap SegmentMap].
    split; [apply smap_set_sorted, Hs2|].
    intros k0 s0. rewrite (elem_of_smap_set _ _ _ _ _ Hs2). split.
    + intros [(-> & -> & _)|[Hin0 Hk]]; [left; reflexivity|].
      right. split; [|exact Hk].
      apply elem_of_smap_insert_inv in Hin0 as [[= ? ?]|Hin0]; [lia|exact Hin0].
    + intros [[= -> ->]|[Hin0 Hk]].
      * left. split; [reflexivity|]. split; [reflexivity|].
        exists new. apply elem_of_smap_insert_new, Habs.
      * right. split; [|exact Hk]. apply elem_of_smap_insert_old, Hin0.
Qed.

End CommitEntries_facts.

Lemma example_Resize_ok (fill : Z) :
  ReorderIndex.Resize_ok (ReorderIndex.example_Resize fill).
Proof.
  unfold ReorderIndex.Resize_ok, ReorderIndex.example_Resize. split.
  - intros n d Hn. rewrite length_app, length_take, length_replicate. lia.
  - intros n d q Hq Hlen. rewrite byte_at_app_l by (rewrite length_take; lia).
    apply byte_at_take. lia.
Qed.

Lemma example_reorder_empty_wf : ReorderIndex.wf example_reorder_empty.
Proof. unfold ReorderIndex.wf. simpl. lia. Qed.

Lemma example_reorder_wf : ReorderIndex.wf example_reorder.
Proof. unfold ReorderIndex.wf. simpl. lia. Qed.

(** X17. [ReorderIndex::SetEntry] always returns true.  The array then
    reaches from the lower of its old start and [Pos] to the higher of
    its old end and [Pos + 1]; the entry of [Pos] holds the anchor
    offset and the flags given, a stream offset of 0 and, when tables
    are given, the tables; the entries up to [Pos] count as complete.
    Its temporal offset is never written: it is the byte the array had
    there once room was made.  Every other entry, and with a null
    [Tables] the tables of the entry of [Pos], are as before. *)
Theorem ReorderIndex_SetEntry_spec (Resize : Z -> list Z -> list Z)
    (R : ReorderIndex.State) (Pos Flags AnchorOffset : Z)
    (Tables : option (list Z)) :
  ReorderIndex.Resize_ok Resize ->
  ReorderIndex.wf R -> ReorderIndex.in_reach R Pos ->
  (forall t, Tables = Some t ->
     ReorderIndex.IndexEntrySize R - 11 <= Z.of_nat (length t)) ->
  0 <= Flags < 2 ^ 8 -> - 2 ^ 7 <= AnchorOffset < 2 ^ 7 ->
  exists R',
    ReorderIndex.SetEntry Resize R Pos Flags AnchorOffset Tables = (R', true) /\
    ReorderIndex.extended R Pos R' /\
    ReorderIndex.CompleteEntryCount R' =
      Z.max (ReorderIndex.moved_complete R Pos)
        (Pos - ReorderIndex.FirstPosition R' + 1) /\
    ReorderIndex.AnchorOffset_of R' Pos = AnchorOffset /\
    ReorderIndex.Flags_of R' Pos = Flags /\
    ReorderIndex.StreamOffset_of R' Pos = 0 /\
    (forall t, Tables = Some t ->
       ReorderIndex.Tables_of R' Pos
         = take (Z.to_nat (ReorderIndex.IndexEntrySize R - 11)) t) /\
    ReorderIndex.entry_byte R' Pos 0
      = ReorderIndex.entry_byte (ReorderIndex.make_room Resize R Pos).1 Pos 0 /\
    (forall Q, ReorderIndex.has_entry R Q ->
       forall i, 0 <= i < ReorderIndex.IndexEntrySize R ->
       Q <> Pos \/ i = 0 \/ (Tables = None /\ 11 <= i) ->
       ReorderIndex.entry_byte R' Q i = ReorderIndex.entry_byte R Q i).
Proof.
  intros HResize Hwf Hreach Ht HF HA.
  destruct (ReorderIndex_SetEntry_outcome Resize HResize R Pos Flags
              AnchorOffset Tables Hwf Hreach Ht)
    as (R' & Hrun & Hext & Hcec & H1 & H2 & H3 & H4 & H0 & Hkeep).
  exists R'. split; [exact Hrun|]. split; [exact Hext|]. split; [exact Hcec|].
  split.
  { unfold ReorderIndex.AnchorOffset_of, GetI8.
    unfold ReorderIndex.entry_byte in H1. rewrite H1.
    apply Int8_UInt8. exact HA. }
  split.
  { unfold ReorderIndex.Flags_of, GetU8.
    unfold ReorderIndex.entry_byte in H2. rewrite H2.
    apply UInt8_small. exact HF. }
  split; [exact H3|]. split; [|split; [exact H0|exact Hkeep]].
  intros t Heq. rewrite (H4 t Heq).
  destruct Hext as (_ & Hs & _). reflexivity.
Qed.

(** An entry for edit unit 9 put in front of the entries for 11..13:
    the array then starts at 9 and holds five entries. *)
Lemma ReorderIndex_SetEntry_spec_witness :
  exists R',
    ReorderIndex.SetEntry (ReorderIndex.example_Resize 0) example_reorder 9 128 0
      None = (R', true) /\
    ReorderIndex.FirstPosition R' = 9 /\
    ReorderIndex.EntryCount R' = 5 /\
    ReorderIndex.CompleteEntryCount R' = 4 /\
    ReorderIndex.Flags_of R' 9 = 128 /\
    ReorderIndex.StreamOffset_of R' 12
      = ReorderIndex.StreamOffset_of example_reorder 12.
Proof.
  destruct (ReorderIndex_SetEntry_spec (ReorderIndex.example_Resize 0)
              example_reorder 9 128 0 None (example_Resize_ok 0)
              example_reorder_wf)
    as (R' & Hrun & Hext & Hcec & _ & HF & _).
  - unfold ReorderIndex.in_reach. simpl. lia.
  - intros t [=].
  - lia.
  - lia.
  - exists R'. split; [exact Hrun|].
    vm_compute in Hrun. injection Hrun as <-. vm_compute. auto.
Defined.

(** X18. [ReorderIndex::SetTemporalOffset] always returns true.  The
    array then reaches from the lower of its old start and [Pos] to the
    higher of its old end and [Pos + 1], and the entry of [Pos] holds
    the temporal offset given.  The rest of that entry and every other
    entry are as before.  The count of complete entries changes only
    when entries are put in front of the array: a count that is not 0
    then grows by their number. *)
Theorem ReorderIndex_SetTemporalOffset_spec (Resize : Z -> list Z -> list Z)
    (R : ReorderIndex.State) (Pos TemporalOffset : Z) :
  ReorderIndex.Resize_ok Resize ->
  ReorderIndex.wf R -> ReorderIndex.in_reach R Pos ->
  - 2 ^ 7 <= TemporalOffset < 2 ^ 7 ->
  exists R',
    ReorderIndex.SetTemporalOffset Resize R Pos TemporalOffset = (R', true) /\
    ReorderIndex.extended R Pos R' /\
    ReorderIndex.CompleteEntryCount R' = ReorderIndex.moved_complete R Pos /\
    ReorderIndex.TemporalOffset_of R' Pos = TemporalOffset /\
    (forall Q, ReorderIndex.has_entry R Q ->
       forall i, 0 <= i < ReorderIndex.IndexEntrySize R ->
       Q <> Pos \/ i <> 0 ->
       ReorderIndex.entry_byte R' Q i = ReorderIndex.entry_byte R Q i).
Proof.
  intros HResize Hwf Hreach HT.
  destruct (ReorderIndex_SetTemporalOffset_outcome Resize HResize R Pos
              TemporalOffset Hwf Hreach)
    as (R' & Hrun & Hext & Hcec & H0 & Hkeep).
  exists R'. split; [exact Hrun|]. split; [exact Hext|]. split; [exact Hcec|].
  split; [|exact Hkeep].
  unfold ReorderIndex.TemporalOffset_of, GetI8.
  unfold ReorderIndex.entry_byte in H0. rewrite Z.add_0_r in H0. rewrite H0.
  apply Int8_UInt8. exact HT.
Qed.

(** The temporal offset of edit unit 15 set in the array that holds
    11..13: the array then holds five entries, two of them complete. *)
Lemma ReorderIndex_SetTemporalOffset_spec_witness :
  exists R',
    ReorderIndex.SetTemporalOffset (ReorderIndex.example_Resize 0)
      example_reorder 15 (-2) = (R', true) /\
    ReorderIndex.FirstPosition R' = 11 /\
    ReorderIndex.EntryCount R' = 5 /\
    ReorderIndex.CompleteEntryCount R' = 2 /\
    ReorderIndex.TemporalOffset_of R' 15 = -2.
Proof.
  destruct (ReorderIndex_SetTemporalOffset_spec (ReorderIndex.example_Resize 0)
              example_reorder 15 (-2) (example_Resize_ok 0) example_reorder_wf)
    as (R' & Hrun & Hext & Hcec & HT & _).
  - unfold ReorderIndex.in_reach. simpl. lia.
  - lia.
  - exists R'. split; [exact Hrun|].
    destruct Hext as (_ & _ & _ & Hfirst & Hec & _).
    split; [exact Hfirst|]. split; [exact Hec|]. split; [exact Hcec|exact HT].
Defined.

Lemma Int64_UInt64 (x : Z) : - 2 ^ 63 <= x < 2 ^ 63 -> Int64 (UInt64 x) = x.
Proof.
  intros Hx. unfold Int64, UInt64, wrap_signed, wrap_unsigned.
  change (2 ^ (64 - 1)) with (2 ^ 63).
  rewrite Z.add_mod_idemp_l by lia.
  rewrite Z.mod_small; [lia|].
  change (2 ^ 64) with (2 * 2 ^ 63). lia.
Qed.

(** X19. [ReorderIndex::SetStreamOffset] writes the stream offset of an
    edit unit that has an entry and returns true; the counts, the start
    and every other byte of the array are as before.  For an edit unit
    without an entry it returns false with one message and the array is
    as before. *)
Theorem ReorderIndex_SetStreamOffset_spec (R : ReorderIndex.State)
    (Pos StreamOffset : Z) :
  ReorderIndex.wf R -> - 2 ^ 62 < Pos < 2 ^ 62 ->
  Pos - ReorderIndex.FirstPosition R < 2 ^ 31 ->
  - 2 ^ 63 <= StreamOffset < 2 ^ 63 ->
  (ReorderIndex.has_entry R Pos ->
   exists R',
     ReorderIndex.SetStreamOffset R Pos StreamOffset = (R', true, []) /\
     ReorderIndex.wf R' /\
     ReorderIndex.CompleteEntryCount R' = ReorderIndex.CompleteEntryCount R /\
     ReorderIndex.EntryCount R' = ReorderIndex.EntryCount R /\
     ReorderIndex.FirstPosition R' = ReorderIndex.FirstPosition R /\
     ReorderIndex.IndexEntrySize R' = ReorderIndex.IndexEntrySize R /\
     length (ReorderIndex.IndexEntries R') = length (ReorderIndex.IndexEntries R) /\
     ReorderIndex.StreamOffset_of R' Pos = StreamOffset /\
     (forall Q, ReorderIndex.has_entry R Q ->
        forall i, 0 <= i < ReorderIndex.IndexEntrySize R ->
        Q <> Pos \/ i < 3 \/ 11 <= i ->
        ReorderIndex.entry_byte R' Q i = ReorderIndex.entry_byte R Q i)) /\
  (~ ReorderIndex.has_entry R Pos ->
   exists msg,
     ReorderIndex.SetStreamOffset R Pos StreamOffset = (R, false, [msg])).
Proof.
  intros Hwf HPos Hnear HS.
  destruct (ReorderIndex_SetStreamOffset_outcome R Pos StreamOffset Hwf HPos)
    as (Hyes & Hno).
  split; [|intros H; exact (Hno H Hnear)].
  intros Hhas.
  destruct (Hyes Hhas)
    as (R' & Hrun & Hwf' & H1 & H2 & H3 & H4 & H5 & H6 & H7).
  exists R'. rewrite H6, Int64_UInt64 by exact HS. auto 10.
Qed.

(** The stream offset of edit unit 13 is set; edit unit 14 has no
    entry. *)
Lemma ReorderIndex_SetStreamOffset_spec_witness :
  (exists R',
     ReorderIndex.SetStreamOffset example_reorder 13 2000 = (R', true, []) /\
     ReorderIndex.StreamOffset_of R' 13 = 2000) /\
  ReorderIndex.SetStreamOffset example_reorder 14 2000
    = (example_reorder, false, [ReorderIndex.AfterLast 14 13]).
Proof.
  destruct (ReorderIndex_SetStreamOffset_spec example_reorder 13 2000
              example_reorder_wf ltac:(lia) ltac:(simpl; lia) ltac:(lia))
    as (Hyes & _).
  destruct Hyes as (R' & Hrun & _ & _ & _ & _ & _ & _ & HS & _).
  { unfold ReorderIndex.has_entry. simpl. lia. }
  split; [exists R'; split; [exact Hrun|exact HS]|reflexivity].
Defined.

Lemma GetU64_take (n : nat) (d : list Z) (p : Z) :
  p + 8 <= Z.of_nat n -> GetU64 (take n d) p = GetU64 d p.
Proof.
  intros Hp. unfold GetU64. f_equal. apply read_bytes_ext.
  intros q Hq. apply byte_at_take. lia.
Qed.

(** The table after a commit that fits. *)
Lemma ReorderIndex_CommitEntries_table (Resize : Z -> list Z -> list Z)
    (R : ReorderIndex.State) (T : IndexTable) (Count : Z) :
  ReorderIndex.wf R -> wf_IndexTable T -> EditUnitByteCount T = 0 ->
  IndexEntrySize T = ReorderIndex.IndexEntrySize R ->
  (forall k s, (k, s) ∈ SegmentMap T ->
     k + EntryCount s <= ReorderIndex.FirstPosition R) ->
  (forall k s, (k, s) ∈ SegmentMap T ->
     (EntryCount s + commit_count R Count) * IndexEntrySize T <= 65535) ->
  commit_count R Count * IndexEntrySize T <= 65535 ->
  let n := commit_count R Count in
  let r := ReorderIndex_CommitEntries Resize R T Count in
  r.1.2 = n /\ r.2 = [] /\ wf_IndexTable r.1.1.2 /\
  (forall Q,
     ReorderIndex.FirstPosition R <= Q < ReorderIndex.FirstPosition R + n ->
     let Ret := (IndexTable_Lookup r.1.1.2 Q 0 false).1 in
     ThisPos Ret = Q /\
     Location Ret = ReorderIndex.StreamOffset_of R Q /\
     KeyFrameOffset Ret = ReorderIndex.AnchorOffset_of R Q /\
     Flags Ret = ReorderIndex.Flags_of R Q /\
     exists k s, (k, s) ∈ SegmentMap r.1.1.2 /\ contains s Q /\
       TemporalOffset Ret
         = (if reorders s 0 then ReorderIndex.TemporalOffset_of R Q else 0)) /\
  (forall E' k s, (k, s) ∈ SegmentMap T -> contains s E' ->
     let Ret' := (IndexTable_Lookup r.1.1.2 E' 0 false).1 in
     let Ret := (IndexTable_Lookup T E' 0 false).1 in
     Location Ret' = Location Ret /\ KeyFrameOffset Ret' = KeyFrameOffset Ret /\
     Flags Ret' = Flags Ret /\ TemporalOffset Ret' = TemporalOffset Ret).
Proof.
  intros HwfR HwfT Hvbr Hsame Hends Hfit Hfit0 n r.
  pose proof HwfR as (HsR & Hcec & HlenR & HltR & HfirstR).
  pose proof HwfT as (Hsize & Hsorted & Hsegs & Hdisj).
  pose proof (commit_count_range R Count ltac:(lia)) as Hn. fold n in Hn.
  change (2 ^ 31) with 2147483648 in *.
  change (2 ^ 62) with 4611686018427387904 in *.
  assert (Hsmall : forall k s, (k, s) ∈ SegmentMap T ->
            (EntryCount s + commit_count R Count) * IndexEntrySize T < 2 ^ 31).
  { intros k s Hin. specialize (Hfit _ _ Hin).
    change (2 ^ 31) with 2147483648. lia. }
  destruct (ReorderIndex_CommitEntries_run Resize R T Count HwfR HwfT Hsame
              Hends Hsmall)
    as (T1 & k & s & Hcase & Hseg & Hend & Hold & Hlast & HBl & _ & Hok).
  fold n in HBl, Hok.
  set (Buffer := take (Z.to_nat (n * IndexEntrySize T))
                   (ReorderIndex.IndexEntries R)) in *.
  assert (Hfits : (EntryCount s + n) * IndexEntrySize T <= 65535).
  { destruct Hcase as [(_ & Hin)|(_ & _ & -> & _)].
    - exact (Hfit _ _ Hin).
    - cbn [AddIndexSegmentToIndexTable EntryCount]. exact Hfit0. }
  destruct (Hok Hfits) as (m' & Hrun & Hsorted' & Hmem).
  subst r. rewrite Hrun. cbn [fst snd].
  assert (Hafter : forall k0 s0, (k0, s0) ∈ SegmentMap T -> k < k0 ->
            ReorderIndex.FirstPosition R + n <= k0).
  { intros k0 s0 Hin0 Hlt. specialize (Hlast _ _ Hin0). lia. }
  assert (Hbefore : forall k0 s0, (k0, s0) ∈ SegmentMap T -> k0 < k ->
            k0 + EntryCount s0 <= k).
  { intros k0 s0 Hin0 Hlt.
    destruct Hcase as [(_ & Hin)|(_ & -> & _)].
    - exact (Hdisj _ _ _ _ Hin0 Hin Hlt).
    - exact (Hends _ _ Hin0). }
  assert (Hint : (EntryCount s + n) * IndexEntrySize T < 2 ^ 31)
    by (change (2 ^ 31) with 2147483648; lia).
  assert (HE : ReorderIndex.FirstPosition R + n < 2 ^ 63).
  { pose proof (mul_ge_r (ReorderIndex.EntryCount R)
                  (ReorderIndex.IndexEntrySize R) ltac:(lia) ltac:(lia)).
    change (2 ^ 63) with 9223372036854775808. lia. }
  split; [reflexivity|]. split; [reflexivity|]. split.
  { exact (appended_entries_wf T HwfT m' k (ReorderIndex.FirstPosition R) n s
             Buffer (proj1 Hn) Hsorted' Hmem Hseg Hend Hint HE Hafter Hbefore HBl). }
  split.
  - intros Q HQ.
    destruct (appended_entries_Lookup_new T HwfT Hvbr m' k
                (ReorderIndex.FirstPosition R) n s Buffer (proj1 Hn) Hsorted'
                Hmem Hseg Hend Hint HE Hafter Hbefore HBl Q HQ)
      as (Hcon & HP & HL & HK & HF & HT).
    set (e := Q - ReorderIndex.FirstPosition R) in *.
    pose proof (entry_offset_bound e n (IndexEntrySize T) 0
                  ltac:(unfold e; lia) ltac:(lia)) as (Hlo & _).
    rewrite Z.add_0_r in Hlo.
    assert (Hhi : e * IndexEntrySize T + IndexEntrySize T
                  <= n * IndexEntrySize T).
    { replace (e * IndexEntrySize T + IndexEntrySize T)
        with ((e + 1) * IndexEntrySize T) by ring.
      apply Z.mul_le_mono_nonneg_r; unfold e; lia. }
    assert (Hnn : 0 <= n * IndexEntrySize T) by lia.
    cbv zeta. split; [exact HP|].
    unfold ReorderIndex.StreamOffset_of, ReorderIndex.AnchorOffset_of,
      ReorderIndex.Flags_of, ReorderIndex.TemporalOffset_of.
    fold e. rewrite <- Hsame.
    split.
    { rewrite HL. unfold GetI64. f_equal. apply GetU64_take. lia. }
    split.
    { rewrite HK. unfold GetI8. f_equal. apply byte_at_take. lia. }
    split.
    { rewrite HF. unfold GetU8. apply byte_at_take. lia. }
    eexists k, _. split; [apply Hmem; left; reflexivity|].
    split; [exact Hcon|].
    rewrite HT.
    change (reorders (mkIndexSegment (StartPosition s) (DeltaCount s)
                        (DeltaArray s) (EntryCount s + n)
                        (IndexEntryArray s ++ Buffer)) 0)
      with (reorders s 0).
    destruct (reorders s 0); [|reflexivity].
    unfold GetI8. f_equal. apply byte_at_take. lia.
  - intros E' k0 s0 Hin0 Hcon0.
    exact (appended_entries_Lookup_old T HwfT Hvbr m' k
             (ReorderIndex.FirstPosition R) n s Buffer (proj1 Hn) Hsorted'
             Hmem Hseg Hend Hint HE Hafter Hbefore Hold HBl E' k0 s0 Hin0 Hcon0).
Qed.

(** X20. Committing and looking up.  [T] is a well-formed VBR table
    with entries of the size of the array's, none for an edit unit at
    or after the start of the array, and the entries to commit fit a
    segment of 65535 bytes.  Then [ReorderIndex::CommitEntries] returns
    the number of entries asked for, or the number of complete entries
    when [Count] is negative or higher, without a message; the table is
    well-formed, a look-up of each committed edit unit finds the stream
    offset, anchor offset and flags the array held for it, and the
    temporal offset where the segment re-orders; every edit unit that
    had an entry in the table is found as before. *)
Theorem ReorderIndex_CommitEntries_Lookup (Resize : Z -> list Z -> list Z)
    (R : ReorderIndex.State) (T : IndexTable) (Count : Z) :
  ReorderIndex.wf R -> wf_IndexTable T -> EditUnitByteCount T = 0 ->
  IndexEntrySize T = ReorderIndex.IndexEntrySize R ->
  (forall k s, (k, s) ∈ SegmentMap T ->
     k + EntryCount s <= ReorderIndex.FirstPosition R) ->
  (forall k s, (k, s) ∈ SegmentMap T ->
     (EntryCount s + commit_count R Count) * IndexEntrySize T <= 65535) ->
  commit_count R Count * IndexEntrySize T <= 65535 ->
  let n := commit_count R Count in
  let r := ReorderIndex_CommitEntries Resize R T Count in
  r.1.2 = n /\ r.2 = [] /\ wf_IndexTable r.1.1.2 /\
  (forall Q,
     ReorderIndex.FirstPosition R <= Q < ReorderIndex.FirstPosition R + n ->
     let Ret := (IndexTable_Lookup r.1.1.2 Q 0 false).1 in
     ThisPos Ret = Q /\
     Location Ret = ReorderIndex.StreamOffset_of R Q /\
     KeyFrameOffset Ret = ReorderIndex.AnchorOffset_of R Q /\
     Flags Ret = ReorderIndex.Flags_of R Q /\
     exists k s, (k, s) ∈ SegmentMap r.1.1.2 /\ contains s Q /\
       TemporalOffset Ret
         = (if reorders s 0 then ReorderIndex.TemporalOffset_of R Q else 0)) /\
  (forall E' k s, (k, s) ∈ SegmentMap T -> contains s E' ->
     let Ret' := (IndexTable_Lookup r.1.1.2 E' 0 false).1 in
     let Ret := (IndexTable_Lookup T E' 0 false).1 in
     Location Ret' = Location Ret /\ KeyFrameOffset Ret' = KeyFrameOffset Ret /\
     Flags Ret' = Flags Ret /\ TemporalOffset Ret' = TemporalOffset Ret).
Proof.
  intros HwfR HwfT Hvbr Hsame Hends Hfit Hfit0.
  exact (ReorderIndex_CommitEntries_table Resize R T Count HwfR HwfT Hvbr Hsame
           Hends Hfit Hfit0).
Qed.

Lemma example_table_ends (k : Z) (s : IndexSegment) :
  (k, s) ∈ SegmentMap example_table -> k + EntryCount s <= 11 /\ EntryCount s <= 3.
Proof.
  intros Hin. unfold example_table in Hin. cbn [SegmentMap] in Hin.
  apply elem_of_cons in Hin as [[= -> ->]|Hin]; [simpl; lia|].
  apply list_elem_of_singleton in Hin as [= -> ->]. simpl. lia.
Qed.

(** The two complete entries of the array for 11..13 are committed to
    the example table and found there. *)
Lemma ReorderIndex_CommitEntries_Lookup_witness :
  let r := ReorderIndex_CommitEntries (ReorderIndex.example_Resize 0)
             example_reorder example_table (-1) in
  r.1.2 = 2 /\
  Location (IndexTable_Lookup r.1.1.2 12 0 false).1 = 1200 /\
  KeyFrameOffset (IndexTable_Lookup r.1.1.2 12 0 false).1 = -1.
Proof.
  destruct (ReorderIndex_CommitEntries_Lookup (ReorderIndex.example_Resize 0)
              example_reorder example_table (-1) example_reorder_wf
              example_table_wf eq_refl eq_refl)
    as (Hn & _ & _ & Hnew & _).
  - intros k s Hin. destruct (example_table_ends k s Hin). simpl. lia.
  - intros k s Hin. destruct (example_table_ends k s Hin).
    change (commit_count example_reorder (-1)) with 2.
    change (IndexEntrySize example_table) with 11. lia.
  - vm_compute. discriminate.
  - cbv zeta. split; [exact Hn|].
    destruct (Hnew 12 ltac:(vm_compute; split; [discriminate|reflexivity]))
      as (_ & HL & HK & _).
    split; [etransitivity; [exact HL|reflexivity]
           |etransitivity; [exact HK|reflexivity]].
Defined.

(** The array after a commit that fits. *)
Lemma ReorderIndex_CommitEntries_rest (Resize : Z -> list Z -> list Z)
    (R : ReorderIndex.State) (T : IndexTable) (Count : Z) :
  ReorderIndex.Resize_ok Resize ->
  ReorderIndex.wf R -> wf_IndexTable T ->
  IndexEntrySize T = ReorderIndex.IndexEntrySize R ->
  (forall k s, (k, s) ∈ SegmentMap T ->
     k + EntryCount s <= ReorderIndex.FirstPosition R) ->
  (forall k s, (k, s) ∈ SegmentMap T ->
     (EntryCount s + commit_count R Count) * IndexEntrySize T <= 65535) ->
  commit_count R Count * IndexEntrySize T <= 65535 ->
  let n := commit_count R Count in
  let R' := (ReorderIndex_CommitEntries Resize R T Count).1.1.1 in
  ReorderIndex.wf R' /\
  ReorderIndex.IndexEntrySize R' = ReorderIndex.IndexEntrySize R /\
  (ReorderIndex.EntryCount R <= n ->
     R' = ReorderIndex.mkState [] 0 0 0 (ReorderIndex.IndexEntrySize R)) /\
  (n < ReorderIndex.EntryCount R ->
     let rest := ReorderIndex.EntryCount R - n in
     ReorderIndex.EntryCount R' = n /\
     ReorderIndex.CompleteEntryCount R'
       = Z.max 0 (ReorderIndex.CompleteEntryCount R - rest) /\
     ReorderIndex.FirstPosition R'
       = (if ReorderIndex.FirstPosition R >? rest
          then ReorderIndex.FirstPosition R - rest else 0) /\
     Z.of_nat (length (ReorderIndex.IndexEntries R'))
       = (n + 1) * ReorderIndex.IndexEntrySize R /\
     forall j i, 0 <= j < rest -> j <= n ->
       0 <= i < ReorderIndex.IndexEntrySize R ->
       ReorderIndex.entry_byte R' (ReorderIndex.FirstPosition R' + j) i
         = ReorderIndex.entry_byte R (ReorderIndex.FirstPosition R + n + j) i).
Proof.
  intros HResize HwfR HwfT Hsame Hends Hfit Hfit0 n R'.
  pose proof HResize as (HRlen & HRkeep).
  pose proof HwfR as (HsR & Hcec & HlenR & HltR & HfirstR).
  pose proof (commit_count_range R Count ltac:(lia)) as Hn. fold n in Hn.
  assert (Hsmall : forall k s, (k, s) ∈ SegmentMap T ->
            (EntryCount s + commit_count R Count) * IndexEntrySize T < 2 ^ 31).
  { intros k s Hin. specialize (Hfit _ _ Hin).
    change (2 ^ 31) with 2147483648. lia. }
  destruct (ReorderIndex_CommitEntries_run Resize R T Count HwfR HwfT Hsame
              Hends Hsmall)
    as (T1 & k & s & Hcase & Hseg & Hend & Hold & Hlast & HBl & _ & Hok).
  fold n in HBl, Hok.
  assert (Hfits : (EntryCount s + n) * IndexEntrySize T <= 65535).
  { destruct Hcase as [(_ & Hin)|(_ & _ & -> & _)].
    - exact (Hfit _ _ Hin).
    - cbn [AddIndexSegmentToIndexTable EntryCount]. exact Hfit0. }
  destruct (Hok Hfits) as (m' & Hrun & _).
  subst R'. rewrite Hrun. cbn [fst snd].
  change (2 ^ 31) with 2147483648 in *.
  change (2 ^ 62) with 4611686018427387904 in *.
  set (sz := ReorderIndex.IndexEntrySize R) in *.
  set (ec := ReorderIndex.EntryCount R) in *.
  destruct (Z.leb_spec ec n) as [Hall|Hpart].
  - (* everything is committed *)
    assert (Hnil : Resize 0 (ReorderIndex.IndexEntries R) = []).
    { apply length_zero_iff_nil.
      pose proof (HRlen 0 (ReorderIndex.IndexEntries R) ltac:(lia)). lia. }
    rewrite Hnil.
    split; [unfold ReorderIndex.wf; cbn; fold sz; lia|].
    split; [reflexivity|]. split; [reflexivity|]. intros; lia.
  - cbv zeta.
    assert (Hn1 : 0 <= (n + 1) * sz <= ec * sz).
    { split; [apply Z.mul_nonneg_nonneg; lia|].
      apply Z.mul_le_mono_nonneg_r; lia. }
    assert (Hnsz : 0 <= n * sz) by (apply Z.mul_nonneg_nonneg; lia).
    assert (Hrest : 0 <= (ec - n) * sz) by (apply Z.mul_nonneg_nonneg; lia).
    assert (Hsum : n * sz + (ec - n) * sz = ec * sz) by ring.
    assert (Hlen' : Z.of_nat (length
              (Resize ((n + 1) * sz)
                 (memmove (ReorderIndex.IndexEntries R) 0 (n * sz)
                    ((ec - n) * sz)))) = (n + 1) * sz)
      by (apply HRlen; lia).
    cbn [ReorderIndex.IndexEntries ReorderIndex.CompleteEntryCount
         ReorderIndex.EntryCount ReorderIndex.FirstPosition
         ReorderIndex.IndexEntrySize].
    split.
    { unfold ReorderIndex.wf.
      cbn [ReorderIndex.IndexEntries ReorderIndex.CompleteEntryCount
           ReorderIndex.EntryCount ReorderIndex.FirstPosition
           ReorderIndex.IndexEntrySize].
      rewrite Hlen'. change (2 ^ 31) with 2147483648.
      change (2 ^ 62) with 4611686018427387904.
      split; [lia|]. split.
      { destruct (Z.gtb_spec (ReorderIndex.CompleteEntryCount R) (ec - n)); lia. }
      split; [lia|]. split; [lia|].
      destruct (Z.gtb_spec (ReorderIndex.FirstPosition R) (ec - n)); lia. }
    split; [reflexivity|]. split; [intros; lia|]. intros _.
    split; [reflexivity|]. split.
    { destruct (Z.gtb_spec (ReorderIndex.CompleteEntryCount R) (ec - n)); lia. }
    split; [reflexivity|]. split; [exact Hlen'|].
    intros j i Hj Hjn Hi. unfold ReorderIndex.entry_byte.
    cbn [ReorderIndex.IndexEntries ReorderIndex.CompleteEntryCount
         ReorderIndex.EntryCount ReorderIndex.FirstPosition
         ReorderIndex.IndexEntrySize].
    fold sz.
    set (F' := if ReorderIndex.FirstPosition R >? ec - n
               then ReorderIndex.FirstPosition R - (ec - n) else 0).
    replace ((F' + j - F') * sz + i) with (j * sz + i) by (f_equal; f_equal; lia).
    replace ((ReorderIndex.FirstPosition R + n + j
              - ReorderIndex.FirstPosition R) * sz + i)
      with (n * sz + (j * sz + i)) by ring.
    pose proof (entry_offset_bound j (ec - n) sz i ltac:(lia) Hi) as (Hlo & Hhi).
    pose proof (entry_offset_bound j (n + 1) sz i ltac:(lia) Hi) as (_ & Hhi').
    rewrite HRkeep by (rewrite ?memmove_length; lia).
    replace (j * sz + i) with (0 + (j * sz + i)) at 1 by lia.
    apply byte_at_memmove; lia.
Qed.

(** X21. The array after a commit.  The commit is one that fits, into
    a table without entries at or after the start of the array, and
    the chunk's [Resize] keeps the bytes below both sizes.  When
    every entry of the array is committed the array is left empty, with
    both counts and the start at 0.  Otherwise, with [n] entries
    committed out of [EntryCount], the array is left with a count of
    [n] entries, a count of complete entries lowered by
    [EntryCount - n] (not below 0), a start lowered by [EntryCount - n]
    (0 if it is not above that) and a chunk of [n + 1] entries; entry
    [j] of the chunk is what entry [n + j] was, for [j] up to [n] and
    below [EntryCount - n]. *)
Theorem ReorderIndex_CommitEntries_array (Resize : Z -> list Z -> list Z)
    (R : ReorderIndex.State) (T : IndexTable) (Count : Z) :
  ReorderIndex.Resize_ok Resize ->
  ReorderIndex.wf R -> wf_IndexTable T ->
  IndexEntrySize T = ReorderIndex.IndexEntrySize R ->
  (forall k s, (k, s) ∈ SegmentMap T ->
     k + EntryCount s <= ReorderIndex.FirstPosition R) ->
  (forall k s, (k, s) ∈ SegmentMap T ->
     (EntryCount s + commit_count R Count) * IndexEntrySize T <= 65535) ->
  commit_count R Count * IndexEntrySize T <= 65535 ->
  let n := commit_count R Count in
  let R' := (ReorderIndex_CommitEntries Resize R T Count).1.1.1 in
  ReorderIndex.wf R' /\
  ReorderIndex.IndexEntrySize R' = ReorderIndex.IndexEntrySize R /\
  (ReorderIndex.EntryCount R <= n ->
     R' = ReorderIndex.mkState [] 0 0 0 (ReorderIndex.IndexEntrySize R)) /\
  (n < ReorderIndex.EntryCount R ->
     let rest := ReorderIndex.EntryCount R - n in
     ReorderIndex.EntryCount R' = n /\
     ReorderIndex.CompleteEntryCount R'
       = Z.max 0 (ReorderIndex.CompleteEntryCount R - rest) /\
     ReorderIndex.FirstPosition R'
       = (if ReorderIndex.FirstPosition R >? rest
          then ReorderIndex.FirstPosition R - rest else 0) /\
     Z.of_nat (length (ReorderIndex.IndexEntries R'))
       = (n + 1) * ReorderIndex.IndexEntrySize R /\
     forall j i, 0 <= j < rest -> j <= n ->
       0 <= i < ReorderIndex.IndexEntrySize R ->
       ReorderIndex.entry_byte R' (ReorderIndex.FirstPosition R' + j) i
         = ReorderIndex.entry_byte R (ReorderIndex.FirstPosition R + n + j) i).
Proof.
  intros HResize HwfR HwfT Hsame Hends Hfit Hfit0.
  exact (ReorderIndex_CommitEntries_rest Resize R T Count HResize HwfR HwfT
           Hsame Hends Hfit Hfit0).
Qed.

(** Two of the three entries for 11..13 are committed: the array is
    left with a count of two entries starting at 10, and its first
    entry is the one that was kept for edit unit 13. *)
Lemma ReorderIndex_CommitEntries_array_witness :
  let R' := (ReorderIndex_CommitEntries (ReorderIndex.example_Resize 0)
               example_reorder example_table (-1)).1.1.1 in
  ReorderIndex.EntryCount R' = 2 /\
  ReorderIndex.CompleteEntryCount R' = 1 /\
  ReorderIndex.FirstPosition R' = 10 /\
  ReorderIndex.StreamOffset_of R' 10 = 1350.
Proof.
  destruct (ReorderIndex_CommitEntries_array (ReorderIndex.example_Resize 0)
              example_reorder example_table (-1) (example_Resize_ok 0)
              example_reorder_wf example_table_wf eq_refl)
    as (_ & _ & _ & Hpart).
  - intros k s Hin. destruct (example_table_ends k s Hin). simpl. lia.
  - intros k s Hin. destruct (example_table_ends k s Hin).
    change (commit_count example_reorder (-1)) with 2.
    change (IndexEntrySize example_table) with 11. lia.
  - vm_compute. discriminate.
  - destruct Hpart as (Hec & Hcec & Hfirst & _); [vm_compute; reflexivity|].
    cbv zeta. split; [exact Hec|]. split; [exact Hcec|].
    split; [exact Hfirst|]. vm_compute. reflexivity.
Defined.

(** [GetSegment] for the edit unit after the last entry of a segment,
    when no segment starts there: that segment. *)
Lemma IndexTable_GetSegment_ending (T : IndexTable) (E k : Z)
    (s : IndexSegment) :
  wf_IndexTable T -> - 2 ^ 63 < E < 2 ^ 63 ->
  (k, s) ∈ SegmentMap T -> k + EntryCount s = E ->
  (forall s0, (E, s0) ∉ SegmentMap T) ->
  IndexTable_GetSegment T E = (T, k).
Proof.
  intros Hwf HE Hin Hend Habs.
  pose proof Hwf as (Hsize & Hsorted & Hsegs & Hdisj).
  destruct (Hsegs _ _ Hin) as (Hst & Hlow & Hcnt & Hhigh & _).
  apply list_elem_of_lookup in Hin as [j Hj].
  unfold IndexTable_GetSegment. cbv zeta.
  pose proof (GetSegment_walk T E) as Hwalk. cbv zeta in Hwalk. rewrite Hwalk.
  pose proof (IndexTable_locate_spec T E Hsorted) as Hloc.
  unfold smap_deref.
  destruct (SegmentMap T !! IndexTable_locate T E) as [[first second]|] eqn:Hit.
  - destruct Hloc as [Hfirst Hlast].
    specialize (Hlast _ _ _ Hj ltac:(lia)).
    assert (Hin' : (first, second) ∈ SegmentMap T)
      by (apply list_elem_of_lookup; eauto).
    destruct (Nat.eq_dec j (IndexTable_locate T E)) as [->|Hne].
    + rewrite Hit in Hj. injection Hj as -> ->.
      destruct (Z.gtb_spec k E) as [|_]; [lia|].
      rewrite Int64_small by lia. rewrite Hst.
      destruct (Z.gtb_spec E (k + EntryCount s)) as [|_]; [lia|reflexivity].
    + pose proof (smap_sorted_lookup_lt _ j (IndexTable_locate T E)
                    _ _ _ _ Hsorted ltac:(lia) Hj Hit) as Hlt.
      assert (Hin : (k, s) ∈ SegmentMap T) by (apply list_elem_of_lookup; eauto).
      pose proof (Hdisj _ _ _ _ Hin Hin' Hlt).
      assert (first = E) as -> by lia.
      exfalso. exact (Habs _ Hin').
  - destruct Hloc as [_ Hall]. specialize (Hall _ _ _ Hj). lia.
Qed.

(** X22. A commit the segment cannot take.  When the segment of the
    table that ends at the start of the array would grow above 65535
    bytes of entries with the entries to commit, and no segment starts
    there, [ReorderIndex::CommitEntries] commits nothing: it returns 0
    with the one problem message, and the array and the table are as
    before; no new segment is started. *)
Theorem ReorderIndex_CommitEntries_refused (Resize : Z -> list Z -> list Z)
    (R : ReorderIndex.State) (T : IndexTable) (Count k : Z)
    (s : IndexSegment) :
  ReorderIndex.wf R -> wf_IndexTable T ->
  IndexEntrySize T = ReorderIndex.IndexEntrySize R ->
  (k, s) ∈ SegmentMap T ->
  k + EntryCount s = ReorderIndex.FirstPosition R ->
  (forall s0, (ReorderIndex.FirstPosition R, s0) ∉ SegmentMap T) ->
  65535 < (EntryCount s + commit_count R Count) * IndexEntrySize T < 2 ^ 31 ->
  ReorderIndex_CommitEntries Resize R T Count = (R, T, 0, [CommitProblem]).
Proof.
  intros HwfR HwfT Hsame Hin Hend Habs Hfull.
  pose proof HwfR as (HsR & Hcec & HlenR & HltR & HfirstR).
  pose proof HwfT as (Hsize & Hsorted & Hsegs & Hdisj).
  pose proof (commit_count_range R Count ltac:(lia)) as Hn.
  destruct (Hsegs _ _ Hin) as (Hst & Hlow & Hcnt & Hhigh & Hlen).
  change (2 ^ 62) with 4611686018427387904 in *.
  unfold ReorderIndex_CommitEntries.
  assert (HE : - 2 ^ 63 < ReorderIndex.FirstPosition R < 2 ^ 63)
    by (change (2 ^ 63) with 9223372036854775808; lia).
  rewrite (IndexTable_GetSegment_ending T _ k s HwfT HE Hin Hend Habs).
  rewrite (smap_lookup_elem _ _ _ Hsorted Hin).
  fold (commit_count R Count).
  assert (Hnec : commit_count R Count * ReorderIndex.IndexEntrySize R
                 <= ReorderIndex.EntryCount R * ReorderIndex.IndexEntrySize R)
    by (apply Z.mul_le_mono_nonneg_r; lia).
  rewrite (AddIndexEntries_from_array T s (commit_count R Count)
             (ReorderIndex.IndexEntrySize R) (ReorderIndex.IndexEntries R))
    by (rewrite ?Hsame; lia).
  destruct (Z.gtb_spec ((EntryCount s + commit_count R Count) * IndexEntrySize T)
              65535); [reflexivity|lia].
Qed.

Lemma example_full_table_wf : wf_IndexTable example_full_table.
Proof.
  unfold wf_IndexTable, example_full_table, example_sliced_table.
  cbn [with_SegmentMap SegmentMap IndexEntrySize]. split; [lia|]. split; [|split].
  - unfold smap_sorted. simpl. repeat constructor.
  - intros k s Hin. apply list_elem_of_singleton in Hin as [= -> ->].
    unfold wf_segment, example_full_segment.
    cbn [StartPosition EntryCount IndexEntryArray].
    rewrite length_replicate, Z2Nat.id by lia. lia.
  - intros k1 s1 k2 s2 H1 H2 Hlt.
    apply list_elem_of_singleton in H1 as [= -> ->].
    apply list_elem_of_singleton in H2 as [= -> ->]. lia.
Qed.

(** Two entries for the full segment of 4368 entries: nothing is
    committed. *)
Lemma ReorderIndex_CommitEntries_refused_witness :
  ReorderIndex_CommitEntries (ReorderIndex.example_Resize 0)
    example_reorder_sliced example_full_table (-1)
  = (example_reorder_sliced, example_full_table, 0, [CommitProblem]).
Proof.
  apply (ReorderIndex_CommitEntries_refused (ReorderIndex.example_Resize 0)
           example_reorder_sliced example_full_table (-1) 0 example_full_segment).
  - unfold ReorderIndex.wf. simpl. lia.
  - exact example_full_table_wf.
  - reflexivity.
  - apply list_elem_of_singleton. reflexivity.
  - reflexivity.
  - intros s0 Hin. apply list_elem_of_singleton in Hin. discriminate.
  - vm_compute. split; reflexivity.
Defined.

Lemma GetI64_entry_ext (R R' : ReorderIndex.State) (Q : Z) :
  (forall i, 3 <= i < 11 ->
     ReorderIndex.entry_byte R' Q i = ReorderIndex.entry_byte R Q i) ->
  ReorderIndex.StreamOffset_of R' Q = ReorderIndex.StreamOffset_of R Q.
Proof.
  intros H. unfold ReorderIndex.StreamOffset_of, GetI64, GetU64.
  f_equal. f_equal. unfold read_bytes. apply map_ext_in. intros i Hi.
  apply in_seq in Hi.
  specialize (H (3 + Z.of_nat i) ltac:(lia)).
  unfold ReorderIndex.entry_byte in H. rewrite !Z.add_assoc in H. exact H.
Qed.

Section First_entry.

Variable Resize : Z -> list Z -> list Z.
Hypothesis HResize : ReorderIndex.Resize_ok Resize.
Variables (sz P Flags AnchorOffset StreamOffset TemporalOffset : Z).
Hypothesis Hsz : 11 <= sz < 2 ^ 30.
Hypothesis HP : - 2 ^ 62 < P < 2 ^ 62.

(** The first entry of an array, built by the three setters. *)
Lemma ReorderIndex_first_entry_built :
  let R0 := ReorderIndex.mkState [] 0 0 0 sz in
  let R1 := (ReorderIndex.SetEntry Resize R0 P Flags AnchorOffset None).1 in
  let R2 := (ReorderIndex.SetStreamOffset R1 P StreamOffset).1.1 in
  let R3 := (ReorderIndex.SetTemporalOffset Resize R2 P TemporalOffset).1 in
  ReorderIndex.wf R3 /\
  ReorderIndex.IndexEntrySize R3 = sz /\
  ReorderIndex.FirstPosition R3 = P /\
  ReorderIndex.EntryCount R3 = 1 /\
  ReorderIndex.CompleteEntryCount R3 = 1 /\
  ReorderIndex.entry_byte R3 P 0 = UInt8 TemporalOffset /\
  ReorderIndex.entry_byte R3 P 1 = UInt8 AnchorOffset /\
  ReorderIndex.entry_byte R3 P 2 = UInt8 Flags /\
  ReorderIndex.StreamOffset_of R3 P = Int64 (UInt64 StreamOffset).
Proof.
  intros R0 R1 R2 R3.
  change (2 ^ 30) with 1073741824 in *.
  change (2 ^ 62) with 4611686018427387904 in *.
  assert (Hwf0 : ReorderIndex.wf R0).
  { unfold ReorderIndex.wf, R0. cbn. change (2 ^ 31) with 2147483648.
    change (2 ^ 62) with 4611686018427387904. lia. }
  assert (Hreach0 : ReorderIndex.in_reach R0 P).
  { unfold ReorderIndex.in_reach. split; [exact HP|left; reflexivity]. }
  destruct (ReorderIndex_SetEntry_outcome Resize HResize R0 P Flags AnchorOffset
              None Hwf0 Hreach0 ltac:(intros t [=]))
    as (R1' & Hrun1 & Hext1 & Hcec1 & H11 & H12 & _).
  assert (R1 = R1') as -> by (unfold R1; rewrite Hrun1; reflexivity).
  rename R1' into R1.
  destruct Hext1 as (Hwf1 & Hs1 & Hhas1 & Hfirst1 & Hec1 & Hlen1).
  cbn [R0 ReorderIndex.IndexEntries ReorderIndex.IndexEntrySize
       ReorderIndex.FirstPosition ReorderIndex.EntryCount] in Hs1, Hfirst1, Hec1, Hlen1.
  rewrite decide_True in Hfirst1, Hec1, Hlen1 by reflexivity.
  assert (Hcec1' : ReorderIndex.CompleteEntryCount R1 = 1).
  { rewrite Hcec1, Hfirst1. unfold ReorderIndex.moved_complete.
    rewrite decide_False by (intros (Hne & _); apply Hne; reflexivity).
    cbn. lia. }
  (* the stream offset *)
  destruct (ReorderIndex_SetStreamOffset_outcome R1 P StreamOffset Hwf1 HP)
    as (Hyes & _).
  destruct (Hyes Hhas1)
    as (R2' & Hrun2 & Hwf2 & Hcec2 & Hec2 & Hfirst2 & Hs2 & Hlen2 & HS2 & Hkeep2).
  assert (R2 = R2') as -> by (unfold R2; rewrite Hrun2; reflexivity).
  rename R2' into R2.
  (* the temporal offset *)
  pose proof Hwf2 as (_ & _ & Hlenec2 & _).
  rewrite Hec2, Hec1, Hs2, Hs1, Z.mul_1_l in Hlenec2.
  assert (Hne2 : ReorderIndex.IndexEntries R2 <> []).
  { intros Heq. rewrite Heq in Hlenec2. simpl in Hlenec2. lia. }
  assert (Hreach2 : ReorderIndex.in_reach R2 P).
  { unfold ReorderIndex.in_reach. split; [exact HP|right].
    rewrite Hfirst2, Hfirst1, Z.sub_diag, Hs2, Hs1, Hlen2.
    change (2 ^ 31) with 2147483648. simpl Z.abs. lia. }
  destruct (ReorderIndex_SetTemporalOffset_outcome Resize HResize R2 P
              TemporalOffset Hwf2 Hreach2)
    as (R3' & Hrun3 & Hext3 & Hcec3 & H30 & Hkeep3).
  assert (R3 = R3') as -> by (unfold R3; rewrite Hrun3; reflexivity).
  rename R3' into R3.
  destruct Hext3 as (Hwf3 & Hs3 & Hhas3 & Hfirst3 & Hec3 & Hlen3).
  rewrite decide_False in Hfirst3, Hec3 by exact Hne2.
  rewrite Hfirst2, Hfirst1 in Hfirst3. rewrite Hfirst2, Hfirst1, Hec2, Hec1 in Hec3.
  assert (Hhas2 : ReorderIndex.has_entry R2 P).
  { unfold ReorderIndex.has_entry. rewrite Hfirst2, Hfirst1, Hec2, Hec1. lia. }
  split; [exact Hwf3|]. split; [congruence|]. split; [lia|]. split; [lia|].
  split.
  { rewrite Hcec3. unfold ReorderIndex.moved_complete.
    rewrite decide_False by (rewrite Hfirst2, Hfirst1; lia). congruence. }
  split; [exact H30|].
  split.
  { rewrite (Hkeep3 P Hhas2 1) by (rewrite ?Hs2, ?Hs1; lia).
    rewrite (Hkeep2 P Hhas1 1) by (rewrite ?Hs1; lia). exact H11. }
  split.
  { rewrite (Hkeep3 P Hhas2 2) by (rewrite ?Hs2, ?Hs1; lia).
    rewrite (Hkeep2 P Hhas1 2) by (rewrite ?Hs1; lia). exact H12. }
  rewrite <- HS2. apply GetI64_entry_ext.
  intros i Hi. apply (Hkeep3 P Hhas2 i); [rewrite Hs2, Hs1|]; lia.
Qed.

End First_entry.

(** X23. The first entry, from the setters to the look-up.  In an
    empty array, [SetEntry], [SetStreamOffset] and [SetTemporalOffset]
    for one edit unit [P], then [CommitEntries] of all complete entries
    into a well-formed VBR table that has no entry at or after [P] and
    room for one more entry: one entry is committed without a message,
    the array is empty again, and a look-up of [P] finds the stream
    offset, the anchor offset as key-frame offset and the flags given,
    and the temporal offset where the segment re-orders; what the table
    held before is found as before. *)
Theorem ReorderIndex_first_entry_Lookup (Resize : Z -> list Z -> list Z)
    (sz P Fl Anchor Stream Temporal : Z)
    (T : IndexTable) :
  ReorderIndex.Resize_ok Resize ->
  11 <= sz < 2 ^ 30 -> - 2 ^ 62 < P < 2 ^ 62 ->
  0 <= Fl < 2 ^ 8 -> - 2 ^ 7 <= Anchor < 2 ^ 7 ->
  - 2 ^ 63 <= Stream < 2 ^ 63 -> - 2 ^ 7 <= Temporal < 2 ^ 7 ->
  wf_IndexTable T -> EditUnitByteCount T = 0 -> IndexEntrySize T = sz ->
  (forall k s, (k, s) ∈ SegmentMap T -> k + EntryCount s <= P) ->
  (forall k s, (k, s) ∈ SegmentMap T -> (EntryCount s + 1) * sz <= 65535) ->
  sz <= 65535 ->
  let R0 := ReorderIndex.mkState [] 0 0 0 sz in
  let R1 := (ReorderIndex.SetEntry Resize R0 P Fl Anchor None).1 in
  let R2 := (ReorderIndex.SetStreamOffset R1 P Stream).1.1 in
  let R3 := (ReorderIndex.SetTemporalOffset Resize R2 P Temporal).1 in
  let r := ReorderIndex_CommitEntries Resize R3 T (-1) in
  r.1.2 = 1 /\ r.2 = [] /\ r.1.1.1 = R0 /\ wf_IndexTable r.1.1.2 /\
  (let Ret := (IndexTable_Lookup r.1.1.2 P 0 false).1 in
   ThisPos Ret = P /\ Location Ret = Stream /\
   KeyFrameOffset Ret = Anchor /\ Flags Ret = Fl /\
   exists k s, (k, s) ∈ SegmentMap r.1.1.2 /\ contains s P /\
     TemporalOffset Ret = (if reorders s 0 then Temporal else 0)) /\
  (forall E' k s, (k, s) ∈ SegmentMap T -> contains s E' ->
     let Ret' := (IndexTable_Lookup r.1.1.2 E' 0 false).1 in
     let Ret := (IndexTable_Lookup T E' 0 false).1 in
     Location Ret' = Location Ret /\ KeyFrameOffset Ret' = KeyFrameOffset Ret /\
     Flags Ret' = Flags Ret /\ TemporalOffset Ret' = TemporalOffset Ret).
Proof.
  intros HResize Hsz HP HF HA HS HT HwfT Hvbr Hsame Hends Hfit Hfit0
    R0 R1 R2 R3 r.
  destruct (ReorderIndex_first_entry_built Resize HResize sz P Fl Anchor Stream
              Temporal Hsz HP)
    as (Hwf3 & Hs3 & Hfirst3 & Hec3 & Hcec3 & H0 & H1 & H2 & H3).
  fold R0 R1 R2 R3 in Hwf3, Hs3, Hfirst3, Hec3, Hcec3, H0, H1, H2, H3.
  assert (Hn : commit_count R3 (-1) = 1).
  { unfold commit_count. change (-1 <? 0) with true. cbn [orb]. exact Hcec3. }
  assert (Hsame3 : IndexEntrySize T = ReorderIndex.IndexEntrySize R3)
    by congruence.
  assert (Hends3 : forall k s, (k, s) ∈ SegmentMap T ->
            k + EntryCount s <= ReorderIndex.FirstPosition R3).
  { intros k s Hin. rewrite Hfirst3. exact (Hends _ _ Hin). }
  assert (Hfit3 : forall k s, (k, s) ∈ SegmentMap T ->
            (EntryCount s + commit_count R3 (-1)) * IndexEntrySize T <= 65535).
  { intros k s Hin. rewrite Hn, Hsame. exact (Hfit _ _ Hin). }
  assert (Hfit03 : commit_count R3 (-1) * IndexEntrySize T <= 65535)
    by (rewrite Hn, Hsame; lia).
  destruct (ReorderIndex_CommitEntries_table Resize R3 T (-1) Hwf3 HwfT Hvbr
              Hsame3 Hends3 Hfit3 Hfit03)
    as (Hcount & Hmsgs & HwfT' & Hnew & Hold).
  destruct (ReorderIndex_CommitEntries_rest Resize R3 T (-1) HResize Hwf3 HwfT
              Hsame3 Hends3 Hfit3 Hfit03)
    as (_ & _ & Hall & _).
  fold r in Hcount, Hmsgs, HwfT', Hnew, Hold, Hall.
  rewrite Hn in Hcount, Hnew, Hall.
  split; [exact Hcount|]. split; [exact Hmsgs|].
  split; [rewrite Hall by lia; rewrite Hs3; reflexivity|].
  split; [exact HwfT'|]. split; [|exact Hold].
  destruct (Hnew P ltac:(lia)) as (HPos & HL & HK & HFl & k & s & Hin & Hcon & HTO).
  cbv zeta. split; [exact HPos|].
  split; [rewrite HL, H3; apply Int64_UInt64; exact HS|].
  split.
  { rewrite HK. unfold ReorderIndex.AnchorOffset_of, GetI8.
    unfold ReorderIndex.entry_byte in H1. rewrite H1. apply Int8_UInt8, HA. }
  split.
  { rewrite HFl. unfold ReorderIndex.Flags_of, GetU8.
    unfold ReorderIndex.entry_byte in H2. rewrite H2. apply UInt8_small, HF. }
  exists k, s. split; [exact Hin|]. split; [exact Hcon|].
  rewrite HTO. destruct (reorders s 0); [|reflexivity].
  unfold ReorderIndex.TemporalOffset_of, GetI8.
  unfold ReorderIndex.entry_byte in H0. rewrite Z.add_0_r in H0. rewrite H0.
  apply Int8_UInt8, HT.
Qed.

(** The entry of edit unit 11 is built and committed to the example
    table, whose last segment ends at 11. *)
Lemma ReorderIndex_first_entry_Lookup_witness :
  let R1 := (ReorderIndex.SetEntry (ReorderIndex.example_Resize 0)
               example_reorder_empty 11 128 (-1) None).1 in
  let R2 := (ReorderIndex.SetStreamOffset R1 11 1100).1.1 in
  let R3 := (ReorderIndex.SetTemporalOffset (ReorderIndex.example_Resize 0)
               R2 11 2).1 in
  let r := ReorderIndex_CommitEntries (ReorderIndex.example_Resize 0) R3
             example_table (-1) in
  r.1.2 = 1 /\
  Location (IndexTable_Lookup r.1.1.2 11 0 false).1 = 1100 /\
  KeyFrameOffset (IndexTable_Lookup r.1.1.2 11 0 false).1 = (-1) /\
  Flags (IndexTable_Lookup r.1.1.2 11 0 false).1 = 128.
Proof.
  destruct (ReorderIndex_first_entry_Lookup (ReorderIndex.example_Resize 0)
              11 11 128 (-1) 1100 2 example_table (example_Resize_ok 0)
              ltac:(lia) ltac:(lia) ltac:(lia) ltac:(lia) ltac:(lia) ltac:(lia)
              example_table_wf eq_refl eq_refl)
    as (Hn & _ & _ & _ & Hnew & _).
  - intros k s Hin. destruct (example_table_ends k s Hin). lia.
  - intros k s Hin. destruct (example_table_ends k s Hin). lia.
  - lia.
  - destruct Hnew as (_ & HL & HK & HF & _).
    cbv zeta. split; [exact Hn|]. split; [exact HL|]. split; [exact HK|exact HF].
Defined.

Lemma lor_shiftl_bytes (a b : Z) :
  0 <= a -> 0 <= b < 2 ^ 8 -> Z.lor (Z.shiftl a 8) b = a * 2 ^ 8 + b.
Proof.
  intros Ha Hb. rewrite <- Z.shiftl_mul_pow2 by lia.
  rewrite <- Z.lxor_lor, <- Z.add_nocarry_lxor; [reflexivity| |].
  all: apply Z.bits_inj'; intros i Hi; rewrite Z.land_spec, Z.bits_0;
    destruct (Z.lt_ge_cases i 8) as [Hlt|Hge].
  all: try (rewrite Z.shiftl_spec_low by lia; reflexivity).
  all: rewrite (Z.bits_above_log2 b i); [apply andb_false_r|lia|].
  all: destruct (Z.eq_dec b 0) as [->|Hne]; [simpl; lia|];
    apply Z.log2_lt_pow2; [lia|];
    apply Z.lt_le_trans with (2 ^ 8); [lia|apply Z.pow_le_mono_r; lia].
Qed.

Lemma be_encode_2 (v : Z) :
  be_encode 2 v = [(v / 256) mod 256; v mod 256].
Proof. reflexivity. Qed.

Lemma read_bytes_middle (a v b : list Z) :
  read_bytes (a ++ v ++ b) (Z.of_nat (length a)) (length v) = v.
Proof.
  unfold read_bytes. apply list_eq. intros i.
  rewrite list_lookup_fmap.
  destruct (lt_dec i (length v)) as [Hlt|Hge].
  - rewrite lookup_seq_lt by exact Hlt. simpl.
    rewrite byte_at_app_r by lia.
    unfold byte_at. destruct (Z.ltb_spec (Z.of_nat i) 0); [lia|].
    rewrite Nat2Z.id, lookup_app_l by exact Hlt.
    destruct (v !! i) eqn:Hv; [reflexivity|].
    apply lookup_ge_None in Hv. lia.
  - rewrite lookup_seq_ge by lia. symmetry. apply lookup_ge_None. lia.
Qed.

Lemma byte_at_middle (a v b : list Z) (i : Z) :
  0 <= i < Z.of_nat (length v) ->
  byte_at (a ++ v ++ b) (Z.of_nat (length a) + i) = byte_at v i.
Proof.
  intros Hi. rewrite byte_at_app_r by lia. apply byte_at_app_l. lia.
Qed.

Lemma read_bytes_middle_prefix (a v b : list Z) (n : nat) :
  (n <= length v)%nat ->
  read_bytes (a ++ v ++ b) (Z.of_nat (length a)) n = read_bytes v 0 n.
Proof.
  intros Hn. unfold read_bytes. apply map_ext_in. intros i Hi.
  apply in_seq in Hi. rewrite Z.add_0_l. apply byte_at_middle. lia.
Qed.

Lemma item_bytes_length (item : Z * list Z) :
  length (item_bytes item) = (4 + length item.2)%nat.
Proof.
  unfold item_bytes. rewrite !length_app, !be_encode_length. lia.
Qed.

Lemma two_bytes_decode (v : Z) :
  0 <= v < 2 ^ 16 ->
  Z.lor (Z.shiftl ((v / 256) mod 256) 8) (v mod 256) = v.
Proof.
  intros Hv. change (2 ^ 16) with 65536 in Hv.
  assert (Hq : 0 <= v / 256 < 256).
  { split; [apply Z.div_pos; lia|apply Z.div_lt_upper_bound; lia]. }
  pose proof (Z.div_mod v 256 ltac:(lia)) as Hdm.
  rewrite lor_shiftl_bytes.
  - change (2 ^ 8) with 256. rewrite (Z.mod_small (v / 256)) by lia. lia.
  - apply Z.mod_pos_bound. lia.
  - change (2 ^ 8) with 256. apply Z.mod_pos_bound. lia.
Qed.

(** One turn of the loop at an item of the set. *)
Lemma read_item_at (done rest : list Z) (item : Z * list Z) (T : IndexTable)
    (it : SegmentItems) :
  item_fits item ->
  Z.of_nat (length (item_bytes item ++ rest)) < 2 ^ 63 ->
  let seg := done ++ item_bytes item ++ rest in
  let p := Z.of_nat (length done) in
  read_item 2 seg T it p (Z.of_nat (length (item_bytes item ++ rest))) =
    let '(T', it', msgs) :=
      store_item seg T it item.1 (Z.of_nat (length item.2)) (p + 4) in
    (Some (T', it', Z.of_nat (length (done ++ item_bytes item)),
           Z.of_nat (length rest)), msgs).
Proof.
  intros (Htag & Hpos & Hlen) Hsize seg p.
  change (2 ^ 16) with 65536 in *.
  change (2 ^ 63) with 9223372036854775808 in *.
  assert (Hb : forall i, 0 <= i < 4 ->
            byte_at seg (p + i) = byte_at (item_bytes item) i).
  { intros i Hi. unfold seg, p. apply byte_at_middle.
    rewrite item_bytes_length. lia. }
  assert (H0 : byte_at seg p = (item.1 / 256) mod 256)
    by (replace p with (p + 0) by lia; rewrite Hb by lia; reflexivity).
  assert (H1 : byte_at seg (p + 1) = item.1 mod 256)
    by (rewrite Hb by lia; reflexivity).
  assert (H2 : byte_at seg (p + 2)
               = (Z.of_nat (length item.2) / 256) mod 256)
    by (rewrite Hb by lia; reflexivity).
  assert (H3 : byte_at seg (p + 3) = Z.of_nat (length item.2) mod 256)
    by (rewrite Hb by lia; reflexivity).
  unfold read_item. change (2 =? 2) with true. cbv iota.
  rewrite H0, H1, H2, H3.
  rewrite !two_bytes_decode by lia.
  unfold UInt16, UInt32, wrap_unsigned.
  rewrite (Z.mod_small item.1) by (change (2 ^ 16) with 65536; lia).
  rewrite (Z.mod_small (Z.of_nat _)) by (change (2 ^ 32) with 4294967296; lia).
  rewrite length_app, item_bytes_length in Hsize |- *.
  rewrite Int64_small by (change (2 ^ 63) with 9223372036854775808; lia).
  destruct (Z.ltb_spec (Z.of_nat (4 + length item.2 + length rest)%nat - 4)
              (Z.of_nat (length item.2))) as [|_]; [lia|].
  destruct (store_item seg T it item.1 (Z.of_nat (length item.2)) (p + 4))
    as [[T' it'] msgs].
  rewrite Int64_small by (change (2 ^ 63) with 9223372036854775808; lia).
  replace (Z.of_nat (length (done ++ item_bytes item)))
    with (p + 4 + Z.of_nat (length item.2))
    by (unfold p; rewrite length_app, item_bytes_length; lia).
  replace (Z.of_nat (4 + length item.2 + length rest)%nat - 4
           - Z.of_nat (length item.2)) with (Z.of_nat (length rest)) by lia.
  reflexivity.
Qed.

Lemma local_set_cons (item : Z * list Z) (l : list (Z * list Z)) :
  local_set (item :: l) = item_bytes item ++ local_set l.
Proof. reflexivity. Qed.

Lemma local_set_app (a b : list (Z * list Z)) :
  local_set (a ++ b) = local_set a ++ local_set b.
Proof. unfold local_set. rewrite map_app, concat_app. reflexivity. Qed.

Section Item_value.

Variables (done rest : list Z) (item : Z * list Z).

Let seg := done ++ item_bytes item ++ rest.
Let p := Z.of_nat (length done).

Lemma item_value_split :
  seg = (done ++ be_encode 2 item.1
              ++ be_encode 2 (Z.of_nat (length item.2)))
        ++ item.2 ++ rest /\
  Z.of_nat (length (done ++ be_encode 2 item.1
                         ++ be_encode 2 (Z.of_nat (length item.2)))) = p + 4.
Proof.
  unfold seg, item_bytes, p. split.
  - rewrite <- !app_assoc. reflexivity.
  - rewrite !length_app, !be_encode_length. lia.
Qed.

Lemma item_value_bytes (n : nat) :
  (n <= length item.2)%nat ->
  read_bytes seg (p + 4) n = read_bytes item.2 0 n.
Proof.
  intros Hn. destruct item_value_split as (-> & <-).
  apply read_bytes_middle_prefix. exact Hn.
Qed.

Lemma item_value_all :
  read_bytes seg (p + 4) (length item.2) = item.2.
Proof.
  destruct item_value_split as (-> & <-). apply read_bytes_middle.
Qed.

Lemma item_value_byte (i : Z) :
  0 <= i < Z.of_nat (length item.2) ->
  byte_at seg (p + 4 + i) = byte_at item.2 i.
Proof.
  intros Hi. destruct item_value_split as (-> & <-).
  apply byte_at_middle. exact Hi.
Qed.

(** A plain item changes neither what the look-ups use of the table
    nor the locals the segment is built from. *)
Lemma store_item_plain (T : IndexTable) (it : SegmentItems) :
  plain_item item = true -> (0 < length item.2)%nat ->
  EditUnitByteCount T = 0 ->
  ItemSliceCount it = 0 -> ItemPosTableCount it = 0 ->
  exists T' it' msgs,
    store_item seg T it item.1 (Z.of_nat (length item.2)) (p + 4)
      = (T', it', msgs) /\
    same_index T T' /\ same_items it it' /\
    Forall (fun m => m = AssertionFailed) msgs.
Proof.
  intros Hplain Hpos Hvbr Hsl Hpt.
  assert (Hsame : same_index T T) by (unfold same_index; auto 10).
  assert (Hsit : same_items it it) by (unfold same_items; auto 10).
  unfold plain_item in Hplain. unfold store_item.
  destruct (Z.eqb_spec item.1 0x3f0b) as [_|_].
  { destruct (_ >=? 8); eexists _, _, _; (split; [reflexivity|]);
      (split; [|split; [exact Hsit|constructor]]);
      [unfold same_index; cbn; auto 10|exact Hsame]. }
  destruct (Z.eqb_spec item.1 0x3f0c) as [_|_]; [discriminate|].
  destruct (Z.eqb_spec item.1 0x3f0d) as [_|_].
  { destruct (_ >=? 8); eexists _, _, _; (split; [reflexivity|]);
      (split; [exact Hsame|split; [|constructor]]);
      [unfold same_items; cbn; auto 10|exact Hsit]. }
  destruct (Z.eqb_spec item.1 0x3f0a) as [_|Hne1]; [discriminate|].
  destruct (Z.eqb_spec item.1 0x3f09) as [_|Hne2]; [discriminate|].
  destruct (Z.eqb_spec item.1 0x3f05) as [_|_].
  { destruct (Z.geb_spec (Z.of_nat (length item.2)) 4) as [Hge|Hlt].
    - destruct (Z.ltb_spec (Z.of_nat (length item.2)) 4) as [|_]; [lia|].
      cbn [orb] in Hplain. apply Z.eqb_eq in Hplain.
      assert (Hval : GetI32 seg (p + 4) = 0).
      { unfold GetI32, GetU32 in *. rewrite item_value_bytes by lia.
        exact Hplain. }
      rewrite Hval. change (UInt32 0) with 0.
      eexists _, _, _. split; [reflexivity|].
      split; [|split; [exact Hsit|constructor]].
      unfold same_index. cbn. rewrite Hvbr. auto 10.
    - eexists _, _, _. split; [reflexivity|].
      split; [exact Hsame|split; [exact Hsit|constructor]]. }
  destruct (Z.eqb_spec item.1 0x3f06) as [_|_].
  { destruct (_ >=? 4); [destruct (IndexSID T =? 0)|];
      eexists _, _, _; (split; [reflexivity|]);
      (split; [|split; [exact Hsit|]]).
    - unfold same_index, IndexTable_set_header. cbn. auto 10.
    - constructor.
    - exact Hsame.
    - unfold mxflib_assert. destruct (IndexSID T =? _); repeat constructor.
    - exact Hsame.
    - constructor. }
  destruct (Z.eqb_spec item.1 0x3f07) as [_|_].
  { destruct (_ >=? 4); [destruct (BodySID T =? 0)|];
      eexists _, _, _; (split; [reflexivity|]);
      (split; [|split; [exact Hsit|]]).
    - unfold same_index, IndexTable_set_header. cbn. auto 10.
    - constructor.
    - exact Hsame.
    - unfold mxflib_assert. destruct (BodySID T =? _); repeat constructor.
    - exact Hsame.
    - constructor. }
  assert (Hb0 : byte_at seg (p + 4) = byte_at item.2 0).
  { replace (p + 4) with (p + 4 + 0) by lia. apply item_value_byte. lia. }
  destruct (Z.eqb_spec item.1 0x3f08) as [_|_].
  { cbn [orb] in Hplain. apply Z.eqb_eq in Hplain.
    destruct (Z.geb_spec (Z.of_nat (length item.2)) 1) as [_|]; [|lia].
    rewrite Hb0, Hplain.
    eexists _, _, _. split; [reflexivity|].
    split; [exact Hsame|split; [|constructor]].
    unfold same_items. cbn. auto 10. }
  destruct (Z.eqb_spec item.1 0x3f0e) as [_|_].
  { cbn [orb] in Hplain. apply Z.eqb_eq in Hplain.
    destruct (Z.geb_spec (Z.of_nat (length item.2)) 1) as [_|]; [|lia].
    rewrite Hb0, Hplain.
    eexists _, _, _. split; [reflexivity|].
    split; [exact Hsame|split; [|constructor]].
    unfold same_items. cbn. auto 10. }
  eexists _, _, _. split; [reflexivity|].
  split; [exact Hsame|split; [exact Hsit|constructor]].
Qed.

End Item_value.

Lemma store_item_StartPosition (seg : list Z) (T : IndexTable)
    (it : SegmentItems) (p : Z) :
  store_item seg T it 0x3f0c 8 p =
    (T, mkSegmentItems (pIndexEntryArray it) (IndexEntryArraySize it)
          (pDeltaEntryArray it) (DeltaEntryArraySize it) (GetI64 seg p)
          (ItemDuration it) (ItemSliceCount it) (ItemPosTableCount it), []).
Proof. reflexivity. Qed.

Lemma store_item_IndexEntryArray (seg : list Z) (T : IndexTable)
    (it : SegmentItems) (n p : Z) :
  store_item seg T it 0x3f0a n p =
    (T, mkSegmentItems (Some p) n (pDeltaEntryArray it)
          (DeltaEntryArraySize it) (ItemStartPosition it) (ItemDuration it)
          (ItemSliceCount it) (ItemPosTableCount it), []).
Proof. reflexivity. Qed.

Lemma same_index_trans (T1 T2 T3 : IndexTable) :
  same_index T1 T2 -> same_index T2 T3 -> same_index T1 T3.
Proof.
  unfold same_index.
  intros (H1 & H2 & H3 & H4 & H5 & H6 & H7 & H8 & H9)
         (G1 & G2 & G3 & G4 & G5 & G6 & G7 & G8 & G9).
  repeat split; congruence.
Qed.

Section Read_items.

Variable T0 : IndexTable.
Variables (S : Z) (arr : list Z) (all : list (Z * list Z)).
Hypothesis Hvbr0 : EditUnitByteCount T0 = 0.
Hypothesis HS : - 2 ^ 63 <= S < 2 ^ 63.
Hypothesis Hlen : Z.of_nat (length (local_set all)) < 2 ^ 63.

(** What has been read once the items [done] are behind the walking
    pointer. *)
Let read (done : list (Z * list Z)) (T : IndexTable) (it : SegmentItems)
    (msgs : list SegmentMessage) : Prop :=
  same_index T0 T /\
  pDeltaEntryArray it = None /\ DeltaEntryArraySize it = 0 /\
  ItemSliceCount it = 0 /\ ItemPosTableCount it = 0 /\
  ((0x3f0c, be_encode 8 S) ∈ done -> ItemStartPosition it = S) /\
  ((0x3f0a, arr) ∈ done ->
     IndexEntryArraySize it = Z.of_nat (length arr) /\
     exists a b, local_set all = a ++ arr ++ b /\
       pIndexEntryArray it = Some (Z.of_nat (length a))) /\
  ((0x3f0a, arr) ∉ done ->
     IndexEntryArraySize it = IndexEntryArraySize SegmentItems_init) /\
  Forall (fun m => m = AssertionFailed) msgs.

Lemma read_items_spec (todo : list (Z * list Z)) :
  forall (done : list (Z * list Z)) (fuel : nat) (T : IndexTable)
         (it : SegmentItems) (msgs : list SegmentMessage),
  all = done ++ todo ->
  Forall item_fits todo -> Forall (segment_item S arr) todo ->
  (length todo < fuel)%nat ->
  read done T it msgs ->
  exists T' it' msgs',
    read_items fuel 2 (local_set all) T it
      (Z.of_nat (length (local_set done))) (Z.of_nat (length (local_set todo)))
      msgs = Some (T', it', msgs') /\
    read all T' it' msgs'.
Proof.
  induction todo as [|item rest IH];
    intros done fuel T it msgs Hall Hfits Hitems Hfuel Hread.
  - destruct fuel as [|fuel]; [simpl in Hfuel; lia|].
    simpl. eexists _, _, _. split; [reflexivity|].
    rewrite app_nil_r in Hall. subst all. exact Hread.
  - destruct fuel as [|fuel]; [simpl in Hfuel; lia|].
    apply Forall_cons in Hfits as [Hfit Hfits].
    apply Forall_cons in Hitems as [Hitem Hitems].
    pose proof Hfit as (Htag & Hpos & Hvlen).
    assert (Hseg : local_set all
                   = local_set done ++ item_bytes item ++ local_set rest).
    { rewrite Hall, local_set_app, local_set_cons. reflexivity. }
    assert (Hsz : Z.of_nat (length (item_bytes item ++ local_set rest)) < 2 ^ 63).
    { rewrite Hseg, !length_app in Hlen. rewrite length_app. lia. }
    cbn [read_items]. rewrite local_set_cons.
    destruct (Z.gtb_spec (Z.of_nat (length (item_bytes item ++ local_set rest)))
                (2 + 2)) as [_|Hle].
    2: { rewrite length_app, item_bytes_length in Hle. lia. }
    rewrite Hseg.
    rewrite (read_item_at (local_set done) (local_set rest) item T it Hfit Hsz).
    rewrite <- Hseg.
    destruct Hread as (Hsame & HpD & HDs & Hsl & Hpt & Hst & Harr & Hnoarr & Hmsgs).
    assert (Hvbr : EditUnitByteCount T = 0)
      by (destruct Hsame as (-> & _); exact Hvbr0).
    assert (Hnext : forall T' it' m,
      read (done ++ [item]) T' it' (msgs ++ m) ->
      exists T'' it'' msgs',
        read_items fuel 2 (local_set all) T' it'
          (Z.of_nat (length (local_set done ++ item_bytes item)))
          (Z.of_nat (length (local_set rest))) (msgs ++ m)
        = Some (T'', it'', msgs') /\ read all T'' it'' msgs').
    { intros T' it' m Hr.
      replace (local_set done ++ item_bytes item)
        with (local_set (done ++ [item]))
        by (rewrite local_set_app; unfold local_set; simpl;
            rewrite app_nil_r; reflexivity).
      apply IH; [rewrite <- app_assoc; exact Hall|exact Hfits|exact Hitems
                |simpl in Hfuel; lia|exact Hr]. }
    destruct Hitem as [Hplain|[->| ->]].
    + (* a plain item *)
      destruct (store_item_plain (local_set done) (local_set rest) item T it
                  Hplain Hpos Hvbr Hsl Hpt)
        as (T' & it' & m & Hstore & Hsame' & Hsit & Hm).
      rewrite <- Hseg in Hstore. rewrite Hstore.
      apply Hnext.
      destruct Hsit as (E1 & E2 & E3 & E4 & E5 & E6 & E7).
      assert (Htag' : item <> (0x3f0c, be_encode 8 S)
                      /\ item <> (0x3f0a, arr)).
      { split; intros ->; discriminate Hplain. }
      destruct Htag' as (Hn1 & Hn2).
      split; [exact (same_index_trans _ _ _ Hsame Hsame')|].
      split; [congruence|]. split; [congruence|]. split; [congruence|].
      split; [congruence|]. split; [|split; [|split]].
      * intros [Hin|Hin%list_elem_of_singleton]%elem_of_app;
          [rewrite E5; auto|congruence].
      * intros [Hin|Hin%list_elem_of_singleton]%elem_of_app; [|congruence].
        destruct (Harr Hin) as (Hsize & a & b & Hab & Hp).
        split; [congruence|]. exists a, b. split; [exact Hab|congruence].
      * intros Hnot. rewrite E2. apply Hnoarr. intros Hin. apply Hnot.
        apply elem_of_app. auto.
      * apply Forall_app. auto.
    + (* the start position *)
      cbn [fst snd]. rewrite be_encode_length.
      change (Z.of_nat 8) with 8. rewrite store_item_StartPosition.
      apply Hnext. split; [exact Hsame|]. cbn.
      split; [exact HpD|]. split; [exact HDs|]. split; [exact Hsl|].
      split; [exact Hpt|]. split; [|split; [|split]].
      * intros _. unfold GetI64, GetU64.
        pose proof (item_value_all (local_set done) (local_set rest)
                      (0x3f0c, be_encode 8 S)) as Hval.
        cbn [fst snd] in Hval. rewrite be_encode_length in Hval.
        rewrite <- Hseg in Hval. rewrite Hval, be_decode_encode.
        change (256 ^ Z.of_nat 8) with (2 ^ 64).
        apply (Int64_UInt64 S). exact HS.
      * intros [Hin|Hin%list_elem_of_singleton]%elem_of_app; [|discriminate].
        exact (Harr Hin).
      * intros Hnot. apply Hnoarr. intros Hin. apply Hnot.
        apply elem_of_app. auto.
      * rewrite app_nil_r. exact Hmsgs.
    + (* the entry array *)
      cbn [fst snd]. rewrite store_item_IndexEntryArray.
      apply Hnext. split; [exact Hsame|]. cbn.
      split; [exact HpD|]. split; [exact HDs|]. split; [exact Hsl|].
      split; [exact Hpt|]. split; [|split; [|split]].
      * intros [Hin|Hin%list_elem_of_singleton]%elem_of_app; [|discriminate].
        exact (Hst Hin).
      * intros _. split; [reflexivity|].
        destruct (item_value_split (local_set done) (local_set rest)
                    (0x3f0a, arr)) as (Hsplit & Hoff).
        cbn [fst snd] in Hsplit, Hoff. rewrite <- Hseg in Hsplit.
        eexists _, _. split; [exact Hsplit|]. rewrite Hoff. reflexivity.
      * intros Hnot. exfalso. apply Hnot. apply elem_of_app. right.
        apply list_elem_of_singleton. reflexivity.
      * rewrite app_nil_r. exact Hmsgs.
Qed.

End Read_items.

Lemma local_set_length_ge (items : list (Z * list Z)) :
  (length items <= length (local_set items))%nat.
Proof.
  induction items as [|item l IH]; [simpl; lia|].
  rewrite local_set_cons, length_app, item_bytes_length. simpl. lia.
Qed.

Lemma wf_IndexTable_same_index (T T' : IndexTable) :
  same_index T T' -> wf_IndexTable T -> wf_IndexTable T'.
Proof.
  intros (_ & _ & _ & _ & _ & Hmap & _ & _ & Hsize). unfold wf_IndexTable.
  rewrite Hmap, Hsize. auto.
Qed.

Lemma be_decode_4 (n : Z) :
  0 <= n < 2 ^ 32 -> be_decode (be_encode 4 n) = n.
Proof.
  intros Hn. rewrite be_decode_encode. change (256 ^ Z.of_nat 4) with (2 ^ 32).
  apply Z.mod_small. exact Hn.
Qed.

(** What [AddIndexEntries] does when over-size segments are allowed. *)
Lemma AddIndexEntries_oversize (T : IndexTable) (s : IndexSegment)
    (n : Z) (Entries : list Z) :
  11 <= IndexEntrySize T < 2 ^ 31 ->
  0 <= EntryCount s -> 0 <= n ->
  n * IndexEntrySize T <= Z.of_nat (length Entries) ->
  (EntryCount s + n) * IndexEntrySize T < 2 ^ 31 ->
  IndexSegment_AddIndexEntries T s n (IndexEntrySize T) Entries true =
    (true,
     mkIndexSegment (StartPosition s) (DeltaCount s) (DeltaArray s)
       (EntryCount s + n)
       (DataChunk_Set (Z.to_nat (n * IndexEntrySize T)) Entries
          (length (IndexEntryArray s)) (IndexEntryArray s)), []).
Proof.
  intros Hsize Hcount Hn HEntries Hint.
  assert (H1 : 0 <= n * IndexEntrySize T)
    by (apply Z.mul_nonneg_nonneg; lia).
  assert (H0 : 0 <= EntryCount s * IndexEntrySize T)
    by (apply Z.mul_nonneg_nonneg; lia).
  assert (Hc : EntryCount s + n <= (EntryCount s + n) * IndexEntrySize T)
    by (apply mul_ge_r; lia).
  unfold IndexSegment_AddIndexEntries.
  rewrite (Int32_small (IndexEntrySize T)) by lia.
  rewrite Z.eqb_refl. simpl negb. cbv iota. simpl andb. cbv iota.
  rewrite (Int32_small (IndexEntrySize T * n)) by lia.
  rewrite (Int32_small (EntryCount s + n)) by lia.
  unfold with_IndexEntryArray. rewrite (Z.mul_comm (IndexEntrySize T) n).
  reflexivity.
Qed.

Section AddSegment_bytes.

Variable fresh : DeltaEntry.
Variable T : IndexTable.
Variables (items : list (Z * list Z)) (S n : Z) (E : list Z).

Hypothesis Hwf : wf_IndexTable T.
Hypothesis Hvbr : EditUnitByteCount T = 0.
Hypothesis HNSL : NSL T = 0.
Hypothesis HNPE : NPE T = 0.
Hypothesis HIES : IndexEntrySize T = 11.
Hypothesis Hn : 0 <= n.
Hypothesis HE : Z.of_nat (length E) = n * 11.
Hypothesis HS : - 2 ^ 63 < S.
Hypothesis HSn : S + n < 2 ^ 63.

Let arr := be_encode 4 n ++ be_encode 4 11 ++ E.
Let seg := local_set items.

Hypothesis Hlen : Z.of_nat (length seg) < 2 ^ 63.
Hypothesis Hfits : Forall item_fits items.
Hypothesis Hitems : Forall (segment_item S arr) items.
Hypothesis Hstart : (0x3f0c, be_encode 8 S) ∈ items.
Hypothesis Harr : (0x3f0a, arr) ∈ items.
Hypothesis Hfree : forall k s,
  (k, s) ∈ SegmentMap T -> k <> S /\ (k + EntryCount s <= S \/ S + n <= k).

Lemma IndexTable_AddSegment_bytes_run :
  exists T' msgs,
    same_index T T' /\
    Forall (fun m => m = AssertionFailed) msgs /\
    IndexTable_AddSegment_bytes fresh T seg (Z.of_nat (length seg)) 2
    = Some (with_SegmentMap T'
              (smap_set S
                 (mkIndexSegment S 0
                    (DeltaArray (AddIndexSegmentToIndexTable T' S)) (0 + n)
                    ([] ++ E))
                 (smap_insert S (AddIndexSegmentToIndexTable T' S)
                    (SegmentMap T))),
            Some S, msgs).
Proof.
  pose proof Hwf as (Hsize & Hsorted & Hsegs & Hdisj).
  assert (Harrlen : Z.of_nat (length arr) = 8 + n * 11).
  { unfold arr. rewrite !length_app, !be_encode_length. lia. }
  assert (Hn16 : n * 11 + 8 < 2 ^ 16).
  { rewrite Forall_forall in Hfits. destruct (Hfits _ Harr) as (_ & _ & H).
    cbn [snd] in H. lia. }
  change (2 ^ 16) with 65536 in Hn16.
  destruct (read_items_spec T S arr items Hvbr ltac:(lia) Hlen items []
              (Datatypes.S (Z.to_nat (Z.of_nat (length seg)))) T
              SegmentItems_init [] eq_refl Hfits Hitems)
    as (T' & it & msgs & Hrun & Hsame & HpD & HDs & Hsl & Hpt & Hst & Hix & _ & Hmsgs).
  { pose proof (local_set_length_ge items). fold seg in H. lia. }
  { split; [unfold same_index; auto 10|].
    split; [reflexivity|]. split; [reflexivity|]. split; [reflexivity|].
    split; [reflexivity|].
    split; [intros []%elem_of_nil|]. split; [intros []%elem_of_nil|].
    split; [reflexivity|constructor]. }
  specialize (Hst Hstart). destruct (Hix Harr) as (Hisz & a & b & Hab & HpI).
  fold seg in Hab, Hrun.
  exists T', msgs. split; [exact Hsame|]. split; [exact Hmsgs|].
  unfold IndexTable_AddSegment_bytes.
  change (Z.of_nat (length (local_set []))) with 0 in Hrun. rewrite Hrun.
  pose proof Hsame as (E1 & E2 & E3 & E4 & E5 & E6 & E7 & E8 & E9).
  rewrite E1, Hvbr. change (negb (0 =? 0)) with false. cbv iota.
  rewrite Hst.
  assert (Habs : forall s0, (S, s0) ∉ SegmentMap T').
  { intros s0 Hin. rewrite E6 in Hin. destruct (Hfree _ _ Hin) as (Hne & _).
    congruence. }
  rewrite (IndexTable_AddSegment_absent T' S Habs).
  set (new := AddIndexSegmentToIndexTable T' S).
  cbn [with_SegmentMap SegmentMap].
  assert (Hs2 : smap_sorted (smap_insert S new (SegmentMap T')))
    by (apply smap_insert_sorted; rewrite E6; exact Hsorted).
  rewrite (smap_lookup_elem _ _ new Hs2)
    by (apply elem_of_smap_insert_new, Habs).
  rewrite HDs. change (0 =? 0) with true. cbv iota.
  cbn [DeltaCount DeltaArray StartPosition EntryCount IndexEntryArray
       BaseDeltaCount BaseDeltaArray IndexEntrySize NSL NPE IndexSID BodySID
       EditRate EditUnitByteCount IndexDuration PreCharge SegmentMap].
  rewrite Hsl, Hpt. change (11 + 4 * 0 + 8 * 0) with 11.
  rewrite andb_false_r.
  cbn [DeltaCount DeltaArray StartPosition EntryCount IndexEntryArray
       BaseDeltaCount BaseDeltaArray IndexEntrySize NSL NPE IndexSID BodySID
       EditRate EditUnitByteCount IndexDuration PreCharge SegmentMap].
  rewrite Hisz, Harrlen, HpI. cbn [default from_option id].
  destruct (Z.eqb_spec (8 + n * 11) 0) as [|_]; [lia|].
  destruct (Z.geb_spec (8 + n * 11) 8) as [_|]; [|lia].
  unfold with_SegmentMap.
  cbn [DeltaCount DeltaArray StartPosition EntryCount IndexEntryArray
       BaseDeltaCount BaseDeltaArray IndexEntrySize NSL NPE IndexSID BodySID
       EditRate EditUnitByteCount IndexDuration PreCharge SegmentMap].
  (* the header of the entry array *)
  assert (Hcount : GetU32 seg (Z.of_nat (length a)) = n).
  { unfold GetU32. rewrite Hab.
    rewrite (read_bytes_middle_prefix a arr b 4) by lia.
    unfold arr.
    pose proof (read_bytes_middle [] (be_encode 4 n) (be_encode 4 11 ++ E)) as Hr.
    rewrite be_encode_length in Hr.
    cbn [app length] in Hr. change (Z.of_nat 0) with 0 in Hr. rewrite Hr.
    apply be_decode_4. change (2 ^ 32) with 4294967296. lia. }
  assert (Hesize : GetU32 seg (Z.of_nat (length a) + 4) = 11).
  { unfold GetU32. rewrite Hab. unfold arr.
    replace (a ++ (be_encode 4 n ++ be_encode 4 11 ++ E) ++ b)
      with ((a ++ be_encode 4 n) ++ be_encode 4 11 ++ (E ++ b))
      by (rewrite <- !app_assoc; reflexivity).
    replace (Z.of_nat (length a) + 4)
      with (Z.of_nat (length (a ++ be_encode 4 n)))
      by (rewrite length_app, be_encode_length; lia).
    pose proof (read_bytes_middle (a ++ be_encode 4 n) (be_encode 4 11)
                  (E ++ b)) as Hr.
    rewrite (be_encode_length 4 11) in Hr. rewrite Hr. reflexivity. }
  assert (Hdrop : drop (Z.to_nat (Z.of_nat (length a) + 8)) seg = E ++ b).
  { rewrite Hab. unfold arr.
    replace (a ++ (be_encode 4 n ++ be_encode 4 11 ++ E) ++ b)
      with ((a ++ be_encode 4 n ++ be_encode 4 11) ++ E ++ b)
      by (rewrite <- !app_assoc; reflexivity).
    replace (Z.to_nat (Z.of_nat (length a) + 8))
      with (length (a ++ be_encode 4 n ++ be_encode 4 11))
      by (rewrite !length_app, !be_encode_length; lia).
    apply drop_app_length. }
  rewrite Hcount, Hesize, Hdrop.
  change (negb (Int32 11 =? 11)) with false. cbv iota.
  rewrite (Int32_small n) by (change (2 ^ 31) with 2147483648; lia).
  match goal with
  | |- context [IndexSegment_AddIndexEntries ?Tr ?sr n 11 (E ++ b) true] =>
      pose proof (AddIndexEntries_oversize Tr sr n (E ++ b)) as Hadd
  end.
  cbn [IndexEntrySize EntryCount StartPosition DeltaCount DeltaArray
       IndexEntryArray] in Hadd.
  rewrite Hadd.
  2: { change (2 ^ 31) with 2147483648. lia. }
  2: { unfold new. cbn. lia. }
  2: exact Hn.
  2: { rewrite length_app. lia. }
  2: { unfold new. cbn. change (2 ^ 31) with 2147483648. lia. }
  cbn [map app]. rewrite app_nil_r.
  subst new. unfold DataChunk_Set.
  cbn [AddIndexSegmentToIndexTable StartPosition EntryCount IndexEntryArray
       DeltaArray DeltaCount length Nat.sub replicate app take Nat.add].
  rewrite drop_nil, app_nil_r.
  rewrite take_app_length' by lia.
  rewrite E6, E7, E8, E9, HNSL, HNPE, HIES.
  reflexivity.
Qed.

End AddSegment_bytes.

Lemma Lookup_same_index (T T' : IndexTable) (E' k : Z) (s : IndexSegment) :
  same_index T T' -> wf_IndexTable T -> EditUnitByteCount T = 0 ->
  (k, s) ∈ SegmentMap T -> contains s E' ->
  let Ret' := (IndexTable_Lookup T' E' 0 false).1 in
  let Ret := (IndexTable_Lookup T E' 0 false).1 in
  Location Ret' = Location Ret /\ KeyFrameOffset Ret' = KeyFrameOffset Ret /\
  Flags Ret' = Flags Ret /\ TemporalOffset Ret' = TemporalOffset Ret.
Proof.
  intros Hsame Hwf Hvbr Hin Hcon.
  pose proof (wf_IndexTable_same_index T T' Hsame Hwf) as Hwf'.
  destruct Hsame as (E1 & _ & _ & _ & _ & E6 & _ & _ & E9).
  destruct (IndexTable_Lookup_entry T Hwf E' k s Hvbr Hin Hcon)
    as (_ & HL & HK & HF & HT & _).
  destruct (IndexTable_Lookup_entry T' Hwf' E' k s ltac:(congruence)
              ltac:(rewrite E6; exact Hin) Hcon)
    as (_ & HL' & HK' & HF' & HT' & _).
  cbv zeta. rewrite HL, HK, HF, HT, HL', HK', HF', HT', E9. auto.
Qed.

(** X24. Loading a VBR segment from its bytes and looking it up.  The
    bytes are a local set with 2-byte tags and lengths that holds the
    start position [S], an entry array of [n] entries of 11 bytes, and
    any further items other than slice or PosTable counts that are not
    0, a byte count that is not 0 and a delta array, in any order; the
    table is a well-formed VBR table of 11-byte entries without an
    entry or a segment start in [S, S + n).  Then [AddSegment] returns
    the segment at [S]; its only messages, if any, are failed
    assertions on the stream IDs; the table stays a well-formed VBR
    table; a look-up of [S + j] finds the stream offset, key-frame
    offset, flags and temporal offset of entry [j] of the array; and
    every edit unit that had an entry is found as before. *)
Theorem IndexTable_AddSegment_bytes_Lookup (fresh : DeltaEntry)
    (T : IndexTable) (items : list (Z * list Z)) (S n : Z) (E : list Z) :
  wf_IndexTable T -> EditUnitByteCount T = 0 ->
  NSL T = 0 -> NPE T = 0 -> IndexEntrySize T = 11 ->
  0 <= n -> Z.of_nat (length E) = n * 11 ->
  - 2 ^ 63 < S -> S + n < 2 ^ 63 ->
  let arr := be_encode 4 n ++ be_encode 4 11 ++ E in
  let seg := local_set items in
  Z.of_nat (length seg) < 2 ^ 63 ->
  Forall item_fits items -> Forall (segment_item S arr) items ->
  (0x3f0c, be_encode 8 S) ∈ items -> (0x3f0a, arr) ∈ items ->
  (forall k s, (k, s) ∈ SegmentMap T ->
     k <> S /\ (k + EntryCount s <= S \/ S + n <= k)) ->
  exists T' msgs,
    IndexTable_AddSegment_bytes fresh T seg (Z.of_nat (length seg)) 2
      = Some (T', Some S, msgs) /\
    Forall (fun m => m = AssertionFailed) msgs /\
    wf_IndexTable T' /\ EditUnitByteCount T' = 0 /\
    (forall j, 0 <= j < n ->
       let Ret := (IndexTable_Lookup T' (S + j) 0 false).1 in
       ThisPos Ret = S + j /\
       Location Ret = GetI64 E (j * 11 + 3) /\
       KeyFrameOffset Ret = GetI8 E (j * 11 + 1) /\
       Flags Ret = GetU8 E (j * 11 + 2) /\
       TemporalOffset Ret = GetI8 E (j * 11)) /\
    (forall E' k s, (k, s) ∈ SegmentMap T -> contains s E' ->
       let Ret' := (IndexTable_Lookup T' E' 0 false).1 in
       let Ret := (IndexTable_Lookup T E' 0 false).1 in
       Location Ret' = Location Ret /\ KeyFrameOffset Ret' = KeyFrameOffset Ret /\
       Flags Ret' = Flags Ret /\ TemporalOffset Ret' = TemporalOffset Ret).
Proof.
  intros Hwf Hvbr HNSL HNPE HIES Hn HE HS HSn arr seg Hlen Hfits Hitems
    Hstart Harr Hfree.
  destruct (IndexTable_AddSegment_bytes_run fresh T items S n E Hwf Hvbr HNSL
              HNPE HIES Hn HE HS HSn Hlen Hfits Hitems Hstart Harr Hfree)
    as (T1 & msgs & Hsame & Hmsgs & Hrun).
  fold seg in Hrun.
  pose proof Hsame as (E1 & _ & _ & _ & _ & E6 & _ & _ & E9).
  pose proof (wf_IndexTable_same_index T T1 Hsame Hwf) as Hwf1.
  pose proof Hwf as (Hsize & Hsorted & Hsegs & Hdisj).
  assert (Hvbr1 : EditUnitByteCount T1 = 0) by congruence.
  set (new := AddIndexSegmentToIndexTable T1 S) in *.
  set (s := mkIndexSegment S 0 (DeltaArray new) 0 []).
  set (m' := smap_set S
               (mkIndexSegment S 0 (DeltaArray new) (0 + n) ([] ++ E))
               (smap_insert S new (SegmentMap T))) in *.
  assert (Habs : forall s0, (S, s0) ∉ SegmentMap T).
  { intros s0 Hin. destruct (Hfree _ _ Hin) as (Hne & _). congruence. }
  assert (Hs2 : smap_sorted (smap_insert S new (SegmentMap T)))
    by (apply smap_insert_sorted; exact Hsorted).
  assert (Hsorted' : smap_sorted m') by (apply smap_set_sorted, Hs2).
  assert (Hmem : forall k0 s0,
            (k0, s0) ∈ m' <->
            (k0, s0) = (S, mkIndexSegment (StartPosition s) (DeltaCount s)
                             (DeltaArray s) (EntryCount s + n)
                             (IndexEntryArray s ++ E))
            \/ ((k0, s0) ∈ SegmentMap T1 /\ k0 <> S)).
  { intros k0 s0. unfold m'. rewrite (elem_of_smap_set _ _ _ _ _ Hs2), E6.
    cbn [s StartPosition DeltaCount DeltaArray EntryCount IndexEntryArray].
    split.
    - intros [(-> & -> & _)|[Hin Hk]]; [left; reflexivity|].
      right. split; [|exact Hk].
      apply elem_of_smap_insert_inv in Hin as [[= ? ?]|Hin]; [lia|exact Hin].
    - intros [[= -> ->]|[Hin Hk]].
      + left. split; [reflexivity|]. split; [reflexivity|].
        exists new. apply elem_of_smap_insert_new, Habs.
      + right. split; [|exact Hk]. apply elem_of_smap_insert_old, Hin. }
  assert (Hseg : wf_segment (IndexEntrySize T1) S s).
  { unfold wf_segment, s. cbn. change (2 ^ 31) with 2147483648. lia. }
  assert (Hend : S + EntryCount s = S) by (cbn; lia).
  assert (Hn16 : n * 11 + 8 < 2 ^ 16).
  { rewrite Forall_forall in Hfits. destruct (Hfits _ Harr) as (_ & _ & H).
    cbn [snd] in H. unfold arr in H.
    rewrite !length_app, !be_encode_length in H. lia. }
  change (2 ^ 16) with 65536 in Hn16.
  assert (Hfit : (EntryCount s + n) * IndexEntrySize T1 < 2 ^ 31).
  { rewrite E9, HIES. cbn [s EntryCount]. change (2 ^ 31) with 2147483648. lia. }
  assert (Hafter : forall k0 s0, (k0, s0) ∈ SegmentMap T1 -> S < k0 ->
            S + n <= k0).
  { intros k0 s0 Hin Hlt. rewrite E6 in Hin.
    destruct (Hfree _ _ Hin) as (_ & [Hb|Ha]); [|exact Ha].
    destruct (Hsegs _ _ Hin) as (_ & _ & Hcnt & _). lia. }
  assert (Hbefore : forall k0 s0, (k0, s0) ∈ SegmentMap T1 -> k0 < S ->
            k0 + EntryCount s0 <= S).
  { intros k0 s0 Hin Hlt. rewrite E6 in Hin.
    destruct (Hfree _ _ Hin) as (_ & [Hb|Ha]); [exact Hb|lia]. }
  assert (Hold : forall s0, (S, s0) ∈ SegmentMap T1 -> s0 = s).
  { intros s0 Hin. rewrite E6 in Hin. exfalso. exact (Habs _ Hin). }
  assert (HBlen : Z.of_nat (length E) = n * IndexEntrySize T1)
    by (rewrite E9, HIES; exact HE).
  exists (with_SegmentMap T1 m'), msgs.
  split; [exact Hrun|]. split; [exact Hmsgs|].
  split.
  { exact (appended_entries_wf T1 Hwf1 m' S S n s E Hn Hsorted' Hmem Hseg Hend
             Hfit HSn Hafter Hbefore HBlen). }
  split; [exact Hvbr1|]. split.
  - intros j Hj.
    destruct (appended_entries_Lookup_new T1 Hwf1 Hvbr1 m' S S n s E Hn Hsorted'
                Hmem Hseg Hend Hfit HSn Hafter Hbefore HBlen (S + j) ltac:(lia))
      as (_ & HP & HL & HK & HF & HT).
    rewrite E9, HIES in HL, HK, HF, HT.
    replace (S + j - S) with j in HL, HK, HF, HT by lia.
    cbv zeta. split; [exact HP|]. split; [exact HL|]. split; [exact HK|].
    split; [exact HF|exact HT].
  - intros E' k0 s0 Hin Hcon.
    destruct (appended_entries_Lookup_old T1 Hwf1 Hvbr1 m' S S n s E Hn Hsorted'
                Hmem Hseg Hend Hfit HSn Hafter Hbefore Hold HBlen E' k0 s0
                ltac:(rewrite E6; exact Hin) Hcon) as (A1 & A2 & A3 & A4).
    destruct (Lookup_same_index T T1 E' k0 s0 Hsame Hwf Hvbr Hin Hcon)
      as (B1 & B2 & B3 & B4).
    cbv zeta. split; [congruence|]. split; [congruence|].
    split; congruence.
Qed.

(** The example segment is loaded into the example table: edit unit 21
    is then found at stream offset 5100. *)
Lemma IndexTable_AddSegment_bytes_Lookup_witness :
  exists T' msgs,
    IndexTable_AddSegment_bytes (mkDeltaEntry 0 0 [])
      example_table (local_set example_segment_items)
      (Z.of_nat (length (local_set example_segment_items))) 2
      = Some (T', Some 20, msgs) /\
    Location (IndexTable_Lookup T' 21 0 false).1 = 5100 /\
    KeyFrameOffset (IndexTable_Lookup T' 21 0 false).1 = -1.
Proof.
  destruct (IndexTable_AddSegment_bytes_Lookup (mkDeltaEntry 0 0 [])
              example_table example_segment_items 20 2 example_loaded_entries
              example_table_wf eq_refl eq_refl eq_refl eq_refl ltac:(lia)
              eq_refl ltac:(lia) ltac:(lia))
    as (T' & msgs & Hrun & _ & _ & _ & Hnew & _).
  - vm_compute. reflexivity.
  - repeat constructor; vm_compute; congruence.
  - repeat (apply Forall_cons; split;
            [first [left; reflexivity|right; left; reflexivity
                   |right; right; reflexivity]|]).
    apply Forall_nil. exact I.
  - apply elem_of_cons. right. apply elem_of_cons. left. reflexivity.
  - do 4 (apply elem_of_cons; right). apply elem_of_cons. left. reflexivity.
  - intros k s Hin. destruct (example_table_ends k s Hin) as (Hend & _).
    split; [|left; lia].
    unfold example_table in Hin. cbn [SegmentMap] in Hin.
    apply elem_of_cons in Hin as [[= -> ->]|Hin]; [lia|].
    apply list_elem_of_singleton in Hin as [= -> ->]. lia.
  - exists T', msgs. split; [exact Hrun|].
    destruct (Hnew 1 ltac:(lia)) as (_ & HL & HK & _).
    split; [exact HL|exact HK].
Defined.

(** The loop over a delta array of [k] entries that are left. *)
Lemma read_deltas_spec (seg : list Z) (ItemSize : Z) (k : nat) :
  forall (fuel : nat) (p Delta : Z) (a : list DeltaEntry),
  0 < ItemSize -> (k < fuel)%nat ->
  Z.of_nat k * ItemSize < 2 ^ 63 ->
  0 <= Delta -> Delta + Z.of_nat k <= Z.of_nat (length a) ->
  Z.of_nat (length a) < 2 ^ 31 ->
  exists a',
    read_deltas fuel seg p (Z.of_nat k * ItemSize) ItemSize Delta a = Some a' /\
    length a' = length a /\
    (forall i, (i < Z.to_nat Delta)%nat -> a' !! i = a !! i) /\
    (forall j, (j < k)%nat ->
       a' !! (Z.to_nat Delta + j)%nat
         = Some (delta_of_bytes seg (p + Z.of_nat j * ItemSize))) /\
    (forall i, (Z.to_nat Delta + k <= i)%nat -> a' !! i = a !! i).
Proof.
  induction k as [|k IH]; intros fuel p Delta a Hsz Hfuel Hfit HD Hlen Hmax.
  - destruct fuel as [|fuel]; [lia|]. cbn [read_deltas].
    change (Z.of_nat 0 * ItemSize) with 0.
    destruct (Z.geb_spec 0 ItemSize) as [|_]; [lia|].
    exists a. split; [reflexivity|]. split; [reflexivity|].
    split; [auto|]. split; [intros j Hj; lia|auto].
  - destruct fuel as [|fuel]; [lia|]. cbn [read_deltas].
    assert (Hk : 0 <= Z.of_nat k * ItemSize) by (apply Z.mul_nonneg_nonneg; lia).
    replace (Z.of_nat (Datatypes.S k) * ItemSize)
      with (Z.of_nat k * ItemSize + ItemSize) in * by lia.
    destruct (Z.geb_spec (Z.of_nat k * ItemSize + ItemSize) ItemSize) as [_|];
      [|lia].
    destruct (Z.ltb_spec Delta 0) as [|_]; [lia|].
    replace (Z.of_nat k * ItemSize + ItemSize - ItemSize)
      with (Z.of_nat k * ItemSize) by lia.
    rewrite Int64_small
      by (change (2 ^ 63) with 9223372036854775808 in *; lia).
    rewrite Int32_small by (change (2 ^ 31) with 2147483648 in *; lia).
    destruct (IH fuel (p + ItemSize) (Delta + 1)
                (<[Z.to_nat Delta := delta_of_bytes seg p]> a))
      as (a' & Hrun & Hl & Hlow & Hnew & Hhigh);
      [lia|lia|lia|lia|rewrite length_insert; lia|rewrite length_insert; lia|].
    exists a'. split; [exact Hrun|].
    rewrite length_insert in Hl. split; [exact Hl|].
    split; [|split].
    + intros i Hi. rewrite Hlow by lia.
      apply list_lookup_insert_ne. lia.
    + intros j Hj. destruct j as [|j].
      * rewrite Nat.add_0_r, Hlow by lia.
        rewrite list_lookup_insert_eq by lia.
        do 2 f_equal. lia.
      * replace (Z.to_nat Delta + Datatypes.S j)%nat
          with (Z.to_nat (Delta + 1) + j)%nat by lia.
        rewrite Hnew by lia. do 2 f_equal. lia.
    + intros i Hi. rewrite Hhigh by lia.
      apply list_lookup_insert_ne. lia.
Qed.

Lemma UInt32_Int32 (x : Z) : 0 <= x < 2 ^ 32 -> UInt32 (Int32 x) = x.
Proof.
  intros Hx. unfold UInt32, Int32, wrap_unsigned, wrap_signed.
  change (2 ^ (32 - 1)) with (2 ^ 31).
  rewrite <- (Z.mod_small x (2 ^ 32)) at 2 by exact Hx.
  rewrite <- Zminus_mod_idemp_l, Z.mod_mod by lia.
  rewrite Zminus_mod_idemp_l. f_equal. lia.
Qed.

Lemma same_index_refl (T : IndexTable) : same_index T T.
Proof. unfold same_index. auto 10. Qed.

(** An item other than the byte count, the duration and the delta
    array leaves the byte count, the duration read and the delta array
    found as they are. *)
Lemma store_item_cbr_plain (seg : list Z) (T : IndexTable) (it : SegmentItems)
    (item : Z * list Z) (p : Z) :
  cbr_plain_item item = true ->
  exists T' it' msgs,
    store_item seg T it item.1 (Z.of_nat (length item.2)) p = (T', it', msgs) /\
    same_index T T' /\
    pDeltaEntryArray it' = pDeltaEntryArray it /\
    DeltaEntryArraySize it' = DeltaEntryArraySize it /\
    ItemDuration it' = ItemDuration it /\
    Forall (fun m => m = AssertionFailed) msgs.
Proof.
  intros Hplain. unfold cbr_plain_item in Hplain.
  apply negb_true_iff in Hplain.
  apply orb_false_iff in Hplain as [Hplain H09].
  apply orb_false_iff in Hplain as [H05 H0d].
  pose proof (same_index_refl T) as Hsame.
  unfold store_item. rewrite H05, H0d, H09.
  destruct (item.1 =? 0x3f0b).
  { destruct (Z.of_nat (length item.2) >=? 8); eexists _, _, _;
      (split; [reflexivity|]); (split; [|auto using Forall_nil]);
      [unfold same_index; cbn; auto 10|exact Hsame]. }
  destruct (item.1 =? 0x3f0c).
  { destruct (Z.of_nat (length item.2) >=? 8); eexists _, _, _;
      (split; [reflexivity|]); cbn; auto using Forall_nil. }
  destruct (item.1 =? 0x3f06).
  { destruct (Z.of_nat (length item.2) >=? 4); [destruct (IndexSID T =? 0)|];
      eexists _, _, _; (split; [reflexivity|]);
      (split; [|split; [reflexivity|split; [reflexivity|split; [reflexivity|]]]]).
    - unfold same_index, IndexTable_set_header. cbn. auto 10.
    - constructor.
    - exact Hsame.
    - unfold mxflib_assert. destruct (IndexSID T =? _); repeat constructor.
    - exact Hsame.
    - constructor. }
  destruct (item.1 =? 0x3f07).
  { destruct (Z.of_nat (length item.2) >=? 4); [destruct (BodySID T =? 0)|];
      eexists _, _, _; (split; [reflexivity|]);
      (split; [|split; [reflexivity|split; [reflexivity|split; [reflexivity|]]]]).
    - unfold same_index, IndexTable_set_header. cbn. auto 10.
    - constructor.
    - exact Hsame.
    - unfold mxflib_assert. destruct (BodySID T =? _); repeat constructor.
    - exact Hsame.
    - constructor. }
  destruct (item.1 =? 0x3f08).
  { destruct (Z.of_nat (length item.2) >=? 1); eexists _, _, _;
      (split; [reflexivity|]); cbn; auto using Forall_nil. }
  destruct (item.1 =? 0x3f0e).
  { destruct (Z.of_nat (length item.2) >=? 1); eexists _, _, _;
      (split; [reflexivity|]); cbn; auto using Forall_nil. }
  destruct (item.1 =? 0x3f0a).
  { eexists _, _, _. split; [reflexivity|]. cbn. auto using Forall_nil. }
  eexists _, _, _. split; [reflexivity|]. auto using Forall_nil.
Qed.

Lemma same_index_segments (T T' : IndexTable) :
  same_index T T' -> same_segments T T'.
Proof.
  unfold same_index, same_segments. intros (_ & H). exact H.
Qed.

Lemma same_segments_trans (T1 T2 T3 : IndexTable) :
  same_segments T1 T2 -> same_segments T2 T3 -> same_segments T1 T3.
Proof.
  unfold same_segments.
  intros (H2 & H3 & H4 & H5 & H6 & H7 & H8 & H9)
         (G2 & G3 & G4 & G5 & G6 & G7 & G8 & G9).
  repeat split; congruence.
Qed.

Section Read_cbr_items.

Variable T0 : IndexTable.
Variables (B D : Z) (darr : list Z) (all : list (Z * list Z)).
Hypothesis HB : 0 <= B < 2 ^ 32.
Hypothesis HD : - 2 ^ 63 <= D < 2 ^ 63.
Hypothesis Hlen : Z.of_nat (length (local_set all)) < 2 ^ 63.

Let read (done : list (Z * list Z)) (T : IndexTable) (it : SegmentItems)
    (msgs : list SegmentMessage) : Prop :=
  same_segments T0 T /\
  ((0x3f05, be_encode 4 B) ∈ done -> EditUnitByteCount T = B) /\
  ((0x3f0d, be_encode 8 D) ∈ done -> ItemDuration it = D) /\
  ((0x3f09, darr) ∈ done ->
     DeltaEntryArraySize it = Z.of_nat (length darr) /\
     exists a b, local_set all = a ++ darr ++ b /\
       pDeltaEntryArray it = Some (Z.of_nat (length a))) /\
  Forall (fun m => m = AssertionFailed) msgs.

Lemma read_cbr_items_spec (todo : list (Z * list Z)) :
  forall (done : list (Z * list Z)) (fuel : nat) (T : IndexTable)
         (it : SegmentItems) (msgs : list SegmentMessage),
  all = done ++ todo ->
  Forall item_fits todo -> Forall (cbr_item B D darr) todo ->
  (length todo < fuel)%nat ->
  read done T it msgs ->
  exists T' it' msgs',
    read_items fuel 2 (local_set all) T it
      (Z.of_nat (length (local_set done))) (Z.of_nat (length (local_set todo)))
      msgs = Some (T', it', msgs') /\
    read all T' it' msgs'.
Proof.
  induction todo as [|item rest IH];
    intros done fuel T it msgs Hall Hfits Hitems Hfuel Hread.
  - destruct fuel as [|fuel]; [simpl in Hfuel; lia|].
    simpl. eexists _, _, _. split; [reflexivity|].
    rewrite app_nil_r in Hall. subst all. exact Hread.
  - destruct fuel as [|fuel]; [simpl in Hfuel; lia|].
    apply Forall_cons in Hfits as [Hfit Hfits].
    apply Forall_cons in Hitems as [Hitem Hitems].
    pose proof Hfit as (Htag & Hpos & Hvlen).
    assert (Hseg : local_set all
                   = local_set done ++ item_bytes item ++ local_set rest).
    { rewrite Hall, local_set_app, local_set_cons. reflexivity. }
    assert (Hsz : Z.of_nat (length (item_bytes item ++ local_set rest)) < 2 ^ 63).
    { rewrite Hseg, !length_app in Hlen. rewrite length_app. lia. }
    cbn [read_items]. rewrite local_set_cons.
    destruct (Z.gtb_spec (Z.of_nat (length (item_bytes item ++ local_set rest)))
                (2 + 2)) as [_|Hle].
    2: { rewrite length_app, item_bytes_length in Hle. lia. }
    rewrite Hseg.
    rewrite (read_item_at (local_set done) (local_set rest) item T it Hfit Hsz).
    rewrite <- Hseg.
    destruct Hread as (Hsame & Hbc & Hdur & Hda & Hmsgs).
    assert (Hnext : forall T' it' m,
      read (done ++ [item]) T' it' (msgs ++ m) ->
      exists T'' it'' msgs',
        read_items fuel 2 (local_set all) T' it'
          (Z.of_nat (length (local_set done ++ item_bytes item)))
          (Z.of_nat (length (local_set rest))) (msgs ++ m)
        = Some (T'', it'', msgs') /\ read all T'' it'' msgs').
    { intros T' it' m Hr.
      replace (local_set done ++ item_bytes item)
        with (local_set (done ++ [item]))
        by (rewrite local_set_app; unfold local_set; simpl;
            rewrite app_nil_r; reflexivity).
      apply IH; [rewrite <- app_assoc; exact Hall|exact Hfits|exact Hitems
                |simpl in Hfuel; lia|exact Hr]. }
    destruct Hitem as [Hplain|[->|[->| ->]]].
    + (* another item *)
      destruct (store_item_cbr_plain (local_set all) T it item
                  (Z.of_nat (length (local_set done)) + 4) Hplain)
        as (T' & it' & m & Hstore & Hsame' & E1 & E2 & E3 & Hm).
      rewrite Hstore. apply Hnext.
      assert (Hn1 : item <> (0x3f05, be_encode 4 B)) by (intros ->; discriminate).
      assert (Hn2 : item <> (0x3f0d, be_encode 8 D)) by (intros ->; discriminate).
      assert (Hn3 : item <> (0x3f09, darr)) by (intros ->; discriminate).
      split; [exact (same_segments_trans _ _ _ Hsame
                       (same_index_segments _ _ Hsame'))|].
      split; [|split; [|split]].
      * intros [Hin|Hin%list_elem_of_singleton]%elem_of_app; [|congruence].
        destruct Hsame' as (-> & _). auto.
      * intros [Hin|Hin%list_elem_of_singleton]%elem_of_app; [|congruence].
        rewrite E3. auto.
      * intros [Hin|Hin%list_elem_of_singleton]%elem_of_app; [|congruence].
        destruct (Hda Hin) as (Hsize & a & b & Hab & Hp).
        split; [congruence|]. exists a, b. split; [exact Hab|congruence].
      * apply Forall_app. auto.
    + (* the byte count *)
      cbn [fst snd]. rewrite be_encode_length. change (Z.of_nat 4) with 4.
      change (store_item (local_set all) T it 16133 4
                (Z.of_nat (length (local_set done)) + 4))
        with (IndexTable_set_CBR T
                (UInt32 (GetI32 (local_set all)
                           (Z.of_nat (length (local_set done)) + 4)))
                (IndexDuration T), it, @nil SegmentMessage).
      apply Hnext. split.
      { destruct Hsame as (H2 & H3 & H4 & H5 & H6 & H7 & H8 & H9).
        unfold same_segments. cbn. auto 10. }
      split; [|split; [|split]].
      * intros _. cbn [IndexTable_set_CBR EditUnitByteCount].
        unfold GetI32, GetU32.
        pose proof (item_value_all (local_set done) (local_set rest)
                      (0x3f05, be_encode 4 B)) as Hval.
        cbn [fst snd] in Hval. rewrite be_encode_length in Hval.
        rewrite <- Hseg in Hval. rewrite Hval, be_decode_4 by exact HB.
        apply UInt32_Int32. exact HB.
      * intros [Hin|Hin%list_elem_of_singleton]%elem_of_app; [|discriminate].
        exact (Hdur Hin).
      * intros [Hin|Hin%list_elem_of_singleton]%elem_of_app; [|discriminate].
        exact (Hda Hin).
      * rewrite app_nil_r. exact Hmsgs.
    + (* the duration *)
      cbn [fst snd]. rewrite be_encode_length. change (Z.of_nat 8) with 8.
      change (store_item (local_set all) T it 16141 8
                (Z.of_nat (length (local_set done)) + 4))
        with (T, mkSegmentItems (pIndexEntryArray it) (IndexEntryArraySize it)
                   (pDeltaEntryArray it) (DeltaEntryArraySize it)
                   (ItemStartPosition it)
                   (GetI64 (local_set all)
                      (Z.of_nat (length (local_set done)) + 4))
                   (ItemSliceCount it) (ItemPosTableCount it),
              @nil SegmentMessage).
      apply Hnext. split; [exact Hsame|].
      split; [|split; [|split]].
      * intros [Hin|Hin%list_elem_of_singleton]%elem_of_app; [|discriminate].
        exact (Hbc Hin).
      * intros _. cbn [ItemDuration]. unfold GetI64, GetU64.
        pose proof (item_value_all (local_set done) (local_set rest)
                      (0x3f0d, be_encode 8 D)) as Hval.
        cbn [fst snd] in Hval. rewrite be_encode_length in Hval.
        rewrite <- Hseg in Hval. rewrite Hval, be_decode_encode.
        change (256 ^ Z.of_nat 8) with (2 ^ 64).
        apply (Int64_UInt64 D). exact HD.
      * intros [Hin|Hin%list_elem_of_singleton]%elem_of_app; [|discriminate].
        exact (Hda Hin).
      * rewrite app_nil_r. exact Hmsgs.
    + (* the delta array *)
      cbn [fst snd].
      change (store_item (local_set all) T it 16137 (Z.of_nat (length darr))
                (Z.of_nat (length (local_set done)) + 4))
        with (T, mkSegmentItems (pIndexEntryArray it) (IndexEntryArraySize it)
                   (Some (Z.of_nat (length (local_set done)) + 4))
                   (Z.of_nat (length darr)) (ItemStartPosition it)
                   (ItemDuration it) (ItemSliceCount it) (ItemPosTableCount it),
              @nil SegmentMessage).
      apply Hnext. split; [exact Hsame|].
      split; [|split; [|split]].
      * intros [Hin|Hin%list_elem_of_singleton]%elem_of_app; [|discriminate].
        exact (Hbc Hin).
      * intros [Hin|Hin%list_elem_of_singleton]%elem_of_app; [|discriminate].
        exact (Hdur Hin).
      * intros _. split; [reflexivity|].
        destruct (item_value_split (local_set done) (local_set rest)
                    (0x3f09, darr)) as (Hsplit & Hoff).
        cbn [fst snd] in Hsplit, Hoff. rewrite <- Hseg in Hsplit.
        eexists _, _. split; [exact Hsplit|]. cbn [pDeltaEntryArray].
        rewrite Hoff. reflexivity.
      * rewrite app_nil_r. exact Hmsgs.
Qed.

End Read_cbr_items.

Section AddSegment_bytes_CBR.

Variable fresh : DeltaEntry.
Variable T : IndexTable.
Variables (items : list (Z * list Z)) (B D c : Z) (deltas : list Z).

Hypothesis HB : 0 < B < 2 ^ 32.
Hypothesis HD : - 2 ^ 63 <= D < 2 ^ 63.
Hypothesis Hc : 0 < c.
Hypothesis Hdeltas : Z.of_nat (length deltas) = c * 6.

Let darr := be_encode 4 c ++ be_encode 4 6 ++ deltas.
Let seg := local_set items.

Hypothesis Hlen : Z.of_nat (length seg) < 2 ^ 63.
Hypothesis Hfits : Forall item_fits items.
Hypothesis Hitems : Forall (cbr_item B D darr) items.
Hypothesis Hcount : (0x3f05, be_encode 4 B) ∈ items.
Hypothesis Hduration : (0x3f0d, be_encode 8 D) ∈ items.
Hypothesis Harray : (0x3f09, darr) ∈ items.

Lemma IndexTable_AddSegment_bytes_CBR_run :
  exists T' a msgs,
    same_segments T T' /\ EditUnitByteCount T' = B /\
    Forall (fun m => m = AssertionFailed) msgs /\
    length a = Z.to_nat c /\
    (forall i, 0 <= i < c ->
       a !! Z.to_nat i = Some (delta_of_bytes deltas (i * 6))) /\
    IndexTable_AddSegment_bytes fresh T seg (Z.of_nat (length seg)) 2
    = Some (mkIndexTable (IndexSID T') (BodySID T') (EditRate T') B
              (if D >? 0 then D else IndexDuration T) (PreCharge T) c a
              (SegmentMap T) (NSL T) (NPE T) (IndexEntrySize T),
            None, msgs).
Proof.
  assert (Hdlen : Z.of_nat (length darr) = 8 + c * 6).
  { unfold darr. rewrite !length_app, !be_encode_length. lia. }
  assert (Hc16 : c * 6 + 8 < 2 ^ 16).
  { rewrite Forall_forall in Hfits. destruct (Hfits _ Harray) as (_ & _ & H).
    cbn [snd] in H. lia. }
  change (2 ^ 16) with 65536 in Hc16.
  destruct (read_cbr_items_spec T B D darr items ltac:(lia) HD Hlen items []
              (Datatypes.S (Z.to_nat (Z.of_nat (length seg)))) T
              SegmentItems_init [] eq_refl Hfits Hitems)
    as (T' & it & msgs & Hrun & Hsame & Hbc & Hdur & Hda & Hmsgs).
  { pose proof (local_set_length_ge items). fold seg in H. lia. }
  { split; [unfold same_segments; auto 10|].
    split; [intros []%elem_of_nil|]. split; [intros []%elem_of_nil|].
    split; [intros []%elem_of_nil|constructor]. }
  specialize (Hbc Hcount). specialize (Hdur Hduration).
  destruct (Hda Harray) as (Hdsz & a0 & b0 & Hab & HpD).
  fold seg in Hab, Hrun.
  pose proof Hsame as (E2 & E3 & E4 & E5 & E6 & E7 & E8 & E9).
  (* the header of the delta array *)
  assert (Hcnt : GetU32 seg (Z.of_nat (length a0)) = c).
  { unfold GetU32. rewrite Hab.
    rewrite (read_bytes_middle_prefix a0 darr b0 4) by lia.
    unfold darr.
    pose proof (read_bytes_middle [] (be_encode 4 c) (be_encode 4 6 ++ deltas))
      as Hr.
    rewrite be_encode_length in Hr.
    cbn [app length] in Hr. change (Z.of_nat 0) with 0 in Hr. rewrite Hr.
    apply be_decode_4. change (2 ^ 32) with 4294967296. lia. }
  assert (Hisz : GetU32 seg (Z.of_nat (length a0) + 4) = 6).
  { unfold GetU32. rewrite Hab. unfold darr.
    replace (a0 ++ (be_encode 4 c ++ be_encode 4 6 ++ deltas) ++ b0)
      with ((a0 ++ be_encode 4 c) ++ be_encode 4 6 ++ (deltas ++ b0))
      by (rewrite <- !app_assoc; reflexivity).
    replace (Z.of_nat (length a0) + 4)
      with (Z.of_nat (length (a0 ++ be_encode 4 c)))
      by (rewrite length_app, be_encode_length; lia).
    pose proof (read_bytes_middle (a0 ++ be_encode 4 c) (be_encode 4 6)
                  (deltas ++ b0)) as Hr.
    rewrite (be_encode_length 4 6) in Hr. rewrite Hr. reflexivity. }
  assert (Hbyte : forall q, 0 <= q < c * 6 ->
            byte_at seg (Z.of_nat (length a0) + 8 + q) = byte_at deltas q).
  { intros q Hq. rewrite Hab. unfold darr.
    replace (a0 ++ (be_encode 4 c ++ be_encode 4 6 ++ deltas) ++ b0)
      with ((a0 ++ be_encode 4 c ++ be_encode 4 6) ++ deltas ++ b0)
      by (rewrite <- !app_assoc; reflexivity).
    replace (Z.of_nat (length a0) + 8)
      with (Z.of_nat (length (a0 ++ be_encode 4 c ++ be_encode 4 6)))
      by (rewrite !length_app, !be_encode_length; lia).
    apply byte_at_middle. lia. }
  (* the loop over the delta array *)
  destruct (read_deltas_spec seg 6 (Z.to_nat c)
              (Datatypes.S (Z.to_nat (c * 6))) (Z.of_nat (length a0) + 8) 0
              (replicate (Z.to_nat c) fresh))
    as (a & Hloop & Hal & _ & Hnew & _);
    [lia|lia|change (2 ^ 63) with 9223372036854775808; lia|lia
    |rewrite length_replicate; lia
    |rewrite length_replicate; change (2 ^ 31) with 2147483648; lia|].
  rewrite Z2Nat.id in Hloop by lia.
  rewrite length_replicate in Hal.
  exists T', a, msgs.
  split; [exact Hsame|]. split; [exact Hbc|]. split; [exact Hmsgs|].
  split; [exact Hal|]. split.
  { intros i Hi. specialize (Hnew (Z.to_nat i) ltac:(lia)).
    change (Z.to_nat 0 + Z.to_nat i)%nat with (Z.to_nat i) in Hnew.
    rewrite Hnew, Z2Nat.id by lia. f_equal.
    unfold delta_of_bytes. f_equal.
    - f_equal. apply Hbyte. lia.
    - replace (Z.of_nat (length a0) + 8 + i * 6 + 1)
        with (Z.of_nat (length a0) + 8 + (i * 6 + 1)) by lia.
      apply Hbyte. lia.
    - unfold read_bytes. apply map_ext_in. intros j Hj. apply in_seq in Hj.
      replace (Z.of_nat (length a0) + 8 + i * 6 + 2 + Z.of_nat j)
        with (Z.of_nat (length a0) + 8 + (i * 6 + 2 + Z.of_nat j)) by lia.
      apply Hbyte. lia. }
  unfold IndexTable_AddSegment_bytes.
  change (Z.of_nat (length (local_set []))) with 0 in Hrun. rewrite Hrun.
  rewrite Hbc. destruct (Z.eqb_spec B 0) as [|_]; [lia|].
  cbn [negb]. cbv iota.
  rewrite Hdur, Hdsz, Hdlen, HpD. cbn [default from_option id].
  destruct (Z.geb_spec (8 + c * 6) 8) as [_|]; [|lia].
  rewrite Hcnt, Hisz.
  replace (8 + c * 6 - 8) with (c * 6) by lia.
  rewrite (Int64_small (c * 6))
    by (change (2 ^ 63) with 9223372036854775808; lia).
  unfold check_deltas. change (6 <? 6) with false. cbn [andb]. cbv iota.
  rewrite (UInt32_small (c * 6)) by (change (2 ^ 32) with 4294967296; lia).
  rewrite Z.ltb_irrefl.
  destruct (Z.eqb_spec c 0) as [|_]; [lia|].
  destruct (Z.gtb_spec (c * 6) (c * 6)) as [|_]; [lia|].
  rewrite (Int32_small c) by (change (2 ^ 31) with 2147483648; lia).
  rewrite Hloop. rewrite app_nil_r.
  destruct (Z.gtb_spec D 0);
    cbn [IndexTable_set_CBR IndexSID BodySID EditRate EditUnitByteCount
         IndexDuration PreCharge SegmentMap NSL NPE IndexEntrySize];
    rewrite ?E2, ?E3, ?E6, ?E7, ?E8, ?E9, ?Hbc; reflexivity.
Qed.

End AddSegment_bytes_CBR.

(** X25. Loading a CBR segment from its bytes.  The bytes are a local
    set with 2-byte tags and lengths that holds, in any order, a byte
    count [B] that is not 0, a duration [D], a delta array of [c]
    entries of 6 bytes, and any further items.  Then [AddSegment]
    returns a null pointer and adds no segment; its only messages, if
    any, are failed assertions on the stream IDs; the table has
    EditUnitByteCount [B], the duration [D] when that is positive and
    its old duration otherwise, and a base delta array of [c] entries
    read from the bytes (PosTableIndex signed, Slice, and the four
    bytes of ElementDelta); a look-up of a sub-item in slice 0 is then
    exact, at [E * B] plus the ElementDelta of the sub-item. *)
Theorem IndexTable_AddSegment_bytes_CBR (fresh : DeltaEntry) (T : IndexTable)
    (items : list (Z * list Z)) (B D c : Z) (deltas : list Z) :
  0 < B < 2 ^ 32 -> - 2 ^ 63 <= D < 2 ^ 63 -> 0 < c ->
  Z.of_nat (length deltas) = c * 6 ->
  let darr := be_encode 4 c ++ be_encode 4 6 ++ deltas in
  let seg := local_set items in
  Z.of_nat (length seg) < 2 ^ 63 ->
  Forall item_fits items -> Forall (cbr_item B D darr) items ->
  (0x3f05, be_encode 4 B) ∈ items -> (0x3f0d, be_encode 8 D) ∈ items ->
  (0x3f09, darr) ∈ items ->
  exists T' msgs,
    IndexTable_AddSegment_bytes fresh T seg (Z.of_nat (length seg)) 2
      = Some (T', None, msgs) /\
    Forall (fun m => m = AssertionFailed) msgs /\
    EditUnitByteCount T' = B /\
    IndexDuration T' = (if D >? 0 then D else IndexDuration T) /\
    SegmentMap T' = SegmentMap T /\
    BaseDeltaCount T' = c /\
    (forall i, 0 <= i < c ->
       delta_at (BaseDeltaArray T') i = delta_of_bytes deltas (i * 6)) /\
    (forall E SubItem Reorder, 0 < SubItem < c ->
       byte_at deltas (SubItem * 6 + 1) = 0 ->
       let r := IndexTable_Lookup T' E SubItem Reorder in
       Location r.1 = Int64 (E * B + GetU32 deltas (SubItem * 6 + 2)) /\
       Exact r.1 = true /\ ThisPos r.1 = E /\ r.2 = []).
Proof.
  intros HB HD Hc Hdeltas darr seg Hlen Hfits Hitems Hcount Hduration Harray.
  destruct (IndexTable_AddSegment_bytes_CBR_run fresh T items B D c deltas HB HD
              Hc Hdeltas Hlen Hfits Hitems Hcount Hduration Harray)
    as (T' & a & msgs & Hsame & Hbc & Hmsgs & Hal & Ha & Hrun).
  fold seg in Hrun.
  eexists _, msgs. split; [exact Hrun|]. split; [exact Hmsgs|].
  cbn [EditUnitByteCount IndexDuration SegmentMap BaseDeltaCount BaseDeltaArray].
  split; [reflexivity|]. split; [reflexivity|]. split; [reflexivity|].
  split; [reflexivity|].
  assert (Hat : forall i, 0 <= i < c ->
            delta_at a i = delta_of_bytes deltas (i * 6)).
  { intros i Hi. unfold delta_at.
    destruct (Z.ltb_spec i 0) as [|_]; [lia|].
    rewrite (Ha i Hi). reflexivity. }
  split; [exact Hat|].
  intros E SubItem Reorder Hsub Hslice.
  unfold IndexTable_Lookup, Lookup_body.
  cbn [EditUnitByteCount BaseDeltaCount BaseDeltaArray].
  destruct (Z.eqb_spec B 0) as [|_]; [lia|]. cbn [negb]. cbv iota.
  destruct (Z.eqb_spec SubItem 0) as [|_]; [lia|].
  destruct (Z.geb_spec SubItem c) as [|_]; [lia|].
  rewrite (Hat SubItem) by lia.
  cbn [delta_of_bytes Slice ElementDelta]. rewrite Hslice.
  change (negb (0 =? 0)) with false. cbv iota. cbn [fst snd Location Exact ThisPos].
  rewrite Int64_add_idemp.
  split; [reflexivity|auto].
Qed.

(** The example CBR segment is loaded into the example table: the
    second element of edit unit 3 is then found at 3 * 1000 + 256. *)
Lemma IndexTable_AddSegment_bytes_CBR_witness :
  exists T' msgs,
    IndexTable_AddSegment_bytes (mkDeltaEntry 0 0 [])
      example_table (local_set example_cbr_items)
      (Z.of_nat (length (local_set example_cbr_items))) 2
      = Some (T', None, msgs) /\
    EditUnitByteCount T' = 1000 /\ IndexDuration T' = 50 /\
    Location (IndexTable_Lookup T' 3 1 true).1 = 3256.
Proof.
  destruct (IndexTable_AddSegment_bytes_CBR (mkDeltaEntry 0 0 [])
              example_table example_cbr_items 1000 50 2 example_loaded_deltas
              ltac:(lia) ltac:(lia) ltac:(lia) eq_refl)
    as (T' & msgs & Hrun & _ & HB & HD & _ & _ & _ & Hlook).
  - vm_compute. reflexivity.
  - repeat constructor; vm_compute; congruence.
  - repeat (apply Forall_cons; split;
            [first [left; reflexivity|right; left; reflexivity
                   |right; right; left; reflexivity
                   |right; right; right; reflexivity]|]).
    apply Forall_nil. exact I.
  - apply elem_of_cons. right. apply elem_of_cons. left. reflexivity.
  - do 2 (apply elem_of_cons; right). apply elem_of_cons. left. reflexivity.
  - do 3 (apply elem_of_cons; right). apply elem_of_cons. left. reflexivity.
  - exists T', msgs. split; [exact Hrun|]. split; [exact HB|].
    split; [exact HD|].
    destruct (Hlook 3 1 true ltac:(lia) eq_refl) as (HL & _).
    exact HL.
Defined.

Section SetOffset_runs.

Import IndexManager.

Variable Log : Position -> LogState -> LogState.
Variable IndexTable_new : IndexTable.
Variable DefineDeltaArray : Z -> list Z -> IndexTable -> IndexTable.

Lemma new_plain_manager (P : Z) : 0 <= P -> plain_manager (new P 0).
Proof.
  intros HP. unfold plain_manager, new.
  cbn [DataIsCBR UsesReordering ProvisionalEntry MasterStream
       ManagedDataEntrySize StreamCount].
  split; [reflexivity|]. split; [apply Z.ltb_ge; exact HP|].
  split; [reflexivity|]. split; [reflexivity|]. split; [lia|reflexivity].
Qed.

(** One call of [SetOffset] for an edit unit the manager does not hold
    yet. *)
Lemma SetOffset_new_entry (m : State) (c : OffsetCall) :
  plain_manager m -> ManagedData m !! CallEditUnit c = None ->
  let m' := call Log IndexTable_new DefineDeltaArray m (SetOffset_call c) in
  plain_manager m' /\
  exists e, holds_call e c /\
    ManagedData m' = <[CallEditUnit c := e]> (ManagedData m).
Proof.
  intros (Hvbr & Hre & Hprov & Hmaster & Hsize & Hstreams) Hnone m'. subst m'.
  destruct c as [E O K F]. unfold SetOffset_call, call, SetOffset.
  cbn [CallEditUnit CallOffset CallKeyOffset CallFlags] in *.
  rewrite Hvbr. destruct m. unfold acquire, plain_manager, holds_call.
  state_simpl. subst. state_simpl. rewrite Hnone.
  unfold sizeof_IndexData in *.
  assert (Hlen : (0 < length (new_entry
            {| FormatFixed := true; UsesReordering := false;
               DataIsCBR := false; StreamListSize := StreamListSize0;
               PosTableList := PosTableList0;
               ElementSizeList := ElementSizeList0;
               StreamCount := 1;
               ManagedDataEntrySize := ManagedDataEntrySize0;
               MasterStream := 0; Values := Values0;
               LastNewEditUnit := LastNewEditUnit0;
               ProvisionalEntry := None;
               ProvisionalEditUnit := ProvisionalEditUnit0;
               LogSt := LogSt0;
               ValueRelativeIndexing := ValueRelativeIndexing0;
               SubRangeOffset := SubRangeOffset0;
               ManagedData := ManagedData0;
               UnsatisfiedTemporalOffsets := UnsatisfiedTemporalOffsets0;
               UnsatisfiedTemporalDiffs := UnsatisfiedTemporalDiffs0 |}).(StreamOffset))%nat).
  { unfold new_entry, sizeof_IndexData. cbn [StreamOffset ManagedDataEntrySize].
    rewrite length_replicate.
    pose proof (Z.div_pos (ManagedDataEntrySize0 - 32) 8 ltac:(lia) ltac:(lia)).
    lia. }
  set (e0 := new_entry _) in *.
  destruct (UnsatisfiedTemporalOffsets0 !! E) as [to|]; state_simpl;
    destruct (UnsatisfiedTemporalDiffs0 !! E) as [td|]; state_simpl;
    rewrite ?Hnone; state_simpl; unfold store; state_simpl.
  all: cbn [CallEditUnit CallOffset CallKeyOffset CallFlags].
  all: (split; [auto 10|]).
  all: unfold master_values, map_insert_new; state_simpl; rewrite Hnone;
    change (0 =? 0) with true; cbv iota.
  all: eexists; split; [|rewrite insert_insert_eq; reflexivity].
  all: destruct (K =? 0) eqn:HK; destruct (F =? -1) eqn:HF;
    cbn [negb Status StreamOffset KeyOffset Flags set_entry_KeyOffset
         set_entry_Flags set_entry_StreamOffset or_entry_Status
         set_entry_TemporalOffset set_entry_TemporalDiff];
    change (0 <? 0) with false; cbv iota;
    rewrite ?list_lookup_insert_eq by exact Hlen.
  all: try apply Z.eqb_eq in HK; subst.
  all: split; [reflexivity|]; split; [reflexivity|]; split; reflexivity.
Qed.

(** A run of such calls on edit units that are all new. *)
Lemma SetOffset_run_entries (calls : list OffsetCall) (m : State) :
  plain_manager m ->
  NoDup (CallEditUnit <$> calls) ->
  (forall c, c ∈ calls -> ManagedData m !! CallEditUnit c = None) ->
  let m' := run Log IndexTable_new DefineDeltaArray m (SetOffset_call <$> calls) in
  plain_manager m' /\
  size (ManagedData m') = (size (ManagedData m) + length calls)%nat /\
  (forall E e, ManagedData m !! E = Some e -> ManagedData m' !! E = Some e) /\
  (forall c, c ∈ calls ->
     exists e, ManagedData m' !! CallEditUnit c = Some e /\ holds_call e c) /\
  (forall E e, ManagedData m' !! E = Some e ->
     ManagedData m !! E = Some e \/ exists c, c ∈ calls /\ CallEditUnit c = E).
Proof.
  revert m. induction calls as [|c calls IH]; intros m Hm Hnd Hnew m'.
  - subst m'. cbn. split; [exact Hm|]. split; [lia|]. split; [auto|].
    split; [intros c []%elem_of_nil|auto].
  - rewrite fmap_cons in Hnd. apply NoDup_cons in Hnd as [Hc Hnd].
    subst m'. unfold run. rewrite fmap_cons. cbn [fold_left].
    destruct (SetOffset_new_entry m c Hm) as (Hm1 & e & He & HM1).
    { apply Hnew. apply elem_of_cons. auto. }
    set (m1 := call Log IndexTable_new DefineDeltaArray m (SetOffset_call c)) in *.
    destruct (IH m1 Hm1 Hnd) as (Hm2 & Hsz & Hold & Hcalls & Hinv).
    { intros c' Hc'. rewrite HM1. rewrite lookup_insert_ne.
      - apply Hnew. apply elem_of_cons. auto.
      - intros Heq. apply Hc. rewrite Heq. apply list_elem_of_fmap.
        exists c'. auto. }
    unfold run in *.
    set (m2 := fold_left _ _ m1) in *.
    split; [exact Hm2|]. split; [|split; [|split]].
    + rewrite Hsz, HM1. rewrite map_size_insert_None.
      * cbn [length]. lia.
      * apply Hnew. apply elem_of_cons. auto.
    + intros E e' HE. apply Hold. rewrite HM1. rewrite lookup_insert_ne; [exact HE|].
      intros <-. rewrite Hnew in HE; [discriminate|]. apply elem_of_cons. auto.
    + intros c' [->|Hc']%elem_of_cons.
      * exists e. split; [|exact He]. apply Hold. rewrite HM1.
        apply lookup_insert_eq.
      * apply Hcalls, Hc'.
    + intros E e' HE. destruct (Hinv E e' HE) as [H1|(c' & Hc' & <-)].
      * rewrite HM1 in H1. destruct (decide (CallEditUnit c = E)) as [<-|Hne].
        -- right. exists c. split; [apply elem_of_cons; auto|reflexivity].
        -- rewrite lookup_insert_ne in H1 by exact Hne. auto.
      * right. exists c'. split; [apply elem_of_cons; auto|reflexivity].
Qed.

End SetOffset_runs.

Lemma List_filter_all {A : Type} (f : A -> bool) (l : list A) :
  (forall x, x ∈ l -> f x = true) -> List.filter f l = l.
Proof.
  induction l as [|a l IH]; intros Hf; [reflexivity|]. cbn [List.filter].
  rewrite (Hf a) by (apply elem_of_cons; auto).
  f_equal. apply IH. intros x Hx. apply Hf. apply elem_of_cons. auto.
Qed.

(** X26. What is given to [SetOffset] comes out of [Lookup].  A manager
    built for one VBR stream without re-ordering is given the stream
    offset, key offset and flags of edit units that are all different
    and lie in the range asked for; [AddEntriesToIndex] then adds one
    index entry per call to a VBR table whose segments end at or before
    the first edit unit, without a message, and [Lookup] of each edit
    unit finds an exact entry with the offset as location, the key
    offset as 8 bits signed and the flags as 8 bits unsigned, flags of
    -1 having left the flags at 0. *)
Theorem SetOffset_AddEntriesToIndex_Lookup
    (Log : Position -> IndexManager.LogState -> IndexManager.LogState)
    (IndexTable_new : IndexTable)
    (DefineDeltaArray : Z -> list Z -> IndexTable -> IndexTable)
    (fresh : nat -> list Z) (fresh_slices : list Z)
    (PosTableIndex : Z) (calls : list OffsetCall) (Index : IndexTable)
    (FirstEditUnit LastEditUnit : Position) :
  0 <= PosTableIndex ->
  NoDup (CallEditUnit <$> calls) ->
  (forall c, c ∈ calls ->
     FirstEditUnit <= CallEditUnit c <= LastEditUnit /\
     - 2 ^ 63 < CallEditUnit c /\ CallEditUnit c + 1 < 2 ^ 63) ->
  Z.of_nat (length calls) < 2 ^ 31 ->
  wf_VBR_IndexTable Index ->
  (forall k s, (k, s) ∈ SegmentMap Index -> k + EntryCount s <= FirstEditUnit) ->
  let m := IndexManager.run Log IndexTable_new DefineDeltaArray
             (IndexManager.new PosTableIndex 0) (SetOffset_call <$> calls) in
  let r := IndexManager_AddEntriesToIndex fresh fresh_slices m false Index
             FirstEditUnit LastEditUnit in
  r.2 = [] /\ r.1.2 = Z.of_nat (length calls) /\
  forall c, c ∈ calls ->
    ThisPos (IndexTable_Lookup r.1.1 (CallEditUnit c) 0 false).1
      = CallEditUnit c /\
    entry_of r.1.1 (CallEditUnit c)
      = (Int64 (UInt64 (CallOffset c)), Int8 (CallKeyOffset c),
         UInt8 (if CallFlags c =? -1 then 0 else CallFlags c)).
Proof.
  intros HP Hnd Hrange Hlen HT Hends m r.
  destruct (SetOffset_run_entries Log IndexTable_new DefineDeltaArray calls
              (IndexManager.new PosTableIndex 0) (new_plain_manager _ HP) Hnd)
    as (Hplain & Hsz & _ & Hcalls & Hinv).
  { intros c _. apply lookup_empty. }
  fold m in Hplain, Hsz, Hcalls, Hinv.
  destruct Hplain as (Hvbr & Hre & _ & _ & _ & Hstreams).
  assert (Hfrom : forall E e, IndexManager.ManagedData m !! E = Some e ->
            exists c, c ∈ calls /\ CallEditUnit c = E).
  { intros E e HE. destruct (Hinv E e HE) as [Hempty|Hc]; [|exact Hc].
    cbn [IndexManager.new IndexManager.ManagedData] in Hempty.
    rewrite lookup_empty in Hempty. discriminate. }
  assert (Hstatus : forall E e, IndexManager.ManagedData m !! E = Some e ->
            IndexManager.Status e = 1).
  { intros E e HE. destruct (Hfrom E e HE) as (c & Hc & <-).
    destruct (Hcalls c Hc) as (e' & He' & Hst & _).
    rewrite HE in He'. injection He' as <-. exact Hst. }
  cbn [IndexManager.new IndexManager.ManagedData] in Hsz.
  rewrite map_size_empty in Hsz. cbn [Nat.add] in Hsz.
  pose proof (AddEntriesToIndex_outcome fresh fresh_slices m Index
                FirstEditUnit LastEditUnit Hvbr HT Hends) as Hout.
  cbv zeta in Hout. rewrite Hre in Hout. fold r in Hout.
  destruct Hout as (Hmsg & _ & Hcount & Hnew & _).
  { intros E e HE. destruct (Hfrom E e HE) as (c & Hc & <-).
    destruct (Hrange c Hc) as (_ & Hlo & Hhi). split; assumption. }
  { rewrite Hsz. exact Hlen. }
  { rewrite Hstreams. change (Z.to_nat (1 - 1)) with 0%nat.
    cbn [slice_stores]. destruct HT as (_ & _ & _ & HNSL & _). lia. }
  split; [exact Hmsg|]. split.
  - rewrite Hcount. rewrite List_filter_all.
    + rewrite ManagedData_entries_length, Hsz. reflexivity.
    + intros [E e] HE%elem_of_ManagedData_entries.
      unfold entry_complete. cbn [fst snd].
      rewrite (Hstatus E e HE).
      destruct (Hfrom E e HE) as (c & Hc & <-).
      destruct (Hrange c Hc) as ((Hlo & Hhi) & _).
      apply andb_true_intro. split; [apply Z.leb_le; exact Hlo|].
      apply andb_true_intro. split; [apply Z.leb_le; exact Hhi|reflexivity].
  - intros c Hc. destruct (Hcalls c Hc) as (e & He & Hst & Hoff & Hkey & Hfl).
    destruct (Hnew (CallEditUnit c) e) as (Hpos & Hval).
    + split; [exact He|]. split; [apply (Hrange c Hc)|].
      rewrite Hst. reflexivity.
    + split; [exact Hpos|]. rewrite Hval, Hoff, Hkey, Hfl. reflexivity.
Qed.

Lemma SetOffset_AddEntriesToIndex_Lookup_witness :
  let m := IndexManager.run example_Log example_empty_table (fun _ _ T => T)
             (IndexManager.new 0 0) (SetOffset_call <$> example_offset_calls) in
  let r := IndexManager_AddEntriesToIndex (fun _ => []) [] m false
             example_empty_table 0 10 in
  r.1.2 = 3 /\ entry_of r.1.1 1 = (1000, -1, 0) /\
  entry_of r.1.1 2 = (1500, -2, 0) /\ entry_of r.1.1 0 = (0, 0, 128).
Proof.
  intros m r.
  destruct (SetOffset_AddEntriesToIndex_Lookup example_Log example_empty_table
              (fun _ _ T => T) (fun _ => []) [] 0 example_offset_calls
              example_empty_table 0 10) as (_ & Hret & Hnew).
  - lia.
  - apply (bool_decide_unpack _). vm_compute. exact I.
  - intros c Hc. unfold example_offset_calls in Hc.
    repeat (apply elem_of_cons in Hc as [->|Hc]);
      [cbn; lia|cbn; lia|cbn; lia|apply elem_of_nil in Hc as []].
  - cbn. lia.
  - unfold wf_VBR_IndexTable, wf_IndexTable, example_empty_table.
    cbn [SegmentMap IndexEntrySize EditUnitByteCount NPE NSL].
    split; [|split; [reflexivity|split; [reflexivity|split; [lia|split; [lia|]]]]].
    + split; [lia|]. split; [constructor|].
      split; [intros k s []%elem_of_nil|intros k1 s1 k2 s2 []%elem_of_nil].
    + intros k s []%elem_of_nil.
  - intros k s []%elem_of_nil.
  - fold m in Hret, Hnew. fold r in Hret, Hnew.
    split; [exact Hret|].
    split; [|split].
    + apply (Hnew (mkOffsetCall 1 1000 (-1) (-1))).
      apply elem_of_cons. right. apply elem_of_cons. auto.
    + apply (Hnew (mkOffsetCall 2 1500 (-2) 0)).
      apply elem_of_cons. right. apply elem_of_cons. right.
      apply elem_of_cons. auto.
    + apply (Hnew (mkOffsetCall 0 0 0 128)). apply elem_of_cons. auto.
Defined.
